(* ===== verification/_CoqProject ===== *)
-Q . S2P
Prelude.v
Digits.v
PyStr.v
PyValue.v
PyDecimal.v
PyDate.v
Json.v
JsonAscii.v
CanonicalJson.v
B64u.v
DidKey.v
Money.v
Sha256.v
Identity.v
SpineEvent.v
SpineLog.v
SpineLogSpec.v
Projection.v
Governance.v
GovernanceSpec.v
Store.v
PyOps.v
CapToken.v
CapTokenSpec.v
Authz.v
AuthzSpec.v
Dispute.v
DisputeSpec.v
Settlement.v
Trade.v
TradeSpec.v
Mandate.v
MandateSpec.v
AmountSpec.v
Listing.v
Order.v
OrderSpec.v
OrderTrade.v
OrderTradeSpec.v
OrderView.v
OrderViewSpec.v
SettleTrade.v
DocFile.v
PaymentEvent.v
PaymentSpec.v
PaymentAnchor.v
PaymentStore.v
JournalSpec.v
PaymentStoreSpec.v
PaymentExec.v
PaymentExecSpec.v
Url.v
Envelope.v
EnvelopeSpec.v
Outbox.v
OutboxSpec.v
Reconcile.v
ReconcileSpec.v
Provisional.v
ProvisionalSpec.v
