(* ===== verification/Prelude.v ===== *)
(** * A verification development for the nth_dao trust and commerce core

    nth_dao lets software agents identify themselves, sign what they do, trade
    and pay without a trusted server.  Everything rests on a small core: values
    are encoded as canonical JSON, hashed and signed with Ed25519 keys named by
    did:key identifiers, and every stateful layer is an append-only list of
    signed events that anybody can audit offline.  This library models that core
    and the commerce layer on top of it, from the bytes up to the payment store,
    and proves what each layer promises to the next.

    ** How the files correspond to the program

    (paths under [src/nth_dao/]; a definition has the name of the function,
    method or class it translates, without leading underscores)

    The language.
    - [Prelude]: exceptions ([exn]), the result monad [res] ([let*]) and
      generic lemmas and tactics.  A Python function that may raise returns
      [res A]; an [except] clause is a test on [exn].
    - [Digits], [PyStr], [PyValue], [PyDecimal], [PyDate], [PyOps], [Json],
      [Sha256], [Store]: the parts of the standard library the code computes
      with: [int]/[str] conversion, [str] and [bytes], dynamically typed values
      and insertion-ordered dictionaries, [decimal.Decimal], ISO timestamps and
      [datetime], operations on values of unknown type, [json.dumps] and
      [json.loads], [hashlib.sha256], files and [safe_id] ([util/io.py]).

    The core.
    - [CanonicalJson] ([canonical_json.py]), [B64u] ([b64u.py]), [DidKey]
      ([did_key.py]), [Identity] ([identity.py]), [SpineEvent]
      ([spine/event.py]), [Money] ([commerce/money.py]).

    The event log and the views over it.
    - [JsonAscii]: the ASCII form of [json.dumps] in which the log writes its
      lines, and [json.loads] on bytes.
    - [SpineLog] ([spine/log.py]): the log and its append intent as bytes,
      recovery, appending one event or an idempotent batch, queries; every
      operation takes the I/O failures that strike it ([recovery_fault] for the
      reads, the recovery and its writes, [append_fault] for the durable writes,
      the read-back of the appended bytes and the release of the process lock).
      [SpineLogSpec] its contract.
    - [Projection] ([spine/projection.py]): the fold of events into a view, as a
      class, and the shape that signed statements share.
    - [Governance] ([governance/]), [CapToken] ([cap_token.py]), [Authz]
      ([authz/]), [Dispute] ([dispute/]): signed statements, how they are
      recorded in a log, and the projection that replays them; [GovernanceSpec],
      [CapTokenSpec], [AuthzSpec] and [DisputeSpec] state what each promises.

    Trading and settlement.
    - [Settlement] ([commerce/settlement.py]): payment intents, the rail
      protocol, the two adapters and the independent [verify_settlement].
    - [Trade] ([commerce/trade.py]): signed trade events, the offline verifier
      [verify_trade], the store and its operations; [TradeSpec] states what they
      promise against an abstract machine.
    - [SettleTrade]: [settle_trade], the operation that crosses a trade store
      and a rail.

    Buying.
    - [Mandate] ([mandate/]): the intent of a buyer's principal, the cart of a
      seller and the payment that accepts it, and [complete_triad_chain], the
      gate before money moves; [MandateSpec] says when it opens.  [AmountSpec]
      relates the two ways an amount is read.
    - [Listing] ([commerce/listing.py]), [Order] ([commerce/order.py],
      [commerce/checkout.py]): signed listings, and orders that carry the
      evidence that authorises them; [OrderSpec] their contract.
    - [OrderTrade] ([commerce/order_trade.py]): the trade of an order;
      [OrderTradeSpec] its contract.  [OrderView] ([commerce/projection.py]):
      what the parties see; [OrderViewSpec] that it is true.

    Payment attempts ([commerce/payment_attempt.py],
    [commerce/payment_witness.py]).
    - [PaymentEvent]: the hash-chained attempt events, the verifier
      [verify_payment_attempt] and the projection; [PaymentSpec] their contract.
    - [PaymentAnchor]: the two-phase journal of signed heads, at the level of
      bytes, and the external witness; [JournalSpec] proves both are faithful
      logs ([WitnessLaws]).
    - [PaymentStore]: [PaymentAttemptStore] with its crash points;
      [PaymentStoreSpec] its contract.
    - [PaymentExec]: the executor that claims, settles and records, with bounded
      retries, and the lookup-only reconciler; [PaymentExecSpec] their contract.

    Delivery.
    - [DocFile] ([util/io.py]): JSON documents with the size they have on disk.
    - [Url]: [urlsplit] and the target URLs of [commerce/outbox.py].
    - [Envelope] ([commerce/outbox.py]): signed envelopes and receipts, and the
      inbox of receipts; [EnvelopeSpec] their contract.
    - [Outbox] ([commerce/outbox.py]): delivery records with leases, retries,
      retargeting and the archive; [OutboxSpec] refines it to a delivery machine.
    - [Reconcile] ([commerce/reconciliation.py]): the worker that claims, sends
      and settles; [ReconcileSpec] its contract.
    - [Provisional] ([commerce/provisional.py]): importing a federated order with
      its trade, and the reconciler of interrupted imports, for a process that
      can stop before any write; [ProvisionalSpec] their contract.

    The components interact through values only: [settle_trade] calls the trade
    store and a [SettlementAdapter]; the adapter calls a [PaymentRail]; the
    payment store calls a head witness; a projection reads the events of a log;
    an order is verified through its listing and mandates, a trade is bound to
    an order, and a view is built from both.
    These are interfaces: a record of operations over a state type
    ([PaymentRail] and [SettlementAdapter]) or a class ([Ed25519Laws] for
    signatures, [WitnessLaws] for witnesses, [Projection] for views), and the
    clients are proved against the interface.

    ** What the theorems show

    - Refinement: a chain [verify_trade] (resp. [verify_payment_attempt])
      accepts is a run of the abstract machine of [TradeSpec] (resp.
      [PaymentSpec]), signed by the parties the machine allows; the store
      operations only reach chains the verifier accepts.
    - Safety of money: an obligation is paid at most once on a rail; nothing is
      paid before the signed terms, the intent and the payer agree; accepted
      settlements meet the signed terms; a resolution pays out exactly the
      agreed amount; terminal states and payment outcomes are final.
    - Concurrency and crashes: a claim excludes other workers while its lease
      runs; an append cut at any point between two writes leaves a store that
      still loads, with the old or the new history.  An append to the event log
      that I/O errors strike leaves the old history, or the old history and
      the event, and an unknown outcome names the event in doubt; recovery
      reaches one of the two whatever fails in between; retrying an idempotent
      append writes nothing new.  A payment worker leaves the store with the
      claim and the outcome it reports, and with nothing else.
    - Purchases: three mandates are accepted exactly when they authorise the
      payment, and those that honest parties build are; a verified order charges
      the amount its seller signed, within the limit its buyer signed; a payment
      buys at most once; a settlement in a trade bound to an order pays that
      amount from its buyer to its seller; a view shows each trade at the state
      its stored events lead to, in the role its reader has in the order.
    - Authority: the policy in force was signed by the founder or by somebody
      the policy before it allows to amend; a request is granted only by a
      token for its requester; a dispute holds statements signed for its
      announcement; decisions are final, those of the inbox as long as the
      clock of the replay leaves the tokens they rest on valid.  A capability token is accepted exactly
      when its window, scope, revocation state and signature allow it.
    - Tamper evidence: two different histories with the same head hash, or two
      different cores with the same content hash, exhibit a SHA-256 collision.
    - Round trips, injectivity and bounds of the encoders: canonical JSON,
      base64url, did:key, decimal amounts, key files.
    - Errors: each modelled function returns the exception the code raises, and
      the closed theorems on concrete inputs record where that differs from
      what the code or its comments intend.
    - Delivery: whatever workers do, the document of an envelope moves only along
      the steps of the delivery machine; what was queued is never lost, a lease
      excludes other workers, and an expired one can be claimed; a cycle of the
      reconciler always ends and strands no lease, whatever the dispatcher does;
      an envelope is acknowledged once.  A federated order is never visible before
      its trade, wherever imports stop; an interrupted import that is repeated
      with the same time resumes (with the default time, another clock refuses
      it), or its reconciler settles it; the reconciler loses nothing.
    ** Fuel, bounds and integers

    Python integers are unbounded and are [Z] here; the code's own limits (sizes,
    counts, [2^53 - 1] amounts and timestamps) are the guards it writes.
    Recursion on JSON text and proofs takes fuel computed from the size of the
    input ([Json.loads], [Settlement.proof_fuel]), and the round-trip
    and [verify_settlement_exact] theorems hold for all inputs, so the fuel is
    enough.  SHA-256 is on 32-bit words with the wrap-around written out.
    [str] values are their UTF-8 bytes; see [PyStr].

    ** Parameters and hypotheses

    Ed25519 comes from PyNaCl: it is the class [Ed25519] with the documented
    laws of [Ed25519Laws] (a signature made by a key verifies under its public
    key, sizes); unforgeability is never assumed.  No collision resistance is
    assumed of SHA-256.  A payment rail is any record that satisfies what its
    docstring promises; the concrete fake rail does.  The clock is an argument.
    What Python takes from the Unicode database ([UnicodeDB], [UnicodeDigits])
    and the exact set of ISO texts that [datetime.fromisoformat] accepts
    ([IsoDates]) are classes as well; [iso_grammar] is an instance of the
    latter.
    The rules of [urlsplit] on brackets and Unicode in a host ([NetlocRules]) and
    the text of a float ([FloatText]) are classes too.  The dispatcher and the
    maintenance callback of the reconciler are arguments, assumed only to act on
    the outbox through its operations.  Options that the code checks to be
    [bool] or [int] before anything else (limits, leases, clock overrides) have
    those types.
    [toy_ed25519] is only used to evaluate witnesses.

    ** Not modelled

    Locks and files are modelled through their effect (an operation on a record
    is atomic except where [PaymentStore.persist_crash] and the faults of
    [SpineLog] cut it); access rights, directories and the other I/O errors of
    the operating system are not.  The caches the log keeps of verified events
    are recomputed.  The thread that repeats the reconciler's cycle is not
    modelled; the cycle is.  Interpreter limits ([RecursionError], [MemoryError]) are
    not raised.  The market, trade-rule, web, plugin, orchestration, discovery
    and social subsystems are outside the development: they are transport,
    presentation or policy layers over the signed records verified here. *)

From Stdlib Require Import ZArith Lia.
From stdpp Require Import base list strings.

(** ** Exceptions

    Every Python exception the modelled code raises or catches is a value of
    [exn].  The class hierarchy matters only through the [except] clauses, so
    it is a set of boolean tests. *)

Inductive exn :=
| TypeError
| ValueError
| UnicodeEncodeError               (** a subclass of [ValueError] *)
| AttributeError
| KeyError
| IndexError
| OverflowError                    (** a subclass of [ArithmeticError] *)
| AssertionError
| RuntimeError
| OSError
| ConnectionError                  (** a subclass of [OSError] *)
| TimeoutError                     (** a subclass of [OSError] *)
| DIDKeyError                      (** a direct subclass of [Exception] *)
| InvalidOperation                 (** [decimal]'s, a subclass of [ArithmeticError] *)
| MoneyRejected                    (** a subclass of [ValueError] *)
| ListingRejected                  (** a subclass of [ValueError] *)
| OrderRejected                    (** a subclass of [ValueError] *)
| OrderConflict                    (** a subclass of [RuntimeError] *)
| CheckoutRejected                 (** a subclass of [ValueError] *)
| OrderTradeRejected               (** a subclass of [ValueError] *)
| CommerceProjectionRejected       (** a subclass of [ValueError] *)
| CommerceEnvelopeRejected         (** a subclass of [ValueError] *)
| ProvisionalImportRejected        (** a subclass of [RuntimeError] *)
| TradeRejected (reason : string)  (** a direct subclass of [Exception] *)
| TradeConflict                    (** a direct subclass of [Exception] *)
| ProofLimitExceeded               (** a subclass of [ValueError] *)
| SettlementFailed (reason : string) (payment_may_have_committed : bool)
    (provider_reference evidence_digest : string)
| PaymentAttemptRejected (detail : string)  (** a subclass of [ValueError] *)
| PaymentAttemptConflict (detail : string)  (** a subclass of [RuntimeError] *)
| PaymentWitnessRejected (detail : string)  (** a subclass of [RuntimeError] *)
| SpineSemanticConflict            (** a subclass of [ValueError] *)
| SpineAppendOutcomeUnknown (event_id : string) (event_ids : list string)
    (** a subclass of [OSError] *)
| ReturnFalse (reason : string).
    (** not an exception: the early [return False, reason] of a verifier's body,
        delivered by [run_body] at the function's boundary *)

Global Instance exn_eq_dec : EqDecision exn.
Proof. solve_decision. Defined.

(** [isinstance(e, ValueError)] *)
Definition is_ValueError (e : exn) : bool :=
  match e with
  | ValueError | UnicodeEncodeError | MoneyRejected | ProofLimitExceeded
  | PaymentAttemptRejected _ | SpineSemanticConflict | ListingRejected | OrderRejected
  | CheckoutRejected | OrderTradeRejected | CommerceProjectionRejected | CommerceEnvelopeRejected => true
  | _ => false
  end.

(** [except (TypeError, ValueError, ...)]: the clause most verifiers use.
    [RecursionError], which some clauses add, is an interpreter limit that the
    model does not raise, and [OverflowError], which others add, is raised only
    by [int] of an infinite float. *)
Definition is_TypeOrValueError (e : exn) : bool :=
  match e with TypeError => true | _ => is_ValueError e end.

(** [except OSError] *)
Definition is_OSError (e : exn) : bool :=
  match e with
  | OSError | ConnectionError | TimeoutError | SpineAppendOutcomeUnknown _ _ => true
  | _ => false
  end.

(** [except (OSError, RuntimeError)] *)
Definition is_OSOrRuntimeError (e : exn) : bool :=
  match e with
  | OSError | ConnectionError | TimeoutError | SpineAppendOutcomeUnknown _ _
  | RuntimeError | OrderConflict | PaymentAttemptConflict _ | PaymentWitnessRejected _
  | ProvisionalImportRejected => true
  | _ => false
  end.

(** ** The error monad *)

Inductive res (A : Type) :=
| Ok (a : A)
| Err (e : exn).
Arguments Ok {A} a.
Arguments Err {A} e.

Global Instance res_eq_dec `{EqDecision A} : EqDecision (res A).
Proof. solve_decision. Defined.

Definition res_bind {A B} (m : res A) (k : A -> res B) : res B :=
  match m with Ok a => k a | Err e => Err e end.

Definition res_map {A B} (f : A -> B) (m : res A) : res B :=
  match m with Ok a => Ok (f a) | Err e => Err e end.

(** [try: m  except E: h], where [p] recognises the classes of the clause. *)
Definition try_except {A} (m : res A) (p : exn -> bool) (h : exn -> res A) : res A :=
  match m with
  | Ok a => Ok a
  | Err e => if p e then h e else Err e
  end.

Declare Scope py_scope.
Delimit Scope py_scope with py.

Notation "'let*' x ':=' m 'in' k" := (res_bind m (fun x => k))
  (at level 10, x pattern, m at level 100, k at level 200)
  : py_scope.

(** An early return: [if not c: return r], then the rest of the body. *)
Notation "'require' c 'else' r ';;' k" := (if c then k else r)
  (at level 10, c at level 100, r at level 100, k at level 200, only parsing)
  : py_scope.

Global Open Scope py_scope.

Fixpoint res_mapM {A B} (f : A -> res B) (l : list A) : res (list B) :=
  match l with
  | [] => Ok []
  | x :: l' => let* y := f x in let* ys := res_mapM f l' in Ok (y :: ys)
  end.

(** The [(ok, reason)] pairs the verifiers return. *)
Abbreviation verdict := (bool * string)%type.

(** [return False, reason] inside a verifier's body *)
Definition reject {A} (reason : string) : res A := Err (ReturnFalse reason).

(** The body of a verifier as a function of its own. *)
Definition run_body (m : res verdict) : res verdict :=
  match m with Err (ReturnFalse reason) => Ok (false, reason) | _ => m end.

(** [if not c: return False, reason] *)
Definition check (c : bool) (reason : string) : res unit :=
  if c then Ok tt else reject reason.

(** ** Tactics *)

Lemma check_Ok c reason u : check c reason = Ok u -> c = true.
Proof. by destruct c. Qed.

Lemma run_body_true m s :
  run_body m = Ok (true, s) -> m = Ok (true, s).
Proof. destruct m as [|[]]; naive_solver. Qed.

Lemma Ok_inj {A} (a b : A) : Ok a = Ok b -> a = b.
Proof. congruence. Qed.

Lemma res_bind_Ok {A B} (m : res A) (k : A -> res B) b :
  res_bind m k = Ok b <-> exists a, m = Ok a /\ k a = Ok b.
Proof. destruct m; simpl; split; [eauto| |done|]; intros (? & ? & ?); congruence. Qed.

Lemma res_bind_Err {A B} (m : res A) (k : A -> res B) e :
  res_bind m k = Err e <-> m = Err e \/ exists a, m = Ok a /\ k a = Err e.
Proof.
  destruct m; simpl; split; intros; eauto;
    repeat match goal with
    | H : _ \/ _ |- _ => destruct H | H : exists _, _ |- _ => destruct H as (? & ? & ?)
    end; try congruence.
  left; congruence.
Qed.

Lemma try_except_Ok {A} (m : res A) p h a :
  try_except m p h = Ok a <->
  m = Ok a \/ exists e, m = Err e /\ p e = true /\ h e = Ok a.
Proof.
  destruct m as [|e]; simpl.
  - split; [auto|]. by intros [?|(? & ? & _)].
  - destruct (p e) eqn:E; split; try done.
    + intros. right. eauto.
    + intros [?|(? & [= <-] & _ & ?)]; done.
    + intros [?|(? & [= <-] & ? & _)]; congruence.
Qed.

(** [inv_guards H] walks down a chain of [require]s in [H : body = good],
    discarding every branch that returns something else. *)
Ltac inv_guards H :=
  repeat match type of H with
  | (if ?c then _ else _) = _ =>
      let E := fresh "G" in destruct c eqn:E; try discriminate H
  | res_bind ?m _ = Ok _ =>
      let E := fresh "G" in
      destruct m eqn:E; cbn [res_bind] in H; try discriminate H
  | match ?c with _ => _ end = _ =>
      let E := fresh "G" in destruct c eqn:E; try discriminate H
  end.

(** Turn boolean tests of the code into propositions. *)
Ltac bool_to_prop :=
  repeat match goal with
  | H : negb _ = true |- _ => apply negb_true_iff in H
  | H : negb _ = false |- _ => apply negb_false_iff in H
  | H : _ && _ = true |- _ => apply andb_true_iff in H as [? ?]
  | H : _ || _ = false |- _ => apply orb_false_iff in H as [? ?]
  | H : Z.eqb _ _ = true |- _ => apply Z.eqb_eq in H
  | H : Z.eqb _ _ = false |- _ => apply Z.eqb_neq in H
  | H : Z.leb _ _ = true |- _ => apply Z.leb_le in H
  | H : Z.leb _ _ = false |- _ => apply Z.leb_gt in H
  | H : Z.ltb _ _ = true |- _ => apply Z.ltb_lt in H
  | H : Z.ltb _ _ = false |- _ => apply Z.ltb_ge in H
  | H : String.eqb _ _ = true |- _ => apply String.eqb_eq in H
  | H : String.eqb _ _ = false |- _ => apply String.eqb_neq in H
  | H : bool_decide _ = true |- _ => apply bool_decide_eq_true_1 in H
  | H : bool_decide _ = false |- _ => apply bool_decide_eq_false_1 in H
  end.

Create HintDb nth discriminated.
Create Rewrite HintDb nth_rw.

(** ** Generic list lemmas *)

Lemma forallb_Forall {A} (f : A -> bool) l :
  forallb f l = true <-> Forall (fun x => f x = true) l.
Proof. rewrite Forall_forall, forallb_forall. setoid_rewrite list_elem_of_In. done. Qed.

Lemma last_snoc_inv {A} (l : list A) x : last l = Some x -> exists k, l = k ++ [x].
Proof.
  destruct l as [|y l _] using rev_ind; [done|].
  rewrite last_snoc. intros [= ->]. by exists l.
Qed.
