(* ===== verification/Digits.v ===== *)
(** * Positional numerals

    Base-[b] digit lists, most significant digit first.  Base 10 prints and
    reads Python's [int], base 58 is the did:key alphabet, base 256 is
    [int.from_bytes]/[int.to_bytes]: the three share the lemmas of this file. *)

From Stdlib Require Import ZArith Lia.
From stdpp Require Import base list.
From S2P Require Import Prelude.

Local Open Scope Z_scope.

Section Digits.
Context (b : Z).

(** [for d in ds: num = num * b + d] *)
Definition of_digits (ds : list Z) : Z := fold_left (fun acc d => acc * b + d) ds 0.

(** [while num > 0: num, rem = divmod(num, b); out = [rem] + out] *)
Fixpoint to_digits_go (fuel : nat) (n : Z) (out : list Z) : list Z :=
  match fuel with
  | O => out
  | S fuel => if 0 <? n then to_digits_go fuel (n / b) (n mod b :: out) else out
  end.

(** The loop divides by at least two: [log2 n + 1] turns are enough
    ([of_to_digits]). *)
Definition to_digits (n : Z) : list Z :=
  to_digits_go (S (Z.to_nat (Z.log2 n))) n [].

Definition is_digit (d : Z) : Prop := 0 <= d < b.

Lemma of_digits_nil : of_digits [] = 0.
Proof. done. Qed.

Lemma of_digits_snoc ds d : of_digits (ds ++ [d]) = of_digits ds * b + d.
Proof. unfold of_digits. by rewrite fold_left_app. Qed.

Lemma of_digits_app xs ys :
  of_digits (xs ++ ys) = of_digits xs * b ^ Z.of_nat (length ys) + of_digits ys.
Proof.
  induction ys as [|y ys IH] using rev_ind.
  - rewrite app_nil_r. simpl. rewrite of_digits_nil. lia.
  - rewrite app_assoc, !of_digits_snoc, IH, length_app. simpl.
    rewrite Nat2Z.inj_add, Z.pow_add_r by lia. simpl Z.of_nat. rewrite Z.pow_1_r. ring.
Qed.

Lemma of_digits_cons d ds :
  of_digits (d :: ds) = d * b ^ Z.of_nat (length ds) + of_digits ds.
Proof. apply (of_digits_app [d] ds). Qed.

Lemma of_digits_zeros k ds : of_digits (repeat 0 k ++ ds) = of_digits ds.
Proof. induction k as [|k IH]; [done|]. simpl. rewrite of_digits_cons, IH. lia. Qed.

Context (Hb : 2 <= b).

Lemma of_digits_bound ds :
  Forall is_digit ds -> 0 <= of_digits ds < b ^ Z.of_nat (length ds).
Proof using Hb.
  induction ds as [|d ds IH] using rev_ind; [simpl; rewrite of_digits_nil; lia|].
  intros [Hds [Hd _]%Forall_cons]%Forall_app. specialize (IH Hds).
  rewrite of_digits_snoc, length_app. simpl. unfold is_digit in Hd.
  rewrite Nat2Z.inj_add, Z.pow_add_r by lia. simpl Z.of_nat. rewrite Z.pow_1_r. nia.
Qed.

Lemma to_digits_go_spec fuel n out :
  0 <= n < b ^ Z.of_nat fuel ->
  exists ds, to_digits_go fuel n out = ds ++ out /\ of_digits ds = n /\
    Forall is_digit ds /\ (forall d ds', ds = d :: ds' -> d <> 0).
Proof using Hb.
  revert n out; induction fuel as [|fuel IH]; intros n out Hn; simpl.
  { exists []. simpl in *. repeat split; [rewrite of_digits_nil; lia|constructor|done]. }
  destruct (Z.ltb_spec 0 n) as [Hpos|].
  - destruct (IH (n / b) (n mod b :: out)) as (ds & -> & Hv & Hr & Hh).
    { rewrite Nat2Z.inj_succ, Z.pow_succ_r in Hn by lia.
      split; [apply Z.div_pos; lia|]. apply Z.div_lt_upper_bound; lia. }
    exists (ds ++ [n mod b]). rewrite <- app_assoc. repeat split.
    + rewrite of_digits_snoc, Hv. pose proof (Z.div_mod n b). lia.
    + apply Forall_app; split; [done|]. constructor; [|constructor].
      apply Z.mod_pos_bound; lia.
    + intros d ds' E. destruct ds as [|x ds]; simpl in E; injection E as <- <-.
      * rewrite of_digits_nil in Hv. pose proof (Z.div_mod n b). lia.
      * by eapply Hh.
  - exists []. repeat split; [rewrite of_digits_nil; lia|constructor|done].
Qed.

Lemma to_digits_spec n :
  0 <= n ->
  of_digits (to_digits n) = n /\ Forall is_digit (to_digits n) /\
  (forall d ds, to_digits n = d :: ds -> d <> 0).
Proof using Hb.
  intros Hn. destruct (to_digits_go_spec (S (Z.to_nat (Z.log2 n))) n []) as (ds & E & Hds).
  - split; [done|]. rewrite Nat2Z.inj_succ, Z2Nat.id by apply Z.log2_nonneg.
    destruct (Z.eq_dec n 0) as [->|]; [apply Z.pow_pos_nonneg; [lia|]; apply Z.le_le_succ_r, Z.log2_nonneg|].
    apply Z.lt_le_trans with (2 ^ Z.succ (Z.log2 n)); [apply Z.log2_spec; lia|].
    apply Z.pow_le_mono_l; lia.
  - unfold to_digits. rewrite E, app_nil_r. tauto.
Qed.

Lemma of_to_digits n : 0 <= n -> of_digits (to_digits n) = n.
Proof using Hb. apply to_digits_spec. Qed.

Lemma to_digits_range n : 0 <= n -> Forall is_digit (to_digits n).
Proof using Hb. apply to_digits_spec. Qed.

(** Numerals without a leading zero are determined by their value. *)
Definition normal (ds : list Z) : Prop :=
  Forall is_digit ds /\ forall d ds', ds = d :: ds' -> d <> 0.

Lemma normal_to_digits n : 0 <= n -> normal (to_digits n).
Proof using Hb. apply to_digits_spec. Qed.

Lemma normal_snoc ds d : normal (ds ++ [d]) -> normal ds /\ is_digit d /\ (ds = [] -> d <> 0).
Proof.
  intros [[Hds [Hd _]%Forall_cons]%Forall_app Hh]. split_and!; [split; [done|]|done|].
  - intros x ds' ->. by eapply Hh.
  - intros ->. by eapply Hh.
Qed.

Lemma normal_pos ds : normal ds -> ds <> [] -> 0 < of_digits ds.
Proof using Hb.
  destruct ds as [|d ds]; [done|]. intros [[Hd Hds]%Forall_cons Hh] _.
  pose proof (of_digits_bound ds Hds). pose proof (Hh _ _ eq_refl).
  rewrite of_digits_cons. unfold is_digit in Hd. nia.
Qed.

Lemma normal_inj xs ys : normal xs -> normal ys -> of_digits xs = of_digits ys -> xs = ys.
Proof using Hb.
  revert ys; induction xs as [|x xs IH] using rev_ind; intros ys Hx Hy E.
  { destruct ys as [|y ys]; [done|]. pose proof (normal_pos _ Hy ltac:(done)).
    rewrite of_digits_nil in E. lia. }
  destruct ys as [|y ys _] using rev_ind.
  { pose proof (normal_pos _ Hx ltac:(by destruct xs)). rewrite of_digits_nil in E. lia. }
  apply normal_snoc in Hx as (Hx & Hdx & _). apply normal_snoc in Hy as (Hy & Hdy & _).
  rewrite !of_digits_snoc in E. unfold is_digit in *.
  assert (of_digits xs = of_digits ys) as E1 by nia. assert (x = y) as -> by nia.
  by rewrite (IH ys Hx Hy E1).
Qed.

Lemma to_of_digits ds : normal ds -> to_digits (of_digits ds) = ds.
Proof using Hb.
  intros Hds. pose proof (of_digits_bound ds (proj1 Hds)).
  apply normal_inj; [apply normal_to_digits; lia|done|apply of_to_digits; lia].
Qed.

Lemma normal_lower ds :
  normal ds -> ds <> [] -> b ^ Z.of_nat (length ds - 1) <= of_digits ds.
Proof using Hb.
  destruct ds as [|d ds]; [done|]. intros [[Hd Hds]%Forall_cons Hh] _.
  pose proof (of_digits_bound ds Hds). pose proof (Hh _ _ eq_refl).
  rewrite of_digits_cons. cbn [length]. rewrite Nat.sub_succ, Nat.sub_0_r.
  unfold is_digit in Hd. nia.
Qed.

Lemma to_digits_length n k :
  0 <= n < b ^ Z.of_nat k -> (length (to_digits n) <= k)%nat.
Proof using Hb.
  intros [Hn Hk]. destruct (decide (to_digits n = [])) as [->|Hne]; [simpl; lia|].
  pose proof (normal_lower _ (normal_to_digits n Hn) Hne) as Hl.
  rewrite of_to_digits in Hl by done.
  assert (Z.of_nat (length (to_digits n) - 1) < Z.of_nat k); [|lia].
  apply (Z.pow_lt_mono_r_iff b); lia.
Qed.

Lemma to_digits_0 : to_digits 0 = [].
Proof. done. Qed.

End Digits.
