(* ===== verification/PyStr.v ===== *)
(** * Python [str] and [bytes]

    Both are Rocq strings, that is, sequences of 8-bit characters.  A [bytes]
    value is its bytes.  A [str] is represented by its UTF-8 encoding, lone
    surrogates included (the [surrogatepass] encoding).  Under this
    representation equality, concatenation, [startswith], [endswith] and
    splitting at an ASCII character are the byte operations, and the
    lexicographic order of code points is the order of the bytes; what differs
    is [len] and indexing, which [code_points] computes, and
    [.encode("utf-8")], which is the identity except that it refuses lone
    surrogates ([utf8_encode]). *)

From Stdlib Require Import ZArith Lia Ascii String.
From stdpp Require Import base list strings.
From S2P Require Import Prelude Digits.

Local Open Scope string_scope.
Local Open Scope Z_scope.

(** ** Characters and bytes *)

Definition byte_of (c : ascii) : Z := Z.of_N (N_of_ascii c).
Definition chr (z : Z) : ascii := ascii_of_N (Z.to_N z).

Lemma byte_of_range c : 0 <= byte_of c < 256.
Proof. unfold byte_of. pose proof (N_ascii_bounded c). lia. Qed.

Lemma chr_byte_of c : chr (byte_of c) = c.
Proof. unfold chr, byte_of. by rewrite N2Z.id, ascii_N_embedding. Qed.

Lemma byte_of_chr z : 0 <= z < 256 -> byte_of (chr z) = z.
Proof. intros. unfold chr, byte_of. rewrite N_ascii_embedding, Z2N.id; lia. Qed.

Lemma byte_of_inj c d : byte_of c = byte_of d -> c = d.
Proof. intros E. by rewrite <- (chr_byte_of c), <- (chr_byte_of d), E. Qed.

Abbreviation chars := list_ascii_of_string.
Abbreviation of_chars := string_of_list_ascii.

Definition bytes_of (s : string) : list Z := byte_of <$> chars s.
Definition of_bytes (l : list Z) : string := of_chars (chr <$> l).

Definition is_byte (z : Z) : Prop := 0 <= z < 256.

Lemma of_chars_chars s : of_chars (chars s) = s.
Proof. apply string_of_list_ascii_of_string. Qed.

Lemma chars_of_chars l : chars (of_chars l) = l.
Proof. apply list_ascii_of_string_of_list_ascii. Qed.

Lemma chars_inj s t : chars s = chars t -> s = t.
Proof. intros E. by rewrite <- (of_chars_chars s), <- (of_chars_chars t), E. Qed.

Lemma of_bytes_of s : of_bytes (bytes_of s) = s.
Proof.
  unfold of_bytes, bytes_of. rewrite <- list_fmap_compose.
  rewrite (list_fmap_ext _ id); [by rewrite list_fmap_id, of_chars_chars|].
  intros. apply chr_byte_of.
Qed.

Lemma bytes_of_of l : Forall is_byte l -> bytes_of (of_bytes l) = l.
Proof.
  intros Hl. unfold of_bytes, bytes_of. rewrite chars_of_chars, <- list_fmap_compose.
  rewrite <- (list_fmap_id l) at 2. apply Forall_fmap_ext_1.
  eapply Forall_impl; [exact Hl|]. intros z Hz. apply byte_of_chr, Hz.
Qed.

Lemma bytes_of_range s : Forall is_byte (bytes_of s).
Proof. apply Forall_fmap, Forall_true. intros. apply byte_of_range. Qed.

Lemma bytes_of_inj s t : bytes_of s = bytes_of t -> s = t.
Proof. intros E. by rewrite <- (of_bytes_of s), <- (of_bytes_of t), E. Qed.

(** ** Concatenation *)

#[global] Arguments String.append !_ _ / : simpl nomatch.

Lemma str_app_assoc (s t u : string) : (s ++ t) ++ u = s ++ (t ++ u).
Proof. induction s; simpl; congruence. Qed.

Lemma str_app_nil_r (s : string) : s ++ "" = s.
Proof. induction s; simpl; congruence. Qed.

Lemma chars_app s t : chars (s ++ t) = (chars s ++ chars t)%list.
Proof. induction s; simpl; congruence. Qed.

Lemma bytes_of_app s t : bytes_of (s ++ t) = (bytes_of s ++ bytes_of t)%list.
Proof. unfold bytes_of. by rewrite chars_app, fmap_app. Qed.

Lemma of_chars_app l k : of_chars (l ++ k)%list = of_chars l ++ of_chars k.
Proof. apply chars_inj. by rewrite chars_app, !chars_of_chars. Qed.

Lemma str_length_chars s : String.length s = List.length (chars s).
Proof. induction s; simpl; congruence. Qed.

Lemma str_length_app s t : String.length (s ++ t) = (String.length s + String.length t)%nat.
Proof. by rewrite !str_length_chars, chars_app, length_app. Qed.

Lemma str_app_inv_l (s t u : string) : s ++ t = s ++ u -> t = u.
Proof. induction s; simpl; [done|]. intros [= ?]. auto. Qed.

(** ** Code points *)

(** Decode the UTF-8 bytes of a [str] (surrogates pass). *)
Fixpoint decode_points (l : list Z) : list Z :=
  match l with
  | [] => []
  | a :: l1 =>
    if a <? 0x80 then a :: decode_points l1 else
    match l1 with
    | [] => [a]
    | b :: l2 =>
      if a <? 0xE0 then ((a - 0xC0) * 64 + (b - 0x80)) :: decode_points l2 else
      match l2 with
      | [] => [a]
      | c :: l3 =>
        if a <? 0xF0 then
          ((a - 0xE0) * 4096 + (b - 0x80) * 64 + (c - 0x80)) :: decode_points l3 else
        match l3 with
        | [] => [a]
        | d :: l4 =>
          ((a - 0xF0) * 262144 + (b - 0x80) * 4096 + (c - 0x80) * 64 + (d - 0x80))
            :: decode_points l4
        end
      end
    end
  end.

Definition code_points (s : string) : list Z := decode_points (bytes_of s).

(** [len(s)] of a [str]. *)
Definition py_len (s : string) : Z := Z.of_nat (List.length (code_points s)).

(** [len(b)] of a [bytes]. *)
Definition bytes_len (s : string) : Z := Z.of_nat (String.length s).

(** [s.encode("utf-8")]: the bytes of a lone surrogate U+D800..U+DFFF start
    with 0xED and a byte from 0xA0 on. *)
Fixpoint has_surrogate (l : list Z) : bool :=
  match l with
  | a :: (b :: _) as l1 => ((a =? 0xED) && (0xA0 <=? b)) || has_surrogate l1
  | _ => false
  end.

Definition utf8_encode (s : string) : res string :=
  if has_surrogate (bytes_of s) then Err UnicodeEncodeError else Ok s.

(** [s.encode("ascii")] *)
Definition ascii_encode (s : string) : res string :=
  if forallb (fun z => z <? 128) (bytes_of s) then Ok s else Err UnicodeEncodeError.

(** [str.isspace] on one code point. *)
Definition cp_isspace (c : Z) : bool :=
  ((0x09 <=? c) && (c <=? 0x0D)) || ((0x1C <=? c) && (c <=? 0x20)) ||
  (c =? 0x85) || (c =? 0xA0) || (c =? 0x1680) || ((0x2000 <=? c) && (c <=? 0x200A)) ||
  (c =? 0x2028) || (c =? 0x2029) || (c =? 0x202F) || (c =? 0x205F) || (c =? 0x3000).

(** [any(ch.isspace() for ch in s)] *)
Definition any_space (s : string) : bool := existsb cp_isspace (code_points s).

(** ** Prefixes, suffixes, slices *)

Abbreviation startswith p s := (String.prefix p s).

Definition str_drop (n : nat) (s : string) : string := of_chars (drop n (chars s)).
Definition str_take (n : nat) (s : string) : string := of_chars (take n (chars s)).

Definition endswith (p s : string) : bool :=
  (Nat.leb (String.length p) (String.length s)) &&
  String.eqb (str_drop (String.length s - String.length p) s) p.

(** [s.removeprefix(p)] *)
Definition removeprefix (p s : string) : string :=
  if startswith p s then str_drop (String.length p) s else s.

Lemma prefix_app p s : startswith p (p ++ s) = true.
Proof. induction p as [|c p IH]; simpl; [by destruct s|]. by destruct (ascii_dec c c). Qed.

Lemma prefix_true_iff p s : startswith p s = true <-> exists t, s = p ++ t.
Proof.
  split; [|intros [t ->]; apply prefix_app].
  revert s; induction p as [|c p IH]; intros s H; [by exists s|].
  destruct s as [|d s]; [done|]. simpl in H. destruct (ascii_dec c d) as [->|]; [|done].
  destruct (IH _ H) as [t ->]. by exists t.
Qed.

Lemma str_drop_app p s : str_drop (String.length p) (p ++ s) = s.
Proof.
  unfold str_drop. rewrite chars_app, str_length_chars, drop_app_length. apply of_chars_chars.
Qed.

Lemma endswith_true_iff p s : endswith p s = true <-> exists t, s = t ++ p.
Proof.
  unfold endswith. rewrite andb_true_iff, Nat.leb_le, String.eqb_eq. split.
  - intros [Hl E]. exists (str_take (String.length s - String.length p) s).
    rewrite <- E at 2. unfold str_take, str_drop. rewrite <- of_chars_app, take_drop.
    by rewrite of_chars_chars.
  - intros [t ->]. rewrite str_length_app. split; [lia|].
    replace (String.length t + String.length p - String.length p)%nat with (String.length t) by lia.
    apply str_drop_app.
Qed.

(** [s.rstrip(c)] for a single character. *)
Fixpoint drop_while_char (c : ascii) (l : list ascii) : list ascii :=
  match l with
  | d :: l' => if Ascii.eqb c d then drop_while_char c l' else l
  | [] => []
  end.

Definition rstrip_char (c : ascii) (s : string) : string :=
  of_chars (rev (drop_while_char c (rev (chars s)))).

(** [sep * n] *)
Fixpoint str_repeat (c : ascii) (n : nat) : string :=
  match n with O => "" | S n => String c (str_repeat c n) end.

Lemma chars_str_repeat c n : chars (str_repeat c n) = repeat c n.
Proof. induction n; simpl; congruence. Qed.

(** [sep.join(parts)] *)
Fixpoint str_join (sep : string) (parts : list string) : string :=
  match parts with
  | [] => ""
  | [p] => p
  | p :: ps => p ++ sep ++ str_join sep ps
  end.

(** [s.partition(c)]: what precedes and what follows the first [c], if any. *)
Fixpoint split_at_char (c : ascii) (l : list ascii) : option (list ascii * list ascii) :=
  match l with
  | [] => None
  | d :: l' =>
    if Ascii.eqb c d then Some ([], l') else
    match split_at_char c l' with
    | Some (a, b) => Some (d :: a, b)
    | None => None
    end
  end.

(** ** Character classes for the regular expressions of the code *)

Definition char_all (p : ascii -> bool) (s : string) : bool := forallb p (chars s).

Lemma char_all_app p s t : char_all p (s ++ t) = char_all p s && char_all p t.
Proof. unfold char_all. by rewrite chars_app, forallb_app. Qed.

Definition in_range (lo hi : Z) (c : ascii) : bool := (lo <=? byte_of c) && (byte_of c <=? hi).
Definition is_dec (c : ascii) : bool := in_range 48 57 c.              (* 0-9 *)
Definition is_lower (c : ascii) : bool := in_range 97 122 c.           (* a-z *)
Definition is_upper (c : ascii) : bool := in_range 65 90 c.            (* A-Z *)
Definition is_hex_lower (c : ascii) : bool := is_dec c || in_range 97 102 c. (* 0-9a-f *)
Definition is_char (d c : ascii) : bool := Ascii.eqb d c.

(** [re.compile("^[0-9a-f]{n}$").fullmatch(s)] *)
Definition hex_digest (n : nat) (s : string) : bool :=
  Nat.eqb (String.length s) n && char_all is_hex_lower s.

(** ["^[first][rest]{0,n}$"] *)
Definition match_head_tail (first rest : ascii -> bool) (n : nat) (s : string) : bool :=
  match chars s with
  | [] => false
  | c :: l => first c && forallb rest l && Nat.leb (List.length l) n
  end.

(** ** Decimal integers *)

Definition digit_char (d : Z) : ascii := chr (48 + d).
Definition digit_value (c : ascii) : Z := byte_of c - 48.

Definition dec_digits (n : Z) : string := of_chars (digit_char <$> to_digits 10 n).

(** [str(z)] *)
Definition int_str (z : Z) : string :=
  if z =? 0 then "0" else if z <? 0 then "-" ++ dec_digits (- z) else dec_digits z.

(** [int(s)] for a string of ASCII digits. *)
Definition dec_value (s : string) : Z := of_digits 10 (digit_value <$> chars s).

Lemma digit_value_char d : 0 <= d < 10 -> digit_value (digit_char d) = d.
Proof. intros. unfold digit_value, digit_char. rewrite byte_of_chr; lia. Qed.

Lemma is_dec_digit_char d : 0 <= d < 10 -> is_dec (digit_char d) = true.
Proof.
  intros. unfold is_dec, in_range, digit_char. rewrite byte_of_chr by lia.
  apply andb_true_iff; rewrite !Z.leb_le; lia.
Qed.

Lemma is_dec_range c : is_dec c = true -> 0 <= digit_value c < 10.
Proof. unfold is_dec, in_range, digit_value. rewrite andb_true_iff, !Z.leb_le. lia. Qed.

Lemma digit_char_value c : is_dec c = true -> digit_char (digit_value c) = c.
Proof.
  intros. unfold digit_char, digit_value. rewrite <- (chr_byte_of c) at 2. f_equal. lia.
Qed.

Lemma digit_values_of_digits ds :
  Forall (is_digit 10) ds -> digit_value <$> (digit_char <$> ds) = ds.
Proof.
  intros H. rewrite <- list_fmap_compose. rewrite <- (list_fmap_id ds) at 2.
  apply Forall_fmap_ext_1. eapply Forall_impl; [exact H|]. intros. by apply digit_value_char.
Qed.

Lemma dec_value_digits n : 0 <= n -> dec_value (dec_digits n) = n.
Proof.
  intros. unfold dec_value, dec_digits. rewrite chars_of_chars, digit_values_of_digits.
  - by apply of_to_digits.
  - apply to_digits_range; lia.
Qed.

Lemma dec_digits_all n : 0 <= n -> char_all is_dec (dec_digits n) = true.
Proof.
  intros. unfold char_all, dec_digits. rewrite chars_of_chars. apply forallb_Forall, Forall_fmap.
  eapply Forall_impl; [apply to_digits_range; lia|]. intros d Hd. by apply is_dec_digit_char.
Qed.

Lemma dec_value_app s t :
  dec_value (s ++ t) = dec_value s * 10 ^ Z.of_nat (String.length t) + dec_value t.
Proof.
  unfold dec_value. rewrite chars_app, fmap_app, of_digits_app, length_fmap.
  by rewrite <- str_length_chars.
Qed.

Lemma dec_value_bound s :
  char_all is_dec s = true -> 0 <= dec_value s < 10 ^ Z.of_nat (String.length s).
Proof.
  intros H%forallb_Forall. unfold dec_value. rewrite str_length_chars, <- (length_fmap digit_value).
  apply of_digits_bound; [lia|]. apply Forall_fmap. eapply Forall_impl; [exact H|].
  intros c. apply is_dec_range.
Qed.

(** ** Hexadecimal *)

Definition hex_char (d : Z) : ascii := if d <? 10 then chr (48 + d) else chr (87 + d).

Definition hex_of_byte (z : Z) : list ascii := [hex_char (z / 16); hex_char (z mod 16)].

(** [b.hex()] *)
Definition hex (s : string) : string := of_chars (bytes_of s ≫= hex_of_byte).

Definition hex_value (c : ascii) : option Z :=
  if is_dec c then Some (byte_of c - 48)
  else if in_range 97 102 c then Some (byte_of c - 87)
  else if in_range 65 70 c then Some (byte_of c - 55)
  else None.

(** The ASCII whitespace [bytes.fromhex] skips between bytes. *)
Definition hex_space (c : ascii) : bool := is_char " " c || in_range 9 13 c.

Fixpoint unhex_chars (l : list ascii) : option (list Z) :=
  match l with
  | [] => Some []
  | a :: l' =>
    if hex_space a then unhex_chars l' else
    match l' with
    | [] => None
    | b :: l'' =>
      match hex_value a, hex_value b, unhex_chars l'' with
      | Some x, Some y, Some r => Some (x * 16 + y :: r)
      | _, _, _ => None
      end
    end
  end.

(** [bytes.fromhex(s)] *)
Definition fromhex (s : string) : res string :=
  match unhex_chars (chars s) with
  | Some l => Ok (of_bytes l)
  | None => Err ValueError
  end.

Lemma hex_value_char d : 0 <= d < 16 -> hex_value (hex_char d) = Some d.
Proof.
  intros Hd. cut (forallb (fun d => bool_decide (hex_value (hex_char d) = Some d)) (seqZ 0 16) = true).
  - intros H%forallb_Forall. rewrite Forall_forall in H.
    apply (bool_decide_eq_true_1 _), H, elem_of_seqZ. lia.
  - vm_compute. reflexivity.
Qed.

(** A property of the sixteen hex digits, by evaluation. *)
Lemma hex_char_all (p : ascii -> bool) d :
  0 <= d < 16 -> forallb (fun d => p (hex_char d)) (seqZ 0 16) = true -> p (hex_char d) = true.
Proof.
  intros Hd H%forallb_Forall. rewrite Forall_forall in H. apply H, elem_of_seqZ. lia.
Qed.

Lemma hex_space_char d : 0 <= d < 16 -> hex_space (hex_char d) = false.
Proof.
  intros Hd. apply negb_true_iff. apply (hex_char_all (fun c => negb (hex_space c))); [done|].
  vm_compute. reflexivity.
Qed.

Lemma nibbles z : is_byte z -> 0 <= z / 16 < 16 /\ 0 <= z mod 16 < 16.
Proof.
  unfold is_byte. intros. pose proof (Z.mod_pos_bound z 16).
  split; [|lia]. split; [apply Z.div_pos; lia|apply Z.div_lt_upper_bound; lia].
Qed.

Lemma unhex_hex l : Forall is_byte l -> unhex_chars (l ≫= hex_of_byte) = Some l.
Proof.
  induction 1 as [|z l Hz _ IH]; [done|]. destruct (nibbles z Hz) as [H1 H2].
  change ((z :: l) ≫= hex_of_byte)
    with (hex_char (z / 16) :: hex_char (z mod 16) :: (l ≫= hex_of_byte)).
  cbn [unhex_chars]. rewrite hex_space_char, !hex_value_char, IH by done.
  f_equal. f_equal. pose proof (Z.div_mod z 16). lia.
Qed.

Lemma hex_spec s : char_all is_hex_lower (hex s) = true /\
  String.length (hex s) = (2 * String.length s)%nat.
Proof.
  unfold char_all, hex. rewrite !str_length_chars, !chars_of_chars.
  pose proof (bytes_of_range s) as H. unfold bytes_of in *. revert H.
  induction (chars s) as [|c l IH]; [done|]. intros H. apply Forall_cons in H as [Hz Hl].
  destruct (IH Hl) as [IH1 IH2]. destruct (nibbles _ Hz) as [H1 H2].
  cbn [fmap list_fmap mbind list_bind hex_of_byte app forallb List.length] in *.
  rewrite IH1, IH2, !(hex_char_all is_hex_lower) by (done || by vm_compute).
  split; [done|lia].
Qed.

Lemma fromhex_hex s : fromhex (hex s) = Ok s.
Proof.
  unfold fromhex, hex. rewrite chars_of_chars, unhex_hex by apply bytes_of_range.
  by rewrite of_bytes_of.
Qed.

#[export] Hint Rewrite str_app_nil_r chars_app chars_of_chars of_chars_chars : nth_rw.
