(* ===== verification/PyValue.v ===== *)
(** * Python values

    The dynamically typed values that signed documents are made of, the
    operations the code applies to them ([isinstance], [==], truthiness,
    [dict.get], [str], [int]), and insertion-ordered dictionaries. *)

From Stdlib Require Import ZArith Lia Ascii String SpecFloat Permutation.
From stdpp Require Import base list strings sorting.
From S2P Require Import Prelude Digits PyStr.

Local Open Scope string_scope.
Local Open Scope Z_scope.

(** ** Dictionaries: insertion-ordered association lists *)

Section Dict.
Context {A : Type}.
Implicit Types (d : list (string * A)) (k : string).

(** [d.get(k)] *)
Fixpoint dict_get k d : option A :=
  match d with
  | [] => None
  | (k', v) :: d' => if String.eqb k k' then Some v else dict_get k d'
  end.

Definition dict_mem k d : bool := match dict_get k d with Some _ => true | None => false end.

(** [d[k] = v]: an existing key keeps its place. *)
Fixpoint dict_set k (v : A) d : list (string * A) :=
  match d with
  | [] => [(k, v)]
  | (k', v') :: d' => if String.eqb k k' then (k', v) :: d' else (k', v') :: dict_set k v d'
  end.

(** [{k: v for k, v in d.items() if k != key}], [d.pop(key)] *)
Definition dict_without k d : list (string * A) :=
  filter (fun kv => negb (String.eqb k kv.1)) d.

Definition dict_keys d : list string := d.*1.

(** [set(d) != fields] where [fields] is a literal set without repetition
    and the keys of a dictionary are distinct. *)
Definition same_keys (fields : list string) d : bool :=
  Nat.eqb (List.length (dict_keys d)) (List.length fields) &&
  forallb (fun f => dict_mem f d) fields.

Lemma dict_get_In k v d : dict_get k d = Some v -> In (k, v) d.
Proof.
  induction d as [|[k' v'] d IH]; [done|]. simpl.
  destruct (String.eqb_spec k k') as [->|]; [intros [= ->]; by left|]. intros; right; auto.
Qed.

Lemma dict_get_None k d : dict_get k d = None <-> ~ In k (dict_keys d).
Proof.
  induction d as [|[k' v'] d IH]; simpl; [tauto|].
  destruct (String.eqb_spec k k') as [->|]; [intuition congruence|]. rewrite IH. intuition congruence.
Qed.

Lemma In_dict_get k v d : NoDup (dict_keys d) -> In (k, v) d -> dict_get k d = Some v.
Proof.
  induction d as [|[k' v'] d IH]; [done|]. simpl. intros [Hn Hd]%NoDup_cons [E|Hin].
  - injection E as -> ->. by rewrite String.eqb_refl.
  - destruct (String.eqb_spec k k') as [->|]; [|auto].
    destruct Hn. apply list_elem_of_In. change k' with (k', v).1. by apply in_map.
Qed.

Lemma dict_get_set_eq k v d : dict_get k (dict_set k v d) = Some v.
Proof.
  induction d as [|[k' v'] d IH]; simpl; [by rewrite String.eqb_refl|].
  destruct (String.eqb_spec k k') as [->|]; simpl; [by rewrite String.eqb_refl|].
  by destruct (String.eqb_spec k k').
Qed.

Lemma dict_get_set_ne k k' v d : k <> k' -> dict_get k' (dict_set k v d) = dict_get k' d.
Proof.
  intros Hne. induction d as [|[k2 v2] d IH]; simpl.
  - destruct (String.eqb_spec k' k) as [->|]; [congruence|done].
  - destruct (String.eqb_spec k k2) as [->|]; simpl; [|by destruct (String.eqb_spec k' k2)].
    destruct (String.eqb_spec k' k2) as [->|]; [congruence|done].
Qed.

Lemma dict_get_set k k' v d :
  dict_get k' (dict_set k v d) = if String.eqb k k' then Some v else dict_get k' d.
Proof.
  destruct (String.eqb_spec k k') as [->|]; [apply dict_get_set_eq|by apply dict_get_set_ne].
Qed.

Lemma dict_get_app k d e :
  dict_get k (d ++ e)%list = match dict_get k d with Some v => Some v | None => dict_get k e end.
Proof. induction d as [|[k' v'] d IH]; [done|]. simpl. by destruct (String.eqb k k'). Qed.

Lemma dict_set_new k v d : dict_get k d = None -> dict_set k v d = (d ++ [(k, v)])%list.
Proof.
  induction d as [|[k' v'] d IH]; [done|]. simpl. destruct (String.eqb k k'); [done|].
  intros H. by rewrite IH.
Qed.

Lemma dict_set_nonempty k v d : dict_set k v d <> [].
Proof. destruct d as [|[k' v'] d]; [done|]. simpl. by destruct (String.eqb k k'). Qed.

Lemma dict_get_without_ne k k' d : k <> k' -> dict_get k' (dict_without k d) = dict_get k' d.
Proof.
  intros Hne. unfold dict_without. induction d as [|[k2 v2] d IH]; [done|].
  rewrite filter_cons. simpl. destruct (String.eqb_spec k k2) as [->|]; simpl.
  - rewrite IH. by destruct (String.eqb_spec k' k2) as [->|].
  - by rewrite IH.
Qed.

Lemma same_keys_get fields d f :
  same_keys fields d = true -> In f fields -> exists v, dict_get f d = Some v.
Proof.
  unfold same_keys, dict_mem. rewrite andb_true_iff, forallb_forall. intros [_ H] Hf.
  specialize (H f Hf). destruct (dict_get f d); [eauto|done].
Qed.
End Dict.

(** ** Values *)

(** [POther t] is a value of a type other than the ones JSON yields (bytes,
    set, tuple, a dict with a non-[str] key, an object of class [t]). *)
Inductive pyval :=
| PNone
| PBool (b : bool)
| PInt (z : Z)
| PFloat (f : spec_float)
| PStr (s : string)
| PList (l : list pyval)
| PDict (d : list (string * pyval))
| POther (type_name : string).

Section pyval_ind.
Context (P : pyval -> Prop)
  (HNone : P PNone) (HBool : forall b, P (PBool b)) (HInt : forall z, P (PInt z))
  (HFloat : forall f, P (PFloat f)) (HStr : forall s, P (PStr s))
  (HList : forall l, Forall P l -> P (PList l))
  (HDict : forall d, Forall (fun kv => P kv.2) d -> P (PDict d))
  (HOther : forall t, P (POther t)).

Fixpoint pyval_ind' (v : pyval) : P v :=
  match v with
  | PNone => HNone
  | PBool b => HBool b
  | PInt z => HInt z
  | PFloat f => HFloat f
  | PStr s => HStr s
  | PList l =>
    HList l ((fix go (l : list pyval) : Forall P l :=
      match l with
      | [] => @Forall_nil_2 _ P
      | x :: l' => @Forall_cons_2 _ P x l' (pyval_ind' x) (go l')
      end) l)
  | PDict d =>
    HDict d ((fix go (d : list (string * pyval)) : Forall (fun kv => P kv.2) d :=
      match d with
      | [] => @Forall_nil_2 _ (fun kv => P kv.2)
      | kv :: d' =>
        @Forall_cons_2 _ (fun kv => P kv.2) kv d' (pyval_ind' kv.2) (go d')
      end) d)
  | POther t => HOther t
  end.
End pyval_ind.

(** Keys of a Python dict are distinct, at every level. *)
Fixpoint wf (v : pyval) : Prop :=
  match v with
  | PList l => foldr (fun x P => wf x /\ P) True l
  | PDict d => NoDup (dict_keys d) /\ foldr (fun kv P => wf kv.2 /\ P) True d
  | _ => True
  end.

Lemma wf_PList l : wf (PList l) <-> Forall wf l.
Proof.
  simpl. induction l as [|x l IH]; simpl; [by split|].
  rewrite IH. by rewrite Forall_cons.
Qed.

Lemma wf_PDict d : wf (PDict d) <-> NoDup (dict_keys d) /\ Forall (fun kv => wf kv.2) d.
Proof.
  simpl. apply and_iff_compat_l. induction d as [|x l IH]; simpl; [by split|].
  rewrite IH. by rewrite Forall_cons.
Qed.

Fixpoint wfb (v : pyval) : bool :=
  match v with
  | PList l => forallb wfb l
  | PDict d => bool_decide (NoDup (dict_keys d)) && forallb (fun kv => wfb kv.2) d
  | _ => true
  end.

Lemma wfb_wf v : wfb v = true -> wf v.
Proof.
  induction v as [| | | | |l IH|d IH|] using pyval_ind'; try done; cbn [wfb]; intros H.
  - apply wf_PList. apply forallb_Forall in H. induction l; decompose_Forall_hyps; constructor; auto.
  - bool_to_prop. apply wf_PDict. split; [done|].
    match goal with H : forallb _ _ = true |- _ => apply forallb_Forall in H; rename H into Hf end.
    clear -IH Hf. induction d; decompose_Forall_hyps; constructor; auto.
Qed.

(** ** [==] *)

(** Numbers compare by value across [bool], [int] and [float]. *)
Definition int_of_num (v : pyval) : option Z :=
  match v with PBool b => Some (Z.b2z b) | PInt z => Some z | _ => None end.

Definition float_eq_int (f : spec_float) (z : Z) : bool :=
  match f with
  | S754_zero _ => z =? 0
  | S754_finite s m e =>
    let x := (if s then -1 else 1) * Z.pos m in
    if 0 <=? e then x * 2 ^ e =? z else x =? z * 2 ^ (- e)
  | _ => false
  end.

Definition num_eqb (v w : pyval) : bool :=
  match v, w with
  | PFloat f, PFloat g => SFeqb f g
  | PFloat f, _ => match int_of_num w with Some z => float_eq_int f z | None => false end
  | _, PFloat g => match int_of_num v with Some z => float_eq_int g z | None => false end
  | _, _ =>
    match int_of_num v, int_of_num w with Some x, Some y => x =? y | _, _ => false end
  end.

Section list_eqb.
Context {A : Type} (eqb : A -> A -> bool).
Fixpoint list_eqb (l k : list A) : bool :=
  match l, k with
  | [], [] => true
  | x :: l', y :: k' => eqb x y && list_eqb l' k'
  | _, _ => false
  end.
End list_eqb.

(** [v == w].  Objects of other types compare by identity, which the model
    does not track: they are unequal to everything. *)
Fixpoint py_eqb (v w : pyval) {struct v} : bool :=
  match v, w with
  | PNone, PNone => true
  | PStr s, PStr t => String.eqb s t
  | PList l, PList k => list_eqb py_eqb l k
  | PDict d, PDict e =>
    Nat.eqb (List.length d) (List.length e) &&
    forallb (fun kv => match dict_get kv.1 e with
                       | Some y => py_eqb kv.2 y
                       | None => false
                       end) d
  | _, _ => num_eqb v w
  end.

(** [d.get(k) == v] with [None] for a missing key. *)
Definition get_or_none (k : string) (d : list (string * pyval)) : pyval :=
  match dict_get k d with Some v => v | None => PNone end.

Lemma py_eqb_PStr_r v s : py_eqb v (PStr s) = true <-> v = PStr s.
Proof.
  destruct v as [| [] | | f | t | | | ]; simpl; try (split; [discriminate|intros [=]]).
  - rewrite String.eqb_eq. split; congruence.
Qed.

Lemma py_eqb_PInt_r v z :
  py_eqb v (PInt z) = true -> (forall b, v <> PBool b) -> (forall f, v <> PFloat f) -> v = PInt z.
Proof.
  destruct v as [| b | y | f | | | | ]; simpl; intros H Hb Hf; try discriminate H.
  - by destruct (Hb b).
  - apply Z.eqb_eq in H. congruence.
  - by destruct (Hf f).
Qed.

(** ** Type tests and conversions *)

Definition is_dict (v : pyval) : bool := match v with PDict _ => true | _ => false end.
Definition is_list (v : pyval) : bool := match v with PList _ => true | _ => false end.
Definition is_str (v : pyval) : bool := match v with PStr _ => true | _ => false end.

Definition as_dict (v : pyval) : option (list (string * pyval)) :=
  match v with PDict d => Some d | _ => None end.
Definition as_str (v : pyval) : option string :=
  match v with PStr s => Some s | _ => None end.
Definition as_list (v : pyval) : option (list pyval) :=
  match v with PList l => Some l | _ => None end.

(** [isinstance(v, int) and not isinstance(v, bool)] *)
Definition as_int (v : pyval) : option Z := match v with PInt z => Some z | _ => None end.

(** [isinstance(v, str) and v] *)
Definition nonempty_str (v : pyval) : bool :=
  match v with PStr s => negb (String.eqb s "") | _ => false end.

(** [bool(v)] *)
Definition truthy (v : pyval) : bool :=
  match v with
  | PNone => false
  | PBool b => b
  | PInt z => negb (z =? 0)
  | PFloat (S754_zero _) => false
  | PFloat _ => true
  | PStr s => negb (String.eqb s "")
  | PList l => negb (Nat.eqb (List.length l) 0)
  | PDict d => negb (Nat.eqb (List.length d) 0)
  | POther _ => true
  end.

(** [repr] of floats, containers and other objects: the code only ever
    compares such text, so it is a parameter of the model. *)
Class PyRepr := py_repr : pyval -> string.

(** [str(v)] *)
Definition py_str `{PyRepr} (v : pyval) : string :=
  match v with
  | PStr s => s
  | PInt z => int_str z
  | PBool true => "True"
  | PBool false => "False"
  | PNone => "None"
  | _ => py_repr v
  end.

(** [int(s)] of a string: optional sign, ASCII digits with single underscores
    between them, surrounding ASCII whitespace. *)
Fixpoint int_digits (prev_digit : bool) (l : list ascii) (acc : Z) : option Z :=
  match l with
  | [] => if prev_digit then Some acc else None
  | c :: l' =>
    if is_dec c then int_digits true l' (acc * 10 + digit_value c)
    else if Ascii.eqb c "_" && prev_digit then int_digits false l' acc
    else None
  end.

Definition ascii_space (c : ascii) : bool := cp_isspace (byte_of c) && (byte_of c <? 128).

Fixpoint drop_space (l : list ascii) : list ascii :=
  match l with c :: l' => if ascii_space c then drop_space l' else l | [] => [] end.

Definition strip_chars (l : list ascii) : list ascii := rev (drop_space (rev (drop_space l))).

Definition int_of_str (s : string) : option Z :=
  match strip_chars (chars s) with
  | c :: l =>
    if Ascii.eqb c "-" then option_map Z.opp (int_digits false l 0)
    else if Ascii.eqb c "+" then int_digits false l 0
    else int_digits false (c :: l) 0
  | [] => None
  end.

Definition float_trunc (f : spec_float) : option Z :=
  match f with
  | S754_zero _ => Some 0
  | S754_finite s m e =>
    let a := if 0 <=? e then Z.pos m * 2 ^ e else Z.pos m / 2 ^ (- e) in
    Some (if s then - a else a)
  | _ => None
  end.

(** [int(v)] *)
Definition py_int (v : pyval) : res Z :=
  match v with
  | PInt z => Ok z
  | PBool b => Ok (Z.b2z b)
  | PFloat (S754_infinity _) => Err OverflowError
  | PFloat f => match float_trunc f with Some z => Ok z | None => Err ValueError end
  | PStr s => match int_of_str s with Some z => Ok z | None => Err ValueError end
  | _ => Err TypeError
  end.

(** ** Values up to the order of dictionary entries *)

(** Like [==], but a [bool] is not an [int]: the two values have the same
    shape and the same entries, in any order.  Floats and foreign objects,
    which no signed document holds, are not identified. *)
Fixpoint json_eqb (v w : pyval) {struct v} : bool :=
  match v, w with
  | PNone, PNone => true
  | PBool b, PBool c => Bool.eqb b c
  | PInt y, PInt z => y =? z
  | PStr s, PStr t => String.eqb s t
  | PList l, PList k => list_eqb json_eqb l k
  | PDict d, PDict e =>
    Nat.eqb (List.length d) (List.length e) &&
    forallb (fun kv => match dict_get kv.1 e with
                       | Some y => json_eqb kv.2 y
                       | None => false
                       end) d
  | _, _ => false
  end.

Lemma list_eqb_Forall2 {A} (eqb : A -> A -> bool) l k :
  list_eqb eqb l k = true <-> Forall2 (fun x y => eqb x y = true) l k.
Proof.
  revert k; induction l as [|x l IH]; intros [|y k]; simpl; split; try done.
  - intros H. inversion H.
  - intros H. inversion H.
  - rewrite andb_true_iff, IH. intros [? ?]. by constructor.
  - intros H. inversion H; subst. by rewrite andb_true_iff, IH.
Qed.

(** ** Entries sorted by key *)

Section SortItems.
Context {A : Type}.
Implicit Types d e : list (string * A).

Definition key_le (x y : string * A) : Prop := String.le x.1 y.1.

Global Instance key_le_dec : RelDecision key_le.
Proof. intros x y. unfold key_le. apply _. Defined.

Global Instance key_le_total : Total key_le.
Proof. intros x y. unfold key_le. apply (total String.le). Qed.

Global Instance key_le_trans : Transitive key_le.
Proof. intros x y z. unfold key_le. apply (transitivity (R := String.le)). Qed.

(** [sorted(d.items())] of a dictionary. *)
Definition sort_items d : list (string * A) := merge_sort key_le d.

Lemma sort_items_Permutation d : Permutation (sort_items d) d.
Proof. apply merge_sort_Permutation. Qed.

Lemma sort_items_sorted d : StronglySorted key_le (sort_items d).
Proof. apply (StronglySorted_merge_sort key_le). Qed.

Lemma same_key_same_item d x y :
  NoDup (dict_keys d) -> x ∈ d -> y ∈ d -> x.1 = y.1 -> x = y.
Proof.
  intros Hd Hx Hy E. destruct x as [k v], y as [k' v']. simpl in E; subst k'.
  apply list_elem_of_In in Hx, Hy. apply (In_dict_get _ _ _ Hd) in Hx, Hy. congruence.
Qed.

Lemma sorted_perm_unique d e :
  NoDup (dict_keys d) -> Permutation d e ->
  StronglySorted key_le d -> StronglySorted key_le e -> d = e.
Proof.
  intros Hd Hp Sd Se. apply (StronglySorted_unique_strong key_le); [|done..].
  intros x y Hx Hy H1 H2. rewrite <- Hp in Hy.
  eapply same_key_same_item; [done..|]. by apply (anti_symm String.le).
Qed.

Lemma sort_items_perm d e :
  NoDup (dict_keys d) -> Permutation d e -> sort_items d = sort_items e.
Proof.
  intros Hd Hp. apply sorted_perm_unique; try apply sort_items_sorted.
  - unfold dict_keys. by rewrite sort_items_Permutation.
  - by rewrite !sort_items_Permutation.
Qed.

Lemma sort_items_keys d : Permutation (dict_keys (sort_items d)) (dict_keys d).
Proof. unfold dict_keys. by rewrite sort_items_Permutation. Qed.
End SortItems.

Definition map_snd {A B} (f : A -> B) (d : list (string * A)) : list (string * B) :=
  map (fun kv => (kv.1, f kv.2)) d.

Lemma dict_get_map_snd {A B} (f : A -> B) k d :
  dict_get k (map_snd f d) = option_map f (dict_get k d).
Proof. induction d as [|[k' v] d IH]; [done|]. simpl. by destruct (String.eqb k k'). Qed.

Lemma dict_keys_map_snd {A B} (f : A -> B) d : dict_keys (map_snd f d) = dict_keys d.
Proof. unfold dict_keys, map_snd. rewrite <- list_fmap_compose. by apply list_fmap_ext. Qed.

Lemma sort_items_map_snd {A B} (f : A -> B) d :
  NoDup (dict_keys d) -> sort_items (map_snd f d) = map_snd f (sort_items d).
Proof.
  intros Hd. apply sorted_perm_unique; [| |apply sort_items_sorted|].
  - by rewrite sort_items_keys, dict_keys_map_snd.
  - rewrite sort_items_Permutation. apply Permutation_map. symmetry. apply sort_items_Permutation.
  - pose proof (sort_items_sorted d) as H. induction H as [|x l _ IH Hx]; [constructor|].
    simpl. constructor; [done|]. apply Forall_map. eapply Forall_impl; [exact Hx|]. done.
Qed.

(** The representative of a value under [json_eqb]: entries sorted by key at
    every level. *)
Fixpoint norm (v : pyval) : pyval :=
  match v with
  | PList l => PList (map norm l)
  | PDict d => PDict (sort_items (map_snd norm d))
  | _ => v
  end.

(** No float and no foreign object at any level. *)
Fixpoint jsonlike (v : pyval) : bool :=
  match v with
  | PFloat _ | POther _ => false
  | PList l => forallb jsonlike l
  | PDict d => forallb (fun kv => jsonlike kv.2) d
  | _ => true
  end.

Lemma map_snd_In {A B} (f : A -> B) d k y :
  In (k, y) (map_snd f d) <-> exists x, In (k, x) d /\ f x = y.
Proof.
  unfold map_snd. rewrite in_map_iff. split.
  - intros ([k' x] & [= -> <-] & H). eauto.
  - intros (x & H & <-). by exists (k, x).
Qed.

Lemma norm_dict_perm d e :
  Permutation (map_snd norm d) (map_snd norm e) -> NoDup (dict_keys d) ->
  norm (PDict d) = norm (PDict e).
Proof. intros Hp Hd. simpl. f_equal. apply sort_items_perm; [by rewrite dict_keys_map_snd|done]. Qed.

Lemma NoDup_items {A} (d : list (string * A)) : NoDup (dict_keys d) -> NoDup d.
Proof. apply NoDup_fmap_1. Qed.

(** [json_eqb] is equality of representatives. *)
Lemma json_eqb_norm v w :
  jsonlike v = true -> wf v -> wf w -> json_eqb v w = true <-> norm v = norm w.
Proof.
  revert w; induction v as [| | | | |l IH|d IH|] using pyval_ind'; intros w Hj Hv Hw;
    destruct w as [| | | | |k|e|]; try done; try (simpl; split; intros; discriminate).
  - simpl. rewrite Bool.eqb_true_iff. split; congruence.
  - simpl. rewrite Z.eqb_eq. split; congruence.
  - simpl. rewrite String.eqb_eq. split; congruence.
  - simpl in Hj. apply forallb_Forall in Hj. apply wf_PList in Hv, Hw. simpl.
    rewrite list_eqb_Forall2. split.
    + intros H. f_equal. induction H as [|x y l k E _ IHl]; [done|]. simpl.
      decompose_Forall_hyps. f_equal; [naive_solver|auto].
    + intros [= E]. revert k Hw E. induction l as [|x l IHl]; intros [|y k] Hw E; try done.
      simpl in E. injection E as E1 E2. decompose_Forall_hyps.
      constructor; [naive_solver|auto].
  - simpl in Hj. apply forallb_Forall in Hj. apply wf_PDict in Hv as [Hd Hv], Hw as [He Hw].
    rewrite Forall_forall in IH, Hj, Hv, Hw. cbn [json_eqb].
    rewrite andb_true_iff, Nat.eqb_eq, forallb_Forall, Forall_forall. split.
    + intros [Hl H]. apply norm_dict_perm; [|done].
      apply NoDup_Permutation_bis.
      * apply NoDup_ListNoDup, NoDup_items. by rewrite dict_keys_map_snd.
      * unfold map_snd. rewrite !length_map. lia.
      * intros [k y]. rewrite !map_snd_In. intros (x & Hx & <-).
        apply list_elem_of_In in Hx. specialize (H _ Hx). simpl in H.
        destruct (dict_get k e) as [y|] eqn:Ey; [|done]. apply dict_get_In in Ey.
        exists y. split; [done|]. symmetry. apply (IH _ Hx); [by apply (Hj _ Hx)|by apply (Hv _ Hx)| |done].
        apply list_elem_of_In in Ey. apply (Hw _ Ey).
    + intros E. simpl in E. injection E as E.
      assert (Permutation (map_snd norm d) (map_snd norm e)) as Hp.
      { rewrite <- (sort_items_Permutation (map_snd norm d)), E. apply sort_items_Permutation. }
      split; [apply Permutation_length in Hp; unfold map_snd in Hp; by rewrite !length_map in Hp|].
      intros [k x] Hx. simpl.
      assert (In (k, norm x) (map_snd norm e)) as (y & Hy & Ey)%map_snd_In.
      { apply (Permutation_in _ Hp), map_snd_In. exists x. by rewrite <- list_elem_of_In. }
      rewrite (In_dict_get _ _ _ He Hy). apply list_elem_of_In in Hy.
      apply (IH _ Hx); [by apply (Hj _ Hx)|by apply (Hv _ Hx)|by apply (Hw _ Hy)|done].
Qed.

Lemma norm_wf v : wf v -> wf (norm v).
Proof.
  induction v as [| | | | |l IH|d IH|] using pyval_ind'; try done; intros Hw.
  - apply wf_PList in Hw. cbn [norm]. apply wf_PList, Forall_map.
    induction l; decompose_Forall_hyps; constructor; auto.
  - apply wf_PDict in Hw as [Hd Hw]. cbn [norm]. apply wf_PDict. split.
    + by rewrite sort_items_keys, dict_keys_map_snd.
    + rewrite (sort_items_Permutation (map_snd norm d)). apply Forall_map. clear Hd.
      induction d; decompose_Forall_hyps; constructor; simpl; auto.
Qed.

Lemma norm_norm v : wf v -> norm (norm v) = norm v.
Proof.
  induction v as [| | | | |l IH|d IH|] using pyval_ind'; try done; intros Hw.
  - apply wf_PList in Hw. simpl. f_equal. rewrite map_map.
    induction l; decompose_Forall_hyps; simpl; [done|]. f_equal; auto.
  - apply wf_PDict in Hw as [Hd Hw]. cbn [norm]. f_equal.
    assert (NoDup (dict_keys (map_snd norm d))) as Hn by by rewrite dict_keys_map_snd.
    assert (map_snd norm (sort_items (map_snd norm d)) = sort_items (map_snd norm d)) as ->.
    { rewrite <- sort_items_map_snd by done. f_equal. unfold map_snd. rewrite map_map. clear Hd Hn.
      induction d as [|[k x] d IHd]; [done|]. apply Forall_cons in IH as [Hx IH], Hw as [Hwx Hw].
      simpl in *. f_equal; [by rewrite Hx|auto]. }
    apply sort_items_perm; [by rewrite sort_items_keys|apply sort_items_Permutation].
Qed.

(** ** Reading does not depend on the order of the entries *)

Lemma dict_get_perm {A} (d e : list (string * A)) k :
  NoDup (dict_keys d) -> Permutation d e -> dict_get k e = dict_get k d.
Proof.
  intros Hn Hp. assert (NoDup (dict_keys e)) as He.
  { unfold dict_keys in *. by rewrite <- Hp. }
  destruct (dict_get k d) as [v|] eqn:E.
  - apply In_dict_get; [done|]. eapply Permutation_in; [exact Hp|]. by apply dict_get_In.
  - apply dict_get_None in E. apply dict_get_None. intros Hin. apply E.
    eapply Permutation_in; [apply Permutation_map; symmetry; exact Hp|exact Hin].
Qed.

Lemma same_keys_perm {A} fields (d e : list (string * A)) :
  NoDup (dict_keys d) -> Permutation d e -> same_keys fields e = same_keys fields d.
Proof.
  intros Hn Hp. unfold same_keys, dict_keys. rewrite !length_fmap, (Permutation_length Hp). f_equal.
  induction fields as [|f fields IH]; [done|]. cbn [forallb]. rewrite IH. unfold dict_mem.
  by rewrite (dict_get_perm d e).
Qed.

Lemma get_or_none_perm d e k :
  NoDup (dict_keys d) -> Permutation d e -> get_or_none k e = get_or_none k d.
Proof. intros Hd Hp. unfold get_or_none. by rewrite (dict_get_perm d e). Qed.

(** [v == v], for the values JSON texts of the system hold. *)
Lemma py_eqb_refl v : jsonlike v = true -> wf v -> py_eqb v v = true.
Proof.
  induction v as [|b|z| |s|l IH|d IH|] using pyval_ind'; try done; intros Hj Hw.
  - by destruct b.
  - simpl. apply Z.eqb_refl.
  - simpl. apply String.eqb_refl.
  - simpl in Hj. apply forallb_Forall in Hj. apply wf_PList in Hw. simpl. apply list_eqb_Forall2.
    induction l; decompose_Forall_hyps; constructor; auto.
  - cbn [jsonlike] in Hj. apply forallb_Forall in Hj. apply wf_PDict in Hw as [Hd Hw]. cbn [py_eqb].
    rewrite Nat.eqb_refl. cbn [andb]. apply forallb_Forall. rewrite !Forall_forall in *.
    intros [k x] Hx. cbn [fst snd]. rewrite (In_dict_get k x) by (done || by apply list_elem_of_In).
    apply (IH _ Hx); [by apply (Hj _ Hx)|by apply (Hw _ Hx)].
Qed.
