(* ===== verification/PyDecimal.v ===== *)
(** * [decimal.Decimal]

    What the mandates compute with: construction from a value, [is_finite] and
    comparisons.  A decimal is exact, so a finite one is a sign, a coefficient
    and an exponent; the constructor refuses those that the widest context
    cannot hold exactly. *)

From Stdlib Require Import ZArith Lia Ascii String SpecFloat.
From stdpp Require Import base list strings.
From S2P Require Import Prelude Digits PyStr PyValue.

Local Open Scope string_scope.
Local Open Scope Z_scope.

(** [DFinite n e] is [n * 10 ^ e]. *)
Inductive decimal :=
| DFinite (n : Z) (e : Z)
| DInfinity (negative : bool)
| DNaN.

(** [d.is_finite()] *)
Definition is_finite (d : decimal) : bool := match d with DFinite _ _ => true | _ => false end.

(** [d > d'] of finite decimals; the numbers are scaled to the smaller
    exponent. *)
Definition scaled (n e e' : Z) : Z := n * 10 ^ (e - Z.min e e').
Definition dec_ltb (d d' : decimal) : bool :=
  match d, d' with
  | DFinite n e, DFinite n' e' => scaled n e e' <? scaled n' e' e
  | _, _ => false
  end.
Definition dec_positive (d : decimal) : bool := match d with DFinite n _ => 0 <? n | _ => false end.

(** ** From a string *)

(** [Py_UNICODE_TODECIMAL] beyond ASCII comes from the Unicode database. *)
Class UnicodeDigits := cp_decimal_wide : Z -> option Z.

Section Parse.
Context `{U : UnicodeDigits}.

(** The ASCII form of the text: surrounding white space and underscores are
    dropped, other decimal digits become ASCII ones. *)
Fixpoint strip_left (l : list Z) : list Z :=
  match l with c :: l' => if cp_isspace c then strip_left l' else l | [] => [] end.
Definition cp_ascii (c : Z) : option Z :=
  if c <? 128 then (if c =? 0 then None else Some c)
  else if cp_isspace c then Some 32 else option_map (Z.add 48) (cp_decimal_wide c).
Fixpoint mapM_cp (l : list Z) : option (list Z) :=
  match l with
  | [] => Some []
  | c :: l =>
    if c =? 95 then mapM_cp l else
    match cp_ascii c, mapM_cp l with Some c, Some l => Some (c :: l) | _, _ => None end
  end.
Definition numeric_ascii (s : string) : option (list Z) :=
  mapM_cp (rev (strip_left (rev (strip_left (code_points s))))).

Definition cp_digit (c : Z) : bool := (48 <=? c) && (c <=? 57).

(** The longest prefix of digits. *)
Fixpoint span_cp (l : list Z) : list Z * list Z :=
  match l with
  | c :: l' => if cp_digit c then let (a, b) := span_cp l' in (c :: a, b) else ([], l)
  | [] => ([], [])
  end.

Definition digits_value (l : list Z) : Z := of_digits 10 (map (fun c => c - 48) l).

(** [strip_sign l]: whether the text is negative, and the rest. *)
Definition strip_sign (l : list Z) : bool * list Z :=
  match l with
  | c :: l' => if c =? 45 then (true, l') else if c =? 43 then (false, l') else (false, l)
  | [] => (false, [])
  end.

(** A lower-case copy of ASCII letters. *)
Definition cp_lower (c : Z) : Z := if (65 <=? c) && (c <=? 90) then c + 32 else c.

Definition MAX_EMAX : Z := 999999999999999999.
Definition MIN_ETINY : Z := - 1999999999999999997.

(** The exactness test of the constructor. *)
Definition dec_exact (negative : bool) (coeff e : Z) : option decimal :=
  let digits := if coeff =? 0 then 1 else Z.of_nat (List.length (to_digits 10 coeff)) in
  if (MIN_ETINY <=? e) && (e + digits - 1 <=? MAX_EMAX)
  then Some (DFinite (if negative then - coeff else coeff) e) else None.

(** The exponent part: absent, or [e] and a signed numeral. *)
Definition exponent_part (l : list Z) : option Z :=
  match l with
  | [] => Some 0
  | c :: l =>
    if cp_lower c =? 101 then
      let '(neg, l) := strip_sign l in
      match l with
      | [] => None
      | _ => if forallb cp_digit l then Some (if neg then - digits_value l else digits_value l) else None
      end
    else None
  end.

Definition parse_decimal (l : list Z) : option decimal :=
  let '(neg, l) := strip_sign l in
  let low := map cp_lower l in
  if bool_decide (low = code_points "inf") || bool_decide (low = code_points "infinity") then Some (DInfinity neg) else
  if bool_decide (take 3 low = code_points "nan") && forallb cp_digit (drop 3 l) then Some DNaN else
  if bool_decide (take 4 low = code_points "snan") && forallb cp_digit (drop 4 l) then Some DNaN else
  let '(whole, l) := span_cp l in
  let '(fraction, l) := match l with
                        | c :: l' => if c =? 46 then span_cp l' else ([], l)
                        | [] => ([], [])
                        end in
  match (whole ++ fraction)%list with
  | [] => None
  | coeff =>
    match exponent_part l with
    | None => None
    | Some e => dec_exact neg (digits_value coeff) (e - Z.of_nat (List.length fraction))
    end
  end.

Definition dec_of_str (s : string) : option decimal :=
  match numeric_ascii s with Some l => parse_decimal l | None => None end.

(** ** From other values *)

(** [Decimal(f)] of a float is exact: [m * 2 ^ e] with a negative exponent is
    [m * 5 ^ (- e)] shifted by [e] decimal places. *)
Definition dec_of_float (f : spec_float) : decimal :=
  match f with
  | S754_zero _ => DFinite 0 0
  | S754_infinity s => DInfinity s
  | S754_nan => DNaN
  | S754_finite s m e =>
    let n := if s then - Z.pos m else Z.pos m in
    if 0 <=? e then DFinite (n * 2 ^ e) 0 else DFinite (n * 5 ^ (- e)) e
  end.

Definition digit_of (v : pyval) : option Z :=
  match int_of_num v with
  | Some z => if (0 <=? z) && (z <=? 9) then Some z else None
  | None => None
  end.

(** [Decimal([sign, digits, exponent])] *)
Definition dec_of_parts (sign digits exponent : pyval) : res decimal :=
  match int_of_num sign, digits with
  | Some s, PList digits =>
    if negb ((s =? 0) || (s =? 1)) then Err ValueError else
    let* _ := match exponent with
              | PInt e => if (- 2 ^ 63 <=? e) && (e <? 2 ^ 63) then Ok tt else Err OverflowError
              | _ => Ok tt
              end in
    match mapM digit_of digits with
    | None => Err ValueError
    | Some ds =>
      match exponent with
      | PStr t =>
        if String.eqb t "F" then Ok (DInfinity (s =? 1)) else
        if String.eqb t "n" || String.eqb t "N" then Ok DNaN else Err ValueError
      | _ =>
        match int_of_num exponent with
        | None => Err ValueError
        | Some e => match dec_exact (s =? 1) (of_digits 10 ds) e with
                    | Some d => Ok d
                    | None => Err InvalidOperation
                    end
        end
      end
    end
  | _, _ => Err ValueError
  end.

(** [Decimal(v)] *)
Definition Decimal (v : pyval) : res decimal :=
  match v with
  | PStr s => match dec_of_str s with Some d => Ok d | None => Err InvalidOperation end
  | PInt z => Ok (DFinite z 0)
  | PBool b => Ok (DFinite (Z.b2z b) 0)
  | PFloat f => Ok (dec_of_float f)
  | PList [sign; digits; exponent] => dec_of_parts sign digits exponent
  | PList _ => Err ValueError
  | _ => Err TypeError
  end.
End Parse.
