(* ===== verification/PyDate.v ===== *)
(** * [datetime.datetime]

    What the mandates and the orders use: [isoformat], [fromisoformat],
    [fromtimestamp] and the order of aware datetimes.

    The texts [fromisoformat] reads depend on the interpreter (since Python 3.11
    it reads most of ISO 8601, before that only what [isoformat] can write), so
    the function is the class [IsoDates]; [iso_grammar] is the instance for the
    grammar that every supported version documents. *)

From Stdlib Require Import ZArith Lia Ascii String SpecFloat.
From stdpp Require Import base list strings.
From S2P Require Import Prelude Digits PyStr PyValue PyDecimal.

Local Open Scope string_scope.
Local Open Scope Z_scope.

(** The fields of a [datetime]; the offset of its time zone is in
    microseconds, and a naive datetime has none. *)
Record datetime := {
  dt_year : Z; dt_month : Z; dt_day : Z;
  dt_hour : Z; dt_minute : Z; dt_second : Z; dt_micro : Z;
  dt_offset : option Z
}.

(** ** The calendar *)

Definition is_leap (y : Z) : bool := (y mod 4 =? 0) && (negb (y mod 100 =? 0) || (y mod 400 =? 0)).

Definition days_in_month (y m : Z) : Z :=
  if m =? 2 then (if is_leap y then 29 else 28)
  else if (m =? 4) || (m =? 6) || (m =? 9) || (m =? 11) then 30 else 31.

Definition days_before_year (y : Z) : Z :=
  let y := y - 1 in y * 365 + y / 4 - y / 100 + y / 400.

Definition days_before_month (y m : Z) : Z :=
  fold_left (fun n k => n + days_in_month y (Z.of_nat k)) (seq 1 (Z.to_nat (m - 1))) 0.

(** [date.toordinal] *)
Definition toordinal (d : datetime) : Z :=
  days_before_year d.(dt_year) + days_before_month d.(dt_year) d.(dt_month) + d.(dt_day).

Definition MICROS : Z := 1000000.
Definition DAY_MICROS : Z := 24 * 60 * 60 * MICROS.

Definition clock_micros (h mi s us : Z) : Z := ((h * 60 + mi) * 60 + s) * MICROS + us.

(** The instant of an aware datetime, in microseconds on the UTC time line;
    comparing two aware datetimes compares their instants. *)
Definition instant (d : datetime) : option Z :=
  match d.(dt_offset) with
  | Some offset =>
    Some (toordinal d * DAY_MICROS + clock_micros d.(dt_hour) d.(dt_minute) d.(dt_second) d.(dt_micro) - offset)
  | None => None
  end.

Definition between (lo z hi : Z) : bool := (lo <=? z) && (z <=? hi).

(** The checks of the constructors of [datetime] and [timezone]. *)
Definition valid_datetime (d : datetime) : bool :=
  between 1 d.(dt_year) 9999 && between 1 d.(dt_month) 12 &&
  between 1 d.(dt_day) (days_in_month d.(dt_year) d.(dt_month)) &&
  between 0 d.(dt_hour) 23 && between 0 d.(dt_minute) 59 && between 0 d.(dt_second) 59 &&
  between 0 d.(dt_micro) 999999 &&
  match d.(dt_offset) with Some o => Z.abs o <? DAY_MICROS | None => true end.

(** ** Text *)

(** [f"{n:0{w}d}"] *)
Definition pad (w : nat) (n : Z) : string :=
  let digits := dec_digits n in str_repeat "0" (w - String.length digits) ++ digits.

(** [HH:MM[:SS[.ffffff]]] of a time zone *)
Definition offset_text (o : Z) : string :=
  let a := Z.abs o in
  let s := a / MICROS in
  (if o <? 0 then "-" else "+") ++ pad 2 (s / 3600) ++ ":" ++ pad 2 (s / 60 mod 60) ++
  (if (s mod 60 =? 0) && (a mod MICROS =? 0) then "" else
   ":" ++ pad 2 (s mod 60) ++ (if a mod MICROS =? 0 then "" else "." ++ pad 6 (a mod MICROS))).

(** [d.isoformat()] *)
Definition isoformat (d : datetime) : string :=
  pad 4 d.(dt_year) ++ "-" ++ pad 2 d.(dt_month) ++ "-" ++ pad 2 d.(dt_day) ++ "T" ++
  pad 2 d.(dt_hour) ++ ":" ++ pad 2 d.(dt_minute) ++ ":" ++ pad 2 d.(dt_second) ++
  (if d.(dt_micro) =? 0 then "" else "." ++ pad 6 d.(dt_micro)) ++
  match d.(dt_offset) with Some o => offset_text o | None => "" end.

(** [datetime.fromisoformat]; [None] is a [ValueError]. *)
Class IsoDates := fromisoformat : string -> option datetime.

(** ** The documented grammar:
    [YYYY-MM-DD[*HH[:MM[:SS[.fff[fff]]]][+HH:MM[:SS[.ffffff]]]]] *)

Fixpoint take_digits (n : nat) (l : list Z) (acc : Z) : option (Z * list Z) :=
  match n, l with
  | O, _ => Some (acc, l)
  | S n, c :: l => if cp_digit c then take_digits n l (acc * 10 + (c - 48)) else None
  | S _, [] => None
  end.

(** The rest of the text after the character [c], if it is there. *)
Definition after (c : Z) (l : list Z) : option (list Z) :=
  match l with d :: l' => if d =? c then Some l' else None | [] => None end.

(** [HH[:MM[:SS[.fff[fff]]]]]: microseconds, and what follows *)
Definition parse_fraction (l : list Z) : option (Z * list Z) :=
  match after 46 l with
  | None => Some (0, l)
  | Some l =>
    let (f, l) := span_cp l in
    if Nat.eqb (List.length f) 6 then Some (digits_value f, l)
    else if Nat.eqb (List.length f) 3 then Some (digits_value f * 1000, l) else None
  end.

Definition parse_clock (l : list Z) : option (Z * Z * Z * Z * list Z) :=
  match take_digits 2 l 0 with
  | None => None
  | Some (h, l) =>
    match after 58 l with
    | None => Some (h, 0, 0, 0, l)
    | Some l =>
      match take_digits 2 l 0 with
      | None => None
      | Some (mi, l) =>
        match after 58 l with
        | None => Some (h, mi, 0, 0, l)
        | Some l =>
          match take_digits 2 l 0 with
          | None => None
          | Some (s, l) => option_map (fun '(us, l) => (h, mi, s, us, l)) (parse_fraction l)
          end
        end
      end
    end
  end.

(** The time zone after a clock: nothing, or a sign and a clock of 5, 8 or 15
    characters. *)
Definition parse_zone (l : list Z) : option (option Z) :=
  match l with
  | [] => Some None
  | c :: l =>
    if negb ((c =? 43) || (c =? 45)) then None else
    let n := List.length l in
    if negb (Nat.eqb n 5 || Nat.eqb n 8 || Nat.eqb n 15) then None else
    match parse_clock l with
    | Some (h, mi, s, us, []) =>
      let o := clock_micros h mi s us in Some (Some (if c =? 45 then - o else o))
    | _ => None
    end
  end.

Definition parse_date (l : list Z) : option (Z * Z * Z * list Z) :=
  match take_digits 4 l 0 with
  | None => None
  | Some (y, l) =>
    match after 45 l with
    | None => None
    | Some l =>
      match take_digits 2 l 0 with
      | None => None
      | Some (m, l) =>
        match after 45 l with
        | None => None
        | Some l => option_map (fun '(d, l) => (y, m, d, l)) (take_digits 2 l 0)
        end
      end
    end
  end.

Definition iso_grammar : IsoDates := fun text =>
  match parse_date (code_points text) with
  | None => None
  | Some (y, m, d, l) =>
    match (match l with
           | [] => Some (0, 0, 0, 0, None)
           | _separator :: l =>
             match parse_clock l with
             | None => None
             | Some (h, mi, s, us, l) => option_map (fun o => (h, mi, s, us, o)) (parse_zone l)
             end
           end) with
    | None => None
    | Some (h, mi, s, us, o) =>
      let dt := {| dt_year := y; dt_month := m; dt_day := d; dt_hour := h; dt_minute := mi; dt_second := s;
                   dt_micro := us; dt_offset := o |} in
      if valid_datetime dt then Some dt else None
    end
  end.

(** ** [datetime.fromtimestamp(ms / 1000, tz=timezone.utc)] *)

(** [ms / 1000]: the quotient of two [int]s, correctly rounded *)
Definition int_to_float (z : Z) : spec_float :=
  match z with
  | Z0 => S754_zero false
  | Zpos p => S754_finite false p 0
  | Zneg p => S754_finite true p 0
  end.
Definition seconds_of_ms (ms : Z) : spec_float := SFdiv 53 1024 (int_to_float ms) (int_to_float 1000).

(** The nearest integer to [m * 2 ^ e], ties to even. *)
Definition round_half_even (m : Z) (e : Z) : Z :=
  if 0 <=? e then m * 2 ^ e else
  let d := 2 ^ (- e) in
  let q := m / d in
  let r := m mod d in
  if 2 * r <? d then q else if d <? 2 * r then q + 1 else if Z.even q then q else q + 1.

(** The microseconds since the epoch: the fraction of a second is scaled in
    floating point and rounded.  Timestamps are not negative here. *)
Definition float_micros (f : spec_float) : option Z :=
  match f with
  | S754_zero _ => Some 0
  | S754_finite s m e =>
    let n := if s then - Z.pos m else Z.pos m in
    if 0 <=? e then Some (n * 2 ^ e * MICROS) else
    let seconds := Z.quot n (2 ^ (- e)) in
    match SFmul 53 1024 (binary_normalize 53 1024 (Z.rem n (2 ^ (- e))) e s) (int_to_float MICROS) with
    | S754_finite s' m' e' =>
      Some (seconds * MICROS + (if s' then - round_half_even (Z.pos m') e' else round_half_even (Z.pos m') e'))
    | _ => Some (seconds * MICROS)
    end
  | _ => None
  end.

(** The instants of the epoch and of the year 10000. *)
Definition EPOCH : Z := (days_before_year 1970 + 1) * DAY_MICROS.
Definition YEAR_10000 : Z := (days_before_year 10000 + 1) * DAY_MICROS.

(** Beyond the last second [gmtime] can represent, and beyond [time_t]. *)
Definition GMTIME_MAX : Z := 67768036191676799.

Definition fromtimestamp_ms (ms : Z) : res Z :=
  match float_micros (seconds_of_ms ms) with
  | None => Err OverflowError
  | Some us =>
    if 2 ^ 63 <=? us / MICROS then Err OverflowError else
    if GMTIME_MAX <? us / MICROS then Err OSError else
    if YEAR_10000 <=? EPOCH + us then Err ValueError else Ok (EPOCH + us)
  end.
