(* ===== verification/Json.v ===== *)
(** * The [json] module

    [json.dumps(v, sort_keys=True, separators=(",", ":"), ensure_ascii=False)]
    and [json.loads], on character lists.  [loads_dumps] is the round trip the
    rest of the development uses: decoding an encoded value yields the same
    value with its entries sorted. *)

From Stdlib Require Import ZArith Lia Ascii String SpecFloat Permutation.
From stdpp Require Import base list strings sorting.
From S2P Require Import Prelude Digits PyStr PyValue.

Local Open Scope string_scope.
Local Open Scope char_scope.
Local Open Scope list_scope.
Local Open Scope Z_scope.

Abbreviation dq := ("034"%char).
Abbreviation bs := ("092"%char).

(** ** Encoder *)

(** [json.encoder.ESCAPE_DCT]: quotes, backslashes and control characters. *)
Definition esc_char (c : ascii) : list ascii :=
  let b := byte_of c in
  if b =? 34 then [bs; dq]
  else if b =? 92 then [bs; bs]
  else if b =? 10 then [bs; "n"]
  else if b =? 13 then [bs; "r"]
  else if b =? 9 then [bs; "t"]
  else if b =? 8 then [bs; "b"]
  else if b =? 12 then [bs; "f"]
  else if b <? 32 then bs :: "u" :: "0" :: "0" :: hex_of_byte b
  else [c].

Definition json_quote (s : string) : list ascii := dq :: (chars s ≫= esc_char) ++ [dq].

Fixpoint join_chars (sep : ascii) (parts : list (list ascii)) : list ascii :=
  match parts with
  | [] => []
  | [p] => p
  | p :: ps => p ++ sep :: join_chars sep ps
  end.

Definition member (p : string * list ascii) : list ascii := json_quote p.1 ++ ":" :: p.2.

(** The encoder on values that passed the canonical validation; floats and
    foreign objects never reach it ([canonical_json_rejects]). *)
Fixpoint enc (v : pyval) : list ascii :=
  match v with
  | PNone => chars "null"
  | PBool true => chars "true"
  | PBool false => chars "false"
  | PInt z => chars (int_str z)
  | PStr s => json_quote s
  | PList l => "[" :: join_chars "," (map enc l) ++ ["]"]
  | PDict d => "{" :: join_chars "," (map member (sort_items (map_snd enc d))) ++ ["}"]
  | PFloat _ | POther _ => []
  end.

Definition dumps (v : pyval) : string := of_chars (enc v).

(** *** The same encoder over another way to write strings *)

Section Encoder.
Context (body : string -> list ascii).

Definition quote_with (s : string) : list ascii := dq :: body s ++ [dq].
Definition member_with (p : string * list ascii) : list ascii := quote_with p.1 ++ ":" :: p.2.

Fixpoint enc_with (v : pyval) : list ascii :=
  match v with
  | PNone => chars "null"
  | PBool true => chars "true"
  | PBool false => chars "false"
  | PInt z => chars (int_str z)
  | PStr s => quote_with s
  | PList l => "[" :: join_chars "," (map enc_with l) ++ ["]"]
  | PDict d => "{" :: join_chars "," (map member_with (sort_items (map_snd enc_with d))) ++ ["}"]
  | PFloat _ | POther _ => []
  end.
End Encoder.

Definition json_body (s : string) : list ascii := chars s ≫= esc_char.

(** Every string and every key satisfies [ok]. *)
Fixpoint strings_ok (ok : string -> bool) (v : pyval) : bool :=
  match v with
  | PStr s => ok s
  | PList l => forallb (strings_ok ok) l
  | PDict d => forallb (fun kv => ok kv.1 && strings_ok ok kv.2) d
  | _ => true
  end.

(** ** Decoder *)

Definition is_ws (c : ascii) : bool :=
  Ascii.eqb c " " || Ascii.eqb c "009" || Ascii.eqb c "010" || Ascii.eqb c "013".

Fixpoint skip_ws (l : list ascii) : list ascii :=
  match l with c :: l' => if is_ws c then skip_ws l' else l | [] => [] end.

Definition hex4 (a b c d : ascii) : option Z :=
  match hex_value a, hex_value b, hex_value c, hex_value d with
  | Some w, Some x, Some y, Some z => Some (w * 4096 + x * 256 + y * 16 + z)
  | _, _, _, _ => None
  end.

(** UTF-8 bytes of a code point (surrogates pass). *)
Definition utf8_of_cp (p : Z) : list ascii :=
  chr <$>
  (if p <? 0x80 then [p]
   else if p <? 0x800 then [0xC0 + p / 64; 0x80 + p mod 64]
   else if p <? 0x10000 then [0xE0 + p / 4096; 0x80 + p / 64 mod 64; 0x80 + p mod 64]
   else [0xF0 + p / 262144; 0x80 + p / 4096 mod 64; 0x80 + p / 64 mod 64; 0x80 + p mod 64]).

Definition is_high (p : Z) : bool := (0xD800 <=? p) && (p <=? 0xDBFF).
Definition is_low (p : Z) : bool := (0xDC00 <=? p) && (p <=? 0xDFFF).

Definition simple_escape (c : ascii) : option ascii :=
  if Ascii.eqb c dq then Some dq
  else if Ascii.eqb c bs then Some bs
  else if Ascii.eqb c "/" then Some "/"
  else if Ascii.eqb c "b" then Some "008"
  else if Ascii.eqb c "f" then Some "012"
  else if Ascii.eqb c "n" then Some "010"
  else if Ascii.eqb c "r" then Some "013"
  else if Ascii.eqb c "t" then Some "009"
  else None.

Definition prepend (p : list ascii) (r : option (list ascii * list ascii)) :=
  match r with Some (s, l) => Some (p ++ s, l) | None => None end.

(** [scanstring(s, end, strict=True)]: the contents up to the closing quote. *)
Fixpoint parse_str (l : list ascii) : option (list ascii * list ascii) :=
  match l with
  | [] => None
  | c :: l1 =>
    if Ascii.eqb c dq then Some ([], l1)
    else if Ascii.eqb c bs then
      match l1 with
      | [] => None
      | e :: l2 =>
        match simple_escape e with
        | Some x => prepend [x] (parse_str l2)
        | None =>
          if Ascii.eqb e "u" then
            match l2 with
            | h1 :: h2 :: h3 :: h4 :: l3 =>
              match hex4 h1 h2 h3 h4 with
              | None => None
              | Some p =>
                if is_high p then
                  match l3 with
                  | b :: u :: g1 :: g2 :: g3 :: g4 :: l4 =>
                    if Ascii.eqb b bs && Ascii.eqb u "u" then
                      match hex4 g1 g2 g3 g4 with
                      | None => None
                      | Some q =>
                        if is_low q then
                          prepend (utf8_of_cp (0x10000 + (p - 0xD800) * 1024 + (q - 0xDC00)))
                            (parse_str l4)
                        else prepend (utf8_of_cp p) (parse_str l3)
                      end
                    else prepend (utf8_of_cp p) (parse_str l3)
                  | _ => prepend (utf8_of_cp p) (parse_str l3)
                  end
                else prepend (utf8_of_cp p) (parse_str l3)
              end
            | _ => None
            end
          else None
        end
      end
    else if byte_of c <? 32 then None
    else prepend [c] (parse_str l1)
  end.

Fixpoint span_digits (l : list ascii) : list ascii * list ascii :=
  match l with
  | c :: l' => if is_dec c then let '(ds, r) := span_digits l' in (c :: ds, r) else ([], l)
  | [] => ([], [])
  end.

(** The binary64 nearest to [m * 10^e]. *)
Definition float_of_decimal (neg : bool) (m e : Z) : spec_float :=
  let r :=
    if 0 <=? e then binary_normalize 53 1024 (m * 10 ^ e) 0 false
    else
      let d := 10 ^ (- e) in
      let k := Z.max 0 (66 + Z.log2 d - Z.log2 m) in
      let q := m * 2 ^ k / d in
      let sticky := if q * d =? m * 2 ^ k then 0 else 1 in
      binary_normalize 53 1024 (2 * q + sticky) (- (k + 1)) false in
  if neg then SFopp r else r.

(** [NUMBER_RE]: an optional minus sign, [0] or a numeral without leading zero,
    an optional fraction and an optional exponent. *)
Definition parse_int_part (l : list ascii) : option (list ascii * list ascii) :=
  match l with
  | c :: l' =>
    if Ascii.eqb c "0" then Some ([c], l')
    else if is_dec c then Some (span_digits l) else None
  | [] => None
  end.

Definition parse_frac (l : list ascii) : option (list ascii * list ascii) :=
  match l with
  | p :: (d :: _) as l' =>
    if Ascii.eqb p "." && is_dec d then Some (span_digits l') else None
  | _ => None
  end.

Definition parse_exp (l : list ascii) : option (Z * list ascii) :=
  match l with
  | e :: l1 =>
    if Ascii.eqb e "e" || Ascii.eqb e "E" then
      let '(sgn, l2) :=
        match l1 with
        | s :: l2 => if Ascii.eqb s "-" then (-1, l2) else if Ascii.eqb s "+" then (1, l2) else (1, l1)
        | [] => (1, l1)
        end in
      match span_digits l2 with
      | ([], _) => None
      | (ds, r) => Some (sgn * dec_value (of_chars ds), r)
      end
    else None
  | [] => None
  end.

Definition parse_number (l : list ascii) : option (pyval * list ascii) :=
  let '(neg, l1) :=
    match l with
    | c :: l' => if Ascii.eqb c "-" then (true, l') else (false, l)
    | [] => (false, l)
    end in
  match parse_int_part l1 with
  | None => None
  | Some (ip, l2) =>
    let frac := parse_frac l2 in
    let '(fp, l3) := match frac with Some (fp, l3) => (fp, l3) | None => ([], l2) end in
    let ex := parse_exp l3 in
    let '(e, l4) := match ex with Some (e, l4) => (e, l4) | None => (0, l3) end in
    match frac, ex with
    | None, None =>
      let n := dec_value (of_chars ip) in Some (PInt (if neg then - n else n), l2)
    | _, _ =>
      Some (PFloat (float_of_decimal neg (dec_value (of_chars (ip ++ fp)))
                     (e - Z.of_nat (List.length fp))), l4)
    end
  end.

Definition strip_prefix (p : string) (l : list ascii) : option (list ascii) :=
  if list_eqb Ascii.eqb (chars p) (take (String.length p) l)
  then Some (drop (String.length p) l) else None.

Definition parse_literal (l : list ascii) : option (pyval * list ascii) :=
  match strip_prefix "null" l with Some r => Some (PNone, r) | None =>
  match strip_prefix "true" l with Some r => Some (PBool true, r) | None =>
  match strip_prefix "false" l with Some r => Some (PBool false, r) | None =>
  match strip_prefix "NaN" l with Some r => Some (PFloat S754_nan, r) | None =>
  match strip_prefix "Infinity" l with Some r => Some (PFloat (S754_infinity false), r) | None =>
  match strip_prefix "-Infinity" l with Some r => Some (PFloat (S754_infinity true), r) | None =>
  parse_number l end end end end end end.

(** [scan_once]; [fuel] bounds the number of nested calls, and the length of
    the text is always enough. *)
Fixpoint parse_value (fuel : nat) (l : list ascii) : option (pyval * list ascii) :=
  match fuel with
  | O => None
  | S fuel =>
    match l with
    | [] => None
    | c :: l1 =>
      if Ascii.eqb c dq then
        match parse_str l1 with Some (s, r) => Some (PStr (of_chars s), r) | None => None end
      else if Ascii.eqb c "{" then
        match skip_ws l1 with
        | [] => None
        | x :: r => if Ascii.eqb x "}" then Some (PDict [], r) else parse_members fuel (x :: r) []
        end
      else if Ascii.eqb c "[" then
        match skip_ws l1 with
        | [] => None
        | x :: r => if Ascii.eqb x "]" then Some (PList [], r) else parse_items fuel (x :: r) []
        end
      else parse_literal l
    end
  end
with parse_members (fuel : nat) (l : list ascii) (acc : list (string * pyval))
    : option (pyval * list ascii) :=
  match fuel with
  | O => None
  | S fuel =>
    match l with
    | [] => None
    | c :: l1 =>
      if negb (Ascii.eqb c dq) then None else
      match parse_str l1 with
      | None => None
      | Some (k, l2) =>
        match skip_ws l2 with
        | [] => None
        | x :: l3 =>
          if negb (Ascii.eqb x ":") then None else
          match parse_value fuel (skip_ws l3) with
          | None => None
          | Some (v, l4) =>
            let acc := dict_set (of_chars k) v acc in
            match skip_ws l4 with
            | [] => None
            | y :: l5 =>
              if Ascii.eqb y "," then parse_members fuel (skip_ws l5) acc
              else if Ascii.eqb y "}" then Some (PDict acc, l5) else None
            end
          end
        end
      end
    end
  end
with parse_items (fuel : nat) (l : list ascii) (acc : list pyval)
    : option (pyval * list ascii) :=
  match fuel with
  | O => None
  | S fuel =>
    match parse_value fuel l with
    | None => None
    | Some (v, l2) =>
      match skip_ws l2 with
      | [] => None
      | y :: l3 =>
        if Ascii.eqb y "," then parse_items fuel (skip_ws l3) (v :: acc)
        else if Ascii.eqb y "]" then Some (PList (rev (v :: acc)), l3) else None
      end
    end
  end.

(** [json.loads(text)]; a [JSONDecodeError] is a [ValueError]. *)
Definition json_loads (s : string) : res pyval :=
  match parse_value (S (String.length s)) (skip_ws (chars s)) with
  | Some (v, r) => match skip_ws r with [] => Ok v | _ => Err ValueError end
  | None => Err ValueError
  end.

Example loads_ex1 :
  json_loads (of_chars (map (fun c => if Ascii.eqb c "'" then dq else c)
    (chars "{'b': [1, -20, true], 'a': {'x': 'h\u00e9\n'}, 'b': null} ")%string)) =
  Ok (PDict [("b"%string, PNone);
             ("a"%string, PDict [("x"%string, PStr (of_chars ["h"; "195"; "169"; "010"]))])]).
Proof. vm_compute. reflexivity. Qed.

Example loads_ex2 :
  json_loads "[0.1, 1e3, -2.5]" =
  Ok (PList [PFloat (S754_finite false 7205759403792794 (-56));
             PFloat (S754_finite false 8796093022208000 (-43));
             PFloat (S754_finite true 5629499534213120 (-51))]).
Proof. vm_compute. reflexivity. Qed.

(** ** Round trip *)

Lemma parse_str_esc c X : parse_str (esc_char c ++ X) = prepend [c] (parse_str X).
Proof. destruct c as [[] [] [] [] [] [] [] []]; reflexivity. Qed.

Lemma parse_str_escaped cs r : parse_str ((cs ≫= esc_char) ++ dq :: r) = Some (cs, r).
Proof.
  induction cs as [|c cs IH]; [done|].
  change ((c :: cs) ≫= esc_char) with (esc_char c ++ (cs ≫= esc_char)).
  by rewrite <- app_assoc, parse_str_esc, IH.
Qed.

(** What may follow a number: nothing that continues it. *)
Definition stops (l : list ascii) : Prop :=
  match l with
  | [] => True
  | c :: _ => is_dec c = false /\ Ascii.eqb c "." = false /\
              Ascii.eqb c "e" = false /\ Ascii.eqb c "E" = false
  end.

Lemma span_digits_app ds r :
  forallb is_dec ds = true -> stops r -> span_digits (ds ++ r) = (ds, r).
Proof.
  induction ds as [|d ds IH]; simpl.
  - intros _ Hr. destruct r as [|c r]; [done|]. simpl. by destruct Hr as [-> _].
  - rewrite andb_true_iff. intros [-> Hds] Hr. by rewrite (IH Hds Hr).
Qed.

Lemma parse_exp_stops r : stops r -> parse_exp r = None.
Proof. destruct r as [|c r]; [done|]. simpl. by intros (_ & _ & -> & ->). Qed.

Lemma parse_frac_stops r : stops r -> parse_frac r = None.
Proof. destruct r as [|c [|d r]]; [done..|]. simpl. by intros (_ & -> & _). Qed.

Lemma parse_number_nat n r :
  0 < n -> stops r ->
  parse_int_part (chars (dec_digits n) ++ r) = Some (chars (dec_digits n), r).
Proof.
  intros Hn Hr. pose proof (dec_digits_all n ltac:(lia)) as Hall. unfold char_all in Hall.
  destruct (normal_to_digits 10 ltac:(lia) n ltac:(lia)) as [Hr10 Hh].
  destruct (to_digits 10 n) as [|d ds] eqn:E.
  { pose proof (of_to_digits 10 ltac:(lia) n ltac:(lia)) as Hv. rewrite E in Hv.
    unfold of_digits in Hv. simpl in Hv. lia. }
  specialize (Hh _ _ eq_refl). apply Forall_cons in Hr10 as [Hd _]. unfold is_digit in Hd.
  assert (chars (dec_digits n) = digit_char d :: map digit_char ds) as Ec.
  { unfold dec_digits. by rewrite chars_of_chars, E. }
  rewrite Ec in *. change ((digit_char d :: map digit_char ds) ++ r)
    with (digit_char d :: (map digit_char ds ++ r)). cbn [parse_int_part].
  replace (Ascii.eqb (digit_char d) "0") with false.
  2: { symmetry. apply Ascii.eqb_neq. intros E0. apply (f_equal digit_value) in E0.
       rewrite digit_value_char in E0 by lia. vm_compute in E0. lia. }
  rewrite is_dec_digit_char by lia. f_equal.
  change (digit_char d :: (map digit_char ds ++ r)) with ((digit_char d :: map digit_char ds) ++ r).
  by apply span_digits_app.
Qed.

Lemma int_part_not_minus n :
  0 <= n -> match chars (dec_digits n) with c :: _ => is_dec c = true | [] => n = 0 end.
Proof.
  intros Hn. pose proof (dec_digits_all n Hn) as H. unfold char_all in H.
  destruct (chars (dec_digits n)) as [|c l] eqn:E.
  - rewrite <- (dec_value_digits n Hn). by rewrite <- (of_chars_chars (dec_digits n)), E.
  - simpl in H. by apply andb_true_iff in H as [? _].
Qed.

Lemma is_dec_ne c x : is_dec c = true -> is_dec x = false -> Ascii.eqb c x = false.
Proof. intros H1 H2. apply Ascii.eqb_neq. congruence. Qed.

Lemma parse_number_int z r :
  stops r -> parse_number (chars (int_str z) ++ r) = Some (PInt z, r).
Proof.
  intros Hr. unfold int_str. destruct (Z.eqb_spec z 0) as [->|Hz].
  { change (chars "0" ++ r) with ("0"%char :: r). unfold parse_number.
    cbn [Ascii.eqb Bool.eqb parse_int_part].
    rewrite parse_frac_stops, parse_exp_stops by done. done. }
  destruct (Z.ltb_spec z 0) as [Hneg|Hpos].
  - change (chars ("-" ++ dec_digits (- z))%string ++ r)
      with ("-"%char :: (chars (dec_digits (- z)) ++ r)).
    unfold parse_number. cbn [Ascii.eqb Bool.eqb].
    rewrite parse_number_nat by (done || lia).
    rewrite parse_frac_stops, parse_exp_stops by done.
    rewrite of_chars_chars, dec_value_digits by lia. do 2 f_equal. f_equal. lia.
  - pose proof (int_part_not_minus z ltac:(lia)) as Hc.
    pose proof (parse_number_nat z r ltac:(lia) Hr) as Hp.
    unfold parse_number. destruct (chars (dec_digits z)) as [|c l] eqn:E; [lia|].
    change ((c :: l) ++ r) with (c :: (l ++ r)) in *. cbv beta iota.
    rewrite (is_dec_ne c "-" Hc eq_refl). cbv beta iota.
    rewrite Hp. rewrite parse_frac_stops, parse_exp_stops by done.
    rewrite <- E, of_chars_chars, dec_value_digits by lia. done.
Qed.

Lemma strip_prefix_ne p q c l : p <> c -> strip_prefix (String p q) (c :: l) = None.
Proof.
  intros H. unfold strip_prefix. cbn [chars String.length take list_eqb].
  by rewrite (proj2 (Ascii.eqb_neq p c) H).
Qed.

Lemma strip_prefix_cons p q l : strip_prefix (String p q) (p :: l) = strip_prefix q l.
Proof.
  unfold strip_prefix. cbn [chars String.length take list_eqb drop]. by rewrite Ascii.eqb_refl.
Qed.

Lemma parse_literal_int z r :
  stops r -> parse_literal (chars (int_str z) ++ r) = Some (PInt z, r).
Proof.
  intros Hr. rewrite <- (parse_number_int z r Hr). unfold parse_literal.
  assert (exists c l, chars (int_str z) = c :: l /\
    (is_dec c = true \/ c = "-"%char /\ exists d l', l = d :: l' /\ is_dec d = true))
    as (c & l & -> & Hc).
  { unfold int_str. destruct (Z.eqb_spec z 0) as [->|]; [by eexists _, _; split; [reflexivity|left]|].
    destruct (Z.ltb_spec z 0).
    - pose proof (int_part_not_minus (- z) ltac:(lia)) as Hm.
      eexists _, (chars (dec_digits (- z))). split; [reflexivity|]. right. split; [done|].
      destruct (chars (dec_digits (- z))); [lia|eauto].
    - pose proof (int_part_not_minus z ltac:(lia)) as Hm.
      destruct (chars (dec_digits z)) as [|c l]; [lia|]. exists c, l. auto. }
  assert (forall p q, is_dec p = false -> p <> "-"%char -> strip_prefix (String p q) (c :: l ++ r) = None) as Hs.
  { intros p q Hp Hm. apply strip_prefix_ne. destruct Hc as [Hc|[-> _]]; congruence. }
  change ((c :: l) ++ r) with (c :: l ++ r). rewrite !Hs by done.
  replace (strip_prefix "-Infinity" (c :: l ++ r)) with (@None (list ascii)); [done|].
  symmetry. destruct Hc as [Hc|(-> & d & l' & -> & Hd)].
  - apply strip_prefix_ne. intros <-. discriminate Hc.
  - rewrite strip_prefix_cons. apply strip_prefix_ne. intros <-. discriminate Hd.
Qed.

(** An encoded value starts with a character that is neither white space nor a
    closing bracket. *)
Definition starts_value (l : list ascii) : Prop :=
  match l with
  | [] => False
  | c :: _ => is_ws c = false /\ Ascii.eqb c "]" = false /\ Ascii.eqb c "}" = false
  end.

Lemma starts_value_app l k : starts_value l -> starts_value (l ++ k).
Proof. by destruct l. Qed.

Lemma skip_ws_starts l : starts_value l -> skip_ws l = l.
Proof. destruct l as [|c l]; [done|]. simpl. by intros (-> & _). Qed.

Lemma is_dec_starts c : is_dec c = true -> starts_value [c].
Proof.
  intros H. simpl. unfold is_ws. rewrite !(is_dec_ne c) by done. done.
Qed.

Definition closes (c : ascii) : Prop := c = ","%char \/ c = "]"%char \/ c = "}"%char.

Lemma closes_stops c l : closes c -> stops (c :: l).
Proof. by intros [->|[->| ->]]. Qed.

Lemma closes_skip c l : closes c -> skip_ws (c :: l) = c :: l.
Proof. by intros [->|[->| ->]]. Qed.

Section RoundTrip.
Context (body : string -> list ascii) (ok : string -> bool).
Context (Hbody : forall s r, ok s = true -> parse_str (body s ++ dq :: r) = Some (chars s, r)).

Notation encb := (enc_with body).
Notation memb := (member_with body).

Lemma enc_with_starts v : jsonlike v = true -> starts_value (encb v).
Proof.
  destruct v as [|[]|z| | | | |]; try done. intros _. simpl. unfold int_str.
  destruct (Z.eqb_spec z 0); [done|]. destruct (Z.ltb_spec z 0); [done|].
  pose proof (int_part_not_minus z ltac:(lia)) as Hm.
  destruct (chars (dec_digits z)) as [|c l]; [lia|]. by apply is_dec_starts.
Qed.

(** [parses v]: the decoder recovers the representative of [v]. *)
Definition parses (v : pyval) : Prop :=
  forall fuel r, (List.length (encb v) < fuel)%nat -> stops r ->
    parse_value fuel (encb v ++ r) = Some (norm v, r).

Lemma join_cons sep p q ps :
  join_chars sep (p :: q :: ps) = p ++ sep :: join_chars sep (q :: ps).
Proof. done. Qed.

Lemma parse_items_join l acc fuel r :
  l <> [] -> Forall (fun v => jsonlike v = true) l -> Forall parses l ->
  (List.length (join_chars "," (map encb l)) + 1 < fuel)%nat ->
  parse_items fuel (join_chars "," (map encb l) ++ "]"%char :: r) acc =
  Some (PList (rev acc ++ map norm l), r).
Proof.
  revert acc fuel; induction l as [|x l IH]; intros acc fuel Hne Hj Hp Hf; [done|].
  apply Forall_cons in Hj as [Hjx Hj], Hp as [Hx Hp].
  destruct fuel as [|fuel]; [lia|]. destruct l as [|y l].
  - simpl in Hf |- *. rewrite Hx; [|lia|by apply closes_stops; right; left].
    rewrite closes_skip by (right; by left). done.
  - change (map encb (x :: y :: l)) with (encb x :: encb y :: map encb l) in *.
    rewrite join_cons in Hf |- *. rewrite length_app in Hf. cbn [List.length] in Hf.
    rewrite <- app_assoc. cbn [parse_items app].
    rewrite Hx; [|lia|by apply closes_stops; left].
    rewrite closes_skip by by left. cbn [Ascii.eqb Bool.eqb].
    change (encb y :: map encb l) with (map encb (y :: l)) in *.
    rewrite skip_ws_starts.
    + rewrite IH by (done || lia). simpl. by rewrite <- app_assoc.
    + apply Forall_cons in Hj as [Hjy _]. simpl map. destruct l; [by apply starts_value_app, enc_with_starts|].
      simpl. rewrite <- app_assoc. by apply starts_value_app, enc_with_starts.
Qed.

Lemma dict_set_fresh {A} k (v : A) d : ~ In k (dict_keys d) -> dict_set k v d = d ++ [(k, v)].
Proof.
  induction d as [|[k' v'] d IH]; [done|]. simpl. intros H.
  destruct (String.eqb_spec k k') as [->|]; [tauto|]. rewrite IH; tauto.
Qed.

Lemma parse_members_join d acc fuel r :
  d <> [] -> NoDup (dict_keys (acc ++ d)) ->
  Forall (fun kv => jsonlike kv.2 = true) d -> Forall (fun kv => parses kv.2) d ->
  Forall (fun kv => ok kv.1 = true) d ->
  (List.length (join_chars "," (map memb (map_snd encb d))) + 1 < fuel)%nat ->
  parse_members fuel (join_chars "," (map memb (map_snd encb d)) ++ "}"%char :: r) acc =
  Some (PDict (acc ++ map_snd norm d), r).
Proof.
  revert acc fuel; induction d as [|[k x] d IH]; intros acc fuel Hne Hnd Hj Hp Hk0 Hf; [done|].
  apply Forall_cons in Hj as [Hjx Hj], Hp as [Hx Hp], Hk0 as [Hok Hk0]. simpl in Hjx, Hx, Hok.
  destruct fuel as [|fuel]; [lia|].
  assert (~ In k (dict_keys acc)) as Hk.
  { unfold dict_keys in *. rewrite fmap_app in Hnd. apply NoDup_app in Hnd as (_ & Hnd & _).
    intros Hin. apply list_elem_of_In in Hin. apply (Hnd _ Hin). simpl. by left. }
  assert (forall Y, ":"%char :: encb x ++ Y = skip_ws (":"%char :: encb x ++ Y)) as Hcol by done.
  assert (forall Y, skip_ws (encb x ++ Y) = encb x ++ Y) as Hws.
  { intros Y. by apply skip_ws_starts, starts_value_app, enc_with_starts. }
  assert (forall Y, closes (hd "000"%char Y) -> (List.length (encb x) < fuel)%nat ->
    parse_members (S fuel) (memb (k, encb x) ++ Y) acc =
    match skip_ws Y with
    | [] => None
    | y :: l5 =>
      if Ascii.eqb y "," then parse_members fuel (skip_ws l5) (acc ++ [(k, norm x)])
      else if Ascii.eqb y "}" then Some (PDict (acc ++ [(k, norm x)]), l5) else None
    end) as Hstep.
  { intros Y HY Hfu. unfold member_with, quote_with. simpl fst; simpl snd.
    rewrite <- !app_assoc. cbn [app parse_members]. rewrite Ascii.eqb_refl. cbn [negb].
    rewrite <- app_assoc. cbn [app]. rewrite Hbody by done. rewrite <- Hcol.
    cbn [negb Ascii.eqb Bool.eqb]. rewrite Hws, Hx; [|done|].
    - by rewrite of_chars_chars, dict_set_fresh.
    - destruct Y as [|y Y]; [done|]. by apply closes_stops. }
  destruct d as [|[k2 y] d].
  - simpl map in *. simpl join_chars in *. unfold member_with at 1 in Hf. rewrite length_app in Hf.
    cbn [List.length snd fst] in Hf.
    rewrite Hstep; [|right; by right|lia]. rewrite closes_skip by (right; by right). done.
  - change (map memb (map_snd encb ((k, x) :: (k2, y) :: d)))
      with (memb (k, encb x) :: memb (k2, encb y) :: map memb (map_snd encb d)) in *.
    rewrite join_cons in Hf |- *. rewrite length_app in Hf. unfold member_with at 1 in Hf.
    rewrite length_app in Hf. cbn [List.length snd fst] in Hf.
    rewrite <- app_assoc, Hstep; [|by left|lia]. cbn [app].
    rewrite closes_skip by by left. cbn [Ascii.eqb Bool.eqb].
    change (memb (k2, encb y) :: map memb (map_snd encb d))
      with (map memb (map_snd encb ((k2, y) :: d))) in *.
    rewrite skip_ws_starts.
    + rewrite IH; [by rewrite <- app_assoc|done| |done..|lia].
      unfold dict_keys in *. rewrite !fmap_app in *. by rewrite <- app_assoc.
    + simpl map. by destruct (map memb (map_snd encb d)).
Qed.

Lemma enc_with_PDict d :
  NoDup (dict_keys d) ->
  encb (PDict d) = "{"%char :: join_chars "," (map memb (map_snd encb (sort_items d))) ++ ["}"%char].
Proof. intros Hd. simpl. by rewrite sort_items_map_snd. Qed.

Lemma norm_PDict_sorted d :
  NoDup (dict_keys d) -> norm (PDict d) = PDict (map_snd norm (sort_items d)).
Proof. intros Hd. simpl. by rewrite sort_items_map_snd. Qed.

Lemma enc_with_parses v : jsonlike v = true -> wf v -> strings_ok ok v = true -> parses v.
Proof.
  induction v as [|[]|z| |s|l IH|d IH|] using pyval_ind'; intros Hj Hw Ho fuel r Hf Hr; try done.
  all: try (destruct fuel as [|fuel]; [simpl in Hf; lia|]).
  - reflexivity.
  - reflexivity.
  - reflexivity.
  - cbn [enc_with norm] in *. pose proof (enc_with_starts (PInt z) eq_refl) as Hs.
    pose proof (parse_literal_int z r Hr) as Hp. cbn [enc_with] in Hs.
    assert (forall c, In c ["{"; "["; dq]%char -> hd "000"%char (chars (int_str z)) <> c) as Hne.
    { unfold int_str. destruct (Z.eqb_spec z 0); [simpl; naive_solver|].
      destruct (Z.ltb_spec z 0); [simpl; naive_solver|].
      pose proof (int_part_not_minus z ltac:(lia)) as Hm.
      destruct (chars (dec_digits z)) as [|c l]; [lia|]. intros x Hx. simpl. intros ->.
      simpl in Hx. destruct_or?; subst; done. }
    destruct (chars (int_str z)) as [|c l]; [done|]. simpl in Hne.
    cbn [app parse_value] in *.
    rewrite !(proj2 (Ascii.eqb_neq c _)) by (apply Hne; simpl; tauto). done.
  - cbn [enc_with norm]. unfold quote_with. cbn [app parse_value]. rewrite Ascii.eqb_refl.
    rewrite <- app_assoc. cbn [app]. rewrite Hbody by done. by rewrite of_chars_chars.
  - simpl in Hj, Ho. apply forallb_Forall in Hj, Ho. apply wf_PList in Hw.
    assert (Forall parses l) as Hp.
    { clear Hf. induction l; decompose_Forall_hyps; constructor; auto. }
    cbn [enc_with norm] in *. cbn [app parse_value Ascii.eqb Bool.eqb].
    rewrite <- app_assoc. cbn [app]. destruct l as [|x l]; [reflexivity|].
    assert (starts_value (join_chars "," (map encb (x :: l)))) as Hst.
    { apply Forall_cons in Hj as [Hjx _]. simpl. destruct (map encb l); [by apply enc_with_starts|].
      by apply starts_value_app, enc_with_starts. }
    rewrite skip_ws_starts by by apply starts_value_app.
    pose proof (parse_items_join (x :: l) [] fuel r ltac:(done) Hj Hp) as Hi.
    rewrite length_cons, length_app in Hf. simpl in Hf. specialize (Hi ltac:(simpl; lia)).
    destruct (join_chars "," (map encb (x :: l))) as [|c k] eqn:E; [done|].
    destruct Hst as (_ & Hc & _). cbn [app] in *. by rewrite Hc.
  - simpl in Hj, Ho. apply forallb_Forall in Hj, Ho. apply wf_PDict in Hw as [Hd Hw].
    assert (Forall (fun kv => ok kv.1 = true) d /\ Forall (fun kv => strings_ok ok kv.2 = true) d) as [Hk Hos].
    { split; eapply Forall_impl; try exact Ho; intros kv H; by apply andb_true_iff in H as []. }
    clear Ho.
    assert (Forall (fun kv => parses kv.2) d) as Hp.
    { clear Hf Hd. induction d; decompose_Forall_hyps; constructor; auto. }
    rewrite enc_with_PDict in * by done. rewrite norm_PDict_sorted by done.
    assert (Permutation d (sort_items d)) as Hperm by (symmetry; apply sort_items_Permutation).
    rewrite Hperm in Hj, Hp, Hk. clear Hw IH Hos.
    assert (NoDup (dict_keys (sort_items d))) as Hsd by by rewrite sort_items_keys.
    destruct (sort_items d) as [|[k x] e] eqn:Es; [reflexivity|].
    cbn [app parse_value Ascii.eqb Bool.eqb]. rewrite <- app_assoc. cbn [app].
    pose proof (parse_members_join ((k, x) :: e) [] fuel r ltac:(done) Hsd Hj Hp Hk) as Hi.
    rewrite length_cons, length_app in Hf. simpl List.length in Hf at 2.
    specialize (Hi ltac:(lia)).
    destruct (join_chars "," (map memb (map_snd encb ((k, x) :: e)))) as [|c q] eqn:E.
    { simpl in E. by destruct (map memb (map_snd encb e)). }
    assert (c = dq) as ->.
    { simpl in E. destruct (map memb (map_snd encb e)); simpl in E; by injection E. }
    cbn [app] in *. rewrite skip_ws_starts by done. by rewrite Hi.
Qed.
End RoundTrip.

Lemma enc_with_json_body v : enc_with json_body v = enc v.
Proof. reflexivity. Qed.

Lemma strings_ok_true v : strings_ok (fun _ => true) v = true.
Proof.
  induction v as [| | | | |l IH|d IH|] using pyval_ind'; try done; cbn [strings_ok]; by apply forallb_Forall.
Qed.

Lemma enc_starts v : jsonlike v = true -> starts_value (enc v).
Proof. rewrite <- enc_with_json_body. apply enc_with_starts. Qed.

Lemma enc_parses v fuel r :
  jsonlike v = true -> wf v -> (List.length (enc v) < fuel)%nat -> stops r ->
  parse_value fuel (enc v ++ r) = Some (norm v, r).
Proof.
  intros Hj Hw. rewrite <- enc_with_json_body.
  apply (enc_with_parses json_body (fun _ => true)); [|done..|apply strings_ok_true].
  intros s k _. apply parse_str_escaped.
Qed.

Lemma enc_PDict_sorted d :
  NoDup (dict_keys d) ->
  enc (PDict d) = "{"%char :: join_chars "," (map member (map_snd enc (sort_items d))) ++ ["}"%char].
Proof. intros Hd. simpl. by rewrite sort_items_map_snd. Qed.

(** Decoding an encoded value gives back its representative. *)
Lemma loads_dumps v : jsonlike v = true -> wf v -> json_loads (dumps v) = Ok (norm v).
Proof.
  intros Hj Hw. unfold json_loads, dumps.
  rewrite chars_of_chars, str_length_chars, chars_of_chars.
  rewrite skip_ws_starts by by apply enc_starts.
  pose proof (enc_parses v (S (List.length (enc v))) [] Hj Hw ltac:(lia) I) as H.
  rewrite app_nil_r in H. by rewrite H.
Qed.

Lemma dumps_inj v w :
  jsonlike v = true -> jsonlike w = true -> wf v -> wf w -> dumps v = dumps w -> norm v = norm w.
Proof.
  intros Hjv Hjw Hv Hw E. apply (f_equal json_loads) in E.
  rewrite !loads_dumps in E by done. congruence.
Qed.

Lemma norm_jsonlike v : jsonlike v = true -> jsonlike (norm v) = true.
Proof.
  induction v as [| | | | |l IH|d IH|] using pyval_ind'; try done; simpl;
    rewrite !forallb_Forall; intros Hj.
  - apply Forall_map. induction l; decompose_Forall_hyps; constructor; auto.
  - rewrite (sort_items_Permutation (map_snd norm d)). apply Forall_map.
    induction d; decompose_Forall_hyps; constructor; simpl; auto.
Qed.

Lemma sort_items_id {A} (d : list (string * A)) :
  NoDup (dict_keys d) -> sort_items (sort_items d) = sort_items d.
Proof.
  intros Hd. apply sort_items_perm; [by rewrite sort_items_keys|apply sort_items_Permutation].
Qed.

(** The encoder depends only on the representative. *)
Lemma enc_norm v : wf v -> enc (norm v) = enc v.
Proof.
  induction v as [| | | | |l IH|d IH|] using pyval_ind'; try done; intros Hw.
  - apply wf_PList in Hw. simpl. do 2 f_equal. f_equal. rewrite map_map.
    induction l; decompose_Forall_hyps; simpl; [done|]. f_equal; auto.
  - apply wf_PDict in Hw as [Hd Hw]. rewrite norm_PDict_sorted by done.
    assert (NoDup (dict_keys (sort_items d))) as Hs by by rewrite sort_items_keys.
    rewrite !enc_PDict_sorted by (by rewrite ?dict_keys_map_snd).
    rewrite sort_items_map_snd, sort_items_id by done. do 4 f_equal.
    assert (Permutation d (sort_items d)) as Hp by (symmetry; apply sort_items_Permutation).
    rewrite Hp in IH, Hw. clear Hp Hd Hs.
    induction (sort_items d) as [|[k x] e IHe]; [done|].
    apply Forall_cons in IH as [Hx IH], Hw as [Hwx Hw]. simpl in *. rewrite Hx by done.
    f_equal. auto.
Qed.

Lemma dumps_norm_eq v w : wf v -> wf w -> norm v = norm w -> dumps v = dumps w.
Proof.
  intros Hv Hw E. unfold dumps. by rewrite <- (enc_norm v Hv), <- (enc_norm w Hw), E.
Qed.
