(* ===== verification/JsonAscii.v ===== *)
(** * ASCII JSON and UTF-8 text

    [json.dumps(v, sort_keys=True, separators=(",", ":"), ensure_ascii=True)],
    which the event log writes its lines with: every character outside
    [' '..'~'] is an escape, so that a line holds no newline and no byte above
    127.  [loads_dumps_ascii] is its round trip. *)

From Stdlib Require Import ZArith Lia Ascii String Permutation.
From stdpp Require Import base list strings.
From S2P Require Import Prelude Digits PyStr PyValue Json.

Local Open Scope string_scope.
Local Open Scope char_scope.
Local Open Scope list_scope.
Local Open Scope Z_scope.

(** ** Strict UTF-8 *)

(** [bytes.decode("utf-8")] accepts [b]. *)
Fixpoint utf8_ok (b : list Z) : bool :=
  let cont x := (0x80 <=? x) && (x <=? 0xBF) in
  match b with
  | [] => true
  | x :: b1 =>
    if x <? 0x80 then utf8_ok b1
    else if x <? 0xC2 then false
    else if x <? 0xE0 then
      match b1 with y :: b2 => cont y && utf8_ok b2 | _ => false end
    else if x <? 0xF0 then
      match b1 with
      | y :: z :: b2 => (if x =? 0xE0 then 0xA0 <=? y else true) && (if x =? 0xED then y <=? 0x9F else true)
                        && cont y && cont z && utf8_ok b2
      | _ => false
      end
    else if x <? 0xF5 then
      match b1 with
      | y :: z :: w :: b2 => (if x =? 0xF0 then 0x90 <=? y else true) && (if x =? 0xF4 then y <=? 0x8F else true)
                             && cont y && cont z && cont w && utf8_ok b2
      | _ => false
      end
    else false
  end.

(** [json.loads(line.decode("utf-8"))] *)
Definition loads_bytes (line : string) : res pyval :=
  if utf8_ok (bytes_of line) then json_loads line else Err ValueError.

(** Text: what a Python [str] without lone surrogates is here. *)
Definition is_text (s : string) : bool := utf8_ok (bytes_of s).

(** A Unicode scalar value. *)
Definition scalar (p : Z) : Prop := 0 <= p < 0xD800 \/ 0xDFFF < p < 0x110000.

Definition utf8_points (cps : list Z) : list Z := cps ≫= fun p => byte_of <$> utf8_of_cp p.

Lemma byte_of_chrs l : Forall (fun z => 0 <= z < 256) l -> byte_of <$> (chr <$> l) = l.
Proof. induction 1 as [|z l Hz _ IH]; [done|]. cbn [fmap list_fmap]. rewrite byte_of_chr by done. f_equal. exact IH. Qed.

(** The bytes of text are those of its code points, which are scalars. *)
Lemma utf8_points_cons p l : utf8_points (p :: l) = ((byte_of <$> utf8_of_cp p) ++ utf8_points l)%list.
Proof. done. Qed.

Ltac divmod := Z.to_euclidean_division_equations; lia.

(** The bytes of one code point, by their number. *)
Lemma utf8_of_cp_1 x : 0 <= x < 0x80 -> byte_of <$> utf8_of_cp x = [x].
Proof.
  intros H. unfold utf8_of_cp. rewrite (proj2 (Z.ltb_lt x 0x80)) by lia.
  cbn [fmap list_fmap]. by rewrite byte_of_chr by lia.
Qed.

Lemma utf8_of_cp_2 x y :
  0xC2 <= x < 0xE0 -> 0x80 <= y <= 0xBF ->
  byte_of <$> utf8_of_cp ((x - 0xC0) * 64 + (y - 0x80)) = [x; y].
Proof.
  intros Hx Hy. unfold utf8_of_cp.
  rewrite (proj2 (Z.ltb_ge _ 0x80)), (proj2 (Z.ltb_lt _ 0x800)) by lia.
  rewrite byte_of_chrs by (repeat constructor; divmod). f_equal; [divmod|f_equal; divmod].
Qed.

Lemma utf8_of_cp_3 x y z :
  0xE0 <= x < 0xF0 -> 0x80 <= y <= 0xBF -> 0x80 <= z <= 0xBF -> (x = 0xE0 -> 0xA0 <= y) ->
  byte_of <$> utf8_of_cp ((x - 0xE0) * 4096 + (y - 0x80) * 64 + (z - 0x80)) = [x; y; z].
Proof.
  intros Hx Hy Hz H0. unfold utf8_of_cp.
  rewrite (proj2 (Z.ltb_ge _ 0x80)), (proj2 (Z.ltb_ge _ 0x800)), (proj2 (Z.ltb_lt _ 0x10000)) by lia.
  rewrite byte_of_chrs by (repeat constructor; divmod).
  f_equal; [divmod|f_equal; [divmod|f_equal; divmod]].
Qed.

Lemma utf8_of_cp_4 x y z w :
  0xF0 <= x < 0xF5 -> 0x80 <= y <= 0xBF -> 0x80 <= z <= 0xBF -> 0x80 <= w <= 0xBF ->
  (x = 0xF0 -> 0x90 <= y) -> (x = 0xF4 -> y <= 0x8F) ->
  byte_of <$> utf8_of_cp ((x - 0xF0) * 262144 + (y - 0x80) * 4096 + (z - 0x80) * 64 + (w - 0x80)) = [x; y; z; w].
Proof.
  intros Hx Hy Hz Hw H0 H4. unfold utf8_of_cp.
  rewrite (proj2 (Z.ltb_ge _ 0x80)), (proj2 (Z.ltb_ge _ 0x800)), (proj2 (Z.ltb_ge _ 0x10000)) by lia.
  rewrite byte_of_chrs by (repeat constructor; divmod).
  f_equal; [divmod|f_equal; [divmod|f_equal; [divmod|f_equal; divmod]]].
Qed.

(** The bytes of text are those of its code points, which are scalars. *)
Lemma utf8_ok_points n b :
  (List.length b <= n)%nat -> Forall (fun z => 0 <= z < 256) b -> utf8_ok b = true ->
  Forall scalar (decode_points b) /\ utf8_points (decode_points b) = b.
Proof.
  revert b. induction n as [|n IH]; intros b Hn Hb H; [by destruct b; [|simpl in Hn; lia]|].
  destruct b as [|x b1]; [done|]. apply Forall_cons in Hb as [Hx Hb1]. cbn [utf8_ok decode_points] in *.
  cbn [List.length] in Hn.
  destruct (Z.ltb_spec x 0x80) as [L1|L1].
  { destruct (IH b1 ltac:(lia) Hb1 H) as [I1 I2]. split; [constructor; [left; lia|done]|].
    by rewrite utf8_points_cons, I2, utf8_of_cp_1 by lia. }
  destruct (Z.ltb_spec x 0xC2); [done|].
  destruct b1 as [|y b2]; [by repeat case_match|]. apply Forall_cons in Hb1 as [Hy Hb2].
  cbn [List.length] in Hn.
  destruct (Z.ltb_spec x 0xE0) as [L2|L2].
  { apply andb_true_iff in H as [Hc H]. bool_to_prop. destruct (IH b2 ltac:(lia) Hb2 H) as [I1 I2].
    split; [constructor; [left; lia|done]|]. by rewrite utf8_points_cons, I2, utf8_of_cp_2 by lia. }
  destruct b2 as [|z b3]; [by repeat case_match|]. apply Forall_cons in Hb2 as [Hz Hb3].
  cbn [List.length] in Hn.
  destruct (Z.ltb_spec x 0xF0) as [L3|L3].
  { apply andb_true_iff in H as [Hc H]. destruct (IH b3 ltac:(lia) Hb3 H) as [I1 I2].
    assert ((x = 0xE0 -> 0xA0 <= y) /\ (x = 0xED -> y <= 0x9F) /\ 0x80 <= y <= 0xBF /\ 0x80 <= z <= 0xBF)
      as (H1 & H2 & H3 & H4).
    { destruct (Z.eqb_spec x 0xE0), (Z.eqb_spec x 0xED); bool_to_prop; lia. }
    split; [constructor; [unfold scalar; lia|done]|]. by rewrite utf8_points_cons, I2, utf8_of_cp_3 by lia. }
  destruct (Z.ltb_spec x 0xF5) as [L4|L4]; [|done].
  destruct b3 as [|w b4]; [done|]. apply Forall_cons in Hb3 as [Hw Hb4]. cbn [List.length] in Hn.
  apply andb_true_iff in H as [Hc H]. destruct (IH b4 ltac:(lia) Hb4 H) as [I1 I2].
  assert ((x = 0xF0 -> 0x90 <= y) /\ (x = 0xF4 -> y <= 0x8F) /\ 0x80 <= y <= 0xBF /\ 0x80 <= z <= 0xBF /\
          0x80 <= w <= 0xBF) as (H1 & H2 & H3 & H4 & H5).
  { destruct (Z.eqb_spec x 0xF0), (Z.eqb_spec x 0xF4); bool_to_prop; lia. }
  split; [constructor; [unfold scalar; lia|done]|]. by rewrite utf8_points_cons, I2, utf8_of_cp_4 by lia.
Qed.

Lemma text_points s :
  is_text s = true -> Forall scalar (code_points s) /\ chars s = (code_points s ≫= utf8_of_cp).
Proof.
  intros H. destruct (utf8_ok_points (List.length (bytes_of s)) (bytes_of s) ltac:(lia)) as [H1 H2]; [|done|].
  { unfold bytes_of. apply Forall_fmap, Forall_forall. intros c _. apply byte_of_range. }
  split; [done|]. unfold code_points, utf8_points, bytes_of in *. revert H2.
  generalize (decode_points (byte_of <$> chars s)). clear. intros l H.
  assert (byte_of <$> (l ≫= utf8_of_cp) = l ≫= (fun p => byte_of <$> utf8_of_cp p)) as E.
  { clear H. induction l as [|p l IH]; [done|]. cbn [mbind list_bind]. rewrite fmap_app. f_equal. exact IH. }
  rewrite <- E in H. symmetry. revert H. apply list_fmap_eq_inj. intros c d Hcd.
  rewrite <- (chr_byte_of c), <- (chr_byte_of d). by rewrite Hcd.
Qed.

(** ** The encoder *)

(** ['\\u{0:04x}'] *)
Definition u_escape (p : Z) : list ascii := bs :: "u" :: hex_of_byte (p / 256) ++ hex_of_byte (p mod 256).

(** [py_encode_basestring_ascii] on one character *)
Definition esc_point (p : Z) : list ascii :=
  if p <? 0x7F then esc_char (chr p)
  else if p <? 0x10000 then u_escape p
  else u_escape (0xD800 + (p - 0x10000) / 1024) ++ u_escape (0xDC00 + (p - 0x10000) mod 1024).

Definition ascii_body (s : string) : list ascii := code_points s ≫= esc_point.

Definition enc_ascii : pyval -> list ascii := enc_with ascii_body.

(** [json.dumps(v, sort_keys=True, separators=(",", ":"), ensure_ascii=True)] *)
Definition dumps_ascii (v : pyval) : string := of_chars (enc_ascii v).

(** ** Round trip *)

Lemma hex4_escape p : 0 <= p < 0x10000 ->
  exists a b c d, hex_of_byte (p / 256) ++ hex_of_byte (p mod 256) = [a; b; c; d] /\ hex4 a b c d = Some p.
Proof.
  intros H. eexists _, _, _, _. split; [reflexivity|]. unfold hex4.
  rewrite !hex_value_char by divmod. f_equal. divmod.
Qed.

Lemma parse_str_bmp p X :
  0 <= p < 0x10000 -> is_high p = false -> parse_str (u_escape p ++ X) = prepend (utf8_of_cp p) (parse_str X).
Proof.
  intros Hp Hh. destruct (hex4_escape p Hp) as (a & b & c & d & E & H4). unfold u_escape. rewrite E.
  cbn [app]. cbn -[hex4 is_high utf8_of_cp]. by rewrite H4, Hh.
Qed.

Lemma parse_str_pair p q X :
  0 <= p < 0x10000 -> 0 <= q < 0x10000 -> is_high p = true -> is_low q = true ->
  parse_str (u_escape p ++ u_escape q ++ X) =
  prepend (utf8_of_cp (0x10000 + (p - 0xD800) * 1024 + (q - 0xDC00))) (parse_str X).
Proof.
  intros Hp Hq Hh Hl. destruct (hex4_escape p Hp) as (a & b & c & d & E & H4).
  destruct (hex4_escape q Hq) as (a' & b' & c' & d' & E' & H4'). unfold u_escape. rewrite E, E'.
  cbn [app]. cbn -[hex4 is_high is_low utf8_of_cp Z.add Z.sub Z.mul]. by rewrite H4, Hh, H4', Hl.
Qed.

Lemma parse_str_point p X : scalar p -> parse_str (esc_point p ++ X) = prepend (utf8_of_cp p) (parse_str X).
Proof.
  intros Hp. unfold esc_point, scalar in *.
  destruct (Z.ltb_spec p 0x7F).
  - rewrite parse_str_esc. unfold utf8_of_cp. by rewrite (proj2 (Z.ltb_lt p 0x80)) by lia.
  - destruct (Z.ltb_spec p 0x10000).
    + apply parse_str_bmp; [lia|]. unfold is_high. destruct (Z.leb_spec 0xD800 p), (Z.leb_spec p 0xDBFF); lia || done.
    + rewrite <- app_assoc, parse_str_pair.
      * do 2 f_equal. divmod.
      * divmod.
      * divmod.
      * unfold is_high. apply andb_true_iff; split; apply Z.leb_le; divmod.
      * unfold is_low. apply andb_true_iff; split; apply Z.leb_le; divmod.
Qed.

Lemma parse_str_ascii s r : is_text s = true -> parse_str (ascii_body s ++ dq :: r) = Some (chars s, r).
Proof.
  intros (Hs & ->)%text_points. unfold ascii_body. induction Hs as [|p l Hp _ IH]; [done|].
  cbn [mbind list_bind]. rewrite <- app_assoc, parse_str_point by done. by rewrite IH.
Qed.

(** Decoding an encoded value gives back its representative. *)
Lemma loads_dumps_ascii v :
  jsonlike v = true -> wf v -> strings_ok is_text v = true -> json_loads (dumps_ascii v) = Ok (norm v).
Proof.
  intros Hj Hw Ht. unfold json_loads, dumps_ascii, enc_ascii.
  rewrite chars_of_chars, str_length_chars, chars_of_chars.
  rewrite skip_ws_starts by by apply enc_with_starts.
  pose proof (enc_with_parses ascii_body is_text parse_str_ascii v Hj Hw Ht
    (S (List.length (enc_with ascii_body v))) [] ltac:(lia) I) as H.
  rewrite app_nil_r in H. by rewrite H.
Qed.

Example dumps_ascii_ex :
  dumps_ascii (PDict [("k", PStr (of_bytes [0xC3; 0xA9; 0x7F; 0x0A; 0xF0; 0x9F; 0x98; 0x80]))])%string =
  of_chars ("{" :: dq :: "k" :: dq :: ":" :: dq :: chars "\u00e9\u007f\n\ud83d\ude00"%string ++ [dq; "}"]).
Proof. vm_compute. reflexivity. Qed.

(** ** Printable text *)

Definition newline : ascii := "010"%char.

Definition ascii7 (c : ascii) : bool := byte_of c <? 128.
Definition printable (c : ascii) : bool := (32 <=? byte_of c) && ascii7 c.

Lemma esc_printable c : ascii7 c = true -> forallb printable (esc_char c) = true.
Proof. destruct c as [[] [] [] [] [] [] [] []]; vm_compute; done. Qed.

Lemma is_dec_printable c : is_dec c = true -> printable c = true.
Proof. destruct c as [[] [] [] [] [] [] [] []]; vm_compute; done. Qed.

Lemma dec_digits_printable z : 0 <= z -> forallb printable (chars (dec_digits z)) = true.
Proof.
  intros Hz. pose proof (dec_digits_all z Hz) as H. unfold char_all in H.
  rewrite forallb_forall in *. intros c Hc. by apply is_dec_printable, H.
Qed.

Lemma int_printable z : forallb printable (chars (int_str z)) = true.
Proof.
  unfold int_str. repeat case_match; rewrite ?chars_app, ?forallb_app; try done;
    rewrite ?andb_true_iff; repeat split; try done; bool_to_prop; apply dec_digits_printable; lia.
Qed.

Lemma join_printable sep parts :
  printable sep = true -> Forall (fun p => forallb printable p = true) parts ->
  forallb printable (join_chars sep parts) = true.
Proof.
  intros Hs. induction 1 as [|p ps Hp Hps IH]; [done|]. destruct ps as [|q ps]; [done|].
  rewrite join_cons, forallb_app, Hp. cbn [forallb andb]. by rewrite Hs.
Qed.

Lemma printable_utf8 s : char_all printable s = true -> utf8_ok (bytes_of s) = true.
Proof.
  unfold char_all, bytes_of. induction (chars s) as [|c l IH]; [done|]. cbn [forallb fmap list_fmap].
  intros [Hc Hl]%andb_true_iff. cbn [utf8_ok]. unfold printable, ascii7 in Hc. bool_to_prop.
  assert (byte_of c <? 0x80 = true) as -> by (apply Z.ltb_lt; lia). by apply IH.
Qed.

Lemma printable_no_newline s : char_all printable s = true -> Forall (fun c => c <> newline) (chars s).
Proof.
  unfold char_all. rewrite forallb_Forall. intros H. eapply Forall_impl; [exact H|].
  intros c Hc ->. done.
Qed.

Lemma u_escape_printable p : 0 <= p < 0x10000 -> forallb printable (u_escape p) = true.
Proof.
  intros H. unfold u_escape, hex_of_byte. cbn [app forallb].
  assert (forall d, 0 <= d < 16 -> printable (hex_char d) = true) as Hh.
  { intros d Hd. cut (forallb (fun d => printable (hex_char d)) (seqZ 0 16) = true).
    - intros E%forallb_Forall. rewrite Forall_forall in E. apply E, elem_of_seqZ. lia.
    - vm_compute. reflexivity. }
  rewrite !Hh by divmod. done.
Qed.

Lemma esc_point_printable p : scalar p -> forallb printable (esc_point p) = true.
Proof.
  intros Hp. unfold esc_point, scalar in *.
  destruct (Z.ltb_spec p 0x7F).
  - apply esc_printable. unfold ascii7. rewrite byte_of_chr by lia. apply Z.ltb_lt. lia.
  - destruct (Z.ltb_spec p 0x10000); [by apply u_escape_printable; lia|].
    rewrite forallb_app, !u_escape_printable by divmod. done.
Qed.

Lemma quote_ascii_printable s : is_text s = true -> forallb printable (quote_with ascii_body s) = true.
Proof.
  intros [Hs _]%text_points. unfold quote_with, ascii_body. cbn [forallb]. rewrite forallb_app.
  apply andb_true_iff; split; [done|]. apply andb_true_iff; split; [|done].
  induction Hs as [|p l Hp _ IH]; [done|]. cbn [mbind list_bind]. by rewrite forallb_app, esc_point_printable.
Qed.

Lemma enc_ascii_printable v : strings_ok is_text v = true -> forallb printable (enc_ascii v) = true.
Proof.
  unfold enc_ascii. induction v as [|[]|z| |s|l IH|d IH|] using pyval_ind'; try done; intros H.
  - apply int_printable.
  - by apply quote_ascii_printable.
  - cbn [enc_with strings_ok forallb] in *. rewrite forallb_app. apply andb_true_iff; split; [done|].
    apply andb_true_iff; split; [|done]. apply join_printable; [done|]. apply forallb_Forall in H.
    apply Forall_map. induction l; decompose_Forall_hyps; constructor; auto.
  - cbn [enc_with strings_ok forallb] in *. rewrite forallb_app. apply andb_true_iff; split; [done|].
    apply andb_true_iff; split; [|done]. apply join_printable; [done|]. apply Forall_map, Forall_forall.
    intros [k t] Hin. rewrite (sort_items_Permutation (map_snd (enc_with ascii_body) d)) in Hin.
    apply list_elem_of_In, map_snd_In in Hin as (x & Hx & <-).
    rewrite forallb_forall in H. specialize (H _ Hx). cbn [fst snd] in H. apply andb_true_iff in H as [Hk Hv].
    rewrite Forall_forall in IH. specialize (IH _ (proj2 (list_elem_of_In _ _) Hx) Hv). cbn [snd] in IH.
    unfold member_with. cbn [fst snd]. rewrite forallb_app, quote_ascii_printable by done.
    cbn [forallb andb]. exact IH.
Qed.

Lemma dumps_ascii_printable v : strings_ok is_text v = true -> char_all printable (dumps_ascii v) = true.
Proof. intros H. unfold char_all, dumps_ascii. rewrite chars_of_chars. by apply enc_ascii_printable. Qed.

Lemma ascii7_bytes s : Forall (fun z => 0 <= z < 128) (bytes_of s) -> char_all ascii7 s = true.
Proof.
  unfold char_all, bytes_of. rewrite Forall_fmap, forallb_Forall. intros H.
  eapply Forall_impl; [exact H|]. intros c Hc. unfold ascii7. apply Z.ltb_lt. simpl in Hc. lia.
Qed.

Lemma hex_ascii7 n s : hex_digest n s = true -> char_all ascii7 s = true.
Proof.
  unfold hex_digest. intros [_ H]%andb_true_iff. unfold char_all in *. rewrite forallb_forall in *.
  intros c Hc. specialize (H c Hc). revert H. destruct c as [[] [] [] [] [] [] [] []]; vm_compute; done.
Qed.

Lemma ascii7_text s : char_all ascii7 s = true -> is_text s = true.
Proof.
  unfold char_all, is_text, bytes_of. induction (chars s) as [|c l IH]; [done|]. cbn [forallb fmap list_fmap].
  intros [Hc Hl]%andb_true_iff. cbn [utf8_ok]. unfold ascii7 in Hc. change (byte_of c <? 0x80 = true) in Hc.
  rewrite Hc. by apply IH.
Qed.

(** White space after an encoded value does not matter. *)
Lemma loads_dumps_ascii_ws v w :
  jsonlike v = true -> wf v -> strings_ok is_text v = true -> stops w -> skip_ws w = [] ->
  json_loads (dumps_ascii v ++ of_chars w)%string = Ok (norm v).
Proof.
  intros Hj Hw Ht Hs Hk. unfold json_loads, dumps_ascii, enc_ascii.
  rewrite str_length_chars, chars_app, !chars_of_chars.
  rewrite skip_ws_starts by by apply starts_value_app, enc_with_starts.
  rewrite (enc_with_parses ascii_body is_text parse_str_ascii v Hj Hw Ht) by (rewrite ?length_app; done || lia).
  by rewrite Hk.
Qed.

Lemma strings_ok_norm ok v : strings_ok ok v = true -> strings_ok ok (norm v) = true.
Proof.
  induction v as [| | | | |l IH|d IH|] using pyval_ind'; try done; cbn [norm strings_ok]; rewrite !forallb_Forall; intros H.
  - apply Forall_map. induction l; decompose_Forall_hyps; constructor; auto.
  - rewrite (sort_items_Permutation (map_snd norm d)). apply Forall_map.
    induction d as [|[k x] d IHd]; [constructor|]. apply Forall_cons in IH as [Hx IH], H as [Hkx H].
    cbn [fst snd] in *. apply andb_true_iff in Hkx as [Hk1 Hk2]. constructor; [|auto]. cbn [fst snd].
    by rewrite Hk1, Hx.
Qed.

Lemma printable_ascii7 s : char_all printable s = true -> char_all ascii7 s = true.
Proof.
  unfold char_all. rewrite !forallb_Forall. intros H. eapply Forall_impl; [exact H|].
  intros c Hc. by apply andb_true_iff in Hc as [].
Qed.

(** ** Canonical JSON of text is text *)

(** The UTF-8 of some scalars. *)
Definition textual (l : list ascii) : Prop := exists pts, Forall scalar pts /\ l = (pts ≫= utf8_of_cp).

Lemma textual_app l k : textual l -> textual k -> textual (l ++ k).
Proof.
  intros (p & Hp & ->) (q & Hq & ->). exists (p ++ q). split; [by apply Forall_app|]. by rewrite bind_app.
Qed.

Lemma utf8_of_ascii c : ascii7 c = true -> utf8_of_cp (byte_of c) = [c].
Proof. destruct c as [[] [] [] [] [] [] [] []]; vm_compute; done. Qed.

Lemma textual_ascii l : forallb ascii7 l = true -> textual l.
Proof.
  induction l as [|c l IH]; intros H; [by exists []|]. cbn [forallb] in H. apply andb_true_iff in H as [Hc H].
  apply (textual_app [c] l); [|by apply IH].
  exists [byte_of c]. cbn [mbind list_bind]. rewrite utf8_of_ascii by done. split; [|done].
  unfold ascii7 in Hc. apply Z.ltb_lt in Hc. pose proof (byte_of_range c). constructor; [left; lia|constructor].
Qed.

Lemma utf8_ok_cp p r : scalar p -> utf8_ok ((byte_of <$> utf8_of_cp p) ++ r) = utf8_ok r.
Proof.
  intros Hp. unfold scalar, utf8_of_cp in *.
  destruct (Z.ltb_spec p 0x80) as [H1|H1]; [|destruct (Z.ltb_spec p 0x800) as [H2|H2];
    [|destruct (Z.ltb_spec p 0x10000) as [H3|H3]]];
    rewrite byte_of_chrs by (repeat constructor; divmod); cbn [app utf8_ok].
  - by rewrite (proj2 (Z.ltb_lt p 0x80)).
  - rewrite (proj2 (Z.ltb_ge _ 0x80)), (proj2 (Z.ltb_ge _ 0xC2)), (proj2 (Z.ltb_lt _ 0xE0)) by divmod.
    rewrite (proj2 (Z.leb_le 0x80 _)), (proj2 (Z.leb_le _ 0xBF)) by divmod. done.
  - rewrite (proj2 (Z.ltb_ge _ 0x80)), (proj2 (Z.ltb_ge _ 0xC2)), (proj2 (Z.ltb_ge _ 0xE0)),
      (proj2 (Z.ltb_lt _ 0xF0)) by divmod.
    rewrite !(proj2 (Z.leb_le 0x80 _)), !(proj2 (Z.leb_le _ 0xBF)) by divmod. cbn [andb].
    destruct (Z.eqb_spec (0xE0 + p / 4096) 0xE0), (Z.eqb_spec (0xE0 + p / 4096) 0xED);
      rewrite ?(proj2 (Z.leb_le 0xA0 _)), ?(proj2 (Z.leb_le _ 0x9F)) by divmod; done.
  - rewrite (proj2 (Z.ltb_ge _ 0x80)), (proj2 (Z.ltb_ge _ 0xC2)), (proj2 (Z.ltb_ge _ 0xE0)),
      (proj2 (Z.ltb_ge _ 0xF0)), (proj2 (Z.ltb_lt _ 0xF5)) by divmod.
    rewrite !(proj2 (Z.leb_le 0x80 _)), !(proj2 (Z.leb_le _ 0xBF)) by divmod. cbn [andb].
    destruct (Z.eqb_spec (0xF0 + p / 262144) 0xF0), (Z.eqb_spec (0xF0 + p / 262144) 0xF4);
      rewrite ?(proj2 (Z.leb_le 0x90 _)), ?(proj2 (Z.leb_le _ 0x8F)) by divmod; done.
Qed.

Lemma textual_is_text l : textual l -> is_text (of_chars l) = true.
Proof.
  intros (pts & Hp & ->). unfold is_text, bytes_of. rewrite chars_of_chars.
  induction Hp as [|p pts Hp _ IH]; [done|]. cbn [mbind list_bind]. rewrite fmap_app, utf8_ok_cp by done. exact IH.
Qed.

(** The escapes of JSON keep text text. *)
Lemma textual_esc p : scalar p -> textual (utf8_of_cp p ≫= esc_char).
Proof.
  intros Hp. destruct (Z.ltb_spec p 0x80) as [H1|H1].
  - assert (utf8_of_cp p = [chr p]) as -> by (unfold utf8_of_cp; by rewrite (proj2 (Z.ltb_lt p 0x80))).
    cbn [mbind list_bind]. rewrite app_nil_r. apply textual_ascii.
    assert (forallb printable (esc_char (chr p)) = true) as Hq.
    { apply esc_printable. unfold ascii7, scalar in *. rewrite byte_of_chr by lia. apply Z.ltb_lt. lia. }
    apply forallb_Forall. apply forallb_Forall in Hq. eapply Forall_impl; [exact Hq|].
    intros c Hc. by apply andb_true_iff in Hc as [].
  - exists [p]. split; [by constructor|]. cbn [mbind list_bind]. rewrite app_nil_r.
    assert (Forall (fun c => 0x80 <= byte_of c) (utf8_of_cp p)) as Hb.
    { unfold scalar, utf8_of_cp in *. apply Forall_fmap. rewrite (proj2 (Z.ltb_ge p 0x80)) by done.
      destruct (Z.ltb_spec p 0x800); [|destruct (Z.ltb_spec p 0x10000)];
        repeat (apply Forall_cons; split; [simpl; rewrite byte_of_chr by divmod; divmod|]); constructor. }
    induction Hb as [|c l Hc _ IH]; [done|]. cbn [mbind list_bind].
    assert (esc_char c = [c]) as ->; [|by f_equal].
    unfold esc_char. rewrite !(proj2 (Z.eqb_neq (byte_of c) _)) by lia. by rewrite (proj2 (Z.ltb_ge (byte_of c) 32)) by lia.
Qed.

Lemma textual_quote s : is_text s = true -> textual (json_quote s).
Proof.
  unfold json_quote. intros (Hs & ->)%text_points.
  apply (textual_app [dq]); [by apply textual_ascii|]. apply textual_app; [|by apply textual_ascii].
  induction Hs as [|p l Hp _ IH]; [by exists []|]. cbn [mbind list_bind].
  rewrite bind_app. apply textual_app; [by apply textual_esc|exact IH].
Qed.

Lemma textual_join ps : Forall textual ps -> textual (join_chars "," ps).
Proof.
  induction 1 as [|p ps Hp Hps IH]; [by exists []|]. destruct ps as [|q ps]; [done|].
  change (join_chars "," (p :: q :: ps)) with (p ++ [","%char] ++ join_chars "," (q :: ps)).
  apply textual_app; [done|]. apply textual_app; [by apply textual_ascii|done].
Qed.

Lemma textual_int z : textual (chars (int_str z)).
Proof.
  apply textual_ascii. pose proof (int_printable z) as H. apply forallb_Forall. apply forallb_Forall in H.
  eapply Forall_impl; [exact H|]. intros c Hc. by apply andb_true_iff in Hc as [].
Qed.

Lemma textual_enc v : strings_ok is_text v = true -> textual (enc v).
Proof.
  induction v as [|[]|z|f|s|l IH|d IH|t] using pyval_ind'; intros H; try (by apply textual_ascii); try (by exists []).
  - apply textual_int.
  - by apply textual_quote.
  - cbn [enc strings_ok] in *. apply (textual_app ["["%char]); [by apply textual_ascii|].
    apply textual_app; [|by apply textual_ascii]. apply textual_join. apply forallb_Forall in H.
    apply Forall_map. induction l; decompose_Forall_hyps; constructor; auto.
  - cbn [enc strings_ok] in *. apply (textual_app ["{"%char]); [by apply textual_ascii|].
    apply textual_app; [|by apply textual_ascii]. apply textual_join, Forall_map, Forall_forall.
    intros [k t] Hin. rewrite (sort_items_Permutation (map_snd enc d)) in Hin.
    apply list_elem_of_In, map_snd_In in Hin as (x & Hx & <-).
    rewrite forallb_forall in H. specialize (H _ Hx). cbn [fst snd] in H. apply andb_true_iff in H as [Hk Hv].
    rewrite Forall_forall in IH. specialize (IH _ (proj2 (list_elem_of_In _ _) Hx) Hv). cbn [snd] in IH.
    unfold member. cbn [fst snd]. apply textual_app; [by apply textual_quote|].
    apply (textual_app [":"%char]); [by apply textual_ascii|exact IH].
Qed.

(** [json.loads] of the bytes of canonical JSON of text *)
Lemma loads_bytes_dumps v :
  jsonlike v = true -> wf v -> strings_ok is_text v = true -> loads_bytes (dumps v) = Ok (norm v).
Proof.
  intros Hj Hw Ht. unfold loads_bytes. change (utf8_ok (bytes_of (dumps v))) with (is_text (dumps v)).
  unfold dumps at 1. rewrite textual_is_text by by apply textual_enc. by apply loads_dumps.
Qed.

(** Text has no lone surrogate. *)
Lemma has_surrogate_cons x r : x <> 0xED -> has_surrogate (x :: r) = has_surrogate r.
Proof. intros Hx. cbn [has_surrogate]. rewrite (proj2 (Z.eqb_neq x 0xED)) by done. by destruct r. Qed.

Lemma has_surrogate_cp p r : scalar p -> has_surrogate ((byte_of <$> utf8_of_cp p) ++ r) = has_surrogate r.
Proof.
  intros Hp. unfold scalar, utf8_of_cp in *.
  destruct (Z.ltb_spec p 0x80) as [H1|H1]; [|destruct (Z.ltb_spec p 0x800) as [H2|H2];
    [|destruct (Z.ltb_spec p 0x10000) as [H3|H3]]];
    rewrite byte_of_chrs by (repeat constructor; divmod); cbn [app].
  - by rewrite has_surrogate_cons by lia.
  - by rewrite !has_surrogate_cons by divmod.
  - rewrite <- (has_surrogate_cons (0x80 + p mod 64) r) by divmod.
    rewrite <- (has_surrogate_cons (0x80 + p / 64 mod 64) (_ :: r)) by divmod.
    cbn [has_surrogate]. destruct (Z.eqb_spec (0xE0 + p / 4096) 0xED); [|done].
    by rewrite (proj2 (Z.leb_gt 0xA0 _)) by divmod.
  - by rewrite !has_surrogate_cons by divmod.
Qed.

Lemma text_no_surrogate s : is_text s = true -> has_surrogate (bytes_of s) = false.
Proof.
  unfold bytes_of. intros (Hs & ->)%text_points. induction Hs as [|p l Hp _ IH]; [done|].
  cbn [mbind list_bind]. rewrite fmap_app, has_surrogate_cp by done. exact IH.
Qed.
