(* ===== verification/CanonicalJson.v ===== *)
(** * Canonical JSON ([nth_dao/canonical_json.py])

    The byte string every signature and every content address of the system is
    computed over. *)

From Stdlib Require Import ZArith Lia Ascii String.
From stdpp Require Import base list strings.
From S2P Require Import Prelude Digits PyStr PyValue Json.

Local Open Scope string_scope.
Local Open Scope Z_scope.

(** [_validate_canonical_json_value]: the walk stops at the first value the
    encoder must not see. *)
Fixpoint validate_canonical_json_value (v : pyval) : res unit :=
  match v with
  | PNone | PStr _ | PBool _ | PInt _ => Ok tt
  | PFloat _ => Err TypeError
  | PList l =>
    (fix walk (l : list pyval) : res unit :=
       match l with
       | [] => Ok tt
       | x :: l' => let* _ := validate_canonical_json_value x in walk l'
       end) l
  | PDict d =>
    (fix walk (d : list (string * pyval)) : res unit :=
       match d with
       | [] => Ok tt
       | kv :: d' => let* _ := validate_canonical_json_value kv.2 in walk d'
       end) d
  | POther _ => Err TypeError
  end.

(** [canonical_json(data)] *)
Definition canonical_json (data : pyval) : res string :=
  match data with
  | PDict _ =>
    let* _ := validate_canonical_json_value data in
    utf8_encode (dumps data)
  | _ => Err TypeError
  end.

(** [{k: v for k, v in stmt.items() if k != sig_field}]: the signed part of a
    statement, as every statement module computes it. *)
Definition signing_body (sig_field : string) (stmt : list (string * pyval)) : pyval :=
  PDict (dict_without sig_field stmt).

Lemma validate_cases v :
  (jsonlike v = true /\ validate_canonical_json_value v = Ok tt) \/
  (jsonlike v = false /\ validate_canonical_json_value v = Err TypeError).
Proof.
  induction v as [| | | | |l IH|d IH|] using pyval_ind'; try (left; done); try (right; done).
  - induction IH as [|x l [[Hx Ex]|[Hx Ex]] _ IHl]; [left; done| |].
    + simpl. rewrite Hx. simpl in IHl. rewrite Ex. exact IHl.
    + right. simpl. by rewrite Hx, Ex.
  - induction IH as [|x l [[Hx Ex]|[Hx Ex]] _ IHl]; [left; done| |].
    + simpl. rewrite Hx. simpl in IHl. rewrite Ex. exact IHl.
    + right. simpl. by rewrite Hx, Ex.
Qed.

Lemma validate_Ok v u : validate_canonical_json_value v = Ok u <-> jsonlike v = true.
Proof. destruct u. destruct (validate_cases v) as [[-> ->]|[-> ->]]; done. Qed.

Lemma canonical_json_Ok v s :
  canonical_json v = Ok s <->
  is_dict v = true /\ jsonlike v = true /\ has_surrogate (bytes_of (dumps v)) = false /\
  s = dumps v.
Proof.
  unfold canonical_json, utf8_encode.
  destruct v; simpl is_dict; try (split; [done|]; intros [? _]; done).
  rewrite res_bind_Ok. setoid_rewrite validate_Ok.
  destruct (has_surrogate _); naive_solver.
Qed.

(** Refusals: a [TypeError] for the shape, a [UnicodeEncodeError] for a lone
    surrogate; never any other exception. *)
Lemma canonical_json_Err v e :
  canonical_json v = Err e ->
  (e = TypeError /\ (is_dict v = false \/ jsonlike v = false)) \/
  (e = UnicodeEncodeError /\ jsonlike v = true).
Proof.
  unfold canonical_json, utf8_encode.
  destruct v as [| | | | | |d|]; try (intros E; injection E as <-; left; split; [done|by left]).
  destruct (validate_cases (PDict d)) as [[Hj ->]|[Hj ->]]; cbn [res_bind].
  - destruct (has_surrogate _); intros E; [injection E as <-; by right|discriminate E].
  - intros E; injection E as <-. left. split; [done|by right].
Qed.

Lemma canonical_json_Err_catchable v e :
  canonical_json v = Err e -> is_TypeOrValueError e = true.
Proof. by intros [[-> _]|[-> _]]%canonical_json_Err. Qed.

Lemma canonical_json_wf_inj v w s :
  wf v -> wf w -> canonical_json v = Ok s -> canonical_json w = Ok s -> json_eqb v w = true.
Proof.
  intros Hv Hw (_ & Hjv & _ & ->)%canonical_json_Ok (_ & Hjw & _ & E)%canonical_json_Ok.
  apply json_eqb_norm; [done..|]. by apply dumps_inj.
Qed.

(** ** Which documents encode

    UTF-8 encoding refuses lone surrogates.  [encodable] says the same of the
    document: no float, no foreign object, no surrogate in a key or a string. *)

Definition text_ok (s : string) : bool := negb (has_surrogate (bytes_of s)).

Fixpoint encodable (v : pyval) : bool :=
  match v with
  | PNone | PBool _ | PInt _ => true
  | PStr s => text_ok s
  | PList l => forallb encodable l
  | PDict d => forallb (fun kv => text_ok kv.1 && encodable kv.2) d
  | PFloat _ | POther _ => false
  end.

Section Surrogates.
Let hs (l : list ascii) : bool := has_surrogate (byte_of <$> l).

Lemma hs_cons_ascii c l : byte_of c < 128 -> hs (c :: l) = hs l.
Proof.
  intros Hc. unfold hs. cbn [fmap list_fmap]. destruct (byte_of <$> l) as [|b k] eqn:E; [done|].
  cbn [has_surrogate]. by rewrite (proj2 (Z.eqb_neq (byte_of c) 0xED)) by lia.
Qed.

Lemma hs_app_ascii l c m : byte_of c < 128 -> hs (l ++ c :: m)%list = hs l || hs m.
Proof.
  intros Hc. induction l as [|x l IH]; [by apply hs_cons_ascii|].
  unfold hs in *. cbn [app fmap list_fmap] in *. destruct l as [|y l].
  - cbn [app fmap list_fmap] in *. cbn [has_surrogate].
    rewrite (proj2 (Z.leb_gt 0xA0 (byte_of c))), andb_false_r by lia. exact IH.
  - cbn [app fmap list_fmap] in *. cbn [has_surrogate] in *. by rewrite IH, orb_assoc.
Qed.

Lemma hs_ascii l : Forall (fun c => byte_of c < 128) l -> hs l = false.
Proof. induction 1 as [|c l Hc _ IH]; [done|]. by rewrite hs_cons_ascii. Qed.

Lemma esc_char_cases c :
  (byte_of c < 128 /\ Forall (fun x => byte_of x < 128) (esc_char c)) \/ esc_char c = [c].
Proof.
  destruct (Z.ltb_spec (byte_of c) 128) as [Hc|Hc].
  - left. split; [done|]. assert (forallb (fun x => byte_of x <? 128) (esc_char c) = true) as H.
    { destruct c as [[] [] [] [] [] [] [] []]; (vm_compute; reflexivity) || done. }
    apply forallb_Forall in H. eapply Forall_impl; [exact H|]. intros x Hx. simpl in Hx. lia.
  - right. destruct c as [[] [] [] [] [] [] [] []]; (vm_compute; reflexivity) || done.
Qed.

Lemma hs_cons c l :
  hs (c :: l) = ((byte_of c =? 0xED) &&
                 match l with x :: _ => 0xA0 <=? byte_of x | [] => false end) || hs l.
Proof. destruct l as [|x l]; [|done]. unfold hs. simpl. by rewrite andb_false_r. Qed.

Lemma hs_ascii_app l m : Forall (fun c => byte_of c < 128) l -> hs (l ++ m)%list = hs m.
Proof. induction 1; [done|]. simpl. by rewrite hs_cons_ascii. Qed.

Lemma hs_escaped l : hs (l ≫= esc_char) = hs l.
Proof.
  induction l as [|c l IH]; [done|].
  change ((c :: l) ≫= esc_char) with (esc_char c ++ (l ≫= esc_char))%list.
  destruct (esc_char_cases c) as [[Hc He]| ->].
  - rewrite hs_ascii_app by done. by rewrite hs_cons_ascii.
  - cbn [app]. rewrite !hs_cons, IH. f_equal. f_equal. destruct l as [|x l]; [done|].
    change ((x :: l) ≫= esc_char) with (esc_char x ++ (l ≫= esc_char))%list.
    destruct (esc_char_cases x) as [[Hx He]| ->]; [|done].
    rewrite (proj2 (Z.leb_gt 0xA0 (byte_of x))) by lia.
    destruct (esc_char x) as [|y k] eqn:E; cbn [app].
    + by destruct x as [[] [] [] [] [] [] [] []].
    + apply Forall_cons in He as [He _]. apply Z.leb_gt. lia.
Qed.

Lemma hs_quote s r : hs (json_quote s ++ r)%list = hs (chars s) || hs r.
Proof.
  unfold json_quote. cbn [app]. rewrite hs_cons_ascii by (by vm_compute).
  rewrite <- app_assoc. cbn [app]. by rewrite hs_app_ascii, hs_escaped by (by vm_compute).
Qed.

Lemma hs_join ps c r :
  byte_of c < 128 -> hs (join_chars "," ps ++ c :: r)%list = existsb hs ps || hs r.
Proof.
  intros Hc. induction ps as [|p ps IH]; [by apply hs_cons_ascii|].
  destruct ps as [|q ps].
  - cbn [join_chars existsb]. by rewrite hs_app_ascii, orb_false_r.
  - change (join_chars "," (p :: q :: ps)) with (p ++ ","%char :: join_chars "," (q :: ps))%list.
    rewrite <- app_assoc. cbn [app]. rewrite hs_app_ascii by (by vm_compute). rewrite IH.
    cbn [existsb]. by rewrite !orb_assoc.
Qed.

Lemma existsb_ext_Forall {A} (f g : A -> bool) l :
  Forall (fun x => f x = negb (g x)) l -> existsb f l = negb (forallb g l).
Proof. induction 1 as [|x l Hx _ IH]; [done|]. simpl. by rewrite Hx, IH, negb_andb. Qed.

Lemma hs_int_str z : hs (chars (int_str z)) = false.
Proof.
  apply hs_ascii. unfold int_str. destruct (Z.eqb_spec z 0) as [|Hz]; [by repeat constructor|].
  assert (forall n, 0 <= n -> Forall (fun c => byte_of c < 128) (chars (dec_digits n))) as H.
  { intros n Hn. pose proof (dec_digits_all n Hn) as H%forallb_Forall.
    eapply Forall_impl; [exact H|]. intros c Hc%is_dec_range. unfold digit_value in Hc.
    simpl. lia. }
  destruct (Z.ltb_spec z 0); [|apply H; lia].
  rewrite chars_app. apply Forall_app. split; [by repeat constructor|apply H; lia].
Qed.

Lemma hs_enc v : jsonlike v = true -> hs (enc v) = negb (encodable v).
Proof.
  induction v as [|[]|z| |s|l IH|d IH|] using pyval_ind'; intros Hj; try done.
  - apply hs_int_str.
  - cbn [enc encodable]. unfold text_ok. rewrite negb_involutive.
    rewrite <- (app_nil_r (json_quote s)), hs_quote. apply orb_false_r.
  - cbn [enc encodable jsonlike] in *. rewrite hs_cons_ascii, hs_join by (by vm_compute).
    rewrite orb_false_r. apply forallb_Forall in Hj.
    assert (forall g : pyval -> list ascii, existsb hs (map g l) = existsb (fun x => hs (g x)) l) as ->.
    { intros g. clear. induction l as [|x l IHl]; [done|]. cbn [map existsb]. by rewrite IHl. }
    apply existsb_ext_Forall. clear -IH Hj. induction l; decompose_Forall_hyps; constructor; auto.
  - cbn [enc encodable jsonlike] in *. rewrite hs_cons_ascii, hs_join by (by vm_compute).
    rewrite orb_false_r. apply forallb_Forall in Hj.
    set (f := fun kv : string * list ascii => hs (member kv)).
    assert (existsb hs (map member (sort_items (map_snd enc d))) = existsb f (map_snd enc d)) as ->.
    { assert (forall k, existsb hs (map member k) = existsb f k) as ->
        by (induction k as [|x k IHk]; [done|]; cbn [map existsb]; by rewrite IHk).
      apply eq_true_iff_eq. rewrite !existsb_exists.
      split; intros (x & Hx & Ex); exists x; (split; [|done]);
        [eapply Permutation_in; [apply sort_items_Permutation|done]
        |eapply Permutation_in; [symmetry; apply sort_items_Permutation|done]]. }
    assert (existsb f (map_snd enc d) = existsb (fun kv => f (kv.1, enc kv.2)) d) as ->.
    { clear. induction d as [|x d IHd]; [done|]. cbn [map_snd map existsb]. f_equal. exact IHd. }
    apply existsb_ext_Forall. clear -IH Hj. induction d as [|[k x] d IHd]; [constructor|].
    apply Forall_cons in IH as [Hx IH], Hj as [Hjx Hj]. constructor; [|by apply IHd].
    unfold f, member. cbn [fst snd]. rewrite hs_quote, hs_cons_ascii by (by vm_compute).
    cbn [snd] in Hx. rewrite (Hx Hjx), negb_andb. f_equal. unfold text_ok. by rewrite negb_involutive.
Qed.

Lemma has_surrogate_dumps v :
  jsonlike v = true -> has_surrogate (bytes_of (dumps v)) = negb (encodable v).
Proof. intros Hj. unfold bytes_of, dumps. rewrite chars_of_chars. by apply hs_enc. Qed.
End Surrogates.

Lemma encodable_jsonlike v : encodable v = true -> jsonlike v = true.
Proof.
  induction v as [| | | | |l IH|d IH|] using pyval_ind'; try done; simpl;
    rewrite !forallb_Forall; intros Hj.
  - induction l; decompose_Forall_hyps; constructor; auto.
  - induction d as [|[k x] d IHd]; [constructor|].
    apply Forall_cons in IH as [Hx IH], Hj as [Hjx Hj]. simpl in *. bool_to_prop.
    constructor; auto.
Qed.

(** [canonical_json] returns exactly on encodable dictionaries. *)
Lemma canonical_json_encodable d s :
  canonical_json (PDict d) = Ok s <-> encodable (PDict d) = true /\ s = dumps (PDict d).
Proof.
  rewrite canonical_json_Ok. split.
  - intros (_ & Hj & Hs & ->). rewrite has_surrogate_dumps in Hs by done.
    by apply negb_false_iff in Hs.
  - intros [He ->]. pose proof (encodable_jsonlike _ He) as Hj.
    rewrite has_surrogate_dumps, He by done. done.
Qed.

Lemma canonical_json_total d :
  encodable (PDict d) = true -> canonical_json (PDict d) = Ok (dumps (PDict d)).
Proof. intros. by apply canonical_json_encodable. Qed.

Lemma text_ok_ascii s : Forall (fun z => 0 <= z < 128) (bytes_of s) -> text_ok s = true.
Proof.
  intros H. unfold text_ok, bytes_of in *. apply negb_true_iff, hs_ascii.
  apply Forall_fmap in H. eapply Forall_impl; [exact H|]. simpl. lia.
Qed.

(** ** Properties *)

(** C37.  Canonical bytes are unambiguous and independent of the order of
    entries: two documents that encode have the same bytes exactly when they
    hold the same entries at every level. *)
Theorem canonical_json_unique v w a b :
  wf v -> wf w -> canonical_json v = Ok a -> canonical_json w = Ok b ->
  a = b <-> json_eqb v w = true.
Proof.
  intros Hv Hw Ea Eb. split.
  - intros <-. by eapply canonical_json_wf_inj.
  - apply canonical_json_Ok in Ea as (_ & Hjv & _ & ->), Eb as (_ & Hjw & _ & ->).
    rewrite json_eqb_norm by done. by apply dumps_norm_eq.
Qed.

(** A verifier that decodes canonical bytes with [json.loads] and encodes
    the result again obtains the same bytes. *)
Theorem canonical_json_reencode v s :
  wf v -> canonical_json v = Ok s ->
  exists w, json_loads s = Ok w /\ json_eqb v w = true /\ canonical_json w = Ok s.
Proof.
  intros Hv (Hd & Hj & Hs & ->)%canonical_json_Ok. exists (norm v).
  assert (wf (norm v)) as Hn by by apply norm_wf.
  assert (norm (norm v) = norm v) as Hi by by apply norm_norm.
  split_and!; [by apply loads_dumps|by apply json_eqb_norm|].
  apply canonical_json_Ok. assert (dumps (norm v) = dumps v) as E by by apply dumps_norm_eq.
  rewrite E. split_and!; [by destruct v|by apply norm_jsonlike|done..].
Qed.

(** ** Witnesses *)

Definition sample_document : pyval := PDict [("b", PList [PInt 1; PNone]); ("a", PStr "x")].
Definition sample_reordered : pyval := PDict [("a", PStr "x"); ("b", PList [PInt 1; PNone])].

Lemma canonical_json_unique_witness :
  canonical_json sample_document = Ok (dumps sample_document) /\
  (dumps sample_document = dumps sample_reordered <-> json_eqb sample_document sample_reordered = true).
Proof.
  split; [vm_compute; reflexivity|].
  apply (canonical_json_unique sample_document sample_reordered).
  - apply wfb_wf. vm_compute. reflexivity.
  - apply wfb_wf. vm_compute. reflexivity.
  - vm_compute. reflexivity.
  - vm_compute. reflexivity.
Defined.

Lemma canonical_json_reencode_witness :
  exists w, json_loads (dumps sample_document) = Ok w /\ json_eqb sample_document w = true /\
    canonical_json w = Ok (dumps sample_document).
Proof.
  apply (canonical_json_reencode sample_document).
  - apply wfb_wf. vm_compute. reflexivity.
  - vm_compute. reflexivity.
Defined.
