(* ===== verification/B64u.v ===== *)
(** * Base64url ([nth_dao/b64u.py])

    Unpadded base64url on the standard library's [base64] codec. *)

From Stdlib Require Import ZArith Lia Ascii String.
From stdpp Require Import base list strings.
From S2P Require Import Prelude Digits PyStr.

Local Open Scope string_scope.
Local Open Scope Z_scope.

(** ** [base64] *)

(** The URL-safe alphabet. *)
Definition b64_char (v : Z) : ascii :=
  if v <? 26 then chr (65 + v)
  else if v <? 52 then chr (97 + (v - 26))
  else if v <? 62 then chr (48 + (v - 52))
  else if v =? 62 then "-"%char else "_"%char.

(** The decoding table after [bytes.maketrans(b"-_", b"+/")]: the translation
    maps the URL-safe characters and leaves the standard ones in place. *)
Definition b64_value (c : ascii) : option Z :=
  if is_upper c then Some (byte_of c - 65)
  else if is_lower c then Some (byte_of c - 71)
  else if is_dec c then Some (byte_of c + 4)
  else if Ascii.eqb c "-" || Ascii.eqb c "+" then Some 62
  else if Ascii.eqb c "_" || Ascii.eqb c "/" then Some 63
  else None.

Fixpoint sextets (l : list Z) : list Z :=
  match l with
  | a :: b :: c :: l' =>
    a / 4 :: a mod 4 * 16 + b / 16 :: b mod 16 * 4 + c / 64 :: c mod 64 :: sextets l'
  | [a; b] => [a / 4; a mod 4 * 16 + b / 16; b mod 16 * 4]
  | [a] => [a / 4; a mod 4 * 16]
  | [] => []
  end.

Fixpoint unsextets (l : list Z) : option (list Z) :=
  match l with
  | w :: x :: y :: z :: l' =>
    match unsextets l' with
    | Some r => Some (w * 4 + x / 16 :: x mod 16 * 16 + y / 4 :: y mod 4 * 64 + z :: r)
    | None => None
    end
  | [w; x; y] => Some [w * 4 + x / 16; x mod 16 * 16 + y / 4]
  | [w; x] => Some [w * 4 + x / 16]
  | [_] => None
  | [] => Some []
  end.

(** The number of ['='] that completes a group of four. *)
Definition pad_count (n : nat) : nat := Nat.modulo (4 - Nat.modulo n 4) 4.

(** [base64.urlsafe_b64encode(raw)] *)
Definition urlsafe_b64encode (raw : string) : string :=
  let ds := sextets (bytes_of raw) in
  of_chars (b64_char <$> ds) ++ str_repeat "=" (pad_count (List.length ds)).

(** [binascii.a2b_base64(text, strict_mode=True)]: the data, then exactly the
    padding its length needs. *)
Fixpoint b64_data (l : list ascii) : option (list Z * nat) :=
  match l with
  | [] => Some ([], O)
  | c :: l' =>
    if Ascii.eqb c "=" then
      if forallb (Ascii.eqb "=") l' then Some ([], List.length l) else None
    else
      match b64_value c, b64_data l' with
      | Some v, Some (vs, n) => Some (v :: vs, n)
      | _, _ => None
      end
  end.

Definition a2b_base64_strict (text : string) : res string :=
  match b64_data (chars text) with
  | None => Err ValueError
  | Some (vs, pads) =>
    if negb (Nat.eqb pads (pad_count (List.length vs))) then Err ValueError else
    match unsextets vs with
    | Some l => Ok (of_bytes l)
    | None => Err ValueError
    end
  end.

(** ** The module *)

(** [b64u_encode(raw)] *)
Definition b64u_encode (raw : string) : string := rstrip_char "=" (urlsafe_b64encode raw).

(** [b64u_decode(s)] *)
Definition b64u_decode (s : string) : res string :=
  if String.eqb s "" then Ok ""
  else
    let padded := s ++ str_repeat "=" (Z.to_nat (- py_len s mod 4)) in
    let* text := ascii_encode padded in
    a2b_base64_strict text.

(** ** Lemmas *)

Lemma b64_value_char v : 0 <= v < 64 -> b64_value (b64_char v) = Some v.
Proof.
  intros Hv. cut (forallb (fun v => bool_decide (b64_value (b64_char v) = Some v)) (seqZ 0 64) = true).
  - intros H%forallb_Forall. rewrite Forall_forall in H.
    apply (bool_decide_eq_true_1 _), H, elem_of_seqZ. lia.
  - vm_compute. reflexivity.
Qed.

Lemma b64_value_ascii c v : b64_value c = Some v -> byte_of c < 128 /\ c <> "="%char.
Proof.
  intros H. assert (byte_of c < 128) as Hb.
  { unfold b64_value, is_upper, is_lower, is_dec, in_range in H.
    repeat case_match; bool_to_prop; try lia; try done;
      match goal with E : _ || _ = true |- _ => apply orb_true_iff in E as [E|E] end;
      apply Ascii.eqb_eq in E || idtac;
      match goal with E : Ascii.eqb _ _ = true |- _ => apply Ascii.eqb_eq in E; subst; by vm_compute | _ => subst; by vm_compute end. }
  split; [done|]. intros ->. discriminate H.
Qed.

Definition is_sextet (v : Z) : Prop := 0 <= v < 64.

(** Induction three bytes at a time. *)
Lemma list_ind3 {A} (P : list A -> Prop) :
  P [] -> (forall a, P [a]) -> (forall a b, P [a; b]) ->
  (forall a b c l, P l -> P (a :: b :: c :: l)) -> forall l, P l.
Proof.
  intros H0 H1 H2 H3. fix IH 1. intros [|a [|b [|c l]]]; [done|apply H1|apply H2|].
  apply H3, IH.
Qed.

Ltac byte_arith := unfold is_byte, is_sextet in *; Z.to_euclidean_division_equations; lia.

Lemma sextets_range l : Forall is_byte l -> Forall is_sextet (sextets l).
Proof.
  induction l as [|a|a b|a b c l IH] using list_ind3; intros H; simpl;
    decompose_Forall_hyps; repeat constructor; try byte_arith; auto.
Qed.

Lemma unsextets_sextets l : Forall is_byte l -> unsextets (sextets l) = Some l.
Proof.
  induction l as [|a|a b|a b c l IH] using list_ind3; intros H; cbn [sextets unsextets];
    decompose_Forall_hyps.
  - done.
  - repeat f_equal; byte_arith.
  - repeat f_equal; byte_arith.
  - rewrite IH by done. repeat f_equal; byte_arith.
Qed.

Lemma b64_data_pads ds n :
  Forall is_sextet ds ->
  b64_data ((b64_char <$> ds) ++ repeat "="%char n)%list = Some (ds, n).
Proof.
  induction 1 as [|d ds Hd _ IH].
  - destruct n as [|n]; [done|]. simpl. rewrite (proj2 (forallb_forall _ _)).
    + by rewrite repeat_length.
    + intros x Hx%repeat_spec. by subst.
  - change ((b64_char <$> d :: ds) ++ repeat "="%char n)%list
      with (b64_char d :: ((b64_char <$> ds) ++ repeat "="%char n))%list.
    cbn [b64_data]. rewrite b64_value_char by done.
    destruct (b64_value_ascii _ _ (b64_value_char d Hd)) as [_ Hne].
    rewrite (proj2 (Ascii.eqb_neq _ _) Hne). by rewrite IH.
Qed.

Lemma rstrip_char_pads l n :
  Forall (fun c => c <> "="%char) l ->
  rstrip_char "=" (of_chars l ++ str_repeat "=" n) = of_chars l.
Proof.
  intros Hl. unfold rstrip_char.
  rewrite chars_app, chars_of_chars, chars_str_repeat, rev_app_distr.
  assert (forall k, drop_while_char "=" (rev (repeat "="%char n) ++ k)%list = drop_while_char "=" k) as E.
  { intros k. assert (Forall (eq "="%char) (rev (repeat "="%char n))) as H.
    { apply Forall_rev, Forall_forall. intros x Hx%list_elem_of_In%repeat_spec. done. }
    induction H as [|x k' <- _ IH]; [done|]. simpl. exact IH. }
  rewrite E. f_equal. rewrite <- (rev_involutive l) at 2. f_equal.
  apply Forall_rev in Hl. destruct Hl as [|c l' Hc _]; [done|]. cbn [drop_while_char].
  by rewrite (proj2 (Ascii.eqb_neq _ _) (not_eq_sym Hc)).
Qed.

Lemma b64u_encode_chars raw :
  b64u_encode raw = of_chars (b64_char <$> sextets (bytes_of raw)).
Proof.
  unfold b64u_encode, urlsafe_b64encode. apply rstrip_char_pads, Forall_fmap.
  eapply Forall_impl; [apply sextets_range, bytes_of_range|].
  intros v Hv. by apply (b64_value_ascii _ v), b64_value_char.
Qed.

Lemma decode_points_ascii l : Forall (fun z => 0 <= z < 128) l -> decode_points l = l.
Proof.
  induction 1 as [|z l Hz _ IH]; [done|]. cbn [decode_points].
  rewrite (proj2 (Z.ltb_lt z 128)) by lia. by rewrite IH.
Qed.

Lemma py_len_ascii s : Forall (fun z => 0 <= z < 128) (bytes_of s) -> py_len s = bytes_len s.
Proof.
  intros H. unfold py_len, bytes_len, code_points. rewrite decode_points_ascii by done.
  unfold bytes_of. by rewrite length_fmap, str_length_chars.
Qed.

Lemma b64u_encode_ascii raw : Forall (fun z => 0 <= z < 128) (bytes_of (b64u_encode raw)).
Proof.
  rewrite b64u_encode_chars. unfold bytes_of. rewrite chars_of_chars.
  apply Forall_fmap, Forall_fmap. eapply Forall_impl; [apply sextets_range, bytes_of_range|].
  intros v Hv. simpl. pose proof (byte_of_range (b64_char v)).
  destruct (b64_value_ascii _ v (b64_value_char v Hv)). lia.
Qed.

Lemma b64u_decode_encode raw : b64u_decode (b64u_encode raw) = Ok raw.
Proof.
  pose proof (b64u_encode_ascii raw) as Ha. unfold b64u_decode.
  destruct (String.eqb_spec (b64u_encode raw) "") as [E|_].
  { rewrite b64u_encode_chars in E. apply (f_equal chars) in E. rewrite chars_of_chars in E.
    destruct (bytes_of raw) as [|a [|b [|c l]]] eqn:Er; try discriminate E.
    by rewrite <- (of_bytes_of raw), Er. }
  set (n := Z.to_nat _). unfold ascii_encode. rewrite (proj2 (forallb_forall _ _)).
  2: { intros z. rewrite bytes_of_app, in_app_iff. intros [Hz|Hz].
       - rewrite Forall_forall in Ha. apply list_elem_of_In, Ha in Hz. apply Z.ltb_lt. lia.
       - unfold bytes_of in Hz. rewrite chars_str_repeat in Hz.
         apply in_map_iff in Hz as (c & <- & Hc%repeat_spec). by subst. }
  cbn [res_bind]. unfold a2b_base64_strict.
  rewrite chars_app, chars_str_repeat. subst n. rewrite py_len_ascii by done.
  rewrite b64u_encode_chars, chars_of_chars, b64_data_pads by apply sextets_range, bytes_of_range.
  unfold bytes_len. rewrite str_length_chars, chars_of_chars, length_fmap.
  set (m := List.length (sextets (bytes_of raw))).
  replace (Z.to_nat (- Z.of_nat m mod 4)) with (pad_count m).
  - rewrite Nat.eqb_refl. cbn [negb]. rewrite unsextets_sextets by apply bytes_of_range.
    by rewrite of_bytes_of.
  - unfold pad_count. apply Nat2Z.inj. rewrite Z2Nat.id by (apply Z.mod_pos_bound; lia).
    pose proof (Nat.mod_upper_bound m 4). rewrite Nat2Z.inj_mod, Nat2Z.inj_sub, Nat2Z.inj_mod by lia.
    byte_arith.
Qed.

Lemma sextets_length l :
  List.length (sextets l) = ((4 * List.length l + 2) / 3)%nat.
Proof.
  induction l as [|a|a b|a b c l IH] using list_ind3; try done.
  cbn [sextets List.length] in *. rewrite IH.
  replace (4 * S (S (S (List.length l))) + 2)%nat with ((4 * List.length l + 2) + 4 * 3)%nat by lia.
  rewrite Nat.div_add by lia. lia.
Qed.

(** A 64-byte signature is 86 characters long. *)
Lemma b64u_signature_length raw : bytes_len raw = 64 -> py_len (b64u_encode raw) = 86.
Proof.
  intros H. rewrite py_len_ascii by apply b64u_encode_ascii. rewrite b64u_encode_chars.
  unfold bytes_len in *. rewrite str_length_chars, chars_of_chars, length_fmap, sextets_length.
  unfold bytes_of. rewrite length_fmap, <- str_length_chars.
  replace (String.length raw) with 64%nat by lia. done.
Qed.

Lemma b64u_decode_Err s e : b64u_decode s = Err e -> is_TypeOrValueError e = true.
Proof.
  unfold b64u_decode, ascii_encode, a2b_base64_strict. intros H.
  repeat match type of H with
  | (if ?c then _ else _) = _ => destruct c; try discriminate H; try (injection H as <-; done)
  | res_bind ?m _ = Err _ => destruct m eqn:?; cbn [res_bind] in H
  | match ?c with _ => _ end = _ => destruct c; try discriminate H; try (injection H as <-; done)
  end; try (injection H as <-); repeat case_match; simplify_eq; done.
Qed.

(** The decoder also accepts the standard-alphabet characters ['+'] and
    ['/'] and non-zero trailing bits, so distinct texts decode alike; comparing
    with the re-encoding, as every verifier does, leaves exactly one text per
    byte string. *)
Theorem b64u_canonical_text :
  b64u_decode "+/+/" = b64u_decode "-_-_" /\ b64u_decode "AB" = b64u_decode "AA" /\
  (forall s raw, (b64u_decode s = Ok raw /\ b64u_encode raw = s) <-> s = b64u_encode raw).
Proof.
  split_and!; [by vm_compute..|]. intros s raw. split; [by intros [_ <-]|].
  intros ->. split; [apply b64u_decode_encode|done].
Qed.
