(* ===== verification/DidKey.v ===== *)
(** * did:key ([nth_dao/did_key.py])

    base58btc and the W3C did:key form of Ed25519 public keys. *)

From Stdlib Require Import ZArith Lia Ascii String.
From stdpp Require Import base list strings.
From S2P Require Import Prelude Digits PyStr PyValue.

Local Open Scope string_scope.
Local Open Scope Z_scope.

(** ** Constants *)

Definition MULTICODEC_ED25519_PUB : string := of_bytes [0xed; 0x01].
Definition MULTIBASE_BASE58BTC : string := "z".
Definition DID_KEY_PREFIX : string := "did:key:".
Definition B58_ALPHABET : string :=
  "123456789ABCDEFGHJKLMNPQRSTUVWXYZabcdefghijkmnopqrstuvwxyz".

Definition b58_char (i : Z) : ascii := nth (Z.to_nat i) (chars B58_ALPHABET) "1"%char.

(** [_B58_INDEX.get(c)] *)
Fixpoint index_of (c : ascii) (l : list ascii) (i : Z) : option Z :=
  match l with
  | [] => None
  | d :: l' => if Ascii.eqb c d then Some i else index_of c l' (i + 1)
  end.

Definition B58_INDEX (c : ascii) : option Z := index_of c (chars B58_ALPHABET) 0.

(** ** Integers and bytes *)

(** [num.bit_length()] *)
Definition bit_length (num : Z) : Z := if num =? 0 then 0 else Z.log2 num + 1.

(** [num.to_bytes(k, "big")] for [num < 256^k] *)
Fixpoint to_bytes_big (k : nat) (num : Z) (out : list Z) : list Z :=
  match k with
  | O => out
  | S k => to_bytes_big k (num / 256) (num mod 256 :: out)
  end.

Fixpoint count_leading {A} (p : A -> bool) (l : list A) : nat :=
  match l with x :: l' => if p x then S (count_leading p l') else O | [] => O end.

(** ** base58btc *)

(** [_b58encode(b)] *)
Definition b58encode (b : string) : string :=
  if String.eqb b "" then "" else
  let n_zero := count_leading (Z.eqb 0) (bytes_of b) in
  let num := of_digits 256 (bytes_of b) in
  str_repeat "1" n_zero ++ of_chars (b58_char <$> to_digits 58 num).

(** The loop of [_b58decode] over the characters. *)
Fixpoint b58_num (l : list ascii) (num : Z) : res Z :=
  match l with
  | [] => Ok num
  | ch :: l' =>
    match B58_INDEX ch with
    | None => Err DIDKeyError
    | Some i => b58_num l' (num * 58 + i)
    end
  end.

(** [_b58decode(s)] *)
Definition b58decode (s : string) : res string :=
  if String.eqb s "" then Ok "" else
  let n_zero := count_leading (Ascii.eqb "1") (chars s) in
  let* num := b58_num (chars s) 0 in
  let body := if num =? 0 then []
              else to_bytes_big (Z.to_nat ((bit_length num + 7) / 8)) num [] in
  Ok (of_bytes (repeat 0 n_zero ++ body)%list).

(** ** did:key *)

(** [encode_ed25519_did_key(pubkey_bytes)] *)
Definition encode_ed25519_did_key (pubkey_bytes : string) : res string :=
  if negb (bytes_len pubkey_bytes =? 32) then Err DIDKeyError else
  let payload := MULTICODEC_ED25519_PUB ++ pubkey_bytes in
  Ok (DID_KEY_PREFIX ++ MULTIBASE_BASE58BTC ++ b58encode payload).

(** [encode_ed25519_did_key_hex(pubkey_hex)] *)
Definition encode_ed25519_did_key_hex (pubkey_hex : string) : res string :=
  match fromhex pubkey_hex with
  | Err _ => Err DIDKeyError
  | Ok pubkey_bytes => encode_ed25519_did_key pubkey_bytes
  end.

(** [decode_ed25519_did_key(did)] *)
Definition decode_ed25519_did_key (did : string) : res string :=
  if negb (startswith DID_KEY_PREFIX did) then Err DIDKeyError else
  let body := str_drop (String.length DID_KEY_PREFIX) did in
  if negb (startswith MULTIBASE_BASE58BTC body) then Err DIDKeyError else
  let encoded := str_drop (String.length MULTIBASE_BASE58BTC) body in
  let* raw := b58decode encoded in
  if negb (startswith MULTICODEC_ED25519_PUB raw) then Err DIDKeyError else
  let pubkey_bytes := str_drop (String.length MULTICODEC_ED25519_PUB) raw in
  if negb (bytes_len pubkey_bytes =? 32) then Err DIDKeyError else
  Ok pubkey_bytes.

(** [decode_ed25519_did_key_hex(did)] *)
Definition decode_ed25519_did_key_hex (did : string) : res string :=
  res_map hex (decode_ed25519_did_key did).

(** [is_did_key(s)] *)
Definition is_did_key (s : pyval) : bool :=
  match s with
  | PStr s =>
    if negb (startswith DID_KEY_PREFIX s) then false else
    match decode_ed25519_did_key s with Ok _ => true | Err _ => false end
  | _ => false
  end.

(** [parse_did(s)]: [s.split(":", 2)] on a string that starts with ["did:"]. *)
Definition parse_did (s : pyval) : res (string * string) :=
  match s with
  | PStr s =>
    if negb (startswith "did:" s) then Err DIDKeyError else
    match split_at_char ":" (chars (str_drop 4 s)) with
    | None => Err DIDKeyError
    | Some (method, msid) =>
      if Nat.eqb (List.length method) 0 || Nat.eqb (List.length msid) 0 then Err DIDKeyError
      else Ok (of_chars method, of_chars msid)
    end
  | _ => Err DIDKeyError
  end.

(** ** Lemmas *)

Lemma B58_INDEX_char i : 0 <= i < 58 -> B58_INDEX (b58_char i) = Some i.
Proof.
  intros Hi. cut (forallb (fun i => bool_decide (B58_INDEX (b58_char i) = Some i)) (seqZ 0 58) = true).
  - intros H%forallb_Forall. rewrite Forall_forall in H.
    apply (bool_decide_eq_true_1 _), H, elem_of_seqZ. lia.
  - vm_compute. reflexivity.
Qed.

Lemma index_of_spec c l i j :
  index_of c l i = Some j -> i <= j < i + Z.of_nat (List.length l) /\
  nth (Z.to_nat (j - i)) l "1"%char = c.
Proof.
  revert i; induction l as [|d l IH]; intros i; [done|]. cbn [index_of List.length nth].
  destruct (Ascii.eqb_spec c d) as [->|].
  - intros [= <-]. rewrite Z.sub_diag. split; [lia|done].
  - intros [Hj Hn]%IH. split; [lia|].
    replace (Z.to_nat (j - i)) with (S (Z.to_nat (j - (i + 1)))) by lia. done.
Qed.

Lemma b58_char_INDEX c i : B58_INDEX c = Some i -> 0 <= i < 58 /\ b58_char i = c.
Proof.
  intros [Hi Hn]%index_of_spec. rewrite Z.sub_0_r in Hn. by split.
Qed.

Lemma b58_num_spec l num r :
  b58_num l num = Ok r ->
  exists ds, Forall (is_digit 58) ds /\ l = b58_char <$> ds /\
    r = num * 58 ^ Z.of_nat (List.length ds) + of_digits 58 ds.
Proof.
  revert num; induction l as [|c l IH]; intros num; cbn [b58_num].
  - intros [= <-]. exists []. rewrite of_digits_nil. split_and!; [constructor|done|simpl; lia].
  - destruct (B58_INDEX c) as [i|] eqn:E; [|done]. apply b58_char_INDEX in E as [Hi <-].
    intros (ds & Hds & -> & ->)%IH. exists (i :: ds). split_and!; [by constructor|done|].
    rewrite of_digits_cons. cbn [List.length]. rewrite Nat2Z.inj_succ, Z.pow_succ_r by lia. lia.
Qed.

Lemma b58_num_chars ds num :
  Forall (is_digit 58) ds ->
  b58_num (b58_char <$> ds) num =
  Ok (num * 58 ^ Z.of_nat (List.length ds) + of_digits 58 ds).
Proof.
  intros H. revert num; induction H as [|i ds Hi _ IH]; intros num.
  - simpl. rewrite of_digits_nil. f_equal. lia.
  - change (b58_char <$> i :: ds) with (b58_char i :: (b58_char <$> ds)). cbn [b58_num].
    rewrite B58_INDEX_char, IH by done. f_equal.
    rewrite of_digits_cons. cbn [List.length]. rewrite Nat2Z.inj_succ, Z.pow_succ_r by lia. lia.
Qed.

Lemma to_bytes_big_spec ds out :
  Forall (is_digit 256) ds ->
  to_bytes_big (List.length ds) (of_digits 256 ds) out = (ds ++ out)%list.
Proof.
  revert out; induction ds as [|d ds IH] using rev_ind; intros out H; [done|].
  apply Forall_app in H as [Hds [Hd _]%Forall_cons]. unfold is_digit in Hd.
  rewrite length_app, Nat.add_comm. cbn [List.length Nat.add to_bytes_big].
  rewrite of_digits_snoc, Z.div_add_l, Z.div_small, Z.add_0_r by lia.
  rewrite Z.add_comm, Z.mod_add, Z.mod_small by lia. rewrite IH by done.
  by rewrite <- app_assoc.
Qed.

(** The length Python gives [to_bytes] is the number of base-256 digits. *)
Lemma normal_byte_length ds :
  normal 256 ds -> ds <> [] ->
  (bit_length (of_digits 256 ds) + 7) / 8 = Z.of_nat (List.length ds).
Proof.
  intros Hn Hne. pose proof (normal_pos 256 ltac:(lia) ds Hn Hne) as Hpos.
  unfold bit_length. rewrite (proj2 (Z.eqb_neq _ _)) by lia.
  destruct ds as [|d ds]; [done|]. destruct Hn as [[Hd Hds]%Forall_cons Hh].
  specialize (Hh _ _ eq_refl). unfold is_digit in Hd.
  pose proof (of_digits_bound 256 ltac:(lia) ds Hds) as Hb.
  rewrite of_digits_cons in *. cbn [List.length]. set (n := Z.of_nat (List.length ds)) in *.
  assert (0 <= n) by lia.
  assert (256 ^ n = 2 ^ (8 * n)) as E by (rewrite Z.pow_mul_r by lia; done).
  assert (2 ^ (8 * n + 8) = 256 * 256 ^ n) as E2 by (rewrite Z.pow_add_r, E by lia; lia).
  assert (8 * n <= Z.log2 (d * 256 ^ n + of_digits 256 ds)) as Hlo.
  { apply Z.log2_le_pow2; [lia|]. nia. }
  assert (Z.log2 (d * 256 ^ n + of_digits 256 ds) < 8 * n + 8) as Hhi.
  { apply Z.log2_lt_pow2; [lia|]. rewrite E2. nia. }
  rewrite Nat2Z.inj_succ. fold n. Z.to_euclidean_division_equations. lia.
Qed.

Lemma count_leading_zeros l :
  Forall is_byte l ->
  exists ds, l = (repeat 0 (count_leading (Z.eqb 0) l) ++ ds)%list /\ normal 256 ds.
Proof.
  induction 1 as [|z l Hz Hl (ds & E & Hn)]; [exists []; split; [done|by split]|].
  cbn [count_leading]. destruct (Z.eqb_spec 0 z) as [<-|Hne].
  - exists ds. simpl. split; [by f_equal|done].
  - exists (z :: l). split; [done|]. split; [by constructor|]. intros d ds' [= <- <-]. lia.
Qed.

Lemma b58_one c : Ascii.eqb "1" c = true <-> c = b58_char 0.
Proof. rewrite Ascii.eqb_eq. change (b58_char 0) with "1"%char. split; congruence. Qed.

Lemma b58_char_inj i j : 0 <= i < 58 -> 0 <= j < 58 -> b58_char i = b58_char j -> i = j.
Proof.
  intros Hi Hj E. apply (f_equal B58_INDEX) in E. rewrite !B58_INDEX_char in E by done. congruence.
Qed.

Lemma count_leading_ones k ds :
  normal 58 ds ->
  count_leading (Ascii.eqb "1") (repeat "1"%char k ++ (b58_char <$> ds))%list = k.
Proof.
  intros [Hr Hh]. induction k as [|k IH]; [|simpl; by rewrite IH]. simpl.
  destruct ds as [|d ds]; [done|]. cbn [fmap list_fmap count_leading].
  apply Forall_cons in Hr as [Hd _].
  destruct (Ascii.eqb "1" (b58_char d)) eqn:E; [|done].
  apply b58_one, b58_char_inj in E; [|done|lia]. by destruct (Hh _ _ eq_refl).
Qed.

Lemma count_leading_ones_inv ds :
  Forall (is_digit 58) ds ->
  exists k ds', ds = (repeat 0 k ++ ds')%list /\ normal 58 ds'.
Proof.
  induction 1 as [|z l Hz Hl (k & ds & E & Hn)]; [exists O, []; split; [done|by split]|].
  destruct (Z.eq_dec z 0) as [->|].
  - exists (S k), ds. simpl. split; [by f_equal|done].
  - exists O, (z :: l). split; [done|]. split; [by constructor|]. by intros d ds' [= <- <-].
Qed.

(** The value of a base58 text and of the byte string it stands for. *)
Lemma b58decode_digits k ds :
  normal 58 ds -> (k <> O \/ ds <> []) ->
  b58decode (str_repeat "1" k ++ of_chars (b58_char <$> ds)) =
  Ok (of_bytes (repeat 0 k ++ to_digits 256 (of_digits 58 ds))%list).
Proof.
  intros Hn Hne. unfold b58decode.
  destruct (String.eqb_spec (str_repeat "1" k ++ of_chars (b58_char <$> ds)) "") as [E|_].
  { apply (f_equal chars) in E. rewrite chars_app, chars_str_repeat, chars_of_chars in E.
    destruct k; [|done]. destruct ds; [|done]. destruct Hne; done. }
  rewrite chars_app, chars_str_repeat, chars_of_chars, count_leading_ones by done.
  assert (repeat "1"%char k ++ (b58_char <$> ds) = b58_char <$> (repeat 0 k ++ ds))%list as ->.
  { rewrite fmap_app. f_equal. clear Hne. induction k; simpl; [done|]. by f_equal. }
  assert (Forall (is_digit 58) (repeat 0 k ++ ds)%list) as Hd.
  { apply Forall_app. split; [|apply Hn]. apply Forall_forall.
    intros x Hx%list_elem_of_In%repeat_spec. unfold is_digit. lia. }
  rewrite b58_num_chars by done. cbn [res_bind].
  rewrite of_digits_zeros, Z.mul_0_l, Z.add_0_l. do 3 f_equal.
  pose proof (of_digits_bound 58 ltac:(lia) ds (proj1 Hn)) as Hb.
  destruct (Z.eqb_spec (of_digits 58 ds) 0) as [->|Hnz]; [done|].
  pose proof (normal_to_digits 256 ltac:(lia) (of_digits 58 ds) ltac:(lia)) as Hn'.
  pose proof (of_to_digits 256 ltac:(lia) (of_digits 58 ds) ltac:(lia)) as Hv.
  set (num := of_digits 58 ds) in *. set (bs := to_digits 256 num) in *.
  assert (bs <> []) as Hbs by (intros E; rewrite E, of_digits_nil in Hv; lia).
  rewrite <- Hv at 1 2. rewrite normal_byte_length, Nat2Z.id by done.
  rewrite to_bytes_big_spec by apply Hn'. by rewrite app_nil_r.
Qed.

Lemma b58encode_digits k ds :
  normal 256 ds -> (k <> O \/ ds <> []) ->
  b58encode (of_bytes (repeat 0 k ++ ds)%list) =
  str_repeat "1" k ++ of_chars (b58_char <$> to_digits 58 (of_digits 256 ds)).
Proof.
  intros [Hr Hh] Hne. unfold b58encode.
  assert (Forall is_byte (repeat 0 k ++ ds)%list) as Hb.
  { apply Forall_app. split; [|done]. apply Forall_forall.
    intros x Hx%list_elem_of_In%repeat_spec. unfold is_byte. lia. }
  destruct (String.eqb_spec (of_bytes (repeat 0 k ++ ds)%list) "") as [E|_].
  { apply (f_equal bytes_of) in E. rewrite bytes_of_of in E by done.
    destruct k; [|done]. destruct ds; [|done]. destruct Hne; done. }
  rewrite bytes_of_of, of_digits_zeros by done. f_equal. f_equal.
  clear Hb Hne. induction k as [|k IH]; [|simpl; by rewrite IH]. simpl.
  destruct ds as [|d ds]; [done|]. cbn [count_leading].
  destruct (Z.eqb_spec 0 d) as [<-|]; [|done]. by destruct (Hh _ _ eq_refl).
Qed.

Lemma b58decode_encode b : b58decode (b58encode b) = Ok b.
Proof.
  destruct (String.eqb_spec b "") as [->|Hne]; [done|].
  destruct (count_leading_zeros _ (bytes_of_range b)) as (ds & E & Hn).
  set (k := count_leading _ _) in E.
  assert (k <> O \/ ds <> []) as Hkd.
  { destruct k; [|by left]. right. intros ->. apply Hne. by rewrite <- (of_bytes_of b), E. }
  rewrite <- (of_bytes_of b), E, b58encode_digits by done.
  assert (0 <= of_digits 256 ds) as Hnn by (apply of_digits_bound; [lia|apply Hn]).
  rewrite b58decode_digits.
  - rewrite of_to_digits by lia. by rewrite to_of_digits by (lia || done).
  - apply normal_to_digits; lia.
  - destruct Hkd as [?|Hds]; [by left|right]. intros E0.
    pose proof (of_to_digits 58 ltac:(lia) _ Hnn) as Hv. rewrite E0, of_digits_nil in Hv.
    pose proof (normal_pos 256 ltac:(lia) ds Hn Hds). lia.
Qed.

Lemma b58encode_decode s b : b58decode s = Ok b -> b58encode b = s.
Proof.
  destruct (String.eqb_spec s "") as [->|Hne]; [by intros [= <-]|].
  intros H. pose proof H as Hdec. unfold b58decode in H.
  rewrite (proj2 (String.eqb_neq _ _)) in H by done.
  apply res_bind_Ok in H as (num & (ds & Hds & Es & _)%b58_num_spec & _).
  destruct (count_leading_ones_inv ds Hds) as (k & ds' & -> & Hn).
  assert (s = str_repeat "1" k ++ of_chars (b58_char <$> ds')) as ->.
  { apply chars_inj. rewrite Es, chars_app, chars_str_repeat, chars_of_chars, fmap_app.
    f_equal. clear. induction k; simpl; [done|]. by f_equal. }
  assert (k <> O \/ ds' <> []) as Hkd by (destruct k; [right; by intros ->|by left]).
  rewrite b58decode_digits in Hdec by done. injection Hdec as <-.
  assert (0 <= of_digits 58 ds') as Hnn by (apply of_digits_bound; [lia|apply Hn]).
  rewrite b58encode_digits.
  - rewrite of_to_digits by lia. by rewrite to_of_digits by (lia || done).
  - apply normal_to_digits; lia.
  - destruct Hkd as [?|Hd]; [by left|right]. intros E0.
    pose proof (of_to_digits 256 ltac:(lia) _ Hnn) as Hv. rewrite E0, of_digits_nil in Hv.
    pose proof (normal_pos 58 ltac:(lia) ds' Hn Hd). lia.
Qed.

Lemma decode_did_inv did pk :
  decode_ed25519_did_key did = Ok pk ->
  bytes_len pk = 32 /\ encode_ed25519_did_key pk = Ok did.
Proof.
  unfold decode_ed25519_did_key. intros H.
  inv_guards H. bool_to_prop. apply Ok_inj in H as <-. split; [done|].
  apply prefix_true_iff in G as [body ->]. rewrite str_drop_app in *.
  apply prefix_true_iff in G0 as [enc ->]. rewrite str_drop_app in *.
  match goal with E : b58decode enc = Ok ?r, P : startswith _ ?r = true |- _ =>
    apply prefix_true_iff in P as [pk ->]; apply b58encode_decode in E; rewrite str_drop_app in * end.
  unfold encode_ed25519_did_key. rewrite (proj2 (Z.eqb_eq _ _)) by done. cbn [negb]. congruence.
Qed.

Lemma encode_did_inv pk did :
  encode_ed25519_did_key pk = Ok did ->
  bytes_len pk = 32 /\ decode_ed25519_did_key did = Ok pk.
Proof.
  unfold encode_ed25519_did_key. intros H. inv_guards H. bool_to_prop. apply Ok_inj in H as <-.
  split; [done|]. unfold decode_ed25519_did_key.
  rewrite prefix_app. cbn [negb]. rewrite str_drop_app, prefix_app. cbn [negb].
  rewrite str_drop_app, b58decode_encode. cbn [res_bind].
  rewrite prefix_app. cbn [negb]. rewrite str_drop_app, G. done.
Qed.

Lemma decode_did_only_DIDKeyError did e : decode_ed25519_did_key did = Err e -> e = DIDKeyError.
Proof.
  unfold decode_ed25519_did_key, b58decode. intros H.
  assert (forall l n e', b58_num l n = Err e' -> e' = DIDKeyError) as Hn.
  { induction l as [|c l IH]; intros n e'; cbn [b58_num]; [done|].
    destruct (B58_INDEX c); [apply IH|by intros [= <-]]. }
  repeat case_match; try congruence;
    repeat match goal with
    | E : res_bind _ _ = Err _ |- _ => apply res_bind_Err in E as [E|(? & ? & E)]
    end; repeat case_match; simplify_eq; try done; try (by eapply Hn).
Qed.

(** DIDs are ASCII text. *)
Lemma b58_char_ascii i : 0 <= byte_of (b58_char i) < 128.
Proof.
  unfold b58_char.
  assert (Forall (fun c => 0 <= byte_of c < 128) (chars B58_ALPHABET)) as H.
  { assert (forallb (fun c => byte_of c <? 128) (chars B58_ALPHABET) = true) as E by by vm_compute.
    apply forallb_Forall in E. eapply Forall_impl; [exact E|]. intros c Hc. simpl in Hc.
    pose proof (byte_of_range c). lia. }
  destruct (nth_in_or_default (Z.to_nat i) (chars B58_ALPHABET) "1"%char) as [Hin| ->];
    [|by vm_compute].
  rewrite Forall_forall in H. apply H. by apply list_elem_of_In.
Qed.

Lemma did_ascii pk did :
  encode_ed25519_did_key pk = Ok did -> Forall (fun z => 0 <= z < 128) (bytes_of did).
Proof.
  unfold encode_ed25519_did_key. intros H. inv_guards H. apply Ok_inj in H as <-.
  rewrite !bytes_of_app. repeat (apply Forall_app; split).
  - by repeat constructor.
  - by repeat constructor.
  - unfold b58encode. destruct (String.eqb _ _); [constructor|].
    rewrite bytes_of_app. apply Forall_app. unfold bytes_of.
    rewrite chars_str_repeat, chars_of_chars. split.
    + apply Forall_fmap. rewrite Forall_forall. intros c Hc.
      apply list_elem_of_In, repeat_spec in Hc as ->. by vm_compute.
    + apply Forall_fmap, Forall_fmap. rewrite Forall_forall. intros i _. apply b58_char_ascii.
Qed.

(** ** Properties *)

(** C38.  did:key strings and 32-byte public keys are in bijection: a DID
    decodes to a key exactly when encoding that key yields this very DID.  So
    comparing parties by their DID text compares their keys. *)
Theorem did_key_bijection did pk :
  decode_ed25519_did_key did = Ok pk <-> encode_ed25519_did_key pk = Ok did.
Proof.
  split; [intros [_ H]%decode_did_inv; done|intros [_ H]%encode_did_inv; done].
Qed.
