(* ===== verification/Money.v ===== *)
(** * Exact amounts ([nth_dao/commerce/money.py])

    Decimal text to integer minor units and back, without floats and without
    rounding. *)

From Stdlib Require Import ZArith Lia Ascii String.
From stdpp Require Import base list strings.
From S2P Require Import Prelude Digits PyStr PyValue B64u.

Local Open Scope string_scope.
Local Open Scope Z_scope.

(** [ASSET_DECIMALS.get(currency)] *)
Definition ASSET_DECIMALS (currency : string) : option nat :=
  if String.eqb currency "USDC" then Some 6%nat
  else if String.eqb currency "NTH-TEST" then Some 6%nat
  else if String.eqb currency "credit" then Some 0%nat
  else None.

Definition MAX_MINOR_AMOUNT : Z := Z.shiftl 1 63 - 1.
Definition MAX_AMOUNT_TEXT_CHARS : Z := 96.

(** [Union[str, Decimal]]: a Python value, or a [Decimal] given by its [str]. *)
Inductive amount_arg :=
| AValue (v : pyval)
| ADecimal (text : string).

(** The integer part of [_PLAIN_DECIMAL]: [0] or a numeral without a leading
    zero. *)
Definition plain_whole (l : list ascii) : bool :=
  match l with
  | [] => false
  | c :: l' => if Ascii.eqb c "0" then Nat.eqb (List.length l') 0
               else forallb is_dec (c :: l')
  end.

(** [text.partition(".")] *)
Definition partition_dot (text : string) : list ascii * option (list ascii) :=
  match split_at_char "." (chars text) with
  | Some (whole, fraction) => (whole, Some fraction)
  | None => (chars text, None)
  end.

(** [_PLAIN_DECIMAL.fullmatch(text)] *)
Definition PLAIN_DECIMAL (text : string) : bool :=
  let '(whole, fraction) := partition_dot text in
  plain_whole whole &&
  match fraction with
  | None => true
  | Some f => negb (Nat.eqb (List.length f) 0) && forallb is_dec f
  end.

(** [_decimal_parts(value)] *)
Definition decimal_parts (value : amount_arg) : res (string * string) :=
  let* text :=
    match value with
    | AValue (PStr s) => Ok s
    | ADecimal s => Ok s
    | AValue _ => Err MoneyRejected
    end in
  if MAX_AMOUNT_TEXT_CHARS <? py_len text then Err MoneyRejected else
  if negb (PLAIN_DECIMAL text) then Err MoneyRejected else
  let '(whole, fraction) := partition_dot text in
  Ok (of_chars whole, match fraction with Some f => of_chars f | None => "" end).

(** [s.ljust(n, "0")] for ASCII text *)
Definition ljust0 (n : nat) (s : string) : string :=
  s ++ str_repeat "0" (n - String.length s).

(** [decimal_to_minor(value, currency, require_positive=...)] *)
Definition decimal_to_minor (value : amount_arg) (currency : string)
    (require_positive : bool) : res Z :=
  match ASSET_DECIMALS currency with
  | None => Err MoneyRejected
  | Some decimals =>
    let* (whole, fraction) := decimal_parts value in
    if Nat.ltb decimals (String.length fraction) then Err MoneyRejected else
    let scale := 10 ^ Z.of_nat decimals in
    let amount_minor := dec_value whole * scale in
    let amount_minor :=
      if String.eqb fraction "" then amount_minor
      else amount_minor + dec_value (ljust0 decimals fraction) in
    if MAX_MINOR_AMOUNT <? amount_minor then Err MoneyRejected else
    if require_positive && (amount_minor =? 0) then Err MoneyRejected else
    Ok amount_minor
  end.

(** [f"{n:0{w}d}"] for a non-negative [n] *)
Definition zero_pad (w : nat) (n : Z) : string :=
  str_repeat "0" (w - String.length (int_str n)) ++ int_str n.

(** [minor_to_decimal(amount_minor, currency)] *)
Definition minor_to_decimal (amount_minor : pyval) (currency : string) : res string :=
  match ASSET_DECIMALS currency with
  | None => Err MoneyRejected
  | Some decimals =>
    match as_int amount_minor with
    | None => Err MoneyRejected
    | Some amount_minor =>
      if amount_minor <? 0 then Err MoneyRejected else
      if MAX_MINOR_AMOUNT <? amount_minor then Err MoneyRejected else
      if Nat.eqb decimals 0 then Ok (int_str amount_minor) else
      let whole := amount_minor / 10 ^ Z.of_nat decimals in
      let fraction := amount_minor mod 10 ^ Z.of_nat decimals in
      if fraction =? 0 then Ok (int_str whole) else
      Ok (rstrip_char "0" (int_str whole ++ "." ++ zero_pad decimals fraction))
    end
  end.

Example to_minor_ex : decimal_to_minor (AValue (PStr "12.05")) "USDC" true = Ok 12050000.
Proof. vm_compute. reflexivity. Qed.

Example to_decimal_ex : minor_to_decimal (PInt 12050000) "USDC" = Ok "12.05".
Proof. vm_compute. reflexivity. Qed.

(** ** Lemmas *)

Lemma int_str_nonneg n :
  0 <= n -> exists c l, chars (int_str n) = c :: l /\ forallb is_dec (c :: l) = true /\
    (c = "0"%char -> l = []) /\ dec_value (int_str n) = n.
Proof.
  intros Hn. unfold int_str. destruct (Z.eqb_spec n 0) as [->|Hnz].
  { exists "0"%char, []. by vm_compute. }
  rewrite (proj2 (Z.ltb_ge n 0)) by lia.
  pose proof (dec_digits_all n Hn) as Hall. unfold char_all in Hall.
  pose proof (normal_to_digits 10 ltac:(lia) n Hn) as [Hr Hh].
  pose proof (of_to_digits 10 ltac:(lia) n Hn) as Hv.
  pose proof (dec_value_digits n Hn) as Hd.
  unfold dec_digits in *. rewrite chars_of_chars in *.
  destruct (to_digits 10 n) as [|d ds]; [rewrite of_digits_nil in Hv; lia|].
  exists (digit_char d), (digit_char <$> ds). split_and!; [done|exact Hall| |done].
  intros E. apply Forall_cons in Hr as [Hd0 _]. apply (f_equal digit_value) in E.
  rewrite digit_value_char in E by done. by destruct (Hh _ _ eq_refl).
Qed.

Lemma plain_whole_int_str n : 0 <= n -> plain_whole (chars (int_str n)) = true.
Proof.
  intros Hn. destruct (int_str_nonneg n Hn) as (c & l & -> & Hall & Hz & _).
  cbn [plain_whole]. destruct (Ascii.eqb_spec c "0") as [->|]; [|done]. by rewrite Hz.
Qed.

Lemma split_at_char_app c l k :
  Forall (fun x => x <> c) l -> split_at_char c (l ++ c :: k)%list = Some (l, k).
Proof.
  induction 1 as [|x l Hx _ IH]; cbn [app split_at_char]; [by rewrite Ascii.eqb_refl|].
  rewrite (proj2 (Ascii.eqb_neq _ _)) by congruence. by rewrite IH.
Qed.

Lemma split_at_char_none c l :
  Forall (fun x => x <> c) l -> split_at_char c l = None.
Proof.
  induction 1 as [|x l Hx _ IH]; cbn [split_at_char]; [done|].
  rewrite (proj2 (Ascii.eqb_neq _ _)) by congruence. by rewrite IH.
Qed.

Lemma dec_not_dot l : forallb is_dec l = true -> Forall (fun x => x <> "."%char) l.
Proof.
  intros H%forallb_Forall. eapply Forall_impl; [exact H|]. intros c Hc ->. discriminate Hc.
Qed.

Lemma dec_ascii l : forallb is_dec l = true -> Forall (fun z => 0 <= z < 128) (byte_of <$> l).
Proof.
  intros H%forallb_Forall. apply Forall_fmap. eapply Forall_impl; [exact H|].
  intros c Hc%is_dec_range. unfold digit_value in Hc. simpl. lia.
Qed.

(** What [decimal_parts] accepts. *)
Lemma decimal_parts_spec value whole fraction :
  decimal_parts value = Ok (whole, fraction) ->
  char_all is_dec whole = true /\ char_all is_dec fraction = true.
Proof.
  unfold decimal_parts. intros H. apply res_bind_Ok in H as (text & _ & H).
  unfold PLAIN_DECIMAL in H. destruct (partition_dot text) as [w f] eqn:Ep.
  inv_guards H. bool_to_prop. apply Ok_inj in H. injection H as <- <-.
  unfold char_all. rewrite chars_of_chars. split.
  - destruct w as [|c w]; [done|]. cbn [plain_whole] in *.
    destruct (Ascii.eqb_spec c "0") as [->|]; [|done]. by destruct w.
  - destruct f as [f|]; [|done]. rewrite chars_of_chars. by bool_to_prop.
Qed.

Lemma dec_value_zeros k : dec_value (str_repeat "0" k) = 0.
Proof.
  unfold dec_value. rewrite chars_str_repeat.
  assert (digit_value <$> repeat "0"%char k = repeat 0 k ++ [])%list as ->.
  { rewrite app_nil_r. induction k; simpl; [done|]. by f_equal. }
  by rewrite of_digits_zeros.
Qed.

Lemma str_repeat_length c k : String.length (str_repeat c k) = k.
Proof. induction k; simpl; congruence. Qed.

Lemma ljust0_value n s :
  (String.length s <= n)%nat ->
  dec_value (ljust0 n s) = dec_value s * 10 ^ Z.of_nat (n - String.length s).
Proof.
  intros. unfold ljust0. rewrite dec_value_app, dec_value_zeros, str_repeat_length. lia.
Qed.

(** Right-stripping and padding again restores a text of the padded length. *)
Lemma drop_while_spec c l :
  exists k, l = (repeat c k ++ drop_while_char c l)%list.
Proof.
  induction l as [|d l [k E]]; [by exists O|]. cbn [drop_while_char].
  destruct (Ascii.eqb_spec c d) as [<-|]; [|by exists O]. exists (S k). simpl. by f_equal.
Qed.

Lemma rstrip_spec c s : exists k, s = rstrip_char c s ++ str_repeat c k.
Proof.
  destruct (drop_while_spec c (rev (chars s))) as [k E]. exists k. apply chars_inj.
  unfold rstrip_char. rewrite chars_app, chars_of_chars, chars_str_repeat.
  apply (f_equal (@rev ascii)) in E. rewrite rev_involutive, rev_app_distr, rev_repeat in E.
  exact E.
Qed.

Lemma rstrip_app c s t :
  rstrip_char c t <> "" -> rstrip_char c (s ++ t) = s ++ rstrip_char c t.
Proof.
  intros Hne. unfold rstrip_char in *. rewrite chars_app, rev_app_distr.
  assert (drop_while_char c (rev (chars t)) <> []) as H.
  { intros E. apply Hne. by rewrite E. }
  clear Hne. assert (forall l k, drop_while_char c l <> [] ->
    drop_while_char c (l ++ k)%list = (drop_while_char c l ++ k)%list) as E.
  { clear. induction l as [|d l IH]; intros k Hl; [done|]. cbn [app drop_while_char] in *.
    destruct (Ascii.eqb c d); [by apply IH|done]. }
  rewrite E by done. rewrite rev_app_distr, rev_involutive, of_chars_app. by rewrite of_chars_chars.
Qed.

Lemma char_all_repeat p c k : p c = true -> char_all p (str_repeat c k) = true.
Proof.
  intros H. unfold char_all. rewrite chars_str_repeat. apply forallb_forall.
  intros x ->%repeat_spec. done.
Qed.

Lemma int_str_length n k : 0 <= n < 10 ^ Z.of_nat (S k) -> (String.length (int_str n) <= S k)%nat.
Proof.
  intros [Hn Hk]. unfold int_str. destruct (Z.eqb_spec n 0); [simpl; lia|].
  rewrite (proj2 (Z.ltb_ge n 0)) by lia. unfold dec_digits.
  rewrite str_length_chars, chars_of_chars, length_fmap. apply to_digits_length; lia.
Qed.

Lemma zero_pad_spec w n :
  0 <= n < 10 ^ Z.of_nat (S w) ->
  char_all is_dec (zero_pad (S w) n) = true /\ dec_value (zero_pad (S w) n) = n /\
  String.length (zero_pad (S w) n) = S w.
Proof.
  intros Hn. destruct (int_str_nonneg n ltac:(lia)) as (c & l & Ec & Hall & _ & Hv).
  pose proof (int_str_length n w Hn). unfold zero_pad. split_and!.
  - rewrite char_all_app, char_all_repeat by done. unfold char_all. by rewrite Ec.
  - rewrite dec_value_app, dec_value_zeros, Hv. lia.
  - rewrite str_length_app, str_repeat_length. lia.
Qed.

(** The canonical text of [fraction] out of [decimals] places. *)
Lemma stripped_fraction w n :
  0 < n < 10 ^ Z.of_nat (S w) ->
  let f := rstrip_char "0" (zero_pad (S w) n) in
  f <> "" /\ char_all is_dec f = true /\ (String.length f <= S w)%nat /\
  dec_value (ljust0 (S w) f) = n.
Proof.
  intros Hn f. destruct (zero_pad_spec w n ltac:(lia)) as (Hall & Hv & Hl).
  destruct (rstrip_spec "0" (zero_pad (S w) n)) as [k E]. fold f in E.
  rewrite E in Hall, Hv, Hl. rewrite char_all_app in Hall. bool_to_prop.
  rewrite str_length_app, str_repeat_length in Hl. split_and!; [|done|lia|].
  - intros Ef. rewrite Ef in Hv. simpl in Hv. rewrite dec_value_zeros in Hv. lia.
  - unfold ljust0. replace (S w - String.length f)%nat with k by lia. done.
Qed.

Lemma decimal_parts_text text whole fraction :
  forallb is_dec whole = true -> plain_whole whole = true ->
  forallb is_dec fraction = true ->
  chars text = (whole ++ match fraction with [] => [] | _ => "."%char :: fraction end)%list ->
  (List.length whole + List.length fraction <= 95)%nat ->
  decimal_parts (AValue (PStr text)) = Ok (of_chars whole, of_chars fraction).
Proof.
  intros Hw Hp Hf Et Hlen. unfold decimal_parts. cbn [res_bind].
  assert (py_len text <= 96) as Hpl.
  { rewrite py_len_ascii.
    - unfold bytes_len. rewrite str_length_chars, Et, length_app.
      destruct fraction; cbn [List.length] in *; lia.
    - unfold bytes_of. rewrite Et, fmap_app. apply Forall_app. split; [by apply dec_ascii|].
      destruct fraction as [|d fraction]; [constructor|]. cbn [fmap list_fmap].
      constructor; [by vm_compute|]. by apply (dec_ascii (d :: fraction)). }
  unfold MAX_AMOUNT_TEXT_CHARS. rewrite (proj2 (Z.ltb_ge _ _)) by lia.
  assert (partition_dot text = (whole, match fraction with [] => None | _ => Some fraction end)) as E.
  { unfold partition_dot. rewrite Et. destruct fraction.
    - by rewrite app_nil_r, split_at_char_none by by apply dec_not_dot.
    - by rewrite split_at_char_app by by apply dec_not_dot. }
  unfold PLAIN_DECIMAL. rewrite E, Hp. cbn [andb]. destruct fraction as [|d fraction]; [done|].
  cbn [List.length Nat.eqb negb andb]. by rewrite Hf.
Qed.

Lemma ASSET_DECIMALS_le currency decimals :
  ASSET_DECIMALS currency = Some decimals -> (decimals <= 6)%nat.
Proof. unfold ASSET_DECIMALS. intros. repeat case_match; simplify_eq; lia. Qed.

Lemma MAX_MINOR_AMOUNT_digits : MAX_MINOR_AMOUNT < 10 ^ Z.of_nat 20.
Proof. by vm_compute. Qed.

(** The text of a bounded whole part and a short fraction splits back. *)
Lemma decimal_parts_int n text fraction :
  0 <= n <= MAX_MINOR_AMOUNT -> forallb is_dec fraction = true ->
  (List.length fraction <= 70)%nat ->
  chars text = (chars (int_str n) ++
    match fraction with [] => [] | _ => "."%char :: fraction end)%list ->
  decimal_parts (AValue (PStr text)) = Ok (int_str n, of_chars fraction).
Proof.
  intros Hn Hf Hl Et.
  destruct (int_str_nonneg n (proj1 Hn)) as (c & l & Ec & Hall & _).
  assert (0 <= n < 10 ^ Z.of_nat 20) as Hn20.
  { split; [apply Hn|]. eapply Z.le_lt_trans; [apply Hn|apply MAX_MINOR_AMOUNT_digits]. }
  pose proof (int_str_length n 19 Hn20) as Hil. rewrite str_length_chars in Hil.
  rewrite (decimal_parts_text text (chars (int_str n)) fraction);
    [by rewrite of_chars_chars|by rewrite Ec|by apply plain_whole_int_str, Hn|done|done|].
  clear -Hil Hl. lia.
Qed.

(** The quotient and remainder by a scale, with what the conversions need. *)
Lemma scale_split amount w :
  0 <= amount ->
  exists sc q r, sc = 10 ^ Z.of_nat w /\ q = amount / sc /\ r = amount mod sc /\
    amount = q * sc + r /\ 0 <= r < sc /\ 0 <= q <= amount.
Proof.
  intros Ha. exists (10 ^ Z.of_nat w), (amount / 10 ^ Z.of_nat w), (amount mod 10 ^ Z.of_nat w).
  assert (0 < 10 ^ Z.of_nat w) as Hsc by (apply Z.pow_pos_nonneg; lia).
  generalize dependent (10 ^ Z.of_nat w). intros sc Hsc.
  pose proof (Z.div_mod amount sc ltac:(lia)). pose proof (Z.mod_pos_bound amount sc Hsc).
  split_and!; try done; try lia; [apply Z.div_pos; lia|]. apply Z.div_le_upper_bound; nia.
Qed.

Lemma minor_to_decimal_read amount currency decimals :
  0 <= amount <= MAX_MINOR_AMOUNT -> ASSET_DECIMALS currency = Some decimals ->
  exists text, minor_to_decimal (PInt amount) currency = Ok text /\
    decimal_to_minor (AValue (PStr text)) currency false = Ok amount.
Proof.
  intros Ha Hc. pose proof (ASSET_DECIMALS_le _ _ Hc) as H6.
  unfold minor_to_decimal, decimal_to_minor. rewrite Hc. cbn [as_int andb].
  pose proof decimal_parts_int as Hparts.
  generalize dependent MAX_MINOR_AMOUNT. intros mx Ha Hparts.
  rewrite (proj2 (Z.ltb_ge _ _)), (proj2 (Z.ltb_ge _ _)) by lia.
  destruct (scale_split amount decimals (proj1 Ha)) as (sc & q & r & -> & Eq & Er & E & Hr & Hq).
  destruct (int_str_nonneg q (proj1 Hq)) as (c & l & Ec & Hall & _ & Hv).
  destruct (Nat.eqb_spec decimals 0) as [->|Hd].
  - exists (int_str amount); split; [done|].
    rewrite (Hparts amount _ []) by (done || (simpl; lia) || by rewrite app_nil_r).
    cbn [res_bind]. simpl String.length. cbn [Nat.ltb Nat.leb]. rewrite String.eqb_refl.
    destruct (int_str_nonneg amount (proj1 Ha)) as (? & ? & _ & _ & _ & ->).
    rewrite Z.pow_0_r, Z.mul_1_r, (proj2 (Z.ltb_ge _ _)) by lia. done.
  - destruct decimals as [|w]; [done|]. rewrite <- Eq, <- Er.
    destruct (Z.eqb_spec r 0) as [E0|Hnz]; (eexists; split; [reflexivity|]).
    + rewrite (Hparts q _ []) by (done || (simpl; lia) || lia || by rewrite app_nil_r).
      cbn [res_bind]. simpl String.length. cbn [Nat.ltb Nat.leb]. rewrite String.eqb_refl, Hv.
      rewrite (proj2 (Z.ltb_ge _ _)) by lia. f_equal. lia.
    + destruct (stripped_fraction w r ltac:(lia)) as (Hne & Hfall & Hfl & Hfv).
      rewrite <- str_app_assoc, rstrip_app by done.
      generalize dependent (rstrip_char "0" (zero_pad (S w) r)). intros f Hne Hfall Hfl Hfv.
      rewrite (Hparts q _ (chars f)); [|lia|done| |].
      * cbn [res_bind]. rewrite of_chars_chars, (proj2 (Nat.ltb_ge _ _)) by done.
        rewrite (proj2 (String.eqb_neq _ _)) by done. rewrite Hv, Hfv.
        rewrite (proj2 (Z.ltb_ge _ _)) by lia. f_equal. lia.
      * rewrite <- str_length_chars. lia.
      * rewrite !chars_app. destruct (chars f) as [|d k] eqn:Ef.
        { destruct Hne. by rewrite <- (of_chars_chars f), Ef. }
        by rewrite <- app_assoc.
Qed.

Lemma pow10_split a b : (b <= a)%nat ->
  10 ^ Z.of_nat a = 10 ^ Z.of_nat b * 10 ^ Z.of_nat (a - b).
Proof. intros. rewrite <- Z.pow_add_r by lia. f_equal. lia. Qed.

(** ** Properties *)

(** Minor units survive the trip through text: the decimal spelling of an
    in-range amount reads back as the same amount, in every currency. *)
Theorem minor_decimal_roundtrip amount currency decimals :
  0 <= amount <= MAX_MINOR_AMOUNT -> ASSET_DECIMALS currency = Some decimals ->
  exists text, minor_to_decimal (PInt amount) currency = Ok text /\
    decimal_to_minor (AValue (PStr text)) currency false = Ok amount.
Proof. apply minor_to_decimal_read. Qed.

Lemma minor_decimal_roundtrip_witness :
  exists text, minor_to_decimal (PInt 12050000) "USDC" = Ok text /\
    decimal_to_minor (AValue (PStr text)) "USDC" false = Ok 12050000.
Proof.
  apply (minor_decimal_roundtrip 12050000 "USDC" 6); [split; by vm_compute|reflexivity].
Defined.

(** Conversion is exact and bounded: an accepted text [w.f] becomes the
    integer [n] with [n / 10^decimals = w.f] as fractions, between zero and
    [2^63 - 1], and at least one when a positive amount is required. *)
Theorem decimal_to_minor_exact value currency pos n :
  decimal_to_minor value currency pos = Ok n ->
  exists decimals whole fraction,
    ASSET_DECIMALS currency = Some decimals /\ decimal_parts value = Ok (whole, fraction) /\
    n * 10 ^ Z.of_nat (String.length fraction) =
      (dec_value whole * 10 ^ Z.of_nat (String.length fraction) + dec_value fraction)
        * 10 ^ Z.of_nat decimals /\
    0 <= n <= 2 ^ 63 - 1 /\ (pos = true -> 0 < n).
Proof.
  unfold decimal_to_minor. destruct (ASSET_DECIMALS currency) as [decimals|]; [|done].
  destruct (decimal_parts value) as [[whole fraction]|] eqn:Ep; [|done]. cbn [res_bind].
  destruct (decimal_parts_spec _ _ _ Ep) as [Hw Hf].
  destruct (Nat.ltb decimals (String.length fraction)) eqn:Hl; [done|]. apply Nat.ltb_ge in Hl.
  change MAX_MINOR_AMOUNT with (2 ^ 63 - 1). generalize (2 ^ 63 - 1). intros mx.
  pose proof (dec_value_bound _ Hw). pose proof (dec_value_bound _ Hf).
  assert (0 <= dec_value whole /\ 0 <= dec_value fraction) as [Hw0 Hf0] by lia.
  pose proof (ljust0_value _ _ Hl) as Hlj. pose proof (pow10_split _ _ Hl) as Hsp.
  assert (0 < 10 ^ Z.of_nat (decimals - String.length fraction)) as Hp
    by (apply Z.pow_pos_nonneg; lia).
  assert (0 < 10 ^ Z.of_nat (String.length fraction)) as Hp2 by (apply Z.pow_pos_nonneg; lia).
  set (v := if String.eqb fraction "" then _ else _).
  assert (v = dec_value whole * 10 ^ Z.of_nat decimals + dec_value (ljust0 decimals fraction)) as Ev.
  { unfold v. destruct (String.eqb_spec fraction "") as [->|]; [|done].
    rewrite Hlj. change (dec_value "") with 0. lia. }
  clearbody v. intros H'. inv_guards H'. bool_to_prop. apply Ok_inj in H' as <-.
  exists decimals, whole, fraction. rewrite Ev, Hlj in *. rewrite Hsp in *.
  split_and!; try done; [ring|nia|].
  intros ->. cbn [andb] in *. bool_to_prop. nia.
Qed.

Lemma decimal_to_minor_exact_witness :
  exists decimals whole fraction,
    ASSET_DECIMALS "USDC" = Some decimals /\
    decimal_parts (AValue (PStr "0.5")) = Ok (whole, fraction) /\
    500000 * 10 ^ Z.of_nat (String.length fraction) =
      (dec_value whole * 10 ^ Z.of_nat (String.length fraction) + dec_value fraction)
        * 10 ^ Z.of_nat decimals /\
    0 <= 500000 <= 2 ^ 63 - 1 /\ (true = true -> 0 < 500000).
Proof. apply decimal_to_minor_exact. vm_compute. reflexivity. Defined.
