(* ===== verification/Sha256.v ===== *)
(** * SHA-256 ([hashlib.sha256])

    The digest the Standard Library gives the code: FIPS 180-4 on 32-bit
    words, executable, so that content identifiers can be evaluated on concrete
    records.  No cryptographic property is assumed of it anywhere: statements
    that need one say "equal, or here is a collision". *)

From Stdlib Require Import ZArith Lia Ascii String.
From stdpp Require Import base list strings.
From S2P Require Import Prelude Digits PyStr.

Local Open Scope string_scope.
Local Open Scope Z_scope.

Module Sha256.

(** ** 32-bit words *)

Definition word (z : Z) : Z := Z.land z 0xffffffff.
Definition add32 (a b : Z) : Z := word (a + b).
Definition rotr (n x : Z) : Z :=
  Z.lor (Z.shiftr x n) (word (Z.shiftl x (32 - n))).
Definition not32 (x : Z) : Z := Z.lxor x 0xffffffff.

Definition Ch (x y z : Z) : Z := Z.lxor (Z.land x y) (Z.land (not32 x) z).
Definition Maj (x y z : Z) : Z :=
  Z.lxor (Z.lxor (Z.land x y) (Z.land x z)) (Z.land y z).
Definition Sigma0 (x : Z) : Z := Z.lxor (Z.lxor (rotr 2 x) (rotr 13 x)) (rotr 22 x).
Definition Sigma1 (x : Z) : Z := Z.lxor (Z.lxor (rotr 6 x) (rotr 11 x)) (rotr 25 x).
Definition sigma0 (x : Z) : Z := Z.lxor (Z.lxor (rotr 7 x) (rotr 18 x)) (Z.shiftr x 3).
Definition sigma1 (x : Z) : Z := Z.lxor (Z.lxor (rotr 17 x) (rotr 19 x)) (Z.shiftr x 10).

(** ** Constants

    FIPS 180-4 takes the words from the first 64 primes: the first 32 bits of
    the fractional parts of their cube roots ([K]), and of the square roots of
    the first eight ([H0]).  They are computed here, once. *)

Definition is_prime (n : nat) : bool :=
  forallb (fun d => negb (Nat.eqb (Nat.modulo n d) 0)) (seq 2 (n - 2)).

(** the first 64 primes are below 312 *)
Definition primes : list Z :=
  Eval vm_compute in map Z.of_nat (List.filter is_prime (seq 2 310)).

(** [cbrt 48 n] is the integer cube root of [n < 2^147], bit by bit *)
Fixpoint cbrt (bits : nat) (root n : Z) : Z :=
  match bits with
  | O => root
  | S b =>
      let next := root + Z.shiftl 1 (Z.of_nat b) in
      cbrt b (if next * next * next <=? n then next else root) n
  end.

Definition K : list Z :=
  Eval vm_compute in map (fun p => word (cbrt 48 0 (Z.shiftl p 96))) primes.

Definition H0 : list Z :=
  Eval vm_compute in map (fun p => word (Z.sqrt (Z.shiftl p 64))) (take 8 primes).

(** ** Padding and blocks *)

(** [n] big-endian bytes of [z] *)
Fixpoint be_bytes (n : nat) (z : Z) : list Z :=
  match n with
  | O => []
  | S n' => (be_bytes n' (Z.shiftr z 8) ++ [Z.land z 255])%list
  end.

Definition pad (m : list Z) : list Z :=
  let l := Z.of_nat (List.length m) in
  (m ++ 128 :: repeat 0 (Z.to_nat ((55 - l) mod 64)) ++ be_bytes 8 (8 * l))%list.

Fixpoint words (l : list Z) : list Z :=
  match l with
  | a :: b :: c :: d :: l' =>
      (Z.shiftl a 24 + Z.shiftl b 16 + Z.shiftl c 8 + d) :: words l'
  | _ => []
  end.

(** The message schedule, newest word first. *)
Fixpoint schedule (n : nat) (w : list Z) : list Z :=
  match n with
  | O => w
  | S n' =>
      schedule n'
        (add32 (add32 (sigma1 (nth 1 w 0)) (nth 6 w 0))
               (add32 (sigma0 (nth 14 w 0)) (nth 15 w 0)) :: w)
  end.

Definition round (st : list Z) (kw : Z * Z) : list Z :=
  match st with
  | [a; b; c; d; e; f; g; h] =>
      let t1 := add32 (add32 h (Sigma1 e)) (add32 (Ch e f g) (add32 (fst kw) (snd kw))) in
      let t2 := add32 (Sigma0 a) (Maj a b c) in
      [add32 t1 t2; a; b; c; add32 d t1; e; f; g]
  | _ => st
  end.

Definition compress (st block : list Z) : list Z :=
  let ws := rev (schedule 48 (rev block)) in
  zip_with add32 st (fold_left round (zip K ws) st).

Fixpoint blocks (fuel : nat) (ws st : list Z) : list Z :=
  match fuel, ws with
  | S fuel', _ :: _ => blocks fuel' (drop 16 ws) (compress st (take 16 ws))
  | _, _ => st
  end.

Definition digest (m : list Z) : list Z :=
  let ws := words (pad m) in
  flat_map (be_bytes 4) (blocks (List.length ws) ws H0).

End Sha256.

(** [hashlib.sha256(data).digest()] *)
Definition sha256 (data : string) : string := of_bytes (Sha256.digest (bytes_of data)).

(** [hashlib.sha256(data).hexdigest()] *)
Definition sha256_hex (data : string) : string := hex (sha256 data).

Example sha256_empty :
  sha256_hex "" = "e3b0c44298fc1c149afbf4c8996fb92427ae41e4649b934ca495991b7852b855".
Proof. vm_compute. reflexivity. Qed.

Example sha256_abc :
  sha256_hex "abc" = "ba7816bf8f01cfea414140de5dae2223b00361a396177a9cb410ff61f20015ad".
Proof. vm_compute. reflexivity. Qed.

Example sha256_two_blocks :
  sha256_hex "abcdbcdecdefdefgefghfghighijhijkijkljklmklmnlmnomnopnopq"
  = "248d6a61d20638b8e5c026930c3e6039a33ce45964ff2167f6ecedd419db06c1".
Proof. vm_compute. reflexivity. Qed.

(** Two different inputs with one digest. *)
Definition sha256_collision (a b : string) : Prop := a <> b /\ sha256_hex a = sha256_hex b.

Lemma sha256_hex_inj a b : sha256_hex a = sha256_hex b -> a = b \/ sha256_collision a b.
Proof. intros H. destruct (decide (a = b)); [by left|by right]. Qed.

(** ** The digest has 64 lower-case hex digits *)

Lemma be_bytes_length n z : List.length (Sha256.be_bytes n z) = n.
Proof. revert z. induction n; intros z; simpl; [done|]. rewrite length_app, IHn. simpl. lia. Qed.

Lemma round_length st kw : List.length st = 8%nat -> List.length (Sha256.round st kw) = 8%nat.
Proof. intros. do 9 (destruct st; try done). Qed.

Lemma compress_length st b : List.length st = 8%nat -> List.length (Sha256.compress st b) = 8%nat.
Proof.
  intros H. unfold Sha256.compress. rewrite length_zip_with.
  assert (forall l st', List.length st' = 8%nat -> List.length (fold_left Sha256.round l st') = 8%nat) as E.
  { induction l; intros; simpl; [done|]. by apply IHl, round_length. }
  rewrite (E _ st H). lia.
Qed.

Lemma blocks_length fuel ws st :
  List.length st = 8%nat -> List.length (Sha256.blocks fuel ws st) = 8%nat.
Proof.
  revert ws st. induction fuel; intros ws st H; simpl; [done|].
  destruct ws; [done|]. by apply IHfuel, compress_length.
Qed.

Lemma digest_length m : List.length (Sha256.digest m) = 32%nat.
Proof.
  unfold Sha256.digest. set (l := Sha256.blocks _ _ _).
  assert (List.length l = 8%nat) as H by by apply blocks_length.
  clearbody l. by do 9 (destruct l; try done).
Qed.

Lemma sha256_length m : String.length (sha256 m) = 32%nat.
Proof.
  unfold sha256, of_bytes. rewrite str_length_chars, chars_of_chars, length_fmap. apply digest_length.
Qed.

Lemma sha256_len m : bytes_len (sha256 m) = 32.
Proof. unfold bytes_len. by rewrite sha256_length. Qed.

Lemma sha256_hex_digest m : hex_digest 64 (sha256_hex m) = true.
Proof.
  unfold hex_digest, sha256_hex. destruct (hex_spec (sha256 m)) as [-> ->].
  by rewrite sha256_length.
Qed.

Lemma fromhex_sha256 m : fromhex (sha256_hex m) = Ok (sha256 m).
Proof. apply fromhex_hex. Qed.
