(* ===== verification/Identity.v ===== *)
(** * Agent identities ([nth_dao/identity.py])

    Ed25519 comes from PyNaCl, which is not part of the repository: it is the
    class [Ed25519], whose laws ([Ed25519Laws]) are the documented behaviour of
    [nacl.signing].  [toy_ed25519] is a concrete instance for evaluating the
    model on examples; it has no cryptographic meaning. *)

From Stdlib Require Import ZArith Lia Ascii String.
From stdpp Require Import base list strings.
From S2P Require Import Prelude Digits PyStr PyValue Json JsonAscii CanonicalJson B64u DidKey Sha256.

Local Open Scope string_scope.
Local Open Scope Z_scope.

(** ** PyNaCl *)

Class Ed25519 := {
  nacl_available : bool;
  (** [SigningKey(seed).sign(m).signature], for a 32-byte seed *)
  ed_sign : string -> string -> string;
  (** [SigningKey(seed).verify_key.encode()], for a 32-byte seed *)
  ed_pub : string -> string;
  (** whether [VerifyKey(pk).verify(m, sig)] returns, for a 32-byte key *)
  ed_verify : string -> string -> string -> bool
}.

Class Ed25519Laws (E : Ed25519) := {
  nacl_present : nacl_available = true;
  ed_sign_length seed m : bytes_len seed = 32 -> bytes_len (ed_sign seed m) = 64;
  ed_pub_length seed : bytes_len seed = 32 -> bytes_len (ed_pub seed) = 32;
  ed_verify_sign seed m :
    bytes_len seed = 32 -> ed_verify (ed_pub seed) m (ed_sign seed m) = true
}.

(** ** Identifiers *)

Definition AGENT_ID_SHORT_LEN : nat := 12.

(** [value] is a [str], except for a key-less file whose [agent_id] is
    another JSON value. *)
Record AgentID := { value : pyval; is_cryptographic : bool; id_pubkey_hex : string }.

(** [AgentID.from_string] *)
Definition AgentID_from_string (agent_id : pyval) : res AgentID :=
  if negb (truthy agent_id) then Err ValueError
  else Ok {| value := agent_id; is_cryptographic := false; id_pubkey_hex := "" |}.

(** [AgentID.from_pubkey] *)
Definition AgentID_from_pubkey (pubkey_hex : string) : res AgentID :=
  if String.eqb pubkey_hex "" then Err ValueError else
  let* pubkey := fromhex pubkey_hex in
  if negb (bytes_len pubkey =? 32) then Err ValueError else
  let fingerprint := sha256_hex pubkey in
  Ok {| value := PStr (str_take AGENT_ID_SHORT_LEN fingerprint);
        is_cryptographic := true; id_pubkey_hex := pubkey_hex |}.

Record AgentIdentity := {
  agent_id : AgentID;
  label : pyval;
  metadata : pyval;
  signing_key : option string;
  verify_key : option string
}.

(** [key or None]: an empty byte string is falsy *)
Definition key_or (a b : option string) : option string :=
  match a with Some (String c s) => Some (String c s) | _ => b end.

Definition key_truthy (k : option string) : bool :=
  match key_or k None with Some _ => true | None => false end.

(** [AgentIdentity.from_string] *)
Definition from_string (agent_id : pyval) (label metadata : pyval) : res AgentIdentity :=
  let* i := AgentID_from_string agent_id in
  Ok {| agent_id := i; label := label; metadata := metadata;
        signing_key := None; verify_key := None |}.

(** [AgentIdentity.pubkey_hex] *)
Definition pubkey_hex (self : AgentIdentity) : string :=
  match key_or self.(verify_key) None with
  | Some k => hex k
  | None => self.(agent_id).(id_pubkey_hex)
  end.

(** [AgentIdentity.as_did] *)
Definition as_did (self : AgentIdentity) : res string :=
  if String.eqb (pubkey_hex self) "" then Err ValueError
  else encode_ed25519_did_key_hex (pubkey_hex self).

(** [AgentIdentity.from_did]: a verify-only identity *)
Definition from_did (did : string) (label metadata : pyval) : res AgentIdentity :=
  let* pubkey_bytes := decode_ed25519_did_key did in
  let* i := AgentID_from_pubkey (hex pubkey_bytes) in
  Ok {| agent_id := i; label := label; metadata := metadata;
        signing_key := None; verify_key := Some pubkey_bytes |}.

(** [str(agent_id)], the [__str__] of [AgentID] *)
Definition AgentID_str (i : AgentID) : res string :=
  match i.(value) with PStr s => Ok s | _ => Err TypeError end.

(** [AgentIdentity.fingerprint] *)
Definition fingerprint (self : AgentIdentity) : res string :=
  let* payload := if String.eqb (pubkey_hex self) "" then AgentID_str self.(agent_id)
                  else Ok (pubkey_hex self) in
  let* encoded := utf8_encode payload in
  Ok (str_take 16 (sha256_hex encoded)).

(** [AgentIdentity.public_dict] *)
Definition public_dict (self : AgentIdentity) : res (list (string * pyval)) :=
  let* name := AgentID_str self.(agent_id) in
  let* fp := fingerprint self in
  Ok [("agent_id", PStr name);
      ("label", self.(label));
      ("is_cryptographic", PBool self.(agent_id).(is_cryptographic));
      ("pubkey", PStr (pubkey_hex self));
      ("fingerprint", PStr fp);
      ("metadata", self.(metadata))].

Section WithCrypto.
Context `{Ed : Ed25519}.

(** [SigningKey(seed)] *)
Definition SigningKey (seed : string) : res string :=
  if bytes_len seed =? 32 then Ok seed else Err ValueError.

(** [AgentIdentity.can_sign] *)
Definition can_sign (self : AgentIdentity) : bool :=
  nacl_available && key_truthy self.(signing_key) && key_truthy self.(verify_key).

(** [AgentIdentity.generate] with the seed PyNaCl drew; saving the file is
    not modelled. *)
Definition generate (seed : string) (label metadata : pyval) : res AgentIdentity :=
  if negb nacl_available then Err RuntimeError else
  let* seed := SigningKey seed in
  let verify_bytes := ed_pub seed in
  let* i := AgentID_from_pubkey (hex verify_bytes) in
  Ok {| agent_id := i; label := label; metadata := metadata;
        signing_key := Some seed; verify_key := Some verify_bytes |}.

(** [bytes.fromhex(v)] of a JSON value *)
Definition fromhex_value (v : pyval) : res string :=
  match v with PStr s => fromhex s | _ => Err TypeError end.

(** [data.get(k, default)] *)
Definition get_default (k : string) (default : pyval) (d : list (string * pyval)) : pyval :=
  match dict_get k d with Some v => v | None => default end.

(** [AgentIdentity.load] on the parsed file *)
Definition load (document : pyval) : res AgentIdentity :=
  match document with
  | PDict data =>
    let signing_hex := get_default "private_key" (PStr "") data in
    let pubkey_hex := get_default "pubkey" (PStr "") data in
    if truthy signing_hex && truthy pubkey_hex then
      if negb nacl_available then Err RuntimeError else
      let* signing_bytes := fromhex_value signing_hex in
      let* verify_bytes := fromhex_value pubkey_hex in
      let* seed := SigningKey signing_bytes in
      let derived_pub := ed_pub seed in
      if negb (String.eqb derived_pub verify_bytes) then Err ValueError else
      let* i := match pubkey_hex with
                | PStr s => AgentID_from_pubkey s
                | _ => Err TypeError
                end in
      Ok {| agent_id := i; label := get_default "label" (PStr "") data;
            metadata := get_default "metadata" (PDict []) data;
            signing_key := Some signing_bytes; verify_key := Some verify_bytes |}
    else
      let agent := get_default "agent_id" (PStr "anonymous") data in
      let metadata := get_default "metadata" (PDict []) data in
      from_string agent (get_default "label" (PStr "") data)
        (if truthy metadata then metadata else PDict [])
  | _ => Err AttributeError
  end.

(** [AgentIdentity.sign] *)
Definition sign (self : AgentIdentity) (payload : string) : res string :=
  if negb (can_sign self) then Err RuntimeError else
  match self.(signing_key) with
  | None => Err AssertionError
  | Some k => let* seed := SigningKey k in Ok (ed_sign seed payload)
  end.

(** [AgentIdentity.sign_json] *)
Definition sign_json (self : AgentIdentity) (data : pyval) : res string :=
  let* payload := canonical_json data in
  res_map hex (sign self payload).

(** [AgentIdentity.verify] *)
Definition verify (self : AgentIdentity) (payload signature : string)
    (pubkey : option string) : bool :=
  if negb nacl_available then false else
  match key_or pubkey (key_or self.(verify_key) None) with
  | None => false
  | Some k => (bytes_len k =? 32) && (bytes_len signature =? 64) && ed_verify k payload signature
  end.

(** [AgentIdentity.verify_json]; [pubkey_hex] is [None] or a string *)
Definition verify_json (self : AgentIdentity) (data : pyval) (signature_hex : string)
    (pubkey_hex : option string) : res bool :=
  try_except
    (let* pubkey := match pubkey_hex with
                    | Some (String c s) => res_map Some (fromhex (String c s))
                    | _ => Ok None
                    end in
     let* signature := fromhex signature_hex in
     let* payload := canonical_json data in
     Ok (verify self payload signature pubkey))
    is_TypeOrValueError (fun _ => Ok false).

(** ** Signers *)

(** An identity that holds the private key behind the DID it announces. *)
Definition signer (self : AgentIdentity) (did : string) : Prop :=
  exists seed, self.(signing_key) = Some seed /\ bytes_len seed = 32 /\
    self.(verify_key) = Some (ed_pub seed) /\ as_did self = Ok did.

Context `{L : !Ed25519Laws Ed}.

Lemma bytes_len_nonempty s : bytes_len s = 32 -> exists c t, s = String c t.
Proof. destruct s; [done|eauto]. Qed.

Lemma key_or_32 s b : bytes_len s = 32 -> key_or (Some s) b = Some s.
Proof. by intros (c & t & ->)%bytes_len_nonempty. Qed.

Lemma from_pubkey_hex pk :
  bytes_len pk = 32 -> exists i, AgentID_from_pubkey (hex pk) = Ok i.
Proof.
  intros H. unfold AgentID_from_pubkey. rewrite fromhex_hex. cbn [res_bind]. rewrite H. simpl.
  destruct (String.eqb_spec (hex pk) "") as [E|]; [|eauto].
  apply (f_equal fromhex) in E. rewrite fromhex_hex in E.
  apply bytes_len_nonempty in H as (c & t & ->). discriminate E.
Qed.

Lemma from_did_Ok did v l m :
  from_did did l m = Ok v ->
  exists pk, decode_ed25519_did_key did = Ok pk /\ bytes_len pk = 32 /\
    v.(verify_key) = Some pk.
Proof.
  unfold from_did. intros H. inv_guards H. apply Ok_inj in H as <-.
  destruct (decode_did_inv _ _ G) as [Hl _]. eauto.
Qed.

Lemma from_did_decodes did pk l m :
  decode_ed25519_did_key did = Ok pk -> exists v, from_did did l m = Ok v /\ v.(verify_key) = Some pk.
Proof.
  intros H. unfold from_did. rewrite H. cbn [res_bind].
  destruct (from_pubkey_hex pk) as [i ->]; [by apply decode_did_inv in H as []|]. eauto.
Qed.

(** Only [DIDKeyError] leaves [from_did]. *)
Lemma from_did_Err did e l m : from_did did l m = Err e -> e = DIDKeyError.
Proof.
  unfold from_did. destruct (decode_ed25519_did_key did) as [pk|e'] eqn:E; cbn [res_bind].
  - destruct (from_pubkey_hex pk) as [i ->]; [by apply decode_did_inv in E as []|done].
  - intros [= <-]. by apply decode_did_only_DIDKeyError in E.
Qed.

Lemma verify_key_eq v pk m s :
  v.(verify_key) = Some pk -> bytes_len pk = 32 -> bytes_len s = 64 ->
  verify v m s None = ed_verify pk m s.
Proof.
  intros Hk H32 H64. unfold verify. rewrite nacl_present, Hk. cbn [negb].
  rewrite (key_or_32 pk None H32). cbn [key_or]. by rewrite H32, H64.
Qed.

Lemma signer_pubkey self did seed :
  self.(verify_key) = Some (ed_pub seed) -> bytes_len seed = 32 -> as_did self = Ok did ->
  decode_ed25519_did_key did = Ok (ed_pub seed).
Proof.
  intros Hv Hs Hd. unfold as_did, pubkey_hex in Hd. rewrite Hv in Hd.
  rewrite key_or_32 in Hd by by apply ed_pub_length.
  destruct (String.eqb _ _); [done|]. unfold encode_ed25519_did_key_hex in Hd.
  rewrite fromhex_hex in Hd. by apply encode_did_inv in Hd as [_ Hd].
Qed.

(** A signer's signature is 64 bytes and verifies under its DID. *)
Lemma signer_sign self did m :
  signer self did ->
  exists s v pk, sign self m = Ok s /\ bytes_len s = 64 /\
    decode_ed25519_did_key did = Ok pk /\ ed_verify pk m s = true /\
    from_did did (PStr "") (PDict []) = Ok v /\ verify v m s None = true.
Proof.
  intros (seed & Hsk & H32 & Hvk & Hd).
  pose proof (signer_pubkey _ _ _ Hvk H32 Hd) as Hpk.
  destruct (from_did_decodes _ _ (PStr "") (PDict []) Hpk) as (v & Hv & Hk).
  pose proof (ed_sign_length seed m H32) as H64. pose proof (ed_verify_sign seed m H32) as Hver.
  exists (ed_sign seed m), v, (ed_pub seed). split_and!; try done.
  - unfold sign, can_sign, key_truthy. rewrite nacl_present, Hsk, Hvk, !key_or_32 by
      (done || by apply ed_pub_length). cbn [andb negb].
    unfold SigningKey. by rewrite H32.
  - rewrite (verify_key_eq _ _ _ _ Hk (ed_pub_length _ H32) H64). done.
Qed.

Lemma signer_did_ascii actor did : signer actor did -> char_all ascii7 did = true.
Proof.
  intros Hs. destruct (signer_sign actor did "" Hs) as (s & v & pk & _ & _ & Hpk & _).
  apply ascii7_bytes. eapply did_ascii. by apply decode_did_inv in Hpk as [_ ?].
Qed.

Lemma as_did_of_key self pk :
  self.(verify_key) = Some pk -> bytes_len pk = 32 -> exists did, as_did self = Ok did.
Proof.
  intros Hk H32. unfold as_did, pubkey_hex. rewrite Hk, (key_or_32 pk None H32).
  destruct (from_pubkey_hex pk H32) as [i Hi]. unfold AgentID_from_pubkey in Hi.
  destruct (String.eqb (hex pk) ""); [done|]. unfold encode_ed25519_did_key_hex.
  rewrite fromhex_hex. unfold encode_ed25519_did_key. rewrite H32. simpl. eauto.
Qed.

Lemma signer_of_keys self seed :
  self.(signing_key) = Some seed -> bytes_len seed = 32 ->
  self.(verify_key) = Some (ed_pub seed) -> exists did, signer self did.
Proof.
  intros Hs H32 Hv. destruct (as_did_of_key self (ed_pub seed)) as [did Hd];
    [done|by apply ed_pub_length|]. by exists did, seed.
Qed.

Lemma SigningKey_Ok seed s : SigningKey seed = Ok s -> s = seed /\ bytes_len seed = 32.
Proof.
  unfold SigningKey. intros H. inv_guards H. bool_to_prop. split; [congruence|done].
Qed.

Lemma generate_signer seed l m self :
  generate seed l m = Ok self -> exists did, signer self did.
Proof.
  unfold generate. intros H. inv_guards H. apply SigningKey_Ok in G0 as [-> H32].
  apply Ok_inj in H as <-. by apply (signer_of_keys _ seed).
Qed.

(** A key file that loads holds a matching key pair, or no pair at all. *)
Lemma load_signer document self :
  load document = Ok self ->
  (exists did, signer self did) \/ (can_sign self = false /\ self.(verify_key) = None).
Proof.
  unfold load. destruct document as [| | | | | |d|]; try done.
  destruct (truthy _ && truthy _); intros H.
  - left. inv_guards H; apply SigningKey_Ok in G2 as [-> H32]; bool_to_prop;
      apply Ok_inj in H as <-; by apply (signer_of_keys _ a); simpl; [| |congruence].
  - right. inv_guards H. unfold from_string in H. inv_guards H. apply Ok_inj in H as <-.
    unfold can_sign. simpl. by rewrite andb_false_r.
Qed.

(** Load, sign, resolve, verify: an identity loaded from a key file either
    cannot sign, or its signature of any message is accepted by the
    verify-only identity that anyone rebuilds from its DID. *)
Theorem load_sign_verify document self payload :
  load document = Ok self ->
  can_sign self = false \/
  exists did s v, as_did self = Ok did /\ sign self payload = Ok s /\
    from_did did (PStr "") (PDict []) = Ok v /\ can_sign v = false /\
    verify v payload s None = true.
Proof.
  intros [[did Hs]|[H _]]%load_signer; [right|by left].
  destruct (signer_sign _ _ payload Hs) as (s & v & pk & Hsig & _ & _ & _ & Hv & Hver).
  exists did, s, v. split_and!; try done; [by destruct Hs as (? & ? & ? & ? & ?)|].
  unfold from_did in Hv. inv_guards Hv. apply Ok_inj in Hv as <-. unfold can_sign. simpl.
  by rewrite andb_false_r.
Qed.
End WithCrypto.

(** ** A concrete instance for examples *)

(** A 32-byte checksum, cheap to evaluate. *)
Definition toy_checksum (m : string) : string :=
  of_bytes (Sha256.be_bytes 32
    (fold_left (fun acc b => (acc * 257 + b) mod 18446744073709551557) (bytes_of m) 7)).

#[local] Instance toy_ed25519 : Ed25519 := {|
  nacl_available := true;
  ed_sign seed m := seed ++ toy_checksum m;
  ed_pub seed := seed;
  ed_verify pk m s := String.eqb s (pk ++ toy_checksum m)
|}.

Lemma toy_checksum_len m : bytes_len (toy_checksum m) = 32.
Proof.
  unfold bytes_len, toy_checksum, of_bytes.
  by rewrite str_length_chars, chars_of_chars, length_fmap, be_bytes_length.
Qed.

#[local] Instance toy_laws : Ed25519Laws toy_ed25519.
Proof.
  split; simpl; intros.
  - done.
  - unfold bytes_len in *. rewrite str_length_app, Nat2Z.inj_add.
    pose proof (toy_checksum_len m) as Hc. unfold bytes_len in Hc. lia.
  - done.
  - apply String.eqb_refl.
Qed.

Definition toy_seed (c : ascii) : string := str_repeat c 32.

Definition toy_key_file (c : ascii) : pyval :=
  PDict [("private_key", PStr (hex (toy_seed c))); ("pubkey", PStr (hex (toy_seed c)))].

Definition toy_identity (c : ascii) : AgentIdentity := {|
  agent_id := {| value := PStr "toy"; is_cryptographic := true;
                 id_pubkey_hex := hex (toy_seed c) |};
  label := PStr ""; metadata := PDict [];
  signing_key := Some (toy_seed c); verify_key := Some (toy_seed c) |}.

Definition toy_did (c : ascii) : string :=
  match as_did (toy_identity c) with Ok did => did | Err _ => "" end.

Lemma toy_signer_of c :
  match as_did (toy_identity c) with Ok _ => true | Err _ => false end = true ->
  signer (Ed := toy_ed25519) (toy_identity c) (toy_did c).
Proof.
  intros H. exists (toy_seed c). unfold toy_did.
  destruct (as_did (toy_identity c)) as [d|]; [|discriminate H]. done.
Qed.

Lemma load_sign_verify_witness :
  exists self, load (toy_key_file "a") = Ok self /\
  (can_sign self = false \/
   exists did s v, as_did self = Ok did /\ sign self "hello" = Ok s /\
      from_did did (PStr "") (PDict []) = Ok v /\ can_sign v = false /\
      verify v "hello" s None = true).
Proof.
  destruct (load (toy_key_file "a")) as [self|] eqn:E; [|vm_compute in E; discriminate E].
  exists self. split; [reflexivity|].
  exact (load_sign_verify (toy_key_file "a") self "hello" E).
Defined.
