(* ===== verification/SpineEvent.v ===== *)
(** * Signed causal events ([nth_dao/spine/event.py])

    An event is addressed by the SHA-256 of the canonical JSON of its core and
    signed over that digest by its author's DID key. *)

From Stdlib Require Import ZArith Lia Ascii String.
From stdpp Require Import base list strings.
From S2P Require Import Prelude Digits PyStr PyValue Json CanonicalJson B64u DidKey Sha256 Identity.

Local Open Scope string_scope.
Local Open Scope Z_scope.

Definition GENESIS_PREV : string := str_repeat "0" 64.
Definition MAX_SPINE_PAYLOAD_BYTES : Z := 1024 * 1024.

(** [_HASH] *)
Definition HASH (s : string) : bool := hex_digest 64 s.

Definition type_first (c : ascii) : bool := is_lower c || is_dec c.
Definition type_rest (c : ascii) : bool :=
  type_first c || is_char "." c || is_char "_" c || is_char "-" c.

(** [_EVENT_TYPE] *)
Definition EVENT_TYPE (s : string) : bool := match_head_tail type_first type_rest 127 s.

(** [_EVENT_FIELDS] *)
Definition EVENT_FIELDS : list string :=
  ["seq"; "prev_hash"; "type"; "payload"; "author_did"; "ts_ms"; "content_hash"; "sig"].

(** [event_content_hash(core)] *)
Definition event_content_hash (core : pyval) : res string :=
  let* bytes := canonical_json core in Ok (sha256_hex bytes).

Record SpineEvent := {
  seq : Z;
  prev_hash : string;
  type : string;
  payload : list (string * pyval);
  author_did : string;
  ts_ms : Z;
  content_hash : string;
  sig : string
}.

(** The dictionary both [SpineEvent.core] and [sign_event] build. *)
Definition core_items (seq : Z) (prev_hash type : string) (payload : list (string * pyval))
    (author_did : string) (ts_ms : Z) : list (string * pyval) :=
  [("seq", PInt seq); ("prev_hash", PStr prev_hash); ("type", PStr type);
   ("payload", PDict payload); ("author_did", PStr author_did); ("ts_ms", PInt ts_ms)].

(** [SpineEvent.core] *)
Definition core (e : SpineEvent) : pyval :=
  PDict (core_items e.(seq) e.(prev_hash) e.(type) e.(payload) e.(author_did) e.(ts_ms)).

(** [SpineEvent.to_dict] *)
Definition to_dict (e : SpineEvent) : pyval :=
  PDict (core_items e.(seq) e.(prev_hash) e.(type) e.(payload) e.(author_did) e.(ts_ms)
         ++ [("content_hash", PStr e.(content_hash)); ("sig", PStr e.(sig))])%list.

(** The payload must be canonical JSON of at most one mebibyte. *)
Definition payload_fits (payload : list (string * pyval)) : res unit :=
  let* bytes := try_except (canonical_json (PDict payload)) is_TypeOrValueError
                  (fun _ => Err ValueError) in
  if MAX_SPINE_PAYLOAD_BYTES <? bytes_len bytes then Err ValueError else Ok tt.

(** [SpineEvent.from_dict] *)
Definition from_dict (v : pyval) : res SpineEvent :=
  match v with
  | PDict d =>
    if negb (same_keys EVENT_FIELDS d) then Err ValueError else
    match get_or_none "seq" d with
    | PInt seq =>
      if seq <? 0 then Err ValueError else
      match get_or_none "ts_ms" d with
      | PInt ts_ms =>
        if ts_ms <=? 0 then Err ValueError else
        match get_or_none "prev_hash" d with
        | PStr prev_hash =>
          if negb (HASH prev_hash) then Err ValueError else
          match get_or_none "content_hash" d with
          | PStr content_hash =>
            if negb (HASH content_hash) then Err ValueError else
            match get_or_none "type" d with
            | PStr type =>
              if negb (EVENT_TYPE type) then Err ValueError else
              match get_or_none "payload" d with
              | PDict payload =>
                match get_or_none "author_did" d with
                | PStr author_did =>
                  if String.eqb author_did "" then Err ValueError else
                  match get_or_none "sig" d with
                  | PStr sig =>
                    if String.eqb sig "" then Err ValueError else
                    let* _ := payload_fits payload in
                    Ok {| seq := seq; prev_hash := prev_hash; type := type;
                          payload := payload; author_did := author_did; ts_ms := ts_ms;
                          content_hash := content_hash; sig := sig |}
                  | _ => Err ValueError
                  end
                | _ => Err ValueError
                end
              | _ => Err ValueError
              end
            | _ => Err ValueError
            end
          | _ => Err ValueError
          end
        | _ => Err ValueError
        end
      | _ => Err ValueError
      end
    | _ => Err ValueError
    end
  | _ => Err ValueError
  end.

Section WithCrypto.
Context `{Ed : Ed25519}.

(** [sign_event] *)
Definition sign_event (seq : pyval) (prev_hash event_type payload : pyval)
    (identity : AgentIdentity) (ts_ms : pyval) : res SpineEvent :=
  match seq, ts_ms, prev_hash, event_type, payload with
  | PInt seq, PInt ts_ms, PStr prev_hash, PStr event_type, PDict payload =>
    if seq <? 0 then Err ValueError else
    if ts_ms <=? 0 then Err ValueError else
    if negb (HASH prev_hash) then Err ValueError else
    if negb (EVENT_TYPE event_type) then Err ValueError else
    let* _ := payload_fits payload in
    let* did := as_did identity in
    let core := core_items seq prev_hash event_type payload did ts_ms in
    let* content_hash := event_content_hash (PDict core) in
    let* digest := fromhex content_hash in
    let* raw := sign identity digest in
    let sig := b64u_encode raw in
    from_dict (PDict (core ++ [("content_hash", PStr content_hash); ("sig", PStr sig)])%list)
  | _, _, _, _, _ => Err ValueError
  end.

(** [verify_event] *)
Definition verify_event (event : SpineEvent) : res verdict :=
  match (let* validated := from_dict (to_dict event) in event_content_hash (core validated)) with
  | Err e => if is_TypeOrValueError e then Ok (false, "invalid event structure") else Err e
  | Ok recomputed =>
    if negb (String.eqb recomputed event.(content_hash)) then
      Ok (false, "content_hash mismatch (tampered core)") else
    match (let* verifier := from_did event.(author_did) (PStr "") (PDict []) in
           let* sig_bytes := b64u_decode event.(sig) in
           Ok (verifier, sig_bytes)) with
    | Err e =>
      if is_TypeOrValueError e then Ok (false, "bad author_did/sig encoding") else Err e
    | Ok (verifier, sig_bytes) =>
      if negb (bytes_len sig_bytes =? 64) || negb (String.eqb (b64u_encode sig_bytes) event.(sig))
      then Ok (false, "signature encoding is not canonical") else
      let* digest := fromhex event.(content_hash) in
      if negb (verify verifier digest sig_bytes None) then Ok (false, "signature invalid")
      else Ok (true, "ok")
    end
  end.

Context `{L : !Ed25519Laws Ed}.

(** ** Lemmas *)

(** The field checks of [from_dict], as one predicate. *)
Definition well_formed (e : SpineEvent) : Prop :=
  0 <= e.(seq) /\ 0 < e.(ts_ms) /\ HASH e.(prev_hash) = true /\
  HASH e.(content_hash) = true /\ EVENT_TYPE e.(type) = true /\
  e.(author_did) <> "" /\ e.(sig) <> "" /\ payload_fits e.(payload) = Ok tt.

Lemma payload_fits_unit p u : payload_fits p = Ok u -> payload_fits p = Ok tt.
Proof. by destruct u. Qed.

Lemma from_dict_inv v e :
  from_dict v = Ok e -> well_formed e /\ exists d, v = PDict d /\
    same_keys EVENT_FIELDS d = true /\
    get_or_none "seq" d = PInt e.(seq) /\ get_or_none "prev_hash" d = PStr e.(prev_hash) /\
    get_or_none "type" d = PStr e.(type) /\ get_or_none "payload" d = PDict e.(payload) /\
    get_or_none "author_did" d = PStr e.(author_did) /\
    get_or_none "ts_ms" d = PInt e.(ts_ms) /\
    get_or_none "content_hash" d = PStr e.(content_hash) /\
    get_or_none "sig" d = PStr e.(sig).
Proof.
  destruct v as [| | | | | |d|]; try done. unfold from_dict. intros H.
  inv_guards H. apply Ok_inj in H as <-. bool_to_prop. unfold well_formed. simpl.
  split; [split_and!; eauto using payload_fits_unit; lia|]. by exists d.
Qed.

Lemma from_dict_to_dict e : well_formed e -> from_dict (to_dict e) = Ok e.
Proof.
  intros (Hs & Ht & Hp & Hc & Hy & Ha & Hg & Hf). destruct e as [s p y pl a t c g].
  simpl in *. unfold to_dict, from_dict. cbn.
  rewrite (proj2 (Z.ltb_ge _ _)), (proj2 (Z.leb_gt _ _)), Hp, Hc, Hy by lia. simpl.
  rewrite (proj2 (String.eqb_neq a "")), (proj2 (String.eqb_neq g "")), Hf by done. done.
Qed.

Lemma from_dict_well_formed v e : from_dict v = Ok e -> well_formed e.
Proof. by intros []%from_dict_inv. Qed.

Lemma from_dict_self e v : from_dict (to_dict e) = Ok v -> v = e.
Proof.
  intros (_ & d & [= <-] & _ & H1 & H2 & H3 & H4 & H5 & H6 & H7 & H8)%from_dict_inv.
  destruct v, e. cbn in *. congruence.
Qed.

Lemma from_dict_Err v x : from_dict v = Err x -> x = ValueError.
Proof.
  destruct v as [| | | | | |d|]; try (intros [= <-]; done). unfold from_dict, payload_fits.
  intros H. repeat match type of H with
  | (if ?c then _ else _) = _ => destruct c; try (injection H as <-; done)
  | res_bind ?m _ = Err _ => destruct m as [|e'] eqn:?; cbn [res_bind] in H
  | match ?c with _ => _ end = _ => destruct c; try (injection H as <-; done)
  end; try done.
  injection H as <-. match goal with E : res_bind _ _ = Err _ |- _ =>
    apply res_bind_Err in E as [E|(? & _ & E)] end.
  - unfold try_except in *. destruct (canonical_json _) as [|y] eqn:Ec; [done|].
    apply canonical_json_Err_catchable in Ec. rewrite Ec in *. congruence.
  - destruct (_ <? _); congruence.
Qed.

(** Everything an accepted event guarantees. *)
Lemma verify_event_ok e s :
  verify_event e = Ok (true, s) ->
  well_formed e /\ event_content_hash (core e) = Ok e.(content_hash) /\
  exists pk raw digest, decode_ed25519_did_key e.(author_did) = Ok pk /\
    e.(sig) = b64u_encode raw /\ bytes_len raw = 64 /\
    fromhex e.(content_hash) = Ok digest /\ ed_verify pk digest raw = true.
Proof.
  unfold verify_event. intros H.
  destruct (from_dict (to_dict e)) as [v|x] eqn:Ed'; cbn [res_bind] in H.
  2: { by destruct (is_TypeOrValueError x). }
  pose proof (from_dict_well_formed _ _ Ed') as Hwf.
  pose proof (from_dict_self _ _ Ed') as ->.
  destruct (event_content_hash (core e)) as [h|x] eqn:Eh.
  2: { by destruct (is_TypeOrValueError x). }
  destruct (String.eqb_spec h (content_hash e)) as [->|]; [|done]. cbn [negb] in H.
  destruct (from_did _ _ _) as [w|x] eqn:Ef; cbn [res_bind] in H.
  2: { by destruct (is_TypeOrValueError x). }
  destruct (b64u_decode (sig e)) as [raw|x] eqn:Eb; cbn [res_bind] in H.
  2: { by destruct (is_TypeOrValueError x). }
  inv_guards H. bool_to_prop. apply from_did_Ok in Ef as (pk & Hpk & H32 & Hk).
  rewrite (verify_key_eq _ pk) in G1 by done.
  split_and!; [done|done|]. exists pk, raw, a. done.
Qed.

Lemma verify_event_intro e pk raw digest :
  well_formed e -> event_content_hash (core e) = Ok e.(content_hash) ->
  decode_ed25519_did_key e.(author_did) = Ok pk ->
  e.(sig) = b64u_encode raw -> bytes_len raw = 64 ->
  fromhex e.(content_hash) = Ok digest -> ed_verify pk digest raw = true ->
  verify_event e = Ok (true, "ok").
Proof.
  intros Hwf Hh Hpk Hs H64 Hd Hv. unfold verify_event.
  rewrite from_dict_to_dict by done. cbn [res_bind]. rewrite Hh, String.eqb_refl. cbn [negb].
  destruct (from_did_decodes _ _ (PStr "") (PDict []) Hpk) as (v & Hf & Hk). rewrite Hf.
  cbn [res_bind]. rewrite Hs, b64u_decode_encode. cbn [res_bind].
  rewrite H64, String.eqb_refl, Hd. cbn [negb orb Z.eqb Pos.eqb res_bind].
  rewrite (verify_key_eq _ pk) by (done || by apply decode_did_inv in Hpk as []). by rewrite Hv.
Qed.

Lemma HASH_nonempty h : HASH h = true -> exists c t, h = String c t.
Proof. destruct h; [done|eauto]. Qed.

Lemma char_all_ascii p s :
  (forall c, p c = true -> byte_of c < 128) -> char_all p s = true ->
  Forall (fun z => 0 <= z < 128) (bytes_of s).
Proof.
  intros Hp H%forallb_Forall. unfold bytes_of. apply Forall_fmap.
  eapply Forall_impl; [exact H|]. intros c Hc. simpl. pose proof (byte_of_range c).
  specialize (Hp c Hc). lia.
Qed.

Lemma is_hex_lower_ascii c : is_hex_lower c = true -> byte_of c < 128.
Proof. unfold is_hex_lower, is_dec, in_range. lia. Qed.

Lemma HASH_ascii h : HASH h = true -> Forall (fun z => 0 <= z < 128) (bytes_of h).
Proof.
  unfold HASH, hex_digest. intros H. bool_to_prop.
  apply (char_all_ascii is_hex_lower); [apply is_hex_lower_ascii|done].
Qed.

Lemma EVENT_TYPE_ascii t : EVENT_TYPE t = true -> Forall (fun z => 0 <= z < 128) (bytes_of t).
Proof.
  unfold EVENT_TYPE, match_head_tail. intros H. apply (char_all_ascii type_rest).
  - intros c. unfold type_rest, type_first, is_lower, is_dec, in_range, is_char.
    rewrite !orb_true_iff, !Ascii.eqb_eq. intros [[[?|<-]|<-]|<-]; [lia|by vm_compute..].
  - unfold char_all. destruct (chars t) as [|c l]; [done|]. bool_to_prop. simpl.
    unfold type_rest at 1. by rewrite H.
Qed.

Lemma HASH_text_ok h : HASH h = true -> text_ok h = true.
Proof. intros H. by apply text_ok_ascii, HASH_ascii. Qed.

Lemma EVENT_TYPE_text_ok t : EVENT_TYPE t = true -> text_ok t = true.
Proof. intros H. by apply text_ok_ascii, EVENT_TYPE_ascii. Qed.

Lemma payload_fits_encodable p u : payload_fits p = Ok u -> encodable (PDict p) = true.
Proof.
  unfold payload_fits. intros H. inv_guards H. apply try_except_Ok in G as [G|(? & _ & _ & [=])].
  by apply canonical_json_encodable in G as [].
Qed.

Lemma core_items_encodable s p y pl a t :
  text_ok p = true -> text_ok y = true -> text_ok a = true -> encodable (PDict pl) = true ->
  encodable (PDict (core_items s p y pl a t)) = true.
Proof. intros Hp Hy Ha Hpl. unfold core_items. cbn [encodable forallb fst snd] in *.
  by rewrite Hp, Hy, Ha, Hpl. Qed.

Lemma sign_event_spec identity did s p y pl t :
  signer identity did -> 0 <= s -> 0 < t -> HASH p = true -> EVENT_TYPE y = true ->
  payload_fits pl = Ok tt ->
  exists e, sign_event (PInt s) (PStr p) (PStr y) (PDict pl) identity (PInt t) = Ok e /\
    e.(seq) = s /\ e.(prev_hash) = p /\ e.(type) = y /\ e.(payload) = pl /\
    e.(author_did) = did /\ e.(ts_ms) = t /\ verify_event e = Ok (true, "ok").
Proof.
  intros Hs Hseq Ht Hp Hy Hpl.
  assert (as_did identity = Ok did) as Hd by by destruct Hs as (? & ? & ? & ? & ?).
  set (c := core_items s p y pl did t). set (h := sha256_hex (dumps (PDict c))).
  destruct (signer_sign identity did (sha256 (dumps (PDict c))) Hs)
    as (raw & v & pk & Hsig & H64 & Hpk & Hver & _).
  assert (text_ok did = true) as Htd.
  { apply text_ok_ascii, (did_ascii pk). by apply decode_did_inv in Hpk as []. }
  assert (canonical_json (PDict c) = Ok (dumps (PDict c))) as Hc.
  { apply canonical_json_total, core_items_encodable;
      eauto using HASH_text_ok, EVENT_TYPE_text_ok, payload_fits_encodable. }
  set (e := {| seq := s; prev_hash := p; type := y; payload := pl; author_did := did;
               ts_ms := t; content_hash := h; sig := b64u_encode raw |}).
  assert (well_formed e) as Hwf.
  { unfold well_formed, e. simpl. split_and!; try done.
    - apply sha256_hex_digest.
    - intros ->. vm_compute in Hpk. done.
    - intros E. pose proof (b64u_decode_encode raw) as Hb. rewrite E in Hb.
      vm_compute in Hb. apply Ok_inj in Hb as <-. done. }
  exists e. split_and!; try done.
  - unfold sign_event. rewrite (proj2 (Z.ltb_ge _ _)), (proj2 (Z.leb_gt _ _)), Hp, Hy, Hpl by lia.
    cbn [negb res_bind]. rewrite Hd. cbn [res_bind]. unfold event_content_hash. fold c. rewrite Hc.
    cbn [res_bind]. rewrite fromhex_sha256. cbn [res_bind]. rewrite Hsig. cbn [res_bind].
    exact (from_dict_to_dict e Hwf).
  - apply (verify_event_intro e pk raw (sha256 (dumps (PDict c)))); try done.
    + unfold event_content_hash. change (core e) with (PDict c). by rewrite Hc.
    + apply fromhex_sha256.
Qed.

(** ** Properties *)

(** Signing is total and correct: for a signing identity, a position, a
    type name and a canonical payload, [sign_event] returns an event with
    exactly these contents, authored by the identity's DID, and
    [verify_event] accepts it. *)
Theorem sign_event_verifies identity did s p y pl t :
  signer identity did -> 0 <= s -> 0 < t -> HASH p = true -> EVENT_TYPE y = true ->
  payload_fits pl = Ok tt ->
  exists e, sign_event (PInt s) (PStr p) (PStr y) (PDict pl) identity (PInt t) = Ok e /\
    e.(seq) = s /\ e.(prev_hash) = p /\ e.(type) = y /\ e.(payload) = pl /\
    e.(author_did) = did /\ e.(ts_ms) = t /\ verify_event e = Ok (true, "ok").
Proof. apply sign_event_spec. Qed.

(** The content hash is the event's identity: two accepted events with the
    same content hash have the same core, entry for entry, unless they
    exhibit a SHA-256 collision. *)
Theorem content_hash_binds_core e f r s :
  wf (PDict e.(payload)) -> wf (PDict f.(payload)) ->
  verify_event e = Ok (true, r) -> verify_event f = Ok (true, s) ->
  e.(content_hash) = f.(content_hash) ->
  (e.(seq) = f.(seq) /\ e.(prev_hash) = f.(prev_hash) /\ e.(type) = f.(type) /\
   e.(author_did) = f.(author_did) /\ e.(ts_ms) = f.(ts_ms) /\
   json_eqb (PDict e.(payload)) (PDict f.(payload)) = true) \/
  exists a b, canonical_json (core e) = Ok a /\ canonical_json (core f) = Ok b /\
    sha256_collision a b.
Proof.
  intros He Hf (_ & Hhe & _)%verify_event_ok (_ & Hhf & _)%verify_event_ok Hh.
  unfold event_content_hash in *. inv_guards Hhe. inv_guards Hhf. apply Ok_inj in Hhe, Hhf.
  rewrite <- Hhe, <- Hhf in Hh. apply sha256_hex_inj in Hh as [<-|Hcol]; [left|right; eauto].
  assert (json_eqb (core e) (core f) = true) as H.
  { eapply canonical_json_wf_inj; [| |done..]; apply wf_PDict;
      (split; [apply (bool_decide_unpack _); by vm_compute|]);
      repeat (apply Forall_cons_2; [first [exact I|exact He|exact Hf]|]); apply Forall_nil_2. }
  clear -H. unfold core, core_items in H.
  generalize dependent (PDict (payload e)). generalize dependent (PDict (payload f)).
  intros pf pe H. cbn in H. bool_to_prop. done.
Qed.

(** The one exception [verify_event] lets out: a well-formed event whose
    hash is right and whose [author_did] is not a did:key makes it raise
    [DIDKeyError]; on every other event it returns a verdict. *)
Theorem verify_event_raises e x :
  verify_event e = Err x <->
  x = DIDKeyError /\ well_formed e /\ event_content_hash (core e) = Ok e.(content_hash) /\
  decode_ed25519_did_key e.(author_did) = Err DIDKeyError.
Proof.
  unfold verify_event. split.
  - intros H. destruct (from_dict (to_dict e)) as [v|y] eqn:Ed'; cbn [res_bind] in H.
    2: { apply from_dict_Err in Ed' as ->. done. }
    pose proof (from_dict_well_formed _ _ Ed') as Hwf.
    pose proof (from_dict_self _ _ Ed') as ->.
    destruct (event_content_hash (core e)) as [h|y] eqn:Eh.
    2: { unfold event_content_hash in Eh. apply res_bind_Err in Eh as [Eh|(? & _ & [=])].
         apply canonical_json_Err_catchable in Eh. by rewrite Eh in H. }
    destruct (String.eqb_spec h (content_hash e)) as [->|]; [|done]. cbn [negb] in H.
    destruct (from_did _ _ _) as [w|y] eqn:Ef; cbn [res_bind] in H.
    + destruct (b64u_decode (sig e)) as [raw|y] eqn:Eb; cbn [res_bind] in H.
      2: { apply b64u_decode_Err in Eb. by rewrite Eb in H. }
      destruct (_ || _); [done|]. destruct Hwf as (_ & _ & _ & Hh & _).
      destruct (fromhex (content_hash e)) as [dg|] eqn:Ex; cbn [res_bind] in H.
      * by destruct (negb _).
      * unfold event_content_hash in Eh. inv_guards Eh. apply Ok_inj in Eh.
        rewrite <- Eh, fromhex_sha256 in Ex. done.
    + apply from_did_Err in Ef as Hy. subst y. cbn in H. injection H as <-.
      split_and!; try done. destruct (decode_ed25519_did_key (author_did e)) as [pk|y] eqn:Ek.
      * destruct (from_did_decodes _ _ (PStr "") (PDict []) Ek) as (? & E & _). congruence.
      * by apply decode_did_only_DIDKeyError in Ek as ->.
  - intros (-> & Hwf & Hh & Hd). rewrite from_dict_to_dict by done. cbn [res_bind].
    rewrite Hh, String.eqb_refl. cbn [negb]. unfold from_did. by rewrite Hd.
Qed.
End WithCrypto.

(** ** Examples *)

#[local] Existing Instance toy_ed25519.
#[local] Existing Instance toy_laws.

Definition toy_event (author : ascii) (s : Z) (prev : string) (pl : list (string * pyval)) : res SpineEvent :=
  sign_event (PInt s) (PStr prev) (PStr "note") (PDict pl) (toy_identity author) (PInt 1).

Lemma sign_event_verifies_witness :
  exists e, sign_event (PInt 0) (PStr GENESIS_PREV) (PStr "note") (PDict [("k", PInt 1)])
              (toy_identity "a") (PInt 7) = Ok e /\
    e.(seq) = 0 /\ e.(prev_hash) = GENESIS_PREV /\ e.(type) = "note" /\
    e.(payload) = [("k", PInt 1)] /\ e.(author_did) = toy_did "a" /\ e.(ts_ms) = 7 /\
    verify_event e = Ok (true, "ok").
Proof.
  apply sign_event_verifies; [apply toy_signer_of|lia|lia|..]; vm_compute; reflexivity.
Defined.

Lemma content_hash_binds_core_witness :
  exists e f, toy_event "a" 0 GENESIS_PREV [("k", PInt 1); ("m", PNone)] = Ok e /\
    toy_event "a" 0 GENESIS_PREV [("m", PNone); ("k", PInt 1)] = Ok f /\
  ((e.(seq) = f.(seq) /\ e.(prev_hash) = f.(prev_hash) /\ e.(type) = f.(type) /\
    e.(author_did) = f.(author_did) /\ e.(ts_ms) = f.(ts_ms) /\
    json_eqb (PDict e.(payload)) (PDict f.(payload)) = true) \/
   exists a b, canonical_json (core e) = Ok a /\ canonical_json (core f) = Ok b /\
     sha256_collision a b).
Proof.
  eexists _, _. split; [vm_compute; reflexivity|]. split; [vm_compute; reflexivity|].
  apply (content_hash_binds_core _ _ "ok" "ok"); first [by apply wfb_wf|vm_compute; reflexivity].
Defined.
