(* ===== verification/SpineLog.v ===== *)
(** * The signed event log ([nth_dao/spine/log.py])

    One JSON line per event, hash-chained from [GENESIS_PREV], appended under a
    write-ahead intent: the line is made durable in a side file before it is
    added to the log, so that a torn append is completed at the next use.  The
    log and its intent are byte strings here, and an I/O error can strike any
    of the writes of an append, having transferred any number of bytes, the
    reads before and after them, and the release of the process lock.

    The in-memory caches of verified events, which are keyed by the digest of
    the whole file, are not modelled: what they hold is recomputed. *)

From Stdlib Require Import ZArith Lia Ascii String.
From stdpp Require Import base list strings.
From S2P Require Import Prelude Digits PyStr PyValue Json JsonAscii CanonicalJson B64u DidKey Sha256 Identity SpineEvent.

Local Open Scope string_scope.
Local Open Scope Z_scope.

Definition MAX_SPINE_LINE_BYTES : Z := 2 * 1024 * 1024.
Definition MAX_SPINE_APPEND_BATCH : Z := 1000.
Definition MAX_SPINE_APPEND_BATCH_BYTES : Z := 8 * 1024 * 1024.
Definition SPINE_APPEND_INTENT_VERSION : Z := 1.
Definition MAX_SPINE_APPEND_INTENT_BYTES : Z := MAX_SPINE_LINE_BYTES + 1024.
Definition INTENT_FIELDS : list string := ["version"; "base_size"; "line"; "line_sha256"].

Definition nl : string := String newline "".

(** The files of a log and the head its instance remembers. *)
Record slog := {
  log_file : option string;
  pending_file : option string;
  head_hash : string;
  head_seq : Z
}.

Definition log_bytes (s : slog) : string := default "" s.(log_file).

Definition with_log (f : option string) (s : slog) : slog :=
  {| log_file := f; pending_file := s.(pending_file); head_hash := s.(head_hash); head_seq := s.(head_seq) |}.
Definition with_pending (f : option string) (s : slog) : slog :=
  {| log_file := s.(log_file); pending_file := f; head_hash := s.(head_hash); head_seq := s.(head_seq) |}.

(** The head after the last of [events]. *)
Definition with_head (events : list SpineEvent) (s : slog) : slog :=
  {| log_file := s.(log_file); pending_file := s.(pending_file);
     head_hash := match last events with Some e => e.(content_hash) | None => GENESIS_PREV end;
     head_seq := match last events with Some e => e.(seq) | None => -1 end |}.

(** [except (OSError, TypeError, ValueError)] *)
Definition is_log_error (e : exn) : bool := is_OSError e || is_TypeOrValueError e.

(** ** Lines *)

(** [_encode_event]; an event with a float in its payload encodes differently
    in the source, and is refused by [verify_event] in both. *)
Definition encode_event (e : SpineEvent) : string := dumps_ascii (to_dict e).

(** [SpineEvent( **json.loads(...))], without validation *)
Definition event_of_items (d : list (string * pyval)) : SpineEvent := {|
  seq := match get_or_none "seq" d with PInt z => z | _ => 0 end;
  prev_hash := match get_or_none "prev_hash" d with PStr s => s | _ => "" end;
  type := match get_or_none "type" d with PStr s => s | _ => "" end;
  payload := match get_or_none "payload" d with PDict p => p | _ => [] end;
  author_did := match get_or_none "author_did" d with PStr s => s | _ => "" end;
  ts_ms := match get_or_none "ts_ms" d with PInt z => z | _ => 0 end;
  content_hash := match get_or_none "content_hash" d with PStr s => s | _ => "" end;
  sig := match get_or_none "sig" d with PStr s => s | _ => "" end |}.

(** [_snapshot_event] *)
Definition snapshot_event (e : SpineEvent) : res SpineEvent :=
  let* v := json_loads (encode_event e) in
  match v with PDict d => Ok (event_of_items d) | _ => Err TypeError end.

(** [event == other], field by field *)
Definition event_eqb (e f : SpineEvent) : bool := py_eqb (to_dict e) (to_dict f).

(** [_encode_payload] *)
Definition encode_payload (payload : pyval) : res string :=
  match payload with
  | PDict _ =>
    let* encoded := try_except (canonical_json payload) is_TypeOrValueError (fun _ => Err ValueError) in
    if MAX_SPINE_PAYLOAD_BYTES <? bytes_len encoded then Err ValueError else Ok encoded
  | _ => Err ValueError
  end.

(** [_snapshot_payload] *)
Definition snapshot_payload (payload : pyval) : res pyval :=
  let* encoded := encode_payload payload in json_loads encoded.

(** [_decode_line] *)
Definition decode_line (raw : string) : res SpineEvent :=
  if MAX_SPINE_LINE_BYTES <? bytes_len raw then Err ValueError else
  let* document := loads_bytes raw in
  try_except (from_dict document) is_TypeOrValueError (fun _ => Err ValueError).

(** The lines of a file, each with its terminator. *)
Fixpoint keep_lines (l : list ascii) : list (list ascii) :=
  match l with
  | [] => []
  | c :: l' =>
    if Ascii.eqb c newline then [c] :: keep_lines l' else
    match keep_lines l' with
    | [] => [[c]]
    | line :: lines => (c :: line) :: lines
    end
  end.

(** [_raw_lines(stop_offset=stop)]: what the generator yields, ending with the
    exception it raises, if it raises one.  [readline] is bounded by one more
    than the limit, which the test on the length makes unobservable. *)
Fixpoint raw_lines_from (stop : option Z) (consumed : Z) (lines : list (list ascii)) : list (res string) :=
  match lines with
  | [] =>
    match stop with
    | Some s => if consumed =? s then [] else [Err ValueError]
    | None => []
    end
  | line :: lines =>
    let size := Z.of_nat (List.length line) in
    if MAX_SPINE_LINE_BYTES <? size then [Err ValueError] else
    let consumed := consumed + size in
    match stop with
    | Some s =>
      if s <? consumed then [Err ValueError] else
      Ok (of_chars line) :: (if consumed =? s then [] else raw_lines_from stop consumed lines)
    | None => Ok (of_chars line) :: raw_lines_from stop consumed lines
    end
  end.

Definition raw_lines (stop : option Z) (data : string) : list (res string) :=
  match stop with
  | Some 0 => []
  | _ => raw_lines_from stop 0 (keep_lines (chars data))
  end.

(** [not raw.strip()] *)
Definition is_bytes_space (c : ascii) : bool := is_char " " c || in_range 9 13 c.
Definition blank (raw : string) : bool := char_all is_bytes_space raw.

Section Log.
Context `{Ed : Ed25519}.

(** ** Verification *)

(** The loop of [_verified_events_unlocked]; the texts of the reasons are left
    out.  [seq], [prev] and [events] are the loop's variables. *)
Fixpoint verify_lines (seq : Z) (prev : string) (events : list SpineEvent) (lines : list (res string))
  : res (bool * list SpineEvent) :=
  let caught (e : exn) : res (bool * list SpineEvent) :=
    if is_log_error e then Ok (false, events) else Err e in
  match lines with
  | [] => Ok (true, events)
  | Err e :: _ => caught e
  | Ok raw :: lines =>
    if negb (endswith nl raw) then Ok (false, events) else
    if blank raw then verify_lines seq prev events lines else
    match decode_line raw with
    | Err e => caught e
    | Ok event =>
      if negb (event.(SpineEvent.seq) =? seq) then Ok (false, events) else
      if negb (String.eqb event.(prev_hash) prev) then Ok (false, events) else
      match verify_event event with
      | Err e => caught e
      | Ok (false, _) => Ok (false, events)
      | Ok (true, _) => verify_lines (seq + 1) event.(content_hash) (events ++ [event]) lines
      end
    end
  end.

(** [_verified_events_unlocked] *)
Definition verified_events (stop : option Z) (s : slog) : res (bool * list SpineEvent) :=
  match s.(log_file) with
  | None => match stop with
            | None | Some 0 => Ok (true, [])
            | _ => Ok (false, [])
            end
  | Some data => verify_lines 0 GENESIS_PREV [] (raw_lines stop data)
  end.

(** The verified events an operation starts from; a corrupt log is a
    [ValueError]. *)
Definition require_verified (s : slog) : res (list SpineEvent) :=
  let* (ok, events) := verified_events None s in if ok then Ok events else Err ValueError.

(** ** The append intent *)

(** [_encode_append_intent] *)
Definition encode_append_intent (base_size : Z) (line : string) : res string :=
  let encoded := dumps_ascii (PDict [("version", PInt SPINE_APPEND_INTENT_VERSION);
    ("base_size", PInt base_size); ("line", PStr line); ("line_sha256", PStr (sha256_hex line))]) in
  if MAX_SPINE_APPEND_INTENT_BYTES <? bytes_len encoded then Err ValueError else Ok encoded.

(** [_read_append_intent_unlocked] *)
Definition read_append_intent (s : slog) : res (option (Z * string)) :=
  match s.(pending_file) with
  | None => Ok None
  | Some raw =>
    if negb ((1 <=? bytes_len raw) && (bytes_len raw <=? MAX_SPINE_APPEND_INTENT_BYTES)) then Err ValueError else
    let* text := ascii_encode raw in
    let* document := json_loads text in
    match document with
    | PDict d =>
      if negb (same_keys INTENT_FIELDS d) then Err ValueError else
      if negb (py_eqb (get_or_none "version" d) (PInt SPINE_APPEND_INTENT_VERSION)) then Err ValueError else
      match get_or_none "base_size" d, get_or_none "line" d, get_or_none "line_sha256" d with
      | PInt base_size, PStr line_text, PStr line_digest =>
        if base_size <? 0 then Err ValueError else
        let* line := ascii_encode line_text in
        if negb ((1 <=? bytes_len line) && (bytes_len line <=? MAX_SPINE_LINE_BYTES))
           || negb (char_all (fun c => negb (Ascii.eqb c newline)) line)
           || negb (char_all (fun c => negb (Ascii.eqb c "013")) line)
           || negb (String.eqb (sha256_hex line) line_digest) then Err ValueError
        else Ok (Some (base_size, line))
      | _, _, _ => Err ValueError
      end
    | _ => Err ValueError
    end
  end.

(** ** Faults *)

(** How a call of the operating system that fails is reported: as an [OSError],
    or as the [ValueError] of a check of what was read. *)
Inductive io_error := AsOSError | AsValueError.

Definition io_exn (e : io_error) : exn := match e with AsOSError => OSError | AsValueError => ValueError end.

(** ** Recovery *)

(** What fails while an operation recovers the log and reads the verified
    events, if something does: a read before anything is written (or, for an
    append, the acquisition of the process lock), the truncation, the write of the record (after some bytes), the
    check of the completed file, the removal of the intent (which may have
    happened all the same, when the directory cannot be synchronised), or the
    read of the verified events that follows the recovery. *)
Inductive recovery_fault :=
| RecoveryRuns
| ReadFails (e : io_error)
| TruncateFails
| RewriteFails (transferred : nat)
| RecheckFails (e : io_error)
| ClearFails (removed : bool)
| VerifyFails (e : io_error).

(** The checks of [_recover_pending_append_unlocked] before it writes: the
    bytes of the verified prefix, the record to complete and its event, and
    whether the record is incomplete. *)
Definition recovery_plan (identity : AgentIdentity) (s : slog) (base_size : Z) (line : string)
  : res (string * string * SpineEvent * bool) :=
  let data := log_bytes s in
  let current_size := bytes_len data in
  if current_size <? base_size then Err ValueError else
  let base := str_take (Z.to_nat base_size) data in
  if negb (base_size =? 0) && negb (endswith nl base) then Err ValueError else
  let* (ok, prefix) := verified_events (Some base_size) s in
  if negb ok then Err ValueError else
  let* event := decode_line line in
  if negb (String.eqb (encode_event event) line) then Err ValueError else
  let expected_prev := match last prefix with Some e => e.(content_hash) | None => GENESIS_PREV end in
  let expected_seq := match last prefix with Some e => e.(seq) + 1 | None => 0 end in
  let* (valid, _) := verify_event event in
  let* did := (if (event.(seq) =? expected_seq) && String.eqb event.(prev_hash) expected_prev
               then as_did identity else Ok event.(author_did)) in
  if negb (event.(seq) =? expected_seq) || negb (String.eqb event.(prev_hash) expected_prev)
     || negb (String.eqb event.(author_did) did) || negb valid then Err ValueError else
  let record := line ++ nl in
  let suffix := str_drop (Z.to_nat base_size) data in
  if negb (String.eqb (str_take (String.length record) suffix)
                      (str_take (Nat.min (String.length suffix) (String.length record)) record))
  then Err ValueError else
  Ok (base, record, event, bytes_len suffix <? bytes_len record).

(** [_recover_pending_append_unlocked] *)
Definition recover (identity : AgentIdentity) (f : recovery_fault) (s : slog) : slog * res unit :=
  match (match f with ReadFails e => Err (io_exn e) | _ => read_append_intent s end) with
  | Err e => (s, Err e)
  | Ok None => (s, Ok tt)
  | Ok (Some (base_size, line)) =>
    match recovery_plan identity s base_size line with
    | Err e => (s, Err e)
    | Ok (base, record, event, incomplete) =>
      let completed :=
        if negb incomplete then (s, Ok tt) else
        match f with
        | TruncateFails =>
          (* an empty file is not truncated *)
          if bytes_len (log_bytes s) =? 0 then (with_log (Some (base ++ record)) s, Ok tt) else (s, Err OSError)
        | RewriteFails n => (with_log (Some (base ++ str_take n record)) s, Err OSError)
        | _ => (with_log (Some (base ++ record)) s, Ok tt)
        end in
      match completed with
      | (s, Err e) => (s, Err e)
      | (s, Ok _) =>
        match (match f with RecheckFails e => Err (io_exn e) | _ => require_verified s end) with
        | Err e => (s, Err e)
        | Ok events =>
          match nth_error events (Z.to_nat event.(seq)) with
          | Some stored =>
            if negb (event_eqb stored event) then (s, Err ValueError) else
            match f with
            | ClearFails removed => (if removed then with_pending None s else s, Err OSError)
            | _ => (with_pending None s, Ok tt)
            end
          | None => (s, Err ValueError)
          end
        end
      end
    end
  end.

(** The verified events after a recovery. *)
Definition read_verified (f : recovery_fault) (s : slog) : res (list SpineEvent) :=
  match f with VerifyFails e => Err (io_exn e) | _ => require_verified s end.

(** Recover, then work on the verified events. *)
Definition with_verified {A} (identity : AgentIdentity) (f : recovery_fault)
    (k : list SpineEvent -> slog -> slog * res A) (s : slog) : slog * res A :=
  match recover identity f s with
  | (s, Err e) => (s, Err e)
  | (s, Ok _) => match read_verified f s with
                 | Err e => (s, Err e)
                 | Ok events => k events s
                 end
  end.

(** ** Opening and reading *)

(** The loop of [_load_head] and of [read_all]; [strict] refuses an incomplete
    final record. *)
Fixpoint decode_lines (strict : bool) (lines : list (res string)) : res (list SpineEvent) :=
  match lines with
  | [] => Ok []
  | Err e :: _ => Err e
  | Ok raw :: lines =>
    if strict && negb (endswith nl raw) then Err ValueError else
    if blank raw then decode_lines strict lines else
    let* event := decode_line raw in
    let* events := decode_lines strict lines in
    Ok (event :: events)
  end.

Definition file_lines (s : slog) : list (res string) :=
  match s.(log_file) with None => [] | Some data => raw_lines None data end.

(** [_load_head]; a [TimeoutError] of the lock is not modelled *)
Definition load_head (identity : AgentIdentity) (f : recovery_fault) (s : slog) : slog * res unit :=
  let corrupt (e : exn) : res unit := if is_log_error e then Err ValueError else Err e in
  match recover identity f s with
  | (s, Err e) => (s, corrupt e)
  | (s, Ok _) =>
    match (match f with VerifyFails e => Err (io_exn e) | _ => decode_lines true (file_lines s) end) with
    | Err e => (s, corrupt e)
    | Ok events => (with_head events s, Ok tt)
    end
  end.

(** [read_all], consumed to the end *)
Definition read_all (s : slog) : res (list SpineEvent) := decode_lines false (file_lines s).

(** [verified_snapshot] *)
Definition verified_snapshot (identity : AgentIdentity) (f : recovery_fault) : slog -> slog * res (list SpineEvent) :=
  with_verified identity f (fun events s => (s, res_mapM snapshot_event events)).

Definition find_event (id : string) (events : list SpineEvent) : option SpineEvent :=
  List.find (fun e => String.eqb e.(content_hash) id) events.

Definition snapshot_option (e : option SpineEvent) : res (option SpineEvent) :=
  match e with Some e => res_map Some (snapshot_event e) | None => Ok None end.

(** [get_verified_event] *)
Definition get_verified_event (identity : AgentIdentity) (f : recovery_fault) (id : string) (s : slog)
  : slog * res (option SpineEvent) :=
  if negb (hex_digest 64 id) then (s, Err ValueError) else
  with_verified identity f (fun events s => (s, snapshot_option (find_event id events))) s.

(** [reconcile_append] *)
Definition reconcile_append (identity : AgentIdentity) (f : recovery_fault) (id : string) (s : slog)
  : slog * res (option SpineEvent) :=
  if negb (hex_digest 64 id) then (s, Err ValueError) else
  with_verified identity f
    (fun events s => (with_head events s, snapshot_option (find_event id events))) s.

(** [verify_chain] *)
Definition verify_chain (identity : AgentIdentity) (f : recovery_fault) (s : slog) : slog * res bool :=
  match recover identity f s with
  | (s, Err e) => (s, if is_log_error e then Ok false else Err e)
  | (s, Ok _) => (s, match f with VerifyFails _ => Ok false | _ => res_map fst (verified_events None s) end)
  end.

(** ** Appending *)

(** What fails in one durable write, if something does: the write of the intent
    (which may be durable all the same, and whose outcome may be impossible to
    read back), the write of the record (after some bytes), or the removal of
    the intent (which may have happened all the same). *)
Inductive write_fault :=
| WriteRuns
| IntentFails (durable reread_fails : bool)
| RecordFails (transferred : nat)
| CleanupFails (removed : bool).

(** What fails in an append after its recovery: the [n]-th durable write, the
    check that reads the appended bytes back, the release of the process
    lock. *)
Record append_fault := {
  write : nat -> write_fault;
  readback : option io_error;
  release_fails : bool
}.

Definition AppendRuns : append_fault := {| write := fun _ => WriteRuns; readback := None; release_fails := false |}.

(** Only the first durable write fails. *)
Definition write_fails (w : write_fault) : append_fault :=
  {| write := fun n => match n with O => w | S _ => WriteRuns end; readback := None; release_fails := false |}.

(** [_prepare_append] *)
Definition prepare_append (identity : AgentIdentity) (event_type : string) (payload : pyval) (ts : Z)
    (last : option SpineEvent) (base_size : Z) : res (SpineEvent * string) :=
  let* event := sign_event (PInt (match last with Some e => e.(seq) + 1 | None => 0 end))
                  (PStr (match last with Some e => e.(content_hash) | None => GENESIS_PREV end))
                  (PStr event_type) payload identity (PInt ts) in
  let line := encode_event event in
  if MAX_SPINE_LINE_BYTES <? bytes_len line then Err ValueError else
  let* _ := encode_append_intent base_size line in
  Ok (event, line).

(** [_append_prepared]; the middle component is what it adds to [outcomes] *)
Definition append_prepared (event : SpineEvent) (line : string) (f : write_fault) (s : slog)
  : slog * list SpineEvent * res unit :=
  let unknown := SpineAppendOutcomeUnknown event.(content_hash) [event.(content_hash)] in
  match encode_append_intent (bytes_len (log_bytes s)) line with
  | Err e => (s, [], Err e)
  | Ok intent =>
    let record := line ++ nl in
    let armed := with_pending (Some intent) s in
    match f with
    | IntentFails durable reread_fails =>
      let s := if durable then armed else s in
      if reread_fails then (s, [event], Err unknown) else
      match read_append_intent s with
      | Ok None => (s, [], Err OSError)
      | _ => (s, [event], Err unknown)
      end
    | RecordFails n =>
      (with_log (Some (log_bytes s ++ str_take n record)) armed, [event], Err unknown)
    | CleanupFails removed =>
      let s' := if removed then with_pending None s else armed in
      (with_head [event] (with_log (Some (log_bytes s ++ record)) s'), [event], Ok tt)
    | WriteRuns =>
      (with_head [event] (with_log (Some (log_bytes s ++ record)) (with_pending None s)), [event], Ok tt)
    end
  end.

(** [_append_outcome_guard] *)
Definition outcome_guard {A} (appended : list SpineEvent) (r : res A) : res A :=
  match r with
  | Err (SpineAppendOutcomeUnknown id _) =>
    Err (SpineAppendOutcomeUnknown id
           (List.filter (fun i => negb (String.eqb i id)) (map content_hash appended) ++ [id])%list)
  | Err e =>
    if is_OSError e then
      match last appended with
      | Some event => Err (SpineAppendOutcomeUnknown event.(content_hash) (map content_hash appended))
      | None => Err e
      end
    else Err e
  | Ok a => Ok a
  end.

(** [_token_after_expected_append] and [_remember_verified_unlocked], before the
    results of an append are returned. *)
Definition read_back {A} (f : append_fault) (results : A) : res A :=
  match f.(readback) with Some e => Err (io_exn e) | None => Ok results end.

(** The end of the two nested [with] blocks around an append: the release of the
    process lock, whose failure replaces any result or exception, then the
    outcome guard. *)
Definition finish {A} (f : append_fault) (body : slog * res (list SpineEvent * res A)) : slog * res A :=
  let (s, x) := body in
  let (appended, r) := match x with Ok y => y | Err e => ([], Err e) end in
  (s, outcome_guard appended (if f.(release_fails) then Err OSError else r)).

(** [append]; [ts] is the given or current time *)
Definition append (identity : AgentIdentity) (event_type : string) (payload : pyval) (ts : Z)
    (rf : recovery_fault) (f : append_fault) (s : slog) : slog * res SpineEvent :=
  match snapshot_payload payload with
  | Err e => (s, Err e)
  | Ok payload =>
    finish f (with_verified identity rf (fun events s =>
      match (let* (event, line) := prepare_append identity event_type payload ts (last events)
                                     (bytes_len (log_bytes s)) in
             let* result := snapshot_event event in
             Ok (event, line, result)) with
      | Err e => (s, Err e)
      | Ok (event, line, result) =>
        let '(s, appended, r) := append_prepared event line (f.(write) 0%nat) s in
        (s, Ok (appended, let* _ := r in read_back f result))
      end) s)
  end.

(** ** Idempotent batches *)

(** Who already holds a semantic key: an event of the log, or an earlier
    payload of the batch. *)
Inductive owner :=
| Existing (seq : Z)
| Planned (index : nat).

Global Instance owner_eq_dec : EqDecision owner.
Proof. solve_decision. Defined.

(** [value = payload.get(field)], when it is a non-empty string *)
Definition semantic_key (payload : list (string * pyval)) (field : string) : option string :=
  match get_or_none field payload with
  | PStr value => if String.eqb value "" then None else Some value
  | _ => None
  end.

(** The owners of one key in [_semantic_index_unlocked]. *)
Definition existing_owners (event_type field value : string) (events : list SpineEvent) : list owner :=
  map (fun e => Existing e.(seq))
    (List.filter (fun e => String.eqb e.(type) event_type &&
                           bool_decide (semantic_key e.(payload) field = Some value)) events).

(** The owners the loop of [append_unique_many] has added for the payloads it
    plans to write. *)
Fixpoint planned_owners (field value : string) (index : nat) (planned : list (list (string * pyval))) : list owner :=
  match planned with
  | [] => []
  | p :: planned =>
    (if bool_decide (semantic_key p field = Some value) then [Planned index] else [])
    ++ planned_owners field value (S index) planned
  end%list.

(** [matched]: the owners of any key of the payload *)
Definition matched_owners (event_type : string) (fields : list string) (events : list SpineEvent)
    (planned : list (list (string * pyval))) (p : list (string * pyval)) : list owner :=
  remove_dups (flat_map (fun field =>
    match semantic_key p field with
    | Some value => existing_owners event_type field value events ++ planned_owners field value 0 planned
    | None => []
    end) fields)%list.

(** [_validate_append_event] *)
Definition validate_append_event (validator : option (SpineEvent -> res pyval)) (e : SpineEvent) : res unit :=
  match validator with
  | None => Ok tt
  | Some check_ =>
    let* view := snapshot_event e in
    let* answer := check_ view in
    match answer with PNone => Ok tt | _ => Err TypeError end
  end.

Definition charge_batch_bytes (used additional : Z) : res Z :=
  if MAX_SPINE_APPEND_BATCH_BYTES <? used + additional then Err ValueError else Ok (used + additional).

Definition event_at (events : list SpineEvent) (seq : Z) : res SpineEvent :=
  match nth_error events (Z.to_nat seq) with Some e => Ok e | None => Err IndexError end.

(** One iteration of the planning loop: the payloads to write, and the owner
    and freshness of the result. *)
Definition plan_payload (validator : option (SpineEvent -> res pyval)) (event_type : string)
    (fields : list string) (events : list SpineEvent) (planned : list (list (string * pyval)))
    (p : list (string * pyval)) : res (list (list (string * pyval)) * (owner * bool)) :=
  match matched_owners event_type fields events planned p with
  | [] => Ok ((planned ++ [p])%list, (Planned (List.length planned), true))
  | [o] =>
    let* held := match o with
                 | Existing i =>
                   let* e := event_at events i in
                   let* _ := validate_append_event validator e in Ok e.(payload)
                 | Planned n => match nth_error planned n with Some q => Ok q | None => Err IndexError end
                 end in
    let* a := canonical_json (PDict held) in
    let* b := canonical_json (PDict p) in
    if String.eqb a b then Ok (planned, (o, false)) else Err SpineSemanticConflict
  | _ => Err SpineSemanticConflict
  end.

Fixpoint plan_batch (validator : option (SpineEvent -> res pyval)) (event_type : string)
    (fields : list string) (events : list SpineEvent) (planned : list (list (string * pyval)))
    (payloads : list (list (string * pyval))) : res (list (list (string * pyval)) * list (owner * bool)) :=
  match payloads with
  | [] => Ok (planned, [])
  | p :: payloads =>
    let* (planned, resolution) := plan_payload validator event_type fields events planned p in
    let* (planned, resolutions) := plan_batch validator event_type fields events planned payloads in
    Ok (planned, resolution :: resolutions)
  end.

(** The loop that signs the planned payloads; [stamp] gives the time of the
    [n]-th. *)
Fixpoint prepare_batch (identity : AgentIdentity) (validator : option (SpineEvent -> res pyval))
    (event_type : string) (stamp : nat -> Z) (n : nat) (last : option SpineEvent) (base_size used : Z)
    (planned : list (list (string * pyval))) : res (list (SpineEvent * string) * Z) :=
  match planned with
  | [] => Ok ([], used)
  | p :: planned =>
    let* (event, line) := prepare_append identity event_type (PDict p) (stamp n) last base_size in
    let* used := charge_batch_bytes used (bytes_len line + 1) in
    let* _ := validate_append_event validator event in
    let* (rest, used) := prepare_batch identity validator event_type stamp (S n) (Some event)
                           (base_size + bytes_len line + 1) used planned in
    Ok ((event, line) :: rest, used)
  end.

(** The detached results of a batch. *)
Fixpoint batch_results (events : list SpineEvent) (prepared : list (SpineEvent * string)) (used : Z)
    (resolutions : list (owner * bool)) : res (list (SpineEvent * bool)) :=
  match resolutions with
  | [] => Ok []
  | (o, created) :: resolutions =>
    let* event := match o with
                  | Existing i => event_at events i
                  | Planned n => match nth_error prepared n with Some (e, _) => Ok e | None => Err IndexError end
                  end in
    let* used := charge_batch_bytes used (bytes_len (encode_event event)) in
    let* view := snapshot_event event in
    let* rest := batch_results events prepared used resolutions in
    Ok ((view, created) :: rest)
  end.

(** The durable writes of a batch; [faults] gives the fault of each, and the
    first that fails stops the batch. *)
Fixpoint write_batch (prepared : list (SpineEvent * string)) (faults : nat -> write_fault) (n : nat) (s : slog)
  : slog * list SpineEvent * res unit :=
  match prepared with
  | [] => (s, [], Ok tt)
  | (event, line) :: prepared =>
    match append_prepared event line (faults n) s with
    | (s, out, Err e) => (s, out, Err e)
    | (s, out, Ok _) =>
      let '(s, out', r) := write_batch prepared faults (S n) s in (s, (out ++ out')%list, r)
    end
  end.

(** The checks of [append_unique_many] on its arguments: the normalised
    payloads and the bytes charged. *)
Fixpoint snapshot_payloads (used : Z) (payloads : list pyval) : res (list (list (string * pyval)) * Z) :=
  match payloads with
  | [] => Ok ([], used)
  | p :: payloads =>
    let* encoded := encode_payload p in
    let* used := charge_batch_bytes used (bytes_len encoded) in
    let* v := json_loads encoded in
    let* (rest, used) := snapshot_payloads used payloads in
    match v with PDict d => Ok (d :: rest, used) | _ => Err ValueError end
  end.

(** [append_unique_many] *)
Definition append_unique_many (identity : AgentIdentity) (event_type : string) (payloads : list pyval)
    (fields : list string) (stamp : nat -> Z) (validator : option (SpineEvent -> res pyval))
    (rf : recovery_fault) (f : append_fault) (s : slog) : slog * res (list (SpineEvent * bool)) :=
  if (match fields with [] => true | _ => false end) || existsb (String.eqb "") fields
     || negb (bool_decide (NoDup fields)) then (s, Err ValueError) else
  match payloads with
  | [] => (s, Ok [])
  | _ =>
    if MAX_SPINE_APPEND_BATCH <? Z.of_nat (List.length payloads) then (s, Err ValueError) else
    match snapshot_payloads 0 payloads with
    | Err e => (s, Err e)
    | Ok (payloads, used) =>
      if negb (forallb (fun p => forallb (fun f => bool_decide (semantic_key p f <> None)) fields) payloads)
      then (s, Err ValueError) else
      finish f (with_verified identity rf (fun events s =>
        match (let* (planned, resolutions) := plan_batch validator event_type fields events [] payloads in
               let* (prepared, used) := prepare_batch identity validator event_type stamp 0 (last events)
                                          (bytes_len (log_bytes s)) used planned in
               let* results := batch_results events prepared used resolutions in
               Ok (prepared, results)) with
        | Err e => (s, Err e)
        | Ok (prepared, results) =>
          let '(s, appended, r) := write_batch prepared f.(write) 0 s in
          (s, Ok (appended, let* _ := r in read_back f results))
        end) s)
    end
  end.

(** [append_unique] *)
Definition append_unique (identity : AgentIdentity) (event_type : string) (payload : pyval)
    (fields : list string) (ts : Z) (rf : recovery_fault) (f : append_fault) (s : slog)
  : slog * res (SpineEvent * bool) :=
  let (s, r) := append_unique_many identity event_type [payload] fields (fun _ => ts) None rf f s in
  (s, let* results := r in
      match results with x :: _ => Ok x | [] => Err IndexError end).

(** The bound on the text arguments of [find_unique_event]. *)
Definition query_text (s : string) : bool := negb (String.eqb s "") && (py_len s <=? 2048).

(** [find_unique_event] *)
Definition find_unique_event (identity : AgentIdentity) (rf : recovery_fault)
    (event_type payload_field payload_value : string) (s : slog) : slog * res (option SpineEvent) :=
  if negb (query_text event_type && query_text payload_field && query_text payload_value)
  then (s, Err ValueError) else
  with_verified identity rf (fun events s =>
    (s, match remove_dups (existing_owners event_type payload_field payload_value events) with
        | [] => Ok None
        | [Existing i] =>
          if (0 <=? i) && (i <? Z.of_nat (List.length events)) then
            let* e := event_at events i in res_map Some (snapshot_event e)
          else Err RuntimeError
        | [_] => Err RuntimeError
        | _ => Err ValueError
        end)) s.
End Log.
