(* ===== verification/SpineLogSpec.v ===== *)
(** * What the event log promises

    Whatever fails, an append leaves the old history or the old history and its
    event; torn appends are completed, completed ones are kept, and an unknown
    outcome names the event in doubt; semantic keys are written once.  The proofs follow the bytes:
    how a file splits into lines, how a line that was written is read back, and
    how the verifier runs over a file that grew by one line. *)

From Stdlib Require Import ZArith Lia Ascii String Permutation.
From stdpp Require Import base list strings.
From S2P Require Import Prelude Digits PyStr PyValue Json JsonAscii CanonicalJson B64u DidKey Sha256 Identity SpineEvent SpineLog.

Local Open Scope string_scope.
Local Open Scope Z_scope.

#[local] Opaque sha256_hex MAX_SPINE_LINE_BYTES MAX_SPINE_APPEND_INTENT_BYTES MAX_SPINE_PAYLOAD_BYTES.

(** ** Lines *)

(** A file that is empty or ends with a newline. *)
Definition aligned (l : list ascii) : Prop := l = [] \/ exists k, l = (k ++ [newline])%list.

Definition plain (l : list ascii) : Prop := Forall (fun c => c <> newline) l.

Lemma keep_lines_app a b : aligned a -> keep_lines (a ++ b) = (keep_lines a ++ keep_lines b)%list.
Proof.
  intros [->|[k ->]]; [done|]. induction k as [|c k IH]; [done|]. cbn [app keep_lines].
  destruct (Ascii.eqb c newline); rewrite IH; [done|].
  destruct (keep_lines (k ++ [newline])) as [|x xs] eqn:E; [|done].
  exfalso. destruct k as [|d k]; [done|]. cbn [app keep_lines] in E.
  by destruct (Ascii.eqb d newline), (keep_lines (k ++ [newline])).
Qed.

Lemma keep_lines_line l : plain l -> keep_lines (l ++ [newline]) = [(l ++ [newline])%list].
Proof.
  induction 1 as [|c l Hc _ IH]; [done|]. cbn [app keep_lines].
  rewrite (proj2 (Ascii.eqb_neq c newline) Hc). by rewrite IH.
Qed.

(** Joining the lines of a file gives it back. *)
Lemma keep_lines_concat l : concat (keep_lines l) = l.
Proof.
  induction l as [|c l IH]; [done|]. cbn [keep_lines]. destruct (Ascii.eqb c newline) eqn:E.
  - cbn [concat app]. by rewrite IH.
  - destruct (keep_lines l) as [|x xs]; cbn [concat app] in *; congruence.
Qed.

Lemma keep_lines_nonempty l : Forall (fun x => x <> []) (keep_lines l).
Proof.
  induction l as [|c l IH]; [constructor|]. cbn [keep_lines]. destruct (Ascii.eqb c newline); [by constructor|].
  destruct (keep_lines l) as [|x xs]; [by repeat constructor|]. by apply Forall_cons in IH as [_ IH]; constructor.
Qed.

Lemma endswith_nl l : endswith nl (of_chars l) = true <-> exists k, l = (k ++ [newline])%list.
Proof.
  unfold endswith. rewrite (str_length_chars (of_chars l)), chars_of_chars. change (String.length nl) with 1%nat.
  split.
  - intros [Hl H]%andb_true_iff. apply Nat.leb_le in Hl. apply String.eqb_eq in H.
    apply (f_equal chars) in H. unfold str_drop in H. rewrite !chars_of_chars in H.
    exists (take (List.length l - 1) l). rewrite <- (take_drop (List.length l - 1) l) at 1. f_equal. exact H.
  - intros [k ->]. rewrite length_app. cbn [List.length]. apply andb_true_iff. split; [apply Nat.leb_le; lia|].
    unfold str_drop. rewrite chars_of_chars. replace (List.length k + 1 - 1)%nat with (List.length k) by lia.
    by rewrite drop_app_length.
Qed.

(** The size test of the reader. *)
Definition short (l : list ascii) : Prop := Z.of_nat (List.length l) <= MAX_SPINE_LINE_BYTES.

Lemma raw_lines_from_None c d ls : raw_lines_from None c ls = raw_lines_from None d ls.
Proof. revert c d. induction ls as [|l ls IH]; intros c d; [done|]. cbn [raw_lines_from]. by rewrite (IH _ (d + Z.of_nat (List.length l))). Qed.

Lemma raw_lines_from_short c ls :
  Forall short ls -> raw_lines_from None c ls = map (fun l => Ok (of_chars l)) ls.
Proof.
  intros H. revert c. induction H as [|l ls Hl _ IH]; intros c; [done|]. cbn [raw_lines_from map].
  unfold short in Hl. rewrite (proj2 (Z.ltb_ge _ _)) by lia. by rewrite IH.
Qed.

Lemma raw_lines_from_app c ls ks :
  Forall short ls ->
  raw_lines_from None c (ls ++ ks) = (map (fun l => Ok (of_chars l)) ls ++ raw_lines_from None 0 ks)%list.
Proof.
  intros H. revert c. induction H as [|l ls Hl _ IH]; intros c; [apply raw_lines_from_None|].
  cbn [raw_lines_from map app]. unfold short in Hl. rewrite (proj2 (Z.ltb_ge _ _)) by lia. by rewrite IH.
Qed.

(** The lines up to an offset at which a line ends. *)
Lemma raw_lines_from_stop c ls ks :
  Forall short ls -> Forall (fun x => x <> []) ls -> ls <> [] ->
  raw_lines_from (Some (c + Z.of_nat (List.length (concat ls)))) c (ls ++ ks) = map (fun l => Ok (of_chars l)) ls.
Proof.
  intros H Hn Hne. revert c. induction ls as [|l ls IH]; intros c; [done|].
  apply Forall_cons in H as [Hl H], Hn as [Hx Hn]. cbn [raw_lines_from map app concat].
  unfold short in Hl. rewrite length_app, (proj2 (Z.ltb_ge MAX_SPINE_LINE_BYTES _)) by lia.
  rewrite (proj2 (Z.ltb_ge _ _)) by lia. f_equal.
  destruct (Z.eqb_spec (c + Z.of_nat (List.length l)) (c + Z.of_nat (List.length l + List.length (concat ls)))) as [E|E].
  - destruct ls as [|k ls]; [done|]. apply Forall_cons in Hn as [Hk _]. cbn [concat] in E.
    rewrite length_app in E. destruct k; [done|]. simpl in E. lia.
  - assert (ls <> []) as Hls by (intros ->; simpl in E; lia).
    rewrite <- (IH H Hn Hls (c + Z.of_nat (List.length l))). do 2 f_equal. lia.
Qed.

Lemma str_take_all n s t : (String.length s <= n)%nat -> str_take n (s ++ t) = s ++ str_take (n - String.length s) t.
Proof.
  intros H. rewrite str_length_chars in *. unfold str_take. rewrite chars_app, take_app, take_ge by done.
  by rewrite of_chars_app, of_chars_chars.
Qed.

Lemma str_take_0 s : str_take 0 s = "".
Proof. done. Qed.

Lemma str_take_app s t : str_take (String.length s) (s ++ t) = s.
Proof. rewrite str_take_all, Nat.sub_diag, str_take_0 by done. apply str_app_nil_r. Qed.

Lemma str_take_min n s : str_take n s = str_take (Nat.min n (String.length s)) s.
Proof.
  unfold str_take. f_equal. rewrite str_length_chars. destruct (Nat.min_spec n (List.length (chars s))) as [[? ->]|[? ->]]; [done|].
  by rewrite !take_ge.
Qed.

Lemma str_take_ge n s : (String.length s <= n)%nat -> str_take n s = s.
Proof. intros H. unfold str_take. rewrite take_ge by by rewrite <- str_length_chars. apply of_chars_chars. Qed.

Lemma str_take_length n s : String.length (str_take n s) = Nat.min n (String.length s).
Proof. unfold str_take. by rewrite !str_length_chars, chars_of_chars, length_take. Qed.

(** ** Running the verifier over a growing file *)

Definition next_seq (events : list SpineEvent) : Z :=
  match last events with Some e => e.(seq) + 1 | None => 0 end.
Definition next_prev (events : list SpineEvent) : string :=
  match last events with Some e => e.(content_hash) | None => GENESIS_PREV end.

Lemma next_seq_snoc l e : next_seq (l ++ [e]) = e.(seq) + 1.
Proof. unfold next_seq. by rewrite last_snoc. Qed.
Lemma next_prev_snoc l e : next_prev (l ++ [e]) = e.(content_hash).
Proof. unfold next_prev. by rewrite last_snoc. Qed.

Section Verify.
Context `{Ed : Ed25519}.

(** One accepted line. *)
Lemma verify_lines_step acc raw ls evs :
  verify_lines (next_seq acc) (next_prev acc) acc (Ok raw :: ls) = Ok (true, evs) ->
  endswith nl raw = true /\
  ((blank raw = true /\ verify_lines (next_seq acc) (next_prev acc) acc ls = Ok (true, evs)) \/
   exists e r, blank raw = false /\ decode_line raw = Ok e /\ e.(seq) = next_seq acc /\
     e.(prev_hash) = next_prev acc /\ verify_event e = Ok (true, r) /\
     verify_lines (next_seq (acc ++ [e])) (next_prev (acc ++ [e])) (acc ++ [e]) ls = Ok (true, evs)).
Proof.
  cbn [verify_lines]. destruct (endswith nl raw); [|done]. cbn [negb]. intros H. split; [done|].
  destruct (blank raw); [by left|right].
  destruct (decode_line raw) as [e|x]; [|by destruct (is_log_error x)].
  destruct (Z.eqb_spec e.(seq) (next_seq acc)) as [Es|]; [|done]. cbn [negb] in H.
  destruct (String.eqb_spec e.(prev_hash) (next_prev acc)) as [Ep|]; [|done]. cbn [negb] in H.
  destruct (verify_event e) as [[[] r]|x] eqn:Ev; [|done|by destruct (is_log_error x)].
  exists e, r. rewrite next_seq_snoc, next_prev_snoc, Es. done.
Qed.

Lemma verify_lines_app acc ls ks evs :
  verify_lines (next_seq acc) (next_prev acc) acc ls = Ok (true, evs) ->
  verify_lines (next_seq acc) (next_prev acc) acc (ls ++ ks) = verify_lines (next_seq evs) (next_prev evs) evs ks.
Proof.
  revert acc. induction ls as [|[raw|x] ls IH]; intros acc H.
  - by injection H as ->.
  - apply verify_lines_step in H as (He & [[Hb H]|(e & r & Hb & Hd & Es & Ep & Hv & H)]).
    + cbn [app verify_lines]. rewrite He, Hb. cbn [negb]. by apply IH.
    + cbn [app verify_lines]. rewrite He, Hb, Hd, Es, Ep, Z.eqb_refl, String.eqb_refl, Hv. cbn [negb].
      rewrite <- (IH _ H). by rewrite next_seq_snoc, next_prev_snoc, Es.
  - cbn [verify_lines] in H. by destruct (is_log_error x).
Qed.

(** Accepted lines were all read, and all end with a newline. *)
Lemma verify_lines_all acc ls evs :
  verify_lines (next_seq acc) (next_prev acc) acc ls = Ok (true, evs) ->
  Forall (fun r => exists raw, r = Ok raw /\ endswith nl raw = true) ls.
Proof.
  revert acc. induction ls as [|[raw|x] ls IH]; intros acc H; [constructor| |].
  - apply verify_lines_step in H as (He & [[_ H]|(e & r & _ & _ & _ & _ & _ & H)]);
      (constructor; [by exists raw|by eapply IH]).
  - cbn [verify_lines] in H. by destruct (is_log_error x).
Qed.

Lemma raw_lines_all_Ok c ls :
  Forall (fun r => exists raw : string, r = Ok raw /\ endswith nl raw = true) (raw_lines_from None c ls) ->
  Forall short ls /\ Forall (fun l => exists k, l = (k ++ [newline])%list) ls.
Proof.
  revert c. induction ls as [|l ls IH]; intros c H; [done|]. cbn [raw_lines_from] in H.
  destruct (Z.ltb_spec MAX_SPINE_LINE_BYTES (Z.of_nat (List.length l))).
  { by apply Forall_cons in H as [(raw & [=] & _) _]. }
  apply Forall_cons in H as [(raw & [= <-] & He) Hr]. apply endswith_nl in He.
  destruct (IH _ Hr) as [H1 H2]. split; by constructor.
Qed.

Lemma lines_aligned l :
  Forall (fun l => exists k, l = (k ++ [newline])%list) (keep_lines l) -> aligned l.
Proof.
  pose proof (keep_lines_concat l) as Hc. revert Hc. generalize (keep_lines l). intros ls Hc H.
  destruct ls as [|x xs _] using rev_ind; [by left|right].
  apply Forall_app in H as [_ H]. apply Forall_cons in H as [(k & ->) _].
  exists (concat xs ++ k)%list. rewrite <- Hc, concat_app. cbn [concat]. by rewrite app_nil_r, app_assoc.
Qed.

(** The next sequence number counts the events. *)
Lemma verify_lines_count acc ls evs :
  next_seq acc = Z.of_nat (List.length acc) ->
  verify_lines (next_seq acc) (next_prev acc) acc ls = Ok (true, evs) ->
  next_seq evs = Z.of_nat (List.length evs).
Proof.
  revert acc. induction ls as [|[raw|x] ls IH]; intros acc Hn H.
  - by injection H as <-.
  - apply verify_lines_step in H as (_ & [[_ H]|(e & r & _ & _ & Es & _ & _ & H)]); [by eapply IH|].
    apply IH in H; [done|]. rewrite next_seq_snoc, Es, Hn, length_app. cbn [List.length]. lia.
  - cbn [verify_lines] in H. by destruct (is_log_error x).
Qed.

(** A verified file. *)
Definition good (data : string) (evs : list SpineEvent) : Prop :=
  verify_lines 0 GENESIS_PREV [] (raw_lines None data) = Ok (true, evs).

Lemma good_lines data evs :
  good data evs -> Forall short (keep_lines (chars data)) /\ aligned (chars data).
Proof.
  intros H. apply (verify_lines_all []), raw_lines_all_Ok in H as [H1 H2].
  split; [done|by apply lines_aligned].
Qed.

Lemma good_empty : good "" [].
Proof. reflexivity. Qed.

Lemma good_count data evs : good data evs -> next_seq evs = Z.of_nat (List.length evs).
Proof. by apply (verify_lines_count []). Qed.

(** The verifier stopped at the end of a verified prefix sees the prefix. *)
Lemma good_prefix data rest evs :
  good data evs ->
  verify_lines 0 GENESIS_PREV [] (raw_lines (Some (bytes_len data)) (data ++ rest)) = Ok (true, evs).
Proof.
  intros H. pose proof (good_lines _ _ H) as [Hs Ha]. unfold good in H. rewrite <- H. f_equal.
  unfold raw_lines at 2. rewrite raw_lines_from_short by done.
  unfold raw_lines, bytes_len. rewrite str_length_chars, chars_app, keep_lines_app by done.
  destruct (chars data) as [|c l] eqn:E; [done|].
  assert (keep_lines (c :: l) <> []) as Hne.
  { intros Hk. pose proof (keep_lines_concat (c :: l)) as Hc. by rewrite Hk in Hc. }
  pose proof (raw_lines_from_stop 0 (keep_lines (c :: l)) (keep_lines (chars rest)) Hs
                (keep_lines_nonempty _) Hne) as Hr.
  rewrite keep_lines_concat in Hr. rewrite <- Hr. cbn [List.length].
  destruct (Z.of_nat (S (List.length l))) eqn:El; [lia|done|lia].
Qed.

(** What the next record must be. *)
Record extends (evs : list SpineEvent) (line : string) (e : SpineEvent) : Prop := {
  ex_plain : plain (chars line);
  ex_short : bytes_len line < MAX_SPINE_LINE_BYTES;
  ex_blank : blank (line ++ nl) = false;
  ex_decode : decode_line (line ++ nl) = Ok e;
  ex_seq : e.(seq) = next_seq evs;
  ex_prev : e.(prev_hash) = next_prev evs;
  ex_verify : exists r, verify_event e = Ok (true, r)
}.

Lemma good_append data evs line e :
  good data evs -> extends evs line e -> good (data ++ line ++ nl) (evs ++ [e]).
Proof.
  intros H [Hp Hs Hb Hd Es Ep (r & Hv)]. pose proof (good_lines _ _ H) as [Hss Ha].
  unfold good, raw_lines in *. rewrite !chars_app, keep_lines_app by done.
  change (chars nl) with [newline]. rewrite keep_lines_line by done.
  rewrite raw_lines_from_app by done. rewrite raw_lines_from_short in H by done.
  assert (short (chars line ++ [newline])) as Hl.
  { unfold short, bytes_len in *. rewrite str_length_chars in Hs. rewrite length_app. simpl. lia. }
  rewrite (raw_lines_from_short 0 [_]) by by constructor. cbn [map].
  change [newline] with (chars nl). rewrite <- chars_app, of_chars_chars.
  change (verify_lines 0 GENESIS_PREV []) with (verify_lines (next_seq []) (next_prev []) []).
  rewrite (verify_lines_app [] _ _ _ H). cbn [verify_lines].
  assert (endswith nl (line ++ nl) = true) as ->.
  { rewrite <- (of_chars_chars (line ++ nl)), chars_app. apply endswith_nl. by exists (chars line). }
  by rewrite Hb, Hd, Es, Ep, Z.eqb_refl, String.eqb_refl, Hv.
Qed.
End Verify.

(** ** A written event is read back *)

(** The payload is a normalised JSON object of text: what [snapshot_payload]
    returns. *)
Record clean (p : list (string * pyval)) : Prop := {
  cl_wf : wf (PDict p);
  cl_norm : norm (PDict p) = PDict p;
  cl_text : strings_ok is_text (PDict p) = true
}.

Lemma ascii_text s : Forall (fun z => 0 <= z < 128) (bytes_of s) -> is_text s = true.
Proof. intros H. by apply ascii7_text, ascii7_bytes. Qed.

(** The entries of an event's dictionary. *)
Definition event_items (e : SpineEvent) : list (string * pyval) :=
  core_items e.(seq) e.(prev_hash) e.(type) e.(payload) e.(author_did) e.(ts_ms)
  ++ [("content_hash", PStr e.(content_hash)); ("sig", PStr e.(sig))].

Lemma event_items_keys e : NoDup (dict_keys (event_items e)).
Proof.
  change (dict_keys (event_items e)) with
    ["seq"; "prev_hash"; "type"; "payload"; "author_did"; "ts_ms"; "content_hash"; "sig"].
  apply (bool_decide_eq_true_1 _). vm_compute. reflexivity.
Qed.

Lemma norm_to_dict e : clean e.(payload) -> norm (to_dict e) = PDict (sort_items (event_items e)).
Proof.
  intros [_ Hn _]. change (to_dict e) with (PDict (event_items e)). cbn [norm] in *. do 2 f_equal.
  unfold event_items, core_items, map_snd at 1. cbn [app map fst snd norm]. rewrite Hn. reflexivity.
Qed.

(** [from_dict] does not depend on the order of the entries. *)
Lemma from_dict_perm d d' : NoDup (dict_keys d) -> Permutation d d' -> from_dict (PDict d') = from_dict (PDict d).
Proof.
  intros Hd Hp. unfold from_dict. rewrite (same_keys_perm _ d d') by done.
  rewrite !(get_or_none_perm d d') by done. done.
Qed.

Lemma event_of_items_perm d d' : NoDup (dict_keys d) -> Permutation d d' -> event_of_items d' = event_of_items d.
Proof. intros Hd Hp. unfold event_of_items. by rewrite !(get_or_none_perm d d') by done. Qed.

Section Encoding.
Context `{Ed : Ed25519} `{L : !Ed25519Laws Ed}.

(** An accepted event with a clean payload. *)
Definition settled_event (e : SpineEvent) : Prop :=
  (exists r, verify_event e = Ok (true, r)) /\ clean e.(payload).

Lemma settled_well_formed e : settled_event e -> well_formed e.
Proof. intros [(r & H) _]. by apply verify_event_ok in H as []. Qed.

Lemma settled_jsonlike e : settled_event e -> jsonlike (to_dict e) = true.
Proof.
  intros H. destruct (settled_well_formed _ H) as (_ & _ & _ & _ & _ & _ & _ & Hp).
  unfold payload_fits in Hp. apply res_bind_Ok in Hp as (b & Hb & _).
  apply try_except_Ok in Hb as [Hb|(x & _ & _ & [=])]. apply canonical_json_Ok in Hb as (_ & Hj & _).
  change (to_dict e) with (PDict (event_items e)). unfold event_items, core_items. cbn [jsonlike forallb app snd].
  cbn [jsonlike] in Hj. by rewrite Hj.
Qed.

Lemma settled_wf e : settled_event e -> wf (to_dict e).
Proof.
  intros [_ [Hw _ _]]. change (to_dict e) with (PDict (event_items e)). apply wf_PDict.
  split; [apply event_items_keys|]. unfold event_items, core_items. cbn [app].
  repeat (apply Forall_cons; split; cbn [snd]; [first [exact Hw|exact I|constructor]|]). constructor.
Qed.

Lemma settled_text e : settled_event e -> strings_ok is_text (to_dict e) = true.
Proof.
  intros [(r & Hv) [_ _ Ht]]. apply verify_event_ok in Hv as ((_ & _ & Hp & Hc & Hy & _) & _ & pk & raw & digest & Hpk & Hs & _).
  change (to_dict e) with (PDict (event_items e)). unfold event_items, core_items.
  cbn [app strings_ok forallb fst snd]. cbn [strings_ok] in Ht. rewrite Ht, Hs.
  rewrite (ascii_text e.(prev_hash)), (ascii_text e.(type)), (ascii_text e.(author_did)),
    (ascii_text e.(content_hash)), (ascii_text (b64u_encode raw)); [done|..].
  - apply b64u_encode_ascii.
  - by apply HASH_ascii.
  - apply (did_ascii pk). by apply decode_did_inv in Hpk as [].
  - by apply EVENT_TYPE_ascii.
  - by apply HASH_ascii.
Qed.

Lemma encode_printable e : settled_event e -> char_all printable (encode_event e) = true.
Proof. intros H. by apply dumps_ascii_printable, settled_text. Qed.

(** The line of an event, with or without its newline, decodes to the event. *)
Lemma decode_encoded e w :
  settled_event e -> (w = [] \/ w = [newline]) -> bytes_len (encode_event e ++ of_chars w) <= MAX_SPINE_LINE_BYTES ->
  decode_line (encode_event e ++ of_chars w) = Ok e.
Proof.
  intros He Hw Hl. unfold decode_line. rewrite (proj2 (Z.ltb_ge _ _)) by done.
  unfold loads_bytes. change (utf8_ok (bytes_of ?s)) with (is_text s).
  rewrite ascii7_text.
  2: { rewrite char_all_app, (printable_ascii7 _ (encode_printable e He)). by destruct Hw as [->| ->]. }
  unfold encode_event. rewrite loads_dumps_ascii_ws; [|by apply settled_jsonlike|by apply settled_wf
    |by apply settled_text|by destruct Hw as [->| ->]|by destruct Hw as [->| ->]].
  cbn [res_bind]. rewrite norm_to_dict by apply He.
  rewrite (from_dict_perm (event_items e)) by (apply event_items_keys || (symmetry; apply sort_items_Permutation)).
  change (PDict (event_items e)) with (to_dict e). by rewrite from_dict_to_dict by by apply settled_well_formed.
Qed.

Lemma snapshot_settled e : settled_event e -> snapshot_event e = Ok e.
Proof.
  intros He. unfold snapshot_event, encode_event.
  rewrite loads_dumps_ascii by (by apply settled_jsonlike || by apply settled_wf || by apply settled_text).
  cbn [res_bind]. rewrite norm_to_dict by apply He.
  rewrite (event_of_items_perm (event_items e)) by (apply event_items_keys || (symmetry; apply sort_items_Permutation)).
  by destruct e.
Qed.

Lemma settled_extends evs e :
  settled_event e -> e.(seq) = next_seq evs -> e.(prev_hash) = next_prev evs ->
  bytes_len (encode_event e) < MAX_SPINE_LINE_BYTES -> extends evs (encode_event e) e.
Proof.
  intros He Hs Hp Hl. constructor; try done.
  - apply printable_no_newline, encode_printable, He.
  - apply (decode_encoded e [newline]); [done|by right|]. change (of_chars [newline]) with nl.
    unfold bytes_len in *. rewrite str_length_app. change (String.length nl) with 1%nat. lia.
  - apply He.
Qed.
End Encoding.

(** ** The intent is read back *)

Definition intent_items (base : Z) (line : string) : list (string * pyval) :=
  [("version", PInt SPINE_APPEND_INTENT_VERSION); ("base_size", PInt base);
   ("line", PStr line); ("line_sha256", PStr (sha256_hex line))].

Lemma printable_ascii s : char_all printable s = true -> ascii_encode s = Ok s.
Proof.
  intros H%printable_ascii7. unfold ascii_encode. rewrite (proj2 (forallb_forall _ _)); [done|].
  unfold char_all in H. rewrite forallb_forall in H. unfold bytes_of.
  intros z (c & <- & Hc)%in_map_iff. exact (H c Hc).
Qed.

Lemma printable_not c s : printable c = false -> char_all printable s = true ->
  char_all (fun d => negb (Ascii.eqb d c)) s = true.
Proof.
  unfold char_all. rewrite !forallb_forall. intros Hc H d Hd. apply negb_true_iff, Ascii.eqb_neq.
  intros ->. by rewrite (H _ Hd) in Hc.
Qed.

Lemma read_append_intent_encoded s base line raw :
  s.(pending_file) = Some raw -> encode_append_intent base line = Ok raw -> 0 <= base ->
  char_all printable line = true -> 1 <= bytes_len line <= MAX_SPINE_LINE_BYTES ->
  read_append_intent s = Ok (Some (base, line)).
Proof.
  intros Hf He Hb Hp [Hl Hm]. unfold encode_append_intent in He. fold (intent_items base line) in He.
  inv_guards He. bool_to_prop. injection He as <-.
  assert (strings_ok is_text (PDict (intent_items base line)) = true) as Ht.
  { unfold intent_items. cbn [strings_ok forallb fst snd]. rewrite (ascii7_text line) by by apply printable_ascii7.
    rewrite (ascii7_text (sha256_hex line)) by (eapply hex_ascii7, sha256_hex_digest). done. }
  unfold read_append_intent. rewrite Hf.
  rewrite (proj2 (Z.leb_le 1 _)) by (unfold bytes_len, dumps_ascii; rewrite str_length_chars, chars_of_chars; simpl; lia).
  rewrite (proj2 (Z.leb_le _ MAX_SPINE_APPEND_INTENT_BYTES)) by done. cbn [andb negb].
  rewrite printable_ascii by by apply dumps_ascii_printable. cbn [res_bind].
  assert (NoDup (dict_keys (intent_items base line))) as Hn.
  { change (dict_keys (intent_items base line)) with INTENT_FIELDS.
    apply (bool_decide_eq_true_1 _). vm_compute. reflexivity. }
  rewrite loads_dumps_ascii; [|done|apply wf_PDict; split; [done|by repeat constructor]|done].
  cbn [res_bind norm]. change (map_snd norm (intent_items base line)) with (intent_items base line).
  pose proof (sort_items_Permutation (intent_items base line)) as Hs. symmetry in Hs.
  rewrite (same_keys_perm _ _ _ Hn Hs), !(get_or_none_perm _ _ _ Hn Hs).
  change (same_keys INTENT_FIELDS (intent_items base line)) with true.
  change (get_or_none "version" (intent_items base line)) with (PInt SPINE_APPEND_INTENT_VERSION).
  change (get_or_none "base_size" (intent_items base line)) with (PInt base).
  change (get_or_none "line" (intent_items base line)) with (PStr line).
  change (get_or_none "line_sha256" (intent_items base line)) with (PStr (sha256_hex line)).
  cbn [negb py_eqb Z.eqb Pos.eqb SPINE_APPEND_INTENT_VERSION].
  rewrite (proj2 (Z.ltb_ge base 0)) by done. rewrite printable_ascii by done. cbn [res_bind].
  rewrite (proj2 (Z.leb_le 1 _)), (proj2 (Z.leb_le _ MAX_SPINE_LINE_BYTES)) by done.
  rewrite !printable_not, String.eqb_refl by done. done.
Qed.

(** ** States of a log *)

Section States.
Context `{Ed : Ed25519} `{L : !Ed25519Laws Ed}.

(** A log at rest: no intent, and a file that verifies. *)
Definition at_rest (s : slog) (data : string) (evs : list SpineEvent) : Prop :=
  s.(pending_file) = None /\ log_bytes s = data /\ good data evs.

(** An append of [e] was cut: the intent is durable, and some bytes of the
    record are in the file. *)
Definition interrupted (did : string) (s : slog) (data : string) (evs : list SpineEvent) (e : SpineEvent) : Prop :=
  good data evs /\ settled_event e /\ extends evs (encode_event e) e /\ e.(author_did) = did /\
  (exists raw, s.(pending_file) = Some raw /\ encode_append_intent (bytes_len data) (encode_event e) = Ok raw) /\
  exists n, log_bytes s = data ++ str_take n (encode_event e ++ nl).

Lemma verified_good s data evs :
  log_bytes s = data -> good data evs -> verified_events None s = Ok (true, evs).
Proof.
  unfold log_bytes, verified_events. destruct (log_file s) as [d|]; cbn; intros <-; [done|].
  intros [= <-]. reflexivity.
Qed.

Lemma require_good s data evs : log_bytes s = data -> good data evs -> require_verified s = Ok evs.
Proof. intros Hl Hg. unfold require_verified. by rewrite (verified_good s data evs). Qed.

Lemma verified_prefix s data rest evs :
  log_bytes s = data ++ rest -> good data evs -> verified_events (Some (bytes_len data)) s = Ok (true, evs).
Proof.
  intros Hl Hg. unfold log_bytes in Hl. unfold verified_events. destruct (log_file s) as [d|]; cbn in Hl.
  - subst d. by apply good_prefix.
  - destruct data; [|done]. by injection Hg as <-.
Qed.

Lemma recover_at_rest identity f s data evs :
  at_rest s data evs ->
  recover identity f s = (s, match f with ReadFails x => Err (io_exn x) | _ => Ok tt end).
Proof. intros (Hp & _ & _). unfold recover, read_append_intent. rewrite Hp. by destruct f. Qed.

Lemma nat_len s : Z.to_nat (bytes_len s) = String.length s.
Proof. unfold bytes_len. lia. Qed.

(** The checks of a recovery accept an interrupted append. *)
Lemma recovery_plan_interrupted identity did s data evs e n :
  as_did identity = Ok did -> interrupted did s data evs e ->
  log_bytes s = data ++ str_take n (encode_event e ++ nl) ->
  recovery_plan identity s (bytes_len data) (encode_event e) =
  Ok (data, encode_event e ++ nl, e, Nat.ltb n (String.length (encode_event e ++ nl))).
Proof.
  intros Hd (Hg & He & Hx & Ha & _ & _) Hl. set (record := encode_event e ++ nl) in *.
  unfold recovery_plan. rewrite Hl, !nat_len, str_take_app, str_drop_app.
  rewrite (proj2 (Z.ltb_ge _ _)) by (unfold bytes_len; rewrite str_length_app; lia).
  destruct (good_lines _ _ Hg) as [_ Hal].
  assert (negb (bytes_len data =? 0) && negb (endswith nl data) = false) as ->.
  { destruct Hal as [Hn|[k Hk]].
    - unfold bytes_len. rewrite str_length_chars, Hn. done.
    - rewrite <- (of_chars_chars data), Hk, (proj2 (endswith_nl _)) by eauto. apply andb_false_r. }
  rewrite (verified_prefix s data _ evs Hl Hg). cbn [res_bind negb].
  rewrite <- (str_app_nil_r (encode_event e)) at 1. change "" with (of_chars []).
  rewrite decode_encoded; [|done|by left|].
  2: { change (of_chars []) with "". rewrite str_app_nil_r. destruct Hx. lia. }
  cbn [res_bind]. rewrite String.eqb_refl. cbn [negb]. fold (next_prev evs) (next_seq evs).
  destruct Hx as [_ _ _ _ Es Ep (r & Hv)].
  rewrite Hv, Es, Ep, Z.eqb_refl, String.eqb_refl. cbn [res_bind andb]. rewrite Hd. cbn [res_bind].
  rewrite Ha, String.eqb_refl. cbn [negb orb]. fold record.
  rewrite (str_take_ge (String.length record)) by (rewrite str_take_length; lia).
  rewrite (str_take_length n), (str_take_min n).
  replace (Nat.min (Nat.min n (String.length record)) (String.length record))
    with (Nat.min n (String.length record)) by lia.
  rewrite String.eqb_refl. cbn [negb]. do 2 f_equal. unfold bytes_len. rewrite str_take_length.
  apply eq_true_iff_eq. rewrite Z.ltb_lt, Nat.ltb_lt. lia.
Qed.

Lemma settled_eqb e : settled_event e -> event_eqb e e = true.
Proof. intros He. apply py_eqb_refl; [by apply settled_jsonlike|by apply settled_wf]. Qed.

(** The file after the record is complete. *)
Lemma recover_completed s data evs e :
  good data evs -> extends evs (encode_event e) e -> log_bytes s = data ++ encode_event e ++ nl ->
  require_verified s = Ok (evs ++ [e])%list /\ nth_error (evs ++ [e]) (Z.to_nat e.(seq)) = Some e.
Proof.
  intros Hg Hx Hl. split; [apply (require_good s _ _ Hl), good_append; done|].
  rewrite (ex_seq _ _ _ Hx), (good_count _ _ Hg), Nat2Z.id.
  rewrite nth_error_app2, Nat.sub_diag by lia. done.
Qed.

(** A recovery that runs to its end completes the append and forgets the
    intent; one that fails reports an I/O error and leaves an interrupted
    append, or a completed one. *)
Lemma recover_interrupted identity did f s data evs e :
  as_did identity = Ok did -> interrupted did s data evs e ->
  let (s', r) := recover identity f s in
  (r = Ok tt /\ at_rest s' (data ++ encode_event e ++ nl) (evs ++ [e])) \/
  (f <> RecoveryRuns /\ (exists x, r = Err (io_exn x)) /\
   (interrupted did s' data evs e \/ at_rest s' (data ++ encode_event e ++ nl) (evs ++ [e]))).
Proof.
  intros Hd Hi. pose proof Hi as (Hg & He & Hx & Ha & (raw & Hp & Hr) & n & Hl).
  destruct (match f with ReadFails _ => true | _ => false end) eqn:Hrf.
  { destruct f; try done. right. split_and!; [done|by exists e0|by left]. }
  unfold recover.
  assert (match f with ReadFails x => Err (io_exn x) | _ => read_append_intent s end
    = Ok (Some (bytes_len data, encode_event e))) as ->.
  { assert (read_append_intent s = Ok (Some (bytes_len data, encode_event e))) as E; [|by destruct f].
    apply (read_append_intent_encoded s (bytes_len data) (encode_event e) raw Hp Hr).
    - unfold bytes_len; lia.
    - by apply encode_printable.
    - destruct Hx as [_ ? _ _ _ _ _]. split; [|lia]. unfold encode_event, dumps_ascii, bytes_len.
      rewrite str_length_chars, chars_of_chars. simpl. lia. }
  rewrite (recovery_plan_interrupted identity did s data evs e n Hd Hi Hl).
  set (record := encode_event e ++ nl) in *.
  assert (forall t, log_bytes t = data ++ record -> t.(pending_file) = s.(pending_file) ->
    let (s', r) := match (match f with RecheckFails x => Err (io_exn x) | _ => require_verified t end) with
      | Err x => (t, Err x)
      | Ok events => match nth_error events (Z.to_nat e.(seq)) with
        | Some stored => if negb (event_eqb stored e) then (t, Err ValueError) else
           match f with
           | ClearFails removed => (if removed then with_pending None t else t, Err OSError)
           | _ => (with_pending None t, Ok tt) end
        | None => (t, Err ValueError) end end in
    (r = Ok tt /\ at_rest s' (data ++ record) (evs ++ [e])) \/
    (f <> RecoveryRuns /\ (exists x, r = Err (io_exn x)) /\
     (interrupted did s' data evs e \/ at_rest s' (data ++ record) (evs ++ [e])))) as Hend.
  { intros t Ht Hpt. destruct (recover_completed t data evs e Hg Hx Ht) as [Hv Hn].
    assert (at_rest (with_pending None t) (data ++ record) (evs ++ [e])) as Hrest.
    { split_and!; [done|exact Ht|]. by apply good_append. }
    assert (interrupted did t data evs e) as Hcut.
    { split_and!; try done; [exists raw; by rewrite Hpt|]. exists (String.length record). fold record.
      rewrite (str_take_ge _ record) by done. exact Ht. }
    destruct f as [| | | |x|removed|]; rewrite ?Hv, ?Hn, ?settled_eqb by done; cbn [negb]; try (by left); right.
    - split_and!; [done|by exists x|by left].
    - split_and!; [done|by exists AsOSError|]. destruct removed; [by right|by left]. }
  assert (forall m, interrupted did (with_log (Some (data ++ str_take m record)) s) data evs e) as Hcut.
  { intros m. split_and!; try done; [by exists raw|by exists m]. }
  destruct (Nat.ltb_spec n (String.length record)) as [Hn|Hn]; cbn [negb].
  - destruct f as [|x| |m|x|removed|x]; try (by apply Hend).
    + destruct (bytes_len (log_bytes s) =? 0); [by apply Hend|right].
      split_and!; [done|by exists AsOSError|by left].
    + right. split_and!; [done|by exists AsOSError|left; apply Hcut].
  - apply Hend; [|done]. rewrite Hl, str_take_ge by lia. done.
Qed.

(** *** Preparing an event *)

Lemma sign_event_inv identity did n p y pl t e :
  signer identity did -> sign_event (PInt n) (PStr p) (PStr y) (PDict pl) identity (PInt t) = Ok e ->
  e.(seq) = n /\ e.(prev_hash) = p /\ e.(type) = y /\ e.(payload) = pl /\ e.(author_did) = did /\
  e.(ts_ms) = t /\ verify_event e = Ok (true, "ok").
Proof.
  intros Hs H. pose proof H as H'. unfold sign_event in H'.
  destruct (Z.ltb_spec n 0); [done|]. destruct (Z.leb_spec t 0); [done|].
  destruct (HASH p) eqn:Hp; [|done]. destruct (EVENT_TYPE y) eqn:Hy; [|done]. cbn [negb] in H'.
  apply res_bind_Ok in H' as (u & Hu & _). apply payload_fits_unit in Hu.
  destruct (sign_event_spec identity did n p y pl t) as (e' & He' & Hr); [done..|].
  rewrite He' in H. by injection H as ->.
Qed.

Lemma prepare_append_inv identity did y p t evs base e line :
  signer identity did -> clean p -> prepare_append identity y (PDict p) t (last evs) base = Ok (e, line) ->
  bytes_len line < MAX_SPINE_LINE_BYTES ->
  line = encode_event e /\ settled_event e /\ extends evs line e /\ e.(author_did) = did /\
  e.(type) = y /\ e.(payload) = p /\ e.(ts_ms) = t /\
  exists raw, encode_append_intent base line = Ok raw.
Proof.
  intros Hs Hp H Hl. unfold prepare_append in H. fold (next_seq evs) (next_prev evs) in H.
  inv_guards H. apply Ok_inj in H as [= <- <-].
  apply (sign_event_inv _ _ _ _ _ _ _ _ Hs) in G as (Es & Epr & Ey & Ep & Ea & Et & Hv).
  assert (settled_event a) as He by (split; [by exists "ok"|by rewrite Ep]).
  split_and!; try done; [by apply settled_extends|by eexists].
Qed.

(** What [snapshot_payload] returns is clean. *)
Lemma snapshot_payload_inv payload v :
  wf payload -> strings_ok is_text payload = true -> snapshot_payload payload = Ok v ->
  v = norm payload /\ exists p, v = PDict p /\ clean p.
Proof.
  intros Hw Ht H. unfold snapshot_payload in H. apply res_bind_Ok in H as (b & Hb & H).
  unfold encode_payload in Hb. destruct payload as [| | | | | |d|]; try done. inv_guards Hb.
  injection Hb as <-. apply try_except_Ok in G as [G|(? & _ & _ & [=])].
  apply canonical_json_Ok in G as (_ & Hj & _ & ->). rewrite loads_dumps in H by done.
  apply Ok_inj in H as <-. split; [done|]. exists (sort_items (map_snd norm d)). split; [done|].
  change (PDict (sort_items (map_snd norm d))) with (norm (PDict d)). split; cbn [norm].
  - exact (norm_wf _ Hw).
  - exact (norm_norm _ Hw).
  - exact (strings_ok_norm _ _ Ht).
Qed.

(** *** Histories *)

(** What the next use of the log will find: the events of the file, and that
    of an append that was cut. *)
Inductive tracked (did : string) (s : slog) : list SpineEvent -> Prop :=
| tracked_rest data evs : at_rest s data evs -> tracked did s evs
| tracked_cut data evs e : interrupted did s data evs e -> tracked did s (evs ++ [e])%list.

Lemma recover_tracked identity did f s evs :
  as_did identity = Ok did -> tracked did s evs ->
  let (s', r) := recover identity f s in
  (r = Ok tt /\ exists data, at_rest s' data evs) \/
  (f <> RecoveryRuns /\ (exists x, r = Err (io_exn x)) /\ tracked did s' evs).
Proof.
  intros Hd [data evs' H|data evs' e H].
  - rewrite (recover_at_rest _ _ _ _ _ H).
    destruct f as [|x| | | | |]; try (left; split; [done|by exists data]).
    right. split_and!; [done|by exists x|by econstructor].
  - pose proof (recover_interrupted identity did f s data evs' e Hd H) as Hr.
    destruct (recover identity f s) as [s' r]. destruct Hr as [[-> Hr]|(Hf & Hx & Hr)]; [left|right].
    + split; [done|by eexists].
    + split_and!; [done..|]. destruct Hr as [Hr|Hr]; [by econstructor|by eapply tracked_rest].
Qed.

(** An operation on the verified events. *)
Lemma with_verified_tracked {A} identity did f (k : list SpineEvent -> slog -> slog * res A) s evs :
  as_did identity = Ok did -> tracked did s evs ->
  (exists s' data, at_rest s' data evs /\ with_verified identity f k s = k evs s') \/
  (exists s' x, f <> RecoveryRuns /\ tracked did s' evs /\ with_verified identity f k s = (s', Err (io_exn x))).
Proof.
  intros Hd Ht. pose proof (recover_tracked identity did f s evs Hd Ht) as Hr. unfold with_verified.
  destruct (recover identity f s) as [s' r].
  destruct Hr as [(-> & data & Hr)|(Hf & [x ->] & Hr)]; [|right; by exists s', x].
  assert (require_verified s' = Ok evs) as Hv by (destruct Hr as (_ & Hl & Hg); by apply (require_good s' data)).
  unfold read_verified. rewrite Hv. destruct f as [|x| | | | |x]; try (left; by exists s', data).
  right. exists s', x. split_and!; [done|by econstructor|done].
Qed.

(** The outcome of a write whose intent may or may not be durable. *)
Definition unknown_outcome {A} (e : SpineEvent) : res A :=
  Err (SpineAppendOutcomeUnknown e.(content_hash) [e.(content_hash)]).

(** One durable write: the event is durable, or the write reports an error and
    the log is as before. *)
Lemma append_prepared_tracked did w s data evs e raw :
  at_rest s data evs -> settled_event e -> extends evs (encode_event e) e -> e.(author_did) = did ->
  encode_append_intent (bytes_len data) (encode_event e) = Ok raw ->
  let '(s', out, r) := append_prepared e (encode_event e) w s in
  (tracked did s' (evs ++ [e]) /\ out = [e] /\ (r = Ok tt \/ r = unknown_outcome e)) \/
  (tracked did s' evs /\
   ((out = [] /\ r = Err OSError) \/ (w = IntentFails false true /\ out = [e] /\ r = unknown_outcome e))).
Proof.
  intros Hrest He Hx Ha Hr. pose proof Hrest as (Hp & Hl & Hg). unfold append_prepared. rewrite Hl, Hr.
  assert (forall n t, t.(pending_file) = Some raw -> log_bytes t = data ++ str_take n (encode_event e ++ nl) ->
    tracked did t (evs ++ [e])) as Hcut.
  { intros n t Ht Hn. apply (tracked_cut did t data). split_and!; try done; [by exists raw|by exists n]. }
  assert (forall t, t.(pending_file) = None -> log_bytes t = data ++ encode_event e ++ nl ->
    tracked did t (evs ++ [e])) as Hdone.
  { intros t Ht Hn. apply (tracked_rest did _ (data ++ encode_event e ++ nl)).
    split_and!; [done|done|by apply good_append]. }
  assert (tracked did (with_pending (Some raw) s) (evs ++ [e])) as Harmed.
  { apply (Hcut 0%nat); [done|]. by rewrite str_take_0, str_app_nil_r. }
  destruct w as [|durable reread|n|removed]; cbv beta iota zeta.
  - left. split_and!; [by apply Hdone|done|by left].
  - destruct reread.
    { destruct durable; [left|right]; [by split_and!; [|done|right]|]. split; [by econstructor|by right]. }
    destruct durable.
    + rewrite (read_append_intent_encoded _ (bytes_len data) (encode_event e) raw);
        [|done..|unfold bytes_len; lia|by apply encode_printable|].
      * left. split_and!; [done|done|by right].
      * split; [|destruct Hx; lia]. unfold encode_event, dumps_ascii, bytes_len.
        rewrite str_length_chars, chars_of_chars. simpl. lia.
    + unfold read_append_intent. rewrite Hp. right. split; [by econstructor|by left].
  - left. split_and!; [by apply (Hcut n)|done|by right].
  - left. split_and!; [|done|by left]. destruct removed; [by apply Hdone|].
    apply (Hcut (String.length (encode_event e ++ nl))); [done|]. by rewrite str_take_ge by lia.
Qed.

(** What the caller sees of it, after the read-back and the lock release. *)
Lemma finish_write {A} f s e out (r : res unit) (a : A) :
  (out = [e] /\ (r = Ok tt \/ r = unknown_outcome e)) ->
  exists x, finish f (s, Ok (out, let* _ := r in read_back f a)) = (s, x) /\
    (r = unknown_outcome e -> x = unknown_outcome e) /\
    (x = Ok a \/ x = unknown_outcome e \/ (x = Err ValueError /\ f.(readback) = Some AsValueError)).
Proof.
  unfold unknown_outcome. intros [-> [-> | ->]]; unfold finish, read_back; eexists; (split; [reflexivity|]);
    cbn [res_bind].
  - split; [done|]. destruct (release_fails f); [by right; left|].
    destruct (readback f) as [[]|]; cbn; [by right; left|by right; right|by left].
  - destruct (release_fails f); cbn; rewrite ?String.eqb_refl; auto.
Qed.

(** Errors before the first write pass through. *)
Lemma finish_early {A} f s out x :
  x = ValueError \/ x = OSError ->
  exists y, @finish A f (s, match out with true => Ok ([], Err x) | false => Err x end) = (s, Err y) /\
    (y = ValueError \/ y = OSError).
Proof. intros H. unfold finish. destruct out, (release_fails f), H as [-> | ->]; eexists; (split; [reflexivity|]); auto. Qed.

(** *** The errors of an append *)

Lemma sign_event_Err identity did n p y pl t x :
  signer identity did -> sign_event (PInt n) (PStr p) (PStr y) (PDict pl) identity (PInt t) = Err x ->
  x = ValueError.
Proof.
  intros Hs H. pose proof H as H'. unfold sign_event in H'.
  destruct (Z.ltb_spec n 0); [congruence|]. destruct (Z.leb_spec t 0); [congruence|].
  destruct (HASH p) eqn:Hp; [|cbn in H'; congruence].
  destruct (EVENT_TYPE y) eqn:Hy; [|cbn in H'; congruence]. cbn [negb] in H'.
  destruct (payload_fits pl) as [u|z] eqn:Hu.
  - apply payload_fits_unit in Hu.
    destruct (sign_event_spec identity did n p y pl t) as (e' & He' & _); [done..|congruence].
  - cbn [res_bind] in H'. injection H' as <-. unfold payload_fits in Hu.
    destruct (canonical_json (PDict pl)) as [b|w] eqn:Hb; cbn [try_except res_bind] in Hu.
    + destruct (_ <? _); congruence.
    + apply canonical_json_Err_catchable in Hb. rewrite Hb in Hu. cbn in Hu. congruence.
Qed.

Lemma prepare_append_Err identity did y p t l base x :
  signer identity did -> prepare_append identity y (PDict p) t l base = Err x -> x = ValueError.
Proof.
  intros Hs H. unfold prepare_append in H. apply res_bind_Err in H as [H|(e & He & H)].
  - by eapply sign_event_Err.
  - destruct (_ <? _); [congruence|]. apply res_bind_Err in H as [H|(raw & _ & [=])].
    unfold encode_append_intent in H. destruct (_ <? _); congruence.
Qed.

Lemma snapshot_payload_Err payload x :
  wf payload -> snapshot_payload payload = Err x -> x = ValueError.
Proof.
  intros Hw H. unfold snapshot_payload in H. apply res_bind_Err in H as [H|(b & Hb & H)].
  - unfold encode_payload in H. destruct payload as [| | | | | |d|]; try congruence.
    destruct (canonical_json (PDict d)) as [b|w] eqn:Hb; cbn [try_except res_bind] in H.
    + destruct (_ <? _); congruence.
    + apply canonical_json_Err_catchable in Hb. rewrite Hb in H. cbn in H. congruence.
  - unfold encode_payload in Hb. destruct payload as [| | | | | |d|]; try done. inv_guards Hb.
    injection Hb as <-. apply try_except_Ok in G as [G|(? & _ & _ & [=])].
    apply canonical_json_Ok in G as (_ & Hj & _ & ->). by rewrite loads_dumps in H.
Qed.

(** ** Properties *)

(** What an event appended by [append y body t] is. *)
Definition records (did y : string) (body : pyval) (t : Z) (e : SpineEvent) : Prop :=
  settled_event e /\ e.(author_did) = did /\ e.(type) = y /\ PDict e.(payload) = norm body /\ e.(ts_ms) = t.

(** The line the next event of a log would take is shorter than the reader's
    limit, which counts the newline. *)
Definition line_fits (identity : AgentIdentity) (y : string) (body : pyval) (t : Z) (evs : list SpineEvent) : Prop :=
  forall base e line, prepare_append identity y (norm body) t (last evs) base = Ok (e, line) ->
    bytes_len line < MAX_SPINE_LINE_BYTES.

Lemma line_fits_intro identity y body t evs e :
  sign_event (PInt (next_seq evs)) (PStr (next_prev evs)) (PStr y) (norm body) identity (PInt t) = Ok e ->
  bytes_len (encode_event e) < MAX_SPINE_LINE_BYTES -> line_fits identity y body t evs.
Proof.
  intros Hs Hl base e' line H. unfold prepare_append in H. fold (next_seq evs) (next_prev evs) in H.
  rewrite Hs in H. cbn [res_bind] in H. inv_guards H. by apply Ok_inj in H as [= <- <-].
Qed.

(** An append, whatever fails: either the event is in the history, and the
    caller got it, an unknown outcome that names it, or the [ValueError] of a
    failed read-back; or the history is as before, and the caller got an error
    that is not an unknown outcome, unless the write of the intent failed and
    its outcome could not be read back. *)
Definition append_result {A} (did y : string) (body : pyval) (t : Z) (f : append_fault) (evs : list SpineEvent)
    (ok : SpineEvent -> A) (s' : slog) (r : res A) : Prop :=
  (exists e, records did y body t e /\ bytes_len (encode_event e) < MAX_SPINE_LINE_BYTES /\
     tracked did s' (evs ++ [e]) /\
     (r = Ok (ok e) \/ r = unknown_outcome e \/ (r = Err ValueError /\ f.(readback) = Some AsValueError))) \/
  (tracked did s' evs /\
     (r = Err ValueError \/ r = Err OSError \/
      (f.(write) 0%nat = IntentFails false true /\ exists e, records did y body t e /\ r = unknown_outcome e))).

Lemma finish_append {A} did y body t f evs (ok : SpineEvent -> A) e s' out r :
  records did y body t e -> bytes_len (encode_event e) < MAX_SPINE_LINE_BYTES ->
  (tracked did s' (evs ++ [e]) /\ out = [e] /\ (r = Ok tt \/ r = unknown_outcome e)) \/
  (tracked did s' evs /\
   ((out = [] /\ r = Err OSError) \/ (f.(write) 0%nat = IntentFails false true /\ out = [e] /\ r = unknown_outcome e))) ->
  exists x, finish f (s', Ok (out, let* _ := r in read_back f (ok e))) = (s', x) /\
    append_result did y body t f evs ok s' x.
Proof.
  intros Hrec Hl [(Ht & Hor)|(Ht & [[-> ->]|(Hw & Hor)])].
  - destruct (finish_write f s' e out r (ok e) Hor) as (x & Hx & _ & Hres). exists x. split; [done|].
    left. by exists e.
  - destruct (finish_early (A := A) f s' true OSError (or_intror eq_refl)) as (x & Hx & Hres).
    exists (Err x). split; [exact Hx|]. right. split; [done|]. destruct Hres as [-> | ->]; auto.
  - destruct (finish_write f s' e out r (ok e)) as (x & Hx & Hu & _); [naive_solver|]. exists x. split; [done|].
    right. split; [done|]. right. right. split; [done|]. exists e. split; [done|]. apply Hu. naive_solver.
Qed.

Lemma append_spec identity did y body t rf f s evs :
  signer identity did -> tracked did s evs -> wf body -> strings_ok is_text body = true ->
  line_fits identity y body t evs ->
  let (s', r) := append identity y body t rf f s in append_result did y body t f evs id s' r.
Proof.
  intros Hs Ht Hw Htx Hfit. unfold append.
  assert (as_did identity = Ok did) as Hd by by destruct Hs as (? & ? & ? & ? & ?).
  destruct (snapshot_payload body) as [v|x] eqn:Hv.
  2: { apply snapshot_payload_Err in Hv as ->; [|done]. right. auto. }
  apply snapshot_payload_inv in Hv as (Hvn & p & -> & Hp); [|done..].
  match goal with |- context [with_verified identity rf ?k s] =>
    destruct (with_verified_tracked identity did rf k s evs Hd Ht) as [(s1 & data & Hr & ->)|(s1 & x & _ & Ht1 & ->)] end.
  2: { destruct (finish_early (A := SpineEvent) f s1 false (io_exn x)) as (z & -> & Hz); [destruct x; auto|].
       right. split; [done|]. destruct Hz as [-> | ->]; auto. }
  destruct (prepare_append identity y (PDict p) t (last evs) (bytes_len (log_bytes s1))) as [[e line]|x] eqn:Hpr.
  2: { apply (prepare_append_Err _ did) in Hpr as ->; [|done]. cbn [res_bind].
       destruct (finish_early (A := SpineEvent) f s1 false ValueError) as (z & -> & Hz); [by left|].
       right. split; [by econstructor|]. destruct Hz as [-> | ->]; auto. }
  rewrite Hvn in Hpr. pose proof (Hfit _ _ _ Hpr) as Hl. rewrite <- Hvn in Hpr.
  apply (prepare_append_inv _ did) in Hpr as (-> & He & Hx & Ha & Hy & Hpl & Hts & raw & Hraw); [|done..].
  cbn [res_bind]. rewrite snapshot_settled by done. cbn [res_bind].
  replace (log_bytes s1) with data in Hraw by (by destruct Hr as (_ & -> & _)).
  pose proof (append_prepared_tracked did (f.(write) 0%nat) s1 data evs e raw Hr He Hx Ha Hraw) as Hap.
  assert (records did y body t e) as Hrec by (split_and!; try done; by rewrite Hpl).
  destruct (append_prepared e (encode_event e) (f.(write) 0%nat) s1) as [[s' out] r].
  destruct (finish_append did y body t f evs id e s' out r Hrec Hl Hap) as (x & E & Hres).
  unfold id in E at 1. by rewrite E.
Qed.

(** C33. [append] under any I/O fault: of the reads and writes of the recovery
    before it, of its own durable writes and their cleanup, of the check that
    reads the appended bytes back, and of the release of the process lock.  On
    success the history is the old one and the event. When it raises
    [SpineAppendOutcomeUnknown] it names the event it wrote, which is the next
    of the history, unless the write of the intent failed before the intent
    was durable and its outcome could not be read back: then the history may be
    unchanged. On a [ValueError] the history is unchanged, except when it is
    the read-back of the appended bytes that raised it; on any other error,
    which is an [OSError], it is unchanged.  The history is what the next use
    of the log recovers.  (The line of the event must be shorter than the
    reader's limit, which counts the newline: [line_fits].) *)
Theorem append_outcome identity did y body t rf f s evs :
  signer identity did -> tracked did s evs -> wf body -> strings_ok is_text body = true ->
  line_fits identity y body t evs ->
  let (s', r) := append identity y body t rf f s in
  match r with
  | Ok e => records did y body t e /\ tracked did s' (evs ++ [e])
  | Err (SpineAppendOutcomeUnknown id ids) =>
    ids = [id] /\ exists e, id = e.(content_hash) /\ records did y body t e /\
      (tracked did s' (evs ++ [e]) \/ (f.(write) 0%nat = IntentFails false true /\ tracked did s' evs))
  | Err ValueError =>
    tracked did s' evs \/
    (f.(readback) = Some AsValueError /\ exists e, records did y body t e /\ tracked did s' (evs ++ [e]))
  | Err x => x = OSError /\ tracked did s' evs
  end.
Proof.
  intros Hs Ht Hw Htx Hfit. pose proof (append_spec identity did y body t rf f s evs Hs Ht Hw Htx Hfit) as H.
  destruct (append identity y body t rf f s) as [s' r]. unfold append_result, unknown_outcome in H.
  destruct H as [(e & Hrec & _ & Hte & [-> |[-> |[-> Hrb]]])|(Hte & [-> |[-> |(Hi & e & Hrec & ->)]])].
  - done.
  - split; [done|]. exists e. auto.
  - right. split; [done|]. by exists e.
  - by left.
  - done.
  - split; [done|]. exists e. auto.
Qed.

(** C35. Recovery can itself be cut, any number of times and at any of its
    writes: the first recovery that is left to run completes, and finds the
    history the log had before. *)
Theorem recovery_converges identity did faults s evs :
  as_did identity = Ok did -> tracked did s evs ->
  exists s' data, recover identity RecoveryRuns (foldl (fun s f => fst (recover identity f s)) s faults) = (s', Ok tt) /\
    at_rest s' data evs.
Proof.
  intros Hd. revert s. induction faults as [|f faults IH]; intros s Ht.
  - pose proof (recover_tracked identity did RecoveryRuns s evs Hd Ht) as Hr. cbn [foldl].
    destruct (recover identity RecoveryRuns s) as [s' r].
    destruct Hr as [(-> & data & Hr)|(Hf & _)]; [by exists s', data|done].
  - cbn [foldl]. apply IH. pose proof (recover_tracked identity did f s evs Hd Ht) as Hr.
    destruct (recover identity f s) as [s' r].
    destruct Hr as [(_ & data & Hr)|(_ & _ & Hr)]; [by econstructor|done].
Qed.

Lemma find_event_In id evs e : find_event id evs = Some e -> In e evs /\ e.(content_hash) = id.
Proof.
  unfold find_event. intros [Hi Hb]%find_some. split; [done|by apply String.eqb_eq].
Qed.

(** [reconcile_append] answers what is durable: [None] exactly when no event
    of the history has the id, else the event; afterwards the log is at rest
    and its head is the last event of the history. *)
Theorem reconcile_append_answers identity did id s evs :
  as_did identity = Ok did -> tracked did s evs -> Forall settled_event evs -> hex_digest 64 id = true ->
  exists s' data, reconcile_append identity RecoveryRuns id s = (s', Ok (find_event id evs)) /\
    at_rest s' data evs /\ s'.(head_seq) = Z.of_nat (List.length evs) - 1 /\ s'.(head_hash) = next_prev evs /\
    (find_event id evs = None <-> forall e, In e evs -> e.(content_hash) <> id).
Proof.
  intros Hd Ht Hall Hid. unfold reconcile_append. rewrite Hid. cbn [negb].
  destruct (with_verified_tracked identity did RecoveryRuns
    (fun events s => (with_head events s, snapshot_option (find_event id events))) s evs Hd Ht)
    as [(s1 & data & Hr & ->)|(s1 & x & Hf & _)]; [|done].
  exists (with_head evs s1), data. split_and!; [|exact Hr|..].
  - f_equal. destruct (find_event id evs) as [e|] eqn:E; [|done].
    apply find_event_In in E as [Hi _]. cbn [snapshot_option]. rewrite snapshot_settled; [done|].
    rewrite Forall_forall in Hall. by apply Hall, list_elem_of_In.
  - destruct Hr as (_ & _ & Hg). rewrite <- (good_count _ _ Hg). unfold next_seq. cbn.
    destruct (last evs); lia.
  - done.
  - split.
    + intros E e Hi Heq. apply (find_none _ _ E) in Hi. by rewrite Heq, String.eqb_refl in Hi.
    + intros H. destruct (find_event id evs) as [e|] eqn:E; [|done].
      apply find_event_In in E as [Hi Heq]. by destruct (H e Hi).
Qed.

(** *** Semantic keys *)

(** Two payloads with a semantic key in common. *)
Definition shares_key (fields : list string) (p q : list (string * pyval)) : Prop :=
  exists f v, In f fields /\ semantic_key p f = Some v /\ semantic_key q f = Some v.

(** No event of the type has a semantic key of the payload. *)
Definition unclaimed (y : string) (fields : list string) (evs : list SpineEvent) (p : list (string * pyval)) : Prop :=
  forall e, In e evs -> e.(type) = y -> ~ shares_key fields e.(payload) p.

Definition keys_present (fields : list string) (p : list (string * pyval)) : bool :=
  forallb (fun f => bool_decide (semantic_key p f <> None)) fields.

(** The argument checks of [append_unique] on its fields. *)
Definition fields_ok (fields : list string) : bool :=
  negb ((match fields with [] => true | _ => false end) || existsb (String.eqb "") fields
     || negb (bool_decide (NoDup fields))).

Lemma existing_owners_In y f v evs o :
  In o (existing_owners y f v evs) <->
  exists e, In e evs /\ e.(type) = y /\ semantic_key e.(payload) f = Some v /\ o = Existing e.(seq).
Proof.
  unfold existing_owners. rewrite in_map_iff. setoid_rewrite filter_In. split.
  - intros (e & <- & Hi & Hb). apply andb_true_iff in Hb as [Hy Hk]. exists e.
    apply String.eqb_eq in Hy. apply bool_decide_eq_true_1 in Hk. done.
  - intros (e & Hi & Hy & Hk & ->). exists e. split_and!; try done. rewrite Hy, String.eqb_refl.
    by rewrite bool_decide_eq_true_2.
Qed.

Lemma matched_owners_In y fields evs p o :
  In o (matched_owners y fields evs [] p) <->
  exists e, In e evs /\ e.(type) = y /\ shares_key fields e.(payload) p /\ o = Existing e.(seq).
Proof.
  unfold matched_owners. rewrite <- list_elem_of_In, elem_of_remove_dups, list_elem_of_In, in_flat_map. split.
  - intros (f & Hf & Ho). destruct (semantic_key p f) as [v|] eqn:E; [|done].
    cbn [planned_owners] in Ho. rewrite app_nil_r in Ho.
    apply existing_owners_In in Ho as (e & He & Hy & Hk & ->). exists e. split_and!; try done. by exists f, v.
  - intros (e & He & Hy & (f & v & Hf & Hk & Hp) & ->). exists f. split; [done|]. rewrite Hp.
    cbn [planned_owners]. rewrite app_nil_r. apply existing_owners_In. by exists e.
Qed.

Lemma matched_owners_none y fields evs p : unclaimed y fields evs p -> matched_owners y fields evs [] p = [].
Proof.
  intros H. destruct (matched_owners y fields evs [] p) as [|o l] eqn:E; [done|].
  assert (In o (matched_owners y fields evs [] p)) as Ho by (rewrite E; by left).
  apply matched_owners_In in Ho as (e & He & Hy & Hk & _). by destruct (H e He Hy).
Qed.

Lemma all_same_singleton {A} (l : list A) x : NoDup l -> In x l -> (forall y, In y l -> y = x) -> l = [x].
Proof.
  intros Hn Hx Ha. destruct l as [|a l]; [done|]. rewrite (Ha a) in * by by left.
  destruct l as [|b l]; [done|]. rewrite (Ha b) in Hn by (right; by left).
  apply NoDup_cons in Hn as [Hn _]. by destruct Hn; left.
Qed.

Lemma matched_owners_claimed y fields evs p e :
  unclaimed y fields evs p -> e.(type) = y -> shares_key fields e.(payload) p ->
  matched_owners y fields (evs ++ [e]) [] p = [Existing e.(seq)].
Proof.
  intros Hu Hy Hk. apply all_same_singleton.
  - apply NoDup_remove_dups.
  - apply matched_owners_In. exists e. split_and!; try done. apply in_app_iff. right. by left.
  - intros o (f & Hf & Hyf & Hkf & ->)%matched_owners_In. apply in_app_iff in Hf as [Hf|[<-|[]]]; [|done].
    by destruct (Hu f Hf Hyf).
Qed.

Lemma keys_shared fields p : fields_ok fields = true -> keys_present fields p = true -> shares_key fields p p.
Proof.
  unfold fields_ok, keys_present. destruct fields as [|f fields]; [done|]. intros _ H. cbn [forallb] in H.
  apply andb_true_iff in H as [H _]. apply bool_decide_eq_true_1 in H.
  destruct (semantic_key p f) as [v|] eqn:E; [|done]. exists f, v. split_and!; try done. by left.
Qed.

(** *** One idempotent append *)

(** The critical section of [append_unique_many] for one payload. *)
Let unique_section (identity : AgentIdentity) (y : string) (fields : list string) (t : Z) (f : append_fault)
    (d : list (string * pyval)) (used : Z) (events : list SpineEvent) (s : slog)
  : slog * res (list SpineEvent * res (list (SpineEvent * bool))) :=
  match (let* (planned, resolutions) := plan_batch None y fields events [] [d] in
         let* (prepared, used) := prepare_batch identity None y (fun _ => t) 0 (last events)
                                    (bytes_len (log_bytes s)) used planned in
         let* results := batch_results events prepared used resolutions in
         Ok (prepared, results)) with
  | Err e => (s, Err e)
  | Ok (prepared, results) =>
    let '(s, appended, r) := write_batch prepared f.(write) 0 s in
    (s, Ok (appended, let* _ := r in read_back f results))
  end.

Lemma encode_payload_inv body b :
  wf body -> strings_ok is_text body = true -> encode_payload body = Ok b ->
  bytes_len b <= MAX_SPINE_PAYLOAD_BYTES /\
  exists d, norm body = PDict d /\ json_loads b = Ok (PDict d) /\ clean d.
Proof.
  intros Hw Ht H. assert (snapshot_payload body = json_loads b) as Hs by (unfold snapshot_payload; by rewrite H).
  split; [unfold encode_payload in H; destruct body; try done; inv_guards H; bool_to_prop; by injection H as <-|].
  destruct (json_loads b) as [v|x] eqn:E.
  - apply snapshot_payload_inv in Hs as (Hn & d & -> & Hd); [|done..]. by exists d.
  - exfalso. assert (snapshot_payload body = Err x) as Hx by done.
    unfold encode_payload in H. destruct body as [| | | | | |d|]; try done. inv_guards H. injection H as <-.
    apply try_except_Ok in G as [G|(? & _ & _ & [=])]. apply canonical_json_Ok in G as (_ & Hj & _ & ->).
    by rewrite loads_dumps in E.
Qed.

(** A call either refuses its arguments or enters the critical section. *)
Lemma append_unique_enters identity y body fields t rf f s :
  wf body -> strings_ok is_text body = true ->
  append_unique identity y body fields t rf f s = (s, Err ValueError) \/
  exists d used, norm body = PDict d /\ clean d /\ shares_key fields d d /\
    0 <= used <= MAX_SPINE_PAYLOAD_BYTES /\
    forall t' rf' f' s', append_unique identity y body fields t' rf' f' s' =
      let (s'', r) := finish f' (with_verified identity rf' (unique_section identity y fields t' f' d used) s') in
      (s'', let* results := r in match results with x :: _ => Ok x | [] => Err IndexError end).
Proof.
  intros Hw Ht. unfold append_unique, append_unique_many.
  destruct (fields_ok fields) eqn:Hf; unfold fields_ok in Hf; [apply negb_true_iff in Hf|apply negb_false_iff in Hf].
  2: { rewrite Hf. by left. }
  rewrite Hf. change (MAX_SPINE_APPEND_BATCH <? Z.of_nat (List.length [body])) with false.
  cbn [snapshot_payloads]. destruct (encode_payload body) as [b|x] eqn:Hb.
  2: { left. assert (snapshot_payload body = Err x) as Hx by (unfold snapshot_payload; by rewrite Hb).
       by apply snapshot_payload_Err in Hx as ->. }
  destruct (encode_payload_inv body b Hw Ht Hb) as (Hl & d & Hn & Hd & Hc). cbn [res_bind].
  unfold charge_batch_bytes.
  assert (MAX_SPINE_APPEND_BATCH_BYTES <? 0 + bytes_len b = false) as ->.
  { apply Z.ltb_ge. etransitivity; [exact Hl|]. by vm_compute. }
  cbn [res_bind]. rewrite Hd. cbn [res_bind forallb]. rewrite andb_true_r. fold (keys_present fields d).
  destruct (keys_present fields d) eqn:Hk; cbn [negb]; [right|by left].
  exists d, (0 + bytes_len b). split_and!; try done; [|unfold bytes_len; lia].
  apply keys_shared; [|done]. unfold fields_ok. by rewrite Hf.
Qed.

Lemma charge_small used n :
  0 <= used <= MAX_SPINE_PAYLOAD_BYTES -> 0 <= n <= 2 * MAX_SPINE_LINE_BYTES ->
  charge_batch_bytes used n = Ok (used + n).
Proof.
  intros Hu Hn. unfold charge_batch_bytes. rewrite (proj2 (Z.ltb_ge _ _)); [done|].
  transitivity (MAX_SPINE_PAYLOAD_BYTES + 2 * MAX_SPINE_LINE_BYTES); [lia|by vm_compute].
Qed.

Lemma charge_small2 used n m :
  0 <= used <= MAX_SPINE_PAYLOAD_BYTES -> 0 <= n < MAX_SPINE_LINE_BYTES -> 0 <= m < MAX_SPINE_LINE_BYTES ->
  (let* used := charge_batch_bytes used (n + 1) in charge_batch_bytes used m) = Ok (used + (n + 1) + m).
Proof.
  intros Hu Hn Hm. rewrite charge_small by lia. cbn [res_bind].
  replace (used + (n + 1) + m) with (used + (n + 1 + m)) by lia.
  rewrite <- (charge_small used (n + 1 + m)) by lia. unfold charge_batch_bytes.
  by replace (used + (n + 1) + m) with (used + (n + 1 + m)) by lia.
Qed.

(** The critical section when the keys are free: one append. *)
Lemma unique_section_new identity did y fields t f d used evs s data :
  signer identity did -> clean d -> at_rest s data evs -> 0 <= used <= MAX_SPINE_PAYLOAD_BYTES ->
  unclaimed y fields evs d -> line_fits identity y (PDict d) t evs ->
  let (s', r) := finish f (unique_section identity y fields t f d used evs s) in
  append_result did y (PDict d) t f evs (fun e => [(e, true)]) s' r.
Proof.
  intros Hs Hd Hr Hu Hfree Hfit. unfold unique_section. cbn [plan_batch].
  unfold plan_payload. rewrite (matched_owners_none _ _ _ _ Hfree). cbn [res_bind app prepare_batch].
  destruct (prepare_append identity y (PDict d) t (last evs) (bytes_len (log_bytes s))) as [[e line]|x] eqn:Hpr.
  2: { apply (prepare_append_Err _ did) in Hpr as ->; [|done]. cbn [res_bind].
       destruct (finish_early (A := list (SpineEvent * bool)) f s false ValueError) as (z & -> & Hz); [by left|].
       right. split; [by econstructor|]. destruct Hz as [-> | ->]; auto. }
  pose proof (cl_norm d Hd) as Hn. unfold line_fits in Hfit. rewrite Hn in Hfit. pose proof (Hfit _ _ _ Hpr) as Hl.
  apply (prepare_append_inv _ did) in Hpr as (-> & He & Hx & Ha & Hy & Hpl & Hts & raw & Hraw); [|done..].
  replace (log_bytes s) with data in Hraw by (by destruct Hr as (_ & -> & _)).
  pose proof (charge_small2 used (bytes_len (encode_event e)) (bytes_len (encode_event e)) Hu
    ltac:(unfold bytes_len in *; lia) ltac:(unfold bytes_len in *; lia)) as Hch.
  apply res_bind_Ok in Hch as (u & Hu1 & Hu2).
  cbn [res_bind]. rewrite Hu1. cbn [res_bind validate_append_event prepare_batch List.length batch_results nth_error].
  rewrite Hu2. cbn [res_bind]. rewrite snapshot_settled by done. cbn [res_bind batch_results write_batch].
  pose proof (append_prepared_tracked did (f.(write) 0%nat) s data evs e raw Hr He Hx Ha Hraw) as Hap.
  assert (records did y (PDict d) t e) as Hrec by (split_and!; try done; by rewrite Hn, Hpl).
  destruct (append_prepared e (encode_event e) (f.(write) 0%nat) s) as [[s' out] r].
  destruct (finish_append did y (PDict d) t f evs (fun e => [(e, true)]) e s' out r Hrec Hl Hap) as (x & E & Hres).
  destruct r as [[]|z]; [rewrite app_nil_r|]; by rewrite E.
Qed.

(** The critical section when the last event has the payload: nothing is written. *)
Lemma unique_section_again identity did y fields t d used evs e s data t0 :
  records did y (PDict d) t0 e -> clean d -> at_rest s data (evs ++ [e]) -> 0 <= used <= MAX_SPINE_PAYLOAD_BYTES ->
  unclaimed y fields evs d -> shares_key fields d d -> bytes_len (encode_event e) < MAX_SPINE_LINE_BYTES ->
  finish AppendRuns (unique_section identity y fields t AppendRuns d used (evs ++ [e]) s) = (s, Ok [(e, false)]).
Proof.
  intros (He & Ha & Hy & Hpl & Hts) Hd Hr Hu Hfree Hk Hl. rewrite (cl_norm d Hd) in Hpl. injection Hpl as Hpl.
  unfold unique_section. cbn [plan_batch]. unfold plan_payload.
  rewrite (matched_owners_claimed y fields evs d e) by (done || by rewrite Hpl).
  assert (event_at (evs ++ [e]) e.(seq) = Ok e) as Hat.
  { destruct Hr as (_ & _ & Hg). apply good_count in Hg. rewrite next_seq_snoc, length_app in Hg. cbn [List.length] in Hg.
    unfold event_at. replace (Z.to_nat e.(seq)) with (List.length evs) by lia.
    by rewrite nth_error_app2, Nat.sub_diag by lia. }
  rewrite Hat. cbn [res_bind validate_append_event]. rewrite Hpl.
  destruct (settled_well_formed _ He) as (_ & _ & _ & _ & _ & _ & _ & Hf). rewrite Hpl in Hf.
  unfold payload_fits in Hf. apply res_bind_Ok in Hf as (b & Hb & _).
  apply try_except_Ok in Hb as [Hb|(x & _ & _ & [=])]. rewrite Hb. cbn [res_bind]. rewrite String.eqb_refl.
  cbn [res_bind prepare_batch batch_results]. rewrite Hat. cbn [res_bind].
  rewrite charge_small by (done || unfold bytes_len in *; lia). cbn [res_bind].
  rewrite snapshot_settled by done. done.
Qed.

(** C34. [append_unique] writes once.  When no event of the type has a key of the
    payload, a call under any I/O fault (of the recovery, of its durable write
    and the cleanup, of the read-back, of the lock release) either leaves the
    history as it was, or appends one event with the payload. In the second
    case the call succeeded, reported an unknown outcome that names the event,
    or raised the [ValueError] of a failed read-back; and whichever it was,
    calling again returns that event as not created and leaves the history as
    it is. In the first case the call raised an error, which is not an unknown
    outcome unless the write of the intent failed and could not be read back.
    (The line of the event must be shorter than the reader's limit:
    [line_fits].) *)
Theorem append_unique_exactly_once identity did y body fields t rf f s evs :
  signer identity did -> tracked did s evs -> wf body -> strings_ok is_text body = true ->
  (forall d, norm body = PDict d -> unclaimed y fields evs d) -> line_fits identity y body t evs ->
  let (s', r) := append_unique identity y body fields t rf f s in
  (exists e, records did y body t e /\ tracked did s' (evs ++ [e]) /\
    (r = Ok (e, true) \/ r = Err (SpineAppendOutcomeUnknown e.(content_hash) [e.(content_hash)]) \/
     (r = Err ValueError /\ f.(readback) = Some AsValueError)) /\
    forall t', exists s'' data, at_rest s'' data (evs ++ [e]) /\
      append_unique identity y body fields t' RecoveryRuns AppendRuns s' = (s'', Ok (e, false))) \/
  (tracked did s' evs /\
   (r = Err ValueError \/ r = Err OSError \/
    (f.(write) 0%nat = IntentFails false true /\
     exists e, records did y body t e /\ r = Err (SpineAppendOutcomeUnknown e.(content_hash) [e.(content_hash)])))).
Proof.
  intros Hs Ht Hw Htx Hfree Hfit.
  assert (as_did identity = Ok did) as Hd by by destruct Hs as (? & ? & ? & ? & ?).
  destruct (append_unique_enters identity y body fields t rf f s Hw Htx)
    as [->|(d & used & Hn & Hc & Hk & Hu & Heq)]; [right; auto|].
  assert (line_fits identity y (PDict d) t evs) as Hfit'.
  { unfold line_fits. rewrite (cl_norm d Hc), <- Hn. exact Hfit. }
  specialize (Hfree d Hn).
  assert (forall e, records did y (PDict d) t e <-> records did y body t e) as Hrec.
  { intros e. unfold records. by rewrite (cl_norm d Hc), Hn. }
  rewrite Heq.
  destruct (with_verified_tracked identity did rf (unique_section identity y fields t f d used) s evs Hd Ht)
    as [(s1 & data & Hr & ->)|(s1 & x & _ & Ht1 & ->)].
  2: { destruct (finish_early (A := list (SpineEvent * bool)) f s1 false (io_exn x)) as (z & -> & Hz); [destruct x; auto|].
       right. split; [done|]. destruct Hz as [-> | ->]; auto. }
  pose proof (unique_section_new identity did y fields t f d used evs s1 data Hs Hc Hr Hu Hfree Hfit') as Hsec.
  destruct (finish f (unique_section identity y fields t f d used evs s1)) as [s' r].
  destruct Hsec as [(e & He & Hl & Hte & Hres)|(Hte & Hres)].
  2: { right. split; [done|]. destruct Hres as [-> |[-> |(Hi & e & He & ->)]]; [by left|by right; left|].
       right; right. split; [done|]. exists e. split; [by apply Hrec|done]. }
  left. exists e. split_and!; [by apply Hrec|done|destruct Hres as [-> |[-> |[-> ?]]]; cbn; auto|].
  intros t'. rewrite Heq.
  destruct (with_verified_tracked identity did RecoveryRuns (unique_section identity y fields t' AppendRuns d used)
    s' _ Hd Hte) as [(s2 & data' & Hr' & ->)|(s2 & x & Hf & _)]; [|done].
  rewrite (unique_section_again identity did y fields t' d used evs e s2 data' t) by done.
  by exists s2, data'.
Qed.
End States.

(** ** Examples *)

#[local] Existing Instance toy_ed25519.
#[local] Existing Instance toy_laws.

Definition empty_log : slog :=
  {| log_file := None; pending_file := None; head_hash := GENESIS_PREV; head_seq := -1 |}.

Definition demo_payload : pyval := PDict [("op", PStr "x"); ("n", PInt 1)].
Definition demo_body : list (string * pyval) := [("n", PInt 1); ("op", PStr "x")].

Definition demo_event : SpineEvent := Eval vm_compute in
  match sign_event (PInt 0) (PStr GENESIS_PREV) (PStr "note") (PDict demo_body) (toy_identity "a") (PInt 7) with
  | Ok e => e
  | Err _ => Build_SpineEvent 0 "" "" [] "" 0 "" ""
  end.

Lemma empty_tracked : tracked (toy_did "a") empty_log [].
Proof. apply (tracked_rest _ _ ""). split_and!; reflexivity. Qed.

Lemma demo_signed :
  sign_event (PInt 0) (PStr GENESIS_PREV) (PStr "note") (PDict demo_body) (toy_identity "a") (PInt 7) = Ok demo_event.
Proof. vm_compute. reflexivity. Qed.

Lemma demo_short : bytes_len (encode_event demo_event) < MAX_SPINE_LINE_BYTES.
Proof. vm_compute. reflexivity. Qed.

Lemma demo_fits : line_fits (toy_identity "a") "note" demo_payload 7 [].
Proof.
  apply (line_fits_intro _ _ demo_payload 7 [] demo_event); [|exact demo_short].
  change (norm demo_payload) with (PDict demo_body). exact demo_signed.
Qed.

Lemma demo_clean : clean demo_body.
Proof. split; [by apply wfb_wf|reflexivity|reflexivity]. Qed.

Lemma demo_settled : settled_event demo_event.
Proof.
  pose proof (sign_event_inv _ _ _ _ _ _ _ _ (toy_signer_of "a" eq_refl) demo_signed) as (_ & _ & _ & Hp & _ & _ & Hv).
  split; [by exists "ok"|rewrite Hp; apply demo_clean].
Qed.

Lemma demo_extends : extends [] (encode_event demo_event) demo_event.
Proof. apply settled_extends; [apply demo_settled|reflexivity|reflexivity|apply demo_short]. Qed.

Definition demo_intent : string := Eval vm_compute in
  match encode_append_intent 0 (encode_event demo_event) with Ok raw => raw | Err _ => "" end.

(** An append of [demo_event] cut after ten bytes of the record. *)
Definition cut_log : slog :=
  {| log_file := Some (str_take 10 (encode_event demo_event ++ nl)); pending_file := Some demo_intent;
     head_hash := GENESIS_PREV; head_seq := -1 |}.

Lemma cut_tracked : tracked (toy_did "a") cut_log [demo_event].
Proof.
  apply (tracked_cut _ _ "" []). split_and!; [reflexivity|apply demo_settled|apply demo_extends|vm_compute; reflexivity| |].
  - exists demo_intent. split; [reflexivity|vm_compute; reflexivity].
  - by exists 10%nat.
Qed.

(** The record is cut after ten bytes, and the lock release fails too. *)
Definition demo_fault : append_fault :=
  {| write := fun _ => RecordFails 10; readback := None; release_fails := true |}.

Lemma append_outcome_witness :
  let (s', r) := append (toy_identity "a") "note" demo_payload 7 RecoveryRuns demo_fault empty_log in
  match r with
  | Ok e => records (toy_did "a") "note" demo_payload 7 e /\ tracked (toy_did "a") s' ([] ++ [e])
  | Err (SpineAppendOutcomeUnknown id ids) =>
    ids = [id] /\ exists e, id = e.(content_hash) /\ records (toy_did "a") "note" demo_payload 7 e /\
      (tracked (toy_did "a") s' ([] ++ [e]) \/
       (demo_fault.(write) 0%nat = IntentFails false true /\ tracked (toy_did "a") s' []))
  | Err ValueError =>
    tracked (toy_did "a") s' [] \/
    (demo_fault.(readback) = Some AsValueError /\
     exists e, records (toy_did "a") "note" demo_payload 7 e /\ tracked (toy_did "a") s' ([] ++ [e]))
  | Err x => x = OSError /\ tracked (toy_did "a") s' []
  end.
Proof.
  refine (append_outcome (toy_identity "a") (toy_did "a") "note" demo_payload 7 RecoveryRuns demo_fault empty_log []
    (toy_signer_of "a" eq_refl) empty_tracked _ _ demo_fits); [by apply wfb_wf|vm_compute; reflexivity].
Defined.

Lemma recovery_converges_witness :
  exists s' data, recover (toy_identity "a") RecoveryRuns
      (foldl (fun s f => fst (recover (toy_identity "a") f s)) cut_log [TruncateFails; RewriteFails 3; ClearFails false]) = (s', Ok tt) /\
    at_rest s' data [demo_event].
Proof.
  refine (recovery_converges (toy_identity "a") (toy_did "a") [TruncateFails; RewriteFails 3; ClearFails false] cut_log [demo_event]
    _ cut_tracked). vm_compute. reflexivity.
Defined.

Lemma reconcile_append_answers_witness :
  exists s' data, reconcile_append (toy_identity "a") RecoveryRuns demo_event.(content_hash) cut_log
      = (s', Ok (find_event demo_event.(content_hash) [demo_event])) /\
    at_rest s' data [demo_event] /\ s'.(head_seq) = Z.of_nat (List.length [demo_event]) - 1 /\
    s'.(head_hash) = next_prev [demo_event] /\
    (find_event demo_event.(content_hash) [demo_event] = None <->
     forall e, In e [demo_event] -> e.(content_hash) <> demo_event.(content_hash)).
Proof.
  refine (reconcile_append_answers (toy_identity "a") (toy_did "a") demo_event.(content_hash) cut_log [demo_event]
    _ cut_tracked _ _); [vm_compute; reflexivity| |vm_compute; reflexivity].
  constructor; [apply demo_settled|constructor].
Defined.

Lemma append_unique_exactly_once_witness :
  let (s', r) := append_unique (toy_identity "a") "note" demo_payload ["op"] 7 RecoveryRuns demo_fault empty_log in
  (exists e, records (toy_did "a") "note" demo_payload 7 e /\ tracked (toy_did "a") s' ([] ++ [e]) /\
    (r = Ok (e, true) \/ r = Err (SpineAppendOutcomeUnknown e.(content_hash) [e.(content_hash)]) \/
     (r = Err ValueError /\ demo_fault.(readback) = Some AsValueError)) /\
    forall t', exists s'' data, at_rest s'' data ([] ++ [e]) /\
      append_unique (toy_identity "a") "note" demo_payload ["op"] t' RecoveryRuns AppendRuns s' = (s'', Ok (e, false))) \/
  (tracked (toy_did "a") s' [] /\
   (r = Err ValueError \/ r = Err OSError \/
    (demo_fault.(write) 0%nat = IntentFails false true /\
     exists e, records (toy_did "a") "note" demo_payload 7 e /\
       r = Err (SpineAppendOutcomeUnknown e.(content_hash) [e.(content_hash)])))).
Proof.
  refine (append_unique_exactly_once (toy_identity "a") (toy_did "a") "note" demo_payload ["op"] 7 RecoveryRuns
    demo_fault empty_log [] (toy_signer_of "a" eq_refl) empty_tracked _ _ _ demo_fits);
    [by apply wfb_wf|vm_compute; reflexivity|by intros d _ e []].
Defined.
