(* ===== verification/Projection.v ===== *)
(** * Projections and signed statements

    [spine/projection.py]: a view is a fold over the event stream of a log.
    [Projection] is the interface the views of [Governance], [Dispute] and
    [Authz] implement.

    The three subsystems also share the shape of their signed statements
    ([_signing_body], the tail of each [verify_*] and of each [sign_*]):
    [seal] and [statement_signature]. *)

From Stdlib Require Import ZArith Lia Ascii String Permutation.
From stdpp Require Import base list strings.
From S2P Require Import Prelude PyStr PyValue Json JsonAscii CanonicalJson B64u DidKey Identity SpineEvent.

Local Open Scope string_scope.
Local Open Scope Z_scope.

(** ** Projections *)

(** [Projection]: the state [reset] leaves and [apply], which changes the state
    and may raise having changed it. *)
Class Projection (S : Type) := {
  p_reset : S;
  p_apply : SpineEvent -> S -> S * res unit
}.

(** [replay(events, projection)]; an exception of [apply] stops it. *)
Fixpoint replay {S} `{P : Projection S} (events : list SpineEvent) (s : S) : S * res unit :=
  match events with
  | [] => (s, Ok tt)
  | ev :: events =>
    match p_apply ev s with
    | (s, Ok _) => replay events s
    | (s, Err x) => (s, Err x)
    end
  end.

(** [replay(events, p, q)] *)
Global Instance both {S T} (P : Projection S) (Q : Projection T) : Projection (S * T) := {|
  p_reset := (p_reset, p_reset);
  p_apply ev '(s, t) :=
    match p_apply ev s with
    | (s, Err x) => ((s, t), Err x)
    | (s, Ok _) => let '(t, r) := p_apply ev t in ((s, t), r)
    end
|}.

Section Replay.
Context {S : Type} `{P : Projection S}.

Lemma replay_app evs evs' s :
  replay (evs ++ evs')%list s =
  match replay evs s with (s, Ok _) => replay evs' s | (s, Err x) => (s, Err x) end.
Proof.
  revert s. induction evs as [|ev evs IH]; intros s; [done|]. cbn [app replay].
  destruct (p_apply ev s) as [s' [u|x]]; [apply IH|done].
Qed.

(** A relation every event preserves holds of the whole replay. *)
Lemma replay_invariant (R : list SpineEvent -> S -> Prop) :
  (forall evs ev s, R evs s -> R (evs ++ [ev])%list (fst (p_apply ev s))) ->
  forall evs0 evs s, R evs0 s -> exists seen, (exists later, evs = seen ++ later)%list /\
    R (evs0 ++ seen)%list (fst (replay evs s)).
Proof.
  intros Hstep evs0 evs. revert evs0. induction evs as [|ev evs IH]; intros evs0 s Hs.
  - exists []. split; [by exists []|by rewrite app_nil_r].
  - cbn [replay]. pose proof (Hstep evs0 ev s Hs) as H1. destruct (p_apply ev s) as [s' [u|x]]; cbn in H1.
    + destruct (IH _ _ H1) as (seen & (later & ->) & Hr). exists (ev :: seen).
      split; [by exists later|]. by rewrite <- app_assoc in Hr.
    + exists [ev]. split; [by exists evs|done].
Qed.
End Replay.

(** [v in ("a", "b")] *)
Definition value_in (v : pyval) (l : list string) : bool := existsb (fun s => py_eqb v (PStr s)) l.

Lemma value_in_str v l : value_in v l = true -> exists s, v = PStr s /\ In s l.
Proof.
  unfold value_in. intros (s & Hs & He)%existsb_exists. apply py_eqb_PStr_r in He. by exists s.
Qed.

(** ** Signed statements *)

Section WithCrypto.
Context `{Ed : Ed25519}.

(** [stmt["sig"] = b64u_encode(signer.sign(canonical_json(_signing_body(stmt))))] *)
Definition seal (signer : AgentIdentity) (stmt : list (string * pyval)) : res (list (string * pyval)) :=
  let* body := canonical_json (signing_body "sig" stmt) in
  let* raw := sign signer body in
  Ok (dict_set "sig" (PStr (b64u_encode raw)) stmt).

(** The end of a verifier, from [AgentIdentity.from_did]; [except Exception]
    catches whatever the three decoders raise. *)
Definition statement_signature (did sig : string) (stmt : list (string * pyval)) : verdict :=
  match (let* verifier := from_did did (PStr "") (PDict []) in
         let* raw := b64u_decode sig in
         let* body := canonical_json (signing_body "sig" stmt) in
         Ok (verify verifier body raw None)) with
  | Err _ => (false, "bad encoding")
  | Ok false => (false, "signature invalid")
  | Ok true => (true, "ok")
  end.

(** [for f in fields: v = stmt.get(f); if not isinstance(v, str) or not v] *)
Definition texts_present (fields : list string) (stmt : list (string * pyval)) : bool :=
  forallb (fun f => nonempty_str (get_or_none f stmt)) fields.

(** The text of a field [texts_present] has checked. *)
Definition text_of (f : string) (stmt : list (string * pyval)) : string :=
  match get_or_none f stmt with PStr s => s | _ => "" end.

(** The holder of the key behind [did] signed the statement. *)
Definition signed_by (did : string) (stmt : list (string * pyval)) : Prop :=
  exists pk body raw, decode_ed25519_did_key did = Ok pk /\
    canonical_json (signing_body "sig" stmt) = Ok body /\
    b64u_decode (text_of "sig" stmt) = Ok raw /\ bytes_len raw = 64 /\ ed_verify pk body raw = true.

Lemma statement_signature_signed did stmt why :
  statement_signature did (text_of "sig" stmt) stmt = (true, why) -> nacl_available = true -> signed_by did stmt.
Proof.
  unfold statement_signature, signed_by. intros H Hn.
  destruct (from_did did (PStr "") (PDict [])) as [v|x] eqn:Hv; [|done]. cbn [res_bind] in H.
  destruct (b64u_decode (text_of "sig" stmt)) as [raw|x] eqn:Hr; [|done]. cbn [res_bind] in H.
  destruct (canonical_json (signing_body "sig" stmt)) as [body|x] eqn:Hb; [|done]. cbn [res_bind] in H.
  destruct (verify v body raw None) eqn:E; [|done].
  apply from_did_Ok in Hv as (pk & Hpk & H32 & Hk).
  unfold verify in E. rewrite Hn, Hk, (key_or_32 pk None H32) in E. cbn [negb key_or] in E. bool_to_prop.
  by exists pk, body, raw.
Qed.

Context `{L : !Ed25519Laws Ed}.

Lemma dict_without_absent {A} k (d : list (string * A)) : dict_mem k d = false -> dict_without k d = d.
Proof.
  unfold dict_mem, dict_without. induction d as [|[k' v] d IH]; [done|]. cbn [dict_get].
  rewrite filter_cons. cbn. destruct (String.eqb_spec k k'); [done|]. intros H. cbn. by rewrite IH.
Qed.

Lemma dict_without_set_new {A} k (v : A) d : dict_mem k d = false -> dict_without k (dict_set k v d) = d.
Proof.
  intros H. assert (dict_get k d = None) as Hn by (unfold dict_mem in H; by destruct (dict_get k d)).
  rewrite dict_set_new by done. unfold dict_without. rewrite filter_app.
  change (filter (fun kv => negb (String.eqb k kv.1)) d) with (dict_without k d).
  rewrite dict_without_absent by done. rewrite filter_cons. cbn. rewrite String.eqb_refl. cbn. by rewrite app_nil_r.
Qed.

(** What [seal] returns verifies under the signer's DID. *)
Lemma seal_spec signer did stmt body :
  Identity.signer signer did -> dict_mem "sig" stmt = false -> canonical_json (PDict stmt) = Ok body ->
  exists sig, sig <> "" /\ seal signer stmt = Ok (dict_set "sig" (PStr sig) stmt) /\
    statement_signature did sig (dict_set "sig" (PStr sig) stmt) = (true, "ok").
Proof.
  intros Hs Hn Hb. destruct (signer_sign signer did body Hs) as (raw & v & pk & Hsig & H64 & Hpk & Hver & Hv & Hvv).
  exists (b64u_encode raw). split_and!.
  - intros E. pose proof (b64u_decode_encode raw) as Hd. rewrite E in Hd. vm_compute in Hd.
    apply Ok_inj in Hd as <-. done.
  - unfold seal, signing_body. rewrite dict_without_absent by done. rewrite Hb. cbn [res_bind]. by rewrite Hsig.
  - unfold statement_signature, signing_body. rewrite Hv, b64u_decode_encode. cbn [res_bind].
    rewrite dict_without_set_new by done. rewrite Hb. cbn [res_bind]. by rewrite Hvv.
Qed.
End WithCrypto.

(** ** A statement read back from a log

    An event holds its payload with the keys sorted, at every level; nothing a
    verifier computes depends on that. *)

(** [json.loads(canonical_json(d))] of a dict *)
Definition stored (d : list (string * pyval)) : list (string * pyval) := sort_items (map_snd norm d).

Lemma norm_PDict d : norm (PDict d) = PDict (stored d).
Proof. done. Qed.

Lemma stored_Permutation d : Permutation (stored d) (map_snd norm d).
Proof. apply sort_items_Permutation. Qed.

Lemma get_stored k d : NoDup (dict_keys d) -> get_or_none k (stored d) = norm (get_or_none k d).
Proof.
  intros Hd. rewrite (get_or_none_perm (map_snd norm d)); [|by rewrite dict_keys_map_snd|symmetry; apply stored_Permutation].
  unfold get_or_none. rewrite dict_get_map_snd. by destruct (dict_get k d).
Qed.

Lemma text_of_stored k d : NoDup (dict_keys d) -> text_of k (stored d) = text_of k d.
Proof. intros Hd. unfold text_of. rewrite get_stored by done. by destruct (get_or_none k d). Qed.

Lemma texts_present_stored fs d : NoDup (dict_keys d) -> texts_present fs (stored d) = texts_present fs d.
Proof.
  intros Hd. unfold texts_present. induction fs as [|f fs IH]; [done|]. cbn [forallb]. rewrite IH, get_stored by done.
  f_equal. by destruct (get_or_none f d).
Qed.

Lemma norm_eqb_str v s : py_eqb (norm v) (PStr s) = py_eqb v (PStr s).
Proof. by destruct v. Qed.

Lemma value_in_norm v l : value_in (norm v) l = value_in v l.
Proof. unfold value_in. induction l as [|s l IH]; [done|]. cbn [existsb]. by rewrite IH, norm_eqb_str. Qed.

Lemma is_dict_norm v : is_dict (norm v) = is_dict v.
Proof. by destruct v. Qed.

Lemma canonical_json_norm v w b :
  wf v -> wf w -> norm v = norm w -> jsonlike w = true -> canonical_json v = Ok b -> canonical_json w = Ok b.
Proof.
  intros Hv Hw Hn Hjw (Hd & Hj & Hs & ->)%canonical_json_Ok. apply canonical_json_Ok.
  rewrite (dumps_norm_eq v w) in * by done. split_and!; try done.
  destruct v, w; try done.
Qed.

Lemma dict_without_Permutation {A} k (d e : list (string * A)) :
  Permutation d e -> Permutation (dict_without k d) (dict_without k e).
Proof. intros H. unfold dict_without. by rewrite H. Qed.

Lemma dict_without_map_snd {A B} (f : A -> B) k d : dict_without k (map_snd f d) = map_snd f (dict_without k d).
Proof.
  unfold dict_without, map_snd. induction d as [|[k' v] d IH]; [done|]. cbn [map].
  rewrite !filter_cons. cbn [fst]. destruct (decide _); cbn [map]; [f_equal|]; exact IH.
Qed.

Lemma Forall_without {A} (P : string * A -> Prop) k d : Forall P d -> Forall P (dict_without k d).
Proof.
  unfold dict_without. induction 1 as [|x d Hx _ IH]; [constructor|]. rewrite filter_cons.
  destruct (decide _); [by constructor|done].
Qed.

Lemma wf_without k d : wf (PDict d) -> wf (PDict (dict_without k d)).
Proof.
  rewrite !wf_PDict. intros [Hd Hw]. unfold dict_without, dict_keys in *. split.
  - eapply sublist_NoDup; [exact Hd|]. apply fmap_sublist, sublist_filter.
  - by apply Forall_without.
Qed.

Lemma jsonlike_without k d : jsonlike (PDict d) = true -> jsonlike (PDict (dict_without k d)) = true.
Proof. cbn [jsonlike]. rewrite !forallb_Forall. intros H. by apply Forall_without. Qed.

Lemma wf_stored d : wf (PDict d) -> wf (PDict (stored d)).
Proof. apply (norm_wf (PDict d)). Qed.

Lemma stored_stored d : wf (PDict d) -> stored (stored d) = stored d.
Proof. intros H. apply norm_norm in H. cbn [norm] in H. by injection H. Qed.

(** The signed bytes of a statement and of its stored form are the same. *)
Lemma signing_body_stored k d b :
  wf (PDict d) -> jsonlike (PDict d) = true ->
  canonical_json (signing_body k d) = Ok b -> canonical_json (signing_body k (stored d)) = Ok b.
Proof.
  intros Hw Hj H. unfold signing_body in *.
  pose proof (wf_without k d Hw) as Hw1. pose proof (wf_without k _ (wf_stored d Hw)) as Hw2.
  eapply canonical_json_norm; [exact Hw1|exact Hw2| |by apply jsonlike_without, (norm_jsonlike (PDict d))|exact H].
  apply norm_dict_perm; [|by apply wf_PDict in Hw1 as []].
  rewrite <- !dict_without_map_snd. symmetry. apply dict_without_Permutation.
  rewrite <- (stored_Permutation d). 
  rewrite <- (stored_Permutation (stored d)). by rewrite stored_stored.
Qed.

(** Values of text are encodable. *)
Lemma encodable_text v : jsonlike v = true -> strings_ok is_text v = true -> encodable v = true.
Proof.
  assert (forall s, is_text s = true -> text_ok s = true) as Hs.
  { intros s H. unfold text_ok. by rewrite text_no_surrogate. }
  induction v as [| | | |s|l IH|d IH|] using pyval_ind'; try done; cbn [jsonlike strings_ok encodable];
    rewrite ?forallb_Forall; [by auto|..]; intros Hj Ht.
  - induction IH as [|x l Hx _ IHl]; [constructor|]. decompose_Forall_hyps. constructor; auto.
  - induction IH as [|[k x] d Hx _ IHd]; [constructor|]. decompose_Forall_hyps. bool_to_prop.
    constructor; [|auto]. cbn [fst snd] in *. rewrite Hs, Hx by done. done.
Qed.

Section StoredSignature.
Context `{Ed : Ed25519}.

Lemma statement_signature_stored did sig d :
  wf (PDict d) -> jsonlike (PDict d) = true -> fst (statement_signature did sig d) = true ->
  statement_signature did sig (stored d) = statement_signature did sig d.
Proof.
  intros Hw Hj. unfold statement_signature. destruct (from_did _ _ _) as [v|]; [|done]. cbn [res_bind].
  destruct (b64u_decode sig) as [raw|]; [|done]. cbn [res_bind].
  destruct (canonical_json (signing_body "sig" d)) as [b|] eqn:E; [|done].
  by rewrite (signing_body_stored "sig" d b Hw Hj E).
Qed.
End StoredSignature.
