(* ===== verification/Governance.v ===== *)
(** * Governance ([nth_dao/governance/])

    A policy says who has which role, which actions a role grants and what
    constrains an action; [can] and [evaluate_quorum] evaluate it.  Policies are
    established and amended by signed statements recorded in the log, and
    [PolicyProjection] replays those into the policy in force.

    Roles and grants are sets of strings ([gset string]); the texts of decisions
    are the constructors of [reason]. *)

From Stdlib Require Import ZArith Lia Ascii String.
From stdpp Require Import base list strings gmap sorting.
From S2P Require Import Prelude PyStr PyValue CanonicalJson B64u Identity SpineEvent SpineLog Projection.

Local Open Scope string_scope.
Local Open Scope Z_scope.

(** ** Policies ([policy.py]) *)

(** [Policy] *)
Record Policy := {
  roles : list (string * list string);
  grants : list (string * list string);
  constraints : list (string * list (string * pyval))
}.

Definition empty_policy : Policy := {| roles := []; grants := []; constraints := [] |}.

Section Repr.
Context `{PyRepr}.

(** [_str_list_map]: the items of [raw or {}] *)
Definition str_list_map (raw : pyval) : res (list (string * list string)) :=
  if negb (truthy raw) then Ok [] else
  match raw with
  | PDict d => res_mapM (fun kv => match kv.2 with
                                   | PList l => Ok (kv.1, map py_str l)
                                   | _ => Err TypeError
                                   end) d
  | _ => Err AttributeError
  end.

(** [Policy.from_dict] *)
Definition Policy_from_dict (data : pyval) : res Policy :=
  match data with
  | PDict data =>
    let raw := get_or_none "constraints" data in
    match (if truthy raw then raw else PDict []) with
    | PDict c =>
      let* constraints := res_mapM (fun kv => match kv.2 with
                                              | PDict d => Ok (kv.1, d)
                                              | _ => Err TypeError
                                              end) c in
      let* roles := str_list_map (get_or_none "roles" data) in
      let* grants := str_list_map (get_or_none "grants" data) in
      Ok {| roles := roles; grants := grants; constraints := constraints |}
    | _ => Err TypeError
    end
  | _ => Err TypeError
  end.
End Repr.

(** [Policy.roles_of] *)
Definition roles_of (p : Policy) (did : string) : gset string :=
  list_to_set (default [] (dict_get did p.(roles))).

(** [sorted(set(v))] *)
Definition sorted_set (l : list string) : list string := merge_sort String.le (remove_dups l).

(** [Policy.to_dict] *)
Definition Policy_to_dict (p : Policy) : pyval :=
  let lists m := PDict (map_snd (fun l => PList (map PStr (sorted_set l))) m) in
  PDict [("roles", lists p.(roles)); ("grants", lists p.(grants));
         ("constraints", PDict (map_snd PDict p.(constraints)))].

(** ** The engine ([engine.py]) *)

Definition ACTION_DISPUTE_RESOLVE : string := "dispute.resolve".
Definition ACTION_POLICY_AMEND : string := "policy.amend".

Inductive reason :=
| Allowed
| NoRoles
| NoMatch
| RequiresQuorum
| NeedsAmount
| ExceedsMax
| NotAQuorumAction
| BadThreshold
| TooFewApprovals.

(** [Decision] *)
Record Decision := { allowed : bool; decided : reason }.

Global Instance reason_eq_dec : EqDecision reason.
Proof. solve_decision. Defined.
Global Instance Decision_eq_dec : EqDecision Decision.
Proof. solve_decision. Defined.

Definition allow : Decision := {| allowed := true; decided := Allowed |}.
Definition deny (r : reason) : Decision := {| allowed := false; decided := r |}.

(** [_action_matches] *)
Definition action_matches (pattern action : string) : bool :=
  if String.eqb pattern "*" then true else
  if endswith ".*" pattern then startswith (str_take (String.length pattern - 1) pattern) action else
  String.eqb pattern action.

(** [granted_actions] *)
Definition granted_actions (p : Policy) (did : string) : gset string :=
  set_fold (fun role (out : gset string) => list_to_set (default [] (dict_get role p.(grants))) ∪ out)
    ∅ (roles_of p did).

(** [_grants_action] *)
Definition grants_action (p : Policy) (did action : string) : bool :=
  existsb (fun pattern => action_matches pattern action) (elements (granted_actions p did)).

(** [can] *)
Definition can (p : Policy) (did action : string) (context : list (string * pyval)) : res Decision :=
  if decide (roles_of p did = ∅) then Ok (deny NoRoles) else
  if negb (grants_action p did action) then Ok (deny NoMatch) else
  let c := default [] (dict_get action p.(constraints)) in
  if dict_mem "quorum" c then Ok (deny RequiresQuorum) else
  match dict_get "max_minor" c with
  | Some max_minor =>
    match get_or_none "amount_minor" context with
    | PInt amount =>
      let* bound := py_int max_minor in
      if bound <? amount then Ok (deny ExceedsMax) else Ok allow
    | _ => Ok (deny NeedsAmount)
    end
  | None => Ok allow
  end.

(** [qualified = {d for d in approvers if role in policy.roles_of(d)}] *)
Definition qualified (p : Policy) (role : string) (approvers : list string) : gset string :=
  filter (fun d => role ∈ roles_of p d) (list_to_set approvers).

(** [evaluate_quorum] *)
Definition evaluate_quorum `{PyRepr} (p : Policy) (action : string) (approvers : list string) : res Decision :=
  let c := default [] (dict_get action p.(constraints)) in
  match get_or_none "quorum" c with
  | PDict q =>
    let role := py_str (get_default "role" (PStr "") q) in
    let* threshold := py_int (get_default "threshold" (PInt 0) q) in
    if threshold <? 1 then Ok (deny BadThreshold) else
    if threshold <=? Z.of_nat (size (qualified p role approvers)) then Ok allow
    else Ok (deny TooFewApprovals)
  | _ => Ok (deny NotAQuorumAction)
  end.

(** ** Signed statements ([statement.py]) *)

Definition GOVERNANCE_STATEMENT_KIND : string := "nth-governance-statement-v1".
Definition GOV_GENESIS : string := "genesis".
Definition GOV_AMEND : string := "amend".
Definition GOV_TYPES : list string := [GOV_GENESIS; GOV_AMEND].

Section WithCrypto.
Context `{Ed : Ed25519} `{R : PyRepr}.

(** [sign_governance_statement]; [now] is the current time *)
Definition sign_governance_statement (signer : AgentIdentity) (statement_type : string) (policy : pyval)
    (dao_id : string) (issued_at_ms now : Z) : res (list (string * pyval)) :=
  if negb (existsb (String.eqb statement_type) GOV_TYPES) then Err ValueError else
  match policy with
  | PDict policy =>
    let* did := as_did signer in
    seal signer [("kind", PStr GOVERNANCE_STATEMENT_KIND); ("type", PStr statement_type);
                 ("dao_id", PStr dao_id); ("signer_did", PStr did);
                 ("issued_at_ms", PInt (if issued_at_ms =? 0 then now else issued_at_ms));
                 ("policy", PDict policy)]
  | _ => Err ValueError
  end.

(** [verify_governance_statement] *)
Definition verify_governance_statement (stmt : pyval) : verdict :=
  match stmt with
  | PDict d =>
    if negb (py_eqb (get_or_none "kind" d) (PStr GOVERNANCE_STATEMENT_KIND)) then (false, "wrong kind") else
    if negb (value_in (get_or_none "type" d) GOV_TYPES) then (false, "unknown type") else
    if negb (is_dict (get_or_none "policy" d)) then (false, "missing/invalid policy") else
    if negb (texts_present ["signer_did"] d) then (false, "missing/invalid signer_did") else
    if negb (texts_present ["sig"] d) then (false, "missing/invalid sig") else
    statement_signature (text_of "signer_did" d) (text_of "sig" d) d
  | _ => (false, "not a dict")
  end.

(** [record_governance] into a log *)
Definition record_governance (spine : AgentIdentity) (statement : pyval) (ts : Z)
    (rf : recovery_fault) (f : append_fault) (s : slog) : slog * res SpineEvent :=
  if negb (fst (verify_governance_statement statement)) then (s, Err ValueError) else
  match statement with
  | PDict d => append spine ("governance." ++ text_of "type" d) statement ts rf f s
  | _ => (s, Err ValueError)
  end.

(** ** The projection ([projection.py]) *)

Definition EVENT_GOV_GENESIS : string := "governance.genesis".
Definition EVENT_GOV_AMEND : string := "governance.amend".
Definition GOV_EVENTS : list string := [EVENT_GOV_GENESIS; EVENT_GOV_AMEND].

(** The fields of [PolicyProjection]. *)
Record gov_view := {
  policy : Policy;
  established : bool;
  founder_did : string;
  version : Z;
  history : list string
}.

(** [PolicyProjection.reset] *)
Definition gov_reset : gov_view :=
  {| policy := empty_policy; established := false; founder_did := ""; version := 0; history := [] |}.

(** The first constitution. *)
Definition establish (p : Policy) (signer : string) (s : gov_view) : gov_view :=
  {| policy := p; established := true; founder_did := signer; version := 1;
     history := (s.(history) ++ [signer])%list |}.

(** An adopted amendment. *)
Definition amend (p : Policy) (signer : string) (s : gov_view) : gov_view :=
  {| policy := p; established := s.(established); founder_did := s.(founder_did);
     version := s.(version) + 1; history := (s.(history) ++ [signer])%list |}.

(** [PolicyProjection.apply] *)
Definition gov_apply (event : SpineEvent) (s : gov_view) : gov_view * res unit :=
  if negb (existsb (String.eqb event.(type)) GOV_EVENTS) then (s, Ok tt) else
  let stmt := event.(payload) in
  if negb (fst (verify_governance_statement (PDict stmt))) then (s, Ok tt) else
  match Policy_from_dict (get_or_none "policy" stmt) with
  | Err e => (s, if is_TypeOrValueError e then Ok tt else Err e)
  | Ok new_policy =>
    let signer := text_of "signer_did" stmt in
    if String.eqb event.(type) EVENT_GOV_GENESIS then
      (if s.(established) then s else establish new_policy signer s, Ok tt)
    else if negb s.(established) then (s, Ok tt) else
    match can s.(policy) signer ACTION_POLICY_AMEND [] with
    | Ok d => (if d.(allowed) then amend new_policy signer s else s, Ok tt)
    | Err e => (s, Err e)
    end
  end.

Global Instance PolicyProjection : Projection gov_view := {| p_reset := gov_reset; p_apply := gov_apply |}.
End WithCrypto.
