(* ===== verification/GovernanceSpec.v ===== *)
(** * What governance promises

    Every policy a replay reaches was established by the first genesis and
    amended only by signers the policy then in force authorised; quorums count
    people, not signatures; a signed amendment recorded in a log takes effect. *)

From Stdlib Require Import ZArith Lia Ascii String Permutation.
From stdpp Require Import base list strings gmap sorting.
From S2P Require Import Prelude PyStr PyValue Json JsonAscii CanonicalJson B64u DidKey Identity SpineEvent SpineLog SpineLogSpec Projection Governance.

Local Open Scope string_scope.
Local Open Scope Z_scope.

(** ** The engine *)

Lemma elem_of_roles p did r : r ∈ roles_of p did <-> exists l, dict_get did p.(roles) = Some l /\ In r l.
Proof.
  unfold roles_of. rewrite elem_of_list_to_set, list_elem_of_In.
  destruct (dict_get did (roles p)) as [l|]; cbn; split; [by exists l|by intros (? & [= <-] & ?)|done|by intros (? & ? & _)].
Qed.

Lemma elem_of_granted p did a :
  a ∈ granted_actions p did <->
  exists role l, role ∈ roles_of p did /\ dict_get role p.(grants) = Some l /\ In a l.
Proof.
  unfold granted_actions.
  apply (set_fold_ind_L (fun out X => a ∈ out <-> exists role l, role ∈ X /\ dict_get role p.(grants) = Some l /\ In a l)).
  - split; [set_solver|]. intros (r & l & Hr & _). set_solver.
  - intros role X out _ IH. rewrite elem_of_union, IH, elem_of_list_to_set, list_elem_of_In. split.
    + intros [Ha|(r & l & Hr & Hl & Ha)].
      * destruct (dict_get role (grants p)) as [l|] eqn:E; [|done]. exists role, l. set_solver.
      * exists r, l. set_solver.
    + intros (r & l & Hr & Hl & Ha). apply elem_of_union in Hr as [->%elem_of_singleton|Hr].
      * left. by rewrite Hl.
      * right. by exists r, l.
Qed.

(** A role of [did] grants a pattern that matches the action. *)
Definition granted (p : Policy) (did action : string) : Prop :=
  exists role l pattern, role ∈ roles_of p did /\ dict_get role p.(grants) = Some l /\ In pattern l /\
    action_matches pattern action = true.

Lemma grants_action_spec p did action : grants_action p did action = true <-> granted p did action.
Proof.
  unfold grants_action, granted. rewrite existsb_exists. setoid_rewrite <- list_elem_of_In.
  setoid_rewrite elem_of_elements. setoid_rewrite elem_of_granted. setoid_rewrite <- list_elem_of_In. naive_solver.
Qed.

Lemma granted_has_role p did action : granted p did action -> roles_of p did <> ∅.
Proof. intros (r & _ & _ & Hr & _). set_solver. Qed.

(** The limit of an action, when it has one. *)
Definition constraint (p : Policy) (action key : string) : option pyval :=
  dict_get key (default [] (dict_get action p.(constraints))).

(** [can] allows exactly what the policy grants: some role of the principal
    grants a matching pattern, the action needs no quorum, and an amount limit
    is met by an integer amount (not a [bool]) of the context. *)
Theorem can_exact p did action context :
  can p did action context = Ok allow <->
  granted p did action /\ constraint p action "quorum" = None /\
  match constraint p action "max_minor" with
  | None => True
  | Some m => exists amount bound, get_or_none "amount_minor" context = PInt amount /\ py_int m = Ok bound /\
                amount <= bound
  end.
Proof.
  unfold can, constraint, dict_mem. set (c := default [] (dict_get action (constraints p))). split.
  - intros H. destruct (decide _); [done|]. destruct (grants_action p did action) eqn:G; [|done].
    apply grants_action_spec in G. cbn [negb] in H. destruct (dict_get "quorum" c); [done|].
    split_and!; [done|done|]. destruct (dict_get "max_minor" c) as [m|]; [|done].
    destruct (get_or_none "amount_minor" context) as [| |amount| | | | |]; try done.
    destruct (py_int m) as [bound|]; [|done]. cbn [res_bind] in H.
    destruct (Z.ltb_spec bound amount); [done|]. by exists amount, bound.
  - intros (G & Hq & Hm). rewrite decide_False by by eapply granted_has_role.
    rewrite (proj2 (grants_action_spec _ _ _) G), Hq. cbn [negb].
    destruct (dict_get "max_minor" c) as [m|]; [|done]. destruct Hm as (amount & bound & -> & -> & Hb).
    cbn [res_bind]. by rewrite (proj2 (Z.ltb_ge _ _)).
Qed.

Lemma can_decides p did action : exists d, can p did action [] = Ok d.
Proof.
  unfold can. destruct (decide _); [by eexists|]. destruct (negb _); [by eexists|].
  destruct (dict_mem _ _); [by eexists|]. destruct (dict_get _ _); by eexists.
Qed.

Lemma can_allowed p did action context d : can p did action context = Ok d -> d.(allowed) = true -> d = allow.
Proof.
  unfold can. destruct (decide _); [by intros [= <-]|]. destruct (negb _); [by intros [= <-]|].
  destruct (dict_mem _ _); [by intros [= <-]|]. destruct (dict_get _ _) as [m|]; [|by intros [= <-]].
  destruct (get_or_none _ _); try (by intros [= <-]). destruct (py_int m); [|done]. cbn [res_bind].
  destruct (_ <? _); by intros [= <-].
Qed.

Section Quorum.
Context `{R : PyRepr}.

Lemma size_list_to_set_NoDup (l : list string) (X : gset string) :
  NoDup l -> (forall x, In x l -> x ∈ X) -> (List.length l <= size X)%nat.
Proof.
  intros Hn Hs. rewrite <- (size_list_to_set (C := gset string) l Hn). apply subseteq_size.
  intros x Hx. apply Hs. apply list_elem_of_In. by apply elem_of_list_to_set in Hx.
Qed.

(** A quorum counts people: [evaluate_quorum] allows an action exactly when
    the policy sets a threshold of at least one for it and that many distinct
    approvers hold the quorum role, however often each of them appears. *)
Theorem quorum_counts_people p action approvers :
  evaluate_quorum p action approvers = Ok allow <->
  exists q threshold, constraint p action "quorum" = Some (PDict q) /\
    py_int (get_default "threshold" (PInt 0) q) = Ok threshold /\ 1 <= threshold /\
    exists people, NoDup people /\ Z.of_nat (List.length people) >= threshold /\
      forall d, In d people -> In d approvers /\ py_str (get_default "role" (PStr "") q) ∈ roles_of p d.
Proof.
  unfold evaluate_quorum, constraint, get_or_none.
  set (c := default [] (dict_get action (constraints p))). split.
  - intros H. destruct (dict_get "quorum" c) as [[| | | | | |q|]|]; try done.
    destruct (py_int _) as [t|] eqn:Ht; [|done]. cbn [res_bind] in H.
    destruct (Z.ltb_spec t 1); [done|]. destruct (Z.leb_spec t (Z.of_nat (size (qualified p (py_str (get_default "role" (PStr "") q)) approvers)))); [|done].
    exists q, t. split_and!; try done.
    exists (elements (qualified p (py_str (get_default "role" (PStr "") q)) approvers)). split_and!.
    + apply NoDup_elements.
    + unfold size, set_size in *. cbn in *. lia.
    + intros d Hd. apply list_elem_of_In, elem_of_elements in Hd. unfold qualified in Hd.
      apply elem_of_filter in Hd as [Hr Hd]. split; [|done]. by apply elem_of_list_to_set, list_elem_of_In in Hd.
  - intros (q & t & -> & Ht & H1 & people & Hn & Hl & Hall). rewrite Ht. cbn [res_bind].
    rewrite (proj2 (Z.ltb_ge _ _)) by done. rewrite (proj2 (Z.leb_le _ _)); [done|].
    assert (List.length people <= size (qualified p (py_str (get_default "role" (PStr "") q)) approvers))%nat; [|lia].
    apply size_list_to_set_NoDup; [done|]. intros d Hd. apply Hall in Hd as [Hd Hr]. unfold qualified.
    apply elem_of_filter. split; [done|]. by apply elem_of_list_to_set, list_elem_of_In.
Qed.
End Quorum.

(** ** The projection *)

Section Projection.
Context `{Ed : Ed25519} `{R : PyRepr}.

(** The event holds a governance statement signed by [did] for the policy [p]. *)
Definition adopted (ev : SpineEvent) (did : string) (p : Policy) : Prop :=
  fst (verify_governance_statement (PDict ev.(payload))) = true /\
  Policy_from_dict (get_or_none "policy" ev.(payload)) = Ok p /\
  text_of "signer_did" ev.(payload) = did /\ signed_by did ev.(payload).

(** The lawful histories: the events that changed the policy, and the view
    they lead to. *)
Inductive constitution : list SpineEvent -> gov_view -> Prop :=
| con_start : constitution [] gov_reset
| con_genesis ev p did :
    ev.(type) = EVENT_GOV_GENESIS -> adopted ev did p -> constitution [ev] (establish p did gov_reset)
| con_amend evs s ev p did :
    constitution evs s -> s.(established) = true -> ev.(type) = EVENT_GOV_AMEND -> adopted ev did p ->
    can s.(policy) did ACTION_POLICY_AMEND [] = Ok allow -> constitution (evs ++ [ev])%list (amend p did s).

Lemma constitution_established evs s :
  constitution evs s -> s.(established) = false -> evs = [] /\ s = gov_reset.
Proof. by destruct 1 as [| |? ? ? ? ? ? E]; cbn; [|congruence..]. Qed.

Lemma verified_signed d :
  nacl_available = true -> fst (verify_governance_statement (PDict d)) = true ->
  signed_by (text_of "signer_did" d) d.
Proof.
  intros Hn H. unfold verify_governance_statement in H.
  repeat match type of H with fst (if ?b then _ else _) = true => destruct b; [discriminate H|] end.
  destruct (statement_signature _ _ d) as [[] why] eqn:E; [|done]. by eapply statement_signature_signed.
Qed.

Lemma gov_apply_lawful evs ev s :
  nacl_available = true -> constitution evs s ->
  (constitution (evs ++ [ev]) (fst (gov_apply ev s)) /\ fst (gov_apply ev s) <> s) \/ fst (gov_apply ev s) = s.
Proof.
  intros Hn Hc. unfold gov_apply. destruct (existsb _ _) eqn:Ht; [cbn [negb]|by right].
  destruct (fst (verify_governance_statement _)) eqn:Hv; [cbn [negb]|by right].
  destruct (Policy_from_dict _) as [p|x] eqn:Hp; [|by right; destruct (is_TypeOrValueError x)].
  assert (adopted ev (text_of "signer_did" ev.(payload)) p) as Ha by (split_and!; [done..|by apply verified_signed]).
  destruct (String.eqb_spec ev.(type) EVENT_GOV_GENESIS) as [Hg|Hg].
  - destruct (established s) eqn:Es; [by right|left].
    apply (constitution_established evs s Hc) in Es as [-> ->]. split; [by constructor|done].
  - destruct (established s) eqn:Es; [cbn [negb]|by right].
    assert (ev.(type) = EVENT_GOV_AMEND) as Hm.
    { apply existsb_exists in Ht as (t & Hin & Heq). apply String.eqb_eq in Heq. subst t.
      destruct Hin as [Hin|[Hin|[]]]; [by destruct Hg|done]. }
    destruct (can _ _ _ _) as [d|x] eqn:Hcan; [|by right].
    destruct (allowed d) eqn:Hd; [left|by right]. cbn.
    rewrite (can_allowed _ _ _ _ _ Hcan Hd) in Hcan. split; [by econstructor|].
    intros E. apply (f_equal version) in E. cbn in E. lia.
Qed.

Lemma constitution_summary evs s :
  constitution evs s ->
  s.(version) = Z.of_nat (List.length evs) /\
  s.(history) = map (fun ev => text_of "signer_did" ev.(payload)) evs /\
  s.(founder_did) = default "" (head s.(history)) /\ (s.(established) = true <-> evs <> []).
Proof.
  induction 1 as [|ev p did Ht (_ & _ & <- & _)|evs s ev p did Hc (IHv & IHh & IHf & IHe) Es Ht (_ & _ & <- & _) Hcan];
    [done|done|]. cbn. rewrite length_app, map_app, IHv, IHh. split_and!; [simpl; lia|done| |].
  - rewrite IHf, IHh. destruct evs; [|done]. exfalso. by apply IHe.
  - rewrite Es. split; [by destruct evs|done].
Qed.

(** C30. The policy in force is lawful.  Replaying any event stream, whatever it
    holds and wherever an exception stops it, leaves the view of a lawful
    history made of some of its events in order: a first signed genesis, then
    signed amendments each of whose signers was allowed to amend by the policy
    in force before it.  The version counts them, the recorded history is their
    signers and the founder is the first. *)
Theorem policy_is_lawful (events : list SpineEvent) :
  nacl_available = true ->
  let s := fst (replay events gov_reset) in
  exists used, sublist used events /\ constitution used s /\
    s.(version) = Z.of_nat (List.length used) /\
    s.(history) = map (fun ev => text_of "signer_did" ev.(payload)) used /\
    s.(founder_did) = default "" (head s.(history)).
Proof.
  intros Hn s.
  destruct (replay_invariant (fun seen s => exists used, sublist used seen /\ constitution used s)) with
    (evs0 := @nil SpineEvent) (evs := events) (s := gov_reset) as (seen & (later & ->) & used & Hs & Hc).
  - intros evs ev t (used & Hs & Hc). destruct (gov_apply_lawful used ev t Hn Hc) as [[Hc' _]|Heq].
    + exists (used ++ [ev])%list. split; [by apply sublist_app|exact Hc'].
    + exists used. cbn. rewrite Heq. split; [|done]. by apply sublist_inserts_r.
  - exists []. split; [apply sublist_nil_l|constructor].
  - fold s in Hc. exists used. destruct (constitution_summary _ _ Hc) as (? & ? & ? & _).
    split_and!; try done. by apply sublist_inserts_r.
Qed.

(** ** From a signature to the policy in force *)

Lemma verify_governance_stored d :
  wf (PDict d) -> jsonlike (PDict d) = true -> fst (verify_governance_statement (PDict d)) = true ->
  fst (verify_governance_statement (PDict (stored d))) = true.
Proof.
  intros Hw Hj. pose proof (proj1 (proj1 (wf_PDict d) Hw)) as Hn. unfold verify_governance_statement.
  rewrite !get_stored, norm_eqb_str, value_in_norm, is_dict_norm, !texts_present_stored, !text_of_stored by done.
  repeat match goal with |- context [if ?b then _ else _] => destruct b; [done|] end.
  intros H. by rewrite statement_signature_stored.
Qed.

Context `{L : !Ed25519Laws Ed}.

(** A statement that was signed verifies. *)
Lemma sign_governance_verifies signer did ty pol dao issued now d :
  Identity.signer signer did -> sign_governance_statement signer ty (PDict pol) dao issued now = Ok d ->
  fst (verify_governance_statement (PDict d)) = true /\ text_of "signer_did" d = did /\
  get_or_none "policy" d = PDict pol /\ text_of "type" d = ty /\ jsonlike (PDict d) = true /\
  (wf (PDict pol) -> wf (PDict d)).
Proof.
  intros Hs H. unfold sign_governance_statement in H.
  destruct (existsb _ _) eqn:Hty; [|done]. cbn [negb] in H.
  assert (as_did signer = Ok did) as Hd by by destruct Hs as (? & ? & ? & ? & ?).
  rewrite Hd in H. cbn [res_bind] in H. set (stmt := [("kind", _); _; _; _; _; _]) in H.
  assert (exists b, canonical_json (PDict stmt) = Ok b) as [b Hb].
  { unfold seal in H. apply res_bind_Ok in H as (b & Hb & _). by exists b. }
  destruct (seal_spec signer did stmt b Hs eq_refl Hb) as (sig & Hsig & Hseal & Hver).
  rewrite Hseal in H. apply Ok_inj in H as <-.
  assert (did <> "") as Hdid.
  { intros ->. destruct Hs as (seed & _ & H32 & Hv & Hdd).
    pose proof (signer_pubkey _ _ _ Hv H32 Hdd) as Hk. by vm_compute in Hk. }
  apply canonical_json_Ok in Hb as (_ & Hj & _).
  change (dict_set "sig" (PStr sig) stmt) with (stmt ++ [("sig", PStr sig)])%list in *.
  split_and!; try done.
  - unfold verify_governance_statement.
    change (get_or_none "kind" (stmt ++ [("sig", PStr sig)])) with (PStr GOVERNANCE_STATEMENT_KIND).
    change (get_or_none "type" (stmt ++ [("sig", PStr sig)])) with (PStr ty).
    change (get_or_none "policy" (stmt ++ [("sig", PStr sig)])) with (PDict pol).
    change (texts_present ["signer_did"] (stmt ++ [("sig", PStr sig)])) with (negb (String.eqb did "") && true).
    change (texts_present ["sig"] (stmt ++ [("sig", PStr sig)])) with (negb (String.eqb sig "") && true).
    change (text_of "signer_did" (stmt ++ [("sig", PStr sig)])) with did.
    change (text_of "sig" (stmt ++ [("sig", PStr sig)])) with sig.
    rewrite (proj2 (String.eqb_neq did "")), (proj2 (String.eqb_neq sig "")), Hver by done. cbn [negb andb].
    assert (value_in (PStr ty) GOV_TYPES = true) as ->; [|done].
    unfold value_in. cbn [py_eqb]. exact Hty.
  - intros Hp. apply wf_PDict. split; [apply (bool_decide_eq_true_1 _); vm_compute; reflexivity|].
    unfold stmt. cbn [app]. repeat (apply Forall_cons; split; cbn [snd]; [first [exact Hp|exact I|constructor]|]). constructor.
Qed.

(** Governance from end to end.  An amendment that [author] signed and a
    node records in its log, under any I/O fault, is either not in the history
    at all, or is in it as an event from which a replay adopts the new policy
    if the policy in force before allowed the author to amend, and changes
    nothing if it did not.  The caller can tell which, except when it could not
    read back the outcome of the write of the intent, or the appended bytes. *)
Theorem recorded_amendment_takes_effect node nd author did pol dao issued now d ts rf f s evs v p :
  signer node nd -> signer author did -> tracked nd s evs ->
  sign_governance_statement author GOV_AMEND (PDict pol) dao issued now = Ok d ->
  wf (PDict pol) -> strings_ok is_text (PDict d) = true -> line_fits node EVENT_GOV_AMEND (PDict d) ts evs ->
  Policy_from_dict (norm (PDict pol)) = Ok p ->
  replay evs gov_reset = (v, Ok tt) -> v.(established) = true ->
  let (s', r) := record_governance node (PDict d) ts rf f s in
  (exists e, (r = Ok e \/ r = unknown_outcome e \/ (r = Err ValueError /\ f.(readback) = Some AsValueError)) /\
    tracked nd s' (evs ++ [e]) /\
    replay (evs ++ [e]) gov_reset =
      (if decide (can v.(policy) did ACTION_POLICY_AMEND [] = Ok allow) then amend p did v else v, Ok tt)) \/
  ((r = Err ValueError \/ r = Err OSError \/
    (f.(write) 0%nat = IntentFails false true /\ exists e, r = unknown_outcome e)) /\ tracked nd s' evs).
Proof.
  intros Hn Hs Ht Hsign Hw Htx Hfit Hp Hrep Hest.
  destruct (sign_governance_verifies _ _ _ _ _ _ _ _ Hs Hsign) as (Hver & Hdid & Hpol & Hty & Hj & Hwd).
  specialize (Hwd Hw). unfold record_governance. rewrite Hver. cbn [negb]. rewrite Hty.
  pose proof (append_spec node nd "governance.amend" (PDict d) ts rf f s evs Hn Ht Hwd Htx Hfit) as Ha.
  change ("governance." ++ GOV_AMEND) with "governance.amend".
  assert (forall e, records nd "governance.amend" (PDict d) ts e -> replay (evs ++ [e]) gov_reset =
      (if decide (can v.(policy) did ACTION_POLICY_AMEND [] = Ok allow) then amend p did v else v, Ok tt)) as Heff.
  { intros e (_ & _ & Hye & Hpe & _). rewrite replay_app, Hrep. cbn [replay p_apply PolicyProjection].
    change (norm (PDict d)) with (PDict (stored d)) in Hpe. injection Hpe as Hpe.
    pose proof (proj1 (proj1 (wf_PDict d) Hwd)) as Hnd.
    unfold gov_apply. rewrite Hye, Hpe, verify_governance_stored, get_stored, Hpol, Hp, text_of_stored, Hdid, Hest by done.
    cbn [existsb GOV_EVENTS String.eqb Ascii.eqb negb]. 
    destruct (can_decides v.(policy) did ACTION_POLICY_AMEND) as [dc Hc]. rewrite Hc.
    destruct (allowed dc) eqn:Hal.
    - rewrite (can_allowed _ _ _ _ _ Hc Hal), decide_True by done. done.
    - rewrite decide_False by (intros [= ->]; done). done. }
  destruct (append node "governance.amend" (PDict d) ts rf f s) as [s' r].
  destruct Ha as [(e & Hr & _ & Ht' & Hres)|(Ht' & Hres)]; [left|right].
  - exists e. split_and!; [exact Hres|done|by apply Heff].
  - split; [|done]. destruct Hres as [?|[?|(? & e & _ & ?)]]; eauto 6.
Qed.
End Projection.

(** ** Examples *)

#[local] Existing Instance toy_ed25519.
#[local] Existing Instance toy_laws.
#[local] Instance toy_repr : PyRepr := fun _ => "".

Definition or_empty {A} (r : res (list A)) : list A := match r with Ok l => l | Err _ => [] end.

(** A constitution whose founder may amend it, and an amendment. *)
Definition demo_policy : list (string * pyval) :=
  [("roles", PDict [(toy_did "a", PList [PStr "root"])]); ("grants", PDict [("root", PList [PStr "policy.*"])]);
   ("constraints", PDict [])].
Definition demo_amended : list (string * pyval) :=
  [("roles", PDict []); ("grants", PDict []); ("constraints", PDict [])].

Definition demo_genesis : list (string * pyval) := Eval vm_compute in
  or_empty (sign_governance_statement (toy_identity "a") GOV_GENESIS (PDict demo_policy) "dao" 5 0).
Definition demo_amend : list (string * pyval) := Eval vm_compute in
  or_empty (sign_governance_statement (toy_identity "a") GOV_AMEND (PDict demo_amended) "dao" 6 0).

Definition genesis_event : SpineEvent := Eval vm_compute in
  match sign_event (PInt 0) (PStr GENESIS_PREV) (PStr EVENT_GOV_GENESIS) (PDict (stored demo_genesis))
          (toy_identity "n") (PInt 7) with
  | Ok e => e
  | Err _ => demo_event
  end.

Definition gov_log : slog :=
  {| log_file := Some ("" ++ encode_event genesis_event ++ nl); pending_file := None;
     head_hash := GENESIS_PREV; head_seq := -1 |}.

Lemma genesis_signed :
  sign_event (PInt 0) (PStr GENESIS_PREV) (PStr EVENT_GOV_GENESIS) (PDict (stored demo_genesis))
    (toy_identity "n") (PInt 7) = Ok genesis_event.
Proof. vm_compute. reflexivity. Qed.

Lemma gov_tracked : tracked (toy_did "n") gov_log [genesis_event].
Proof.
  apply (tracked_rest _ _ ("" ++ encode_event genesis_event ++ nl)). split_and!; [reflexivity|reflexivity|].
  apply (good_append "" [] (encode_event genesis_event) genesis_event); [reflexivity|].
  destruct (sign_event_inv _ _ _ _ _ _ _ _ (toy_signer_of "n" eq_refl) genesis_signed) as (Es & Ep & _ & Hp & _ & _ & Hv).
  apply settled_extends; [|exact Es|exact Ep|vm_compute; reflexivity].
  split; [by exists "ok"|]. rewrite Hp. split; [by apply wfb_wf|vm_compute; reflexivity|vm_compute; reflexivity].
Qed.

Definition amend_event : SpineEvent := Eval vm_compute in
  match sign_event (PInt 1) (PStr genesis_event.(content_hash)) (PStr EVENT_GOV_AMEND) (PDict (stored demo_amend))
          (toy_identity "n") (PInt 8) with
  | Ok e => e
  | Err _ => demo_event
  end.

Lemma amend_fits : line_fits (toy_identity "n") EVENT_GOV_AMEND (PDict demo_amend) 8 [genesis_event].
Proof.
  apply (line_fits_intro (toy_identity "n") EVENT_GOV_AMEND (PDict demo_amend) 8 [genesis_event] amend_event);
    vm_compute; reflexivity.
Qed.

Definition demo_view : gov_view := Eval vm_compute in fst (replay [genesis_event] gov_reset).
Definition demo_new_policy : Policy := Eval vm_compute in
  match Policy_from_dict (norm (PDict demo_amended)) with Ok p => p | Err _ => empty_policy end.

Lemma policy_is_lawful_witness :
  nacl_available = true /\
  let s := fst (replay [genesis_event] gov_reset) in
  exists used, sublist used [genesis_event] /\ constitution used s /\
    s.(version) = Z.of_nat (List.length used) /\
    s.(history) = map (fun ev => text_of "signer_did" ev.(payload)) used /\
    s.(founder_did) = default "" (head s.(history)).
Proof. split; [reflexivity|]. exact (policy_is_lawful [genesis_event] eq_refl). Defined.

Lemma recorded_amendment_takes_effect_witness :
  let f := write_fails (RecordFails 20) in
  let (s', r) := record_governance (toy_identity "n") (PDict demo_amend) 8 RecoveryRuns f gov_log in
  (exists e, (r = Ok e \/ r = unknown_outcome e \/ (r = Err ValueError /\ f.(readback) = Some AsValueError)) /\
    tracked (toy_did "n") s' ([genesis_event] ++ [e]) /\
    replay ([genesis_event] ++ [e]) gov_reset =
      (if decide (can demo_view.(policy) (toy_did "a") ACTION_POLICY_AMEND [] = Ok allow)
       then amend demo_new_policy (toy_did "a") demo_view else demo_view, Ok tt)) \/
  ((r = Err ValueError \/ r = Err OSError \/
    (f.(write) 0%nat = IntentFails false true /\ exists e, r = unknown_outcome e)) /\
   tracked (toy_did "n") s' [genesis_event]).
Proof.
  pose proof (recorded_amendment_takes_effect (toy_identity "n") (toy_did "n") (toy_identity "a") (toy_did "a")
    demo_amended "dao" 6 0 demo_amend 8 RecoveryRuns (write_fails (RecordFails 20)) gov_log [genesis_event] demo_view demo_new_policy
    (toy_signer_of "n" eq_refl) (toy_signer_of "a" eq_refl) gov_tracked) as H.
  refine (H _ _ _ amend_fits _ _ _);
    [vm_compute; reflexivity|by apply wfb_wf|vm_compute; reflexivity..].
Defined.
