(* ===== verification/Store.v ===== *)
(** * Files ([nth_dao/util/io.py])

    The stores keep one JSON file per record, named by [safe_id].  A file is
    absent, holds a JSON value, or cannot be read as JSON; writes replace the
    whole file ([os.replace]), under an inter-process lock that makes every
    read-modify-write of a record atomic, so an operation is a function from
    the store to the store. *)

From Stdlib Require Import ZArith Lia Ascii String.
From stdpp Require Import base list strings gmap.
From S2P Require Import Prelude PyStr PyValue Json.

Local Open Scope string_scope.
Local Open Scope Z_scope.

(** ** File names *)

(** [str.isalnum] on one code point beyond ASCII comes from the Unicode
    database. *)
Class UnicodeDB := cp_isalnum_wide : Z -> bool.

Definition of_code_points (l : list Z) : string := of_chars (l ≫= utf8_of_cp).

Section SafeId.
Context `{U : UnicodeDB}.

Definition cp_isalnum (c : Z) : bool :=
  if c <? 128 then
    ((48 <=? c) && (c <=? 57)) || ((65 <=? c) && (c <=? 90)) || ((97 <=? c) && (c <=? 122))
  else cp_isalnum_wide c.

(** [c in "_-."] *)
Definition allow_extra (c : Z) : bool := (c =? 95) || (c =? 45) || (c =? 46).

Fixpoint drop_dashes (l : list Z) : list Z :=
  match l with c :: l' => if c =? 45 then drop_dashes l' else l | [] => [] end.

(** [safe_id(value)] *)
Definition safe_id (value : string) : string :=
  if String.eqb value "" then "anon" else
  let safe := map (fun c => if cp_isalnum c || allow_extra c then c else 45) (code_points value) in
  let safe := rev (drop_dashes (rev (drop_dashes safe))) in
  let safe := match safe with [] => code_points "anon" | _ => safe end in
  if bool_decide (safe = [46]) || bool_decide (safe = [46; 46]) || existsb (Z.eqb 47) safe
     || existsb (Z.eqb 92) safe
  then "anon"
  else of_code_points (take 200 safe).
End SafeId.

(** ** Slots *)

Inductive slot :=
| FileJson (v : pyval)
| FileBroken.

Abbreviation files := (gmap string slot).

(** [path.exists()] *)
Definition file_exists (fs : files) (name : string) : bool :=
  match fs !! name with Some _ => true | None => false end.

(** [safe_load_json(path, fallback=None)], with [None] for Python's [None] *)
Definition safe_load_json (fs : files) (name : string) : option pyval :=
  match fs !! name with
  | Some (FileJson PNone) | Some FileBroken | None => None
  | Some (FileJson v) => Some v
  end.

(** [atomic_write_json(path, v)] *)
Definition atomic_write_json (fs : files) (name : string) (v : pyval) : files :=
  <[name := FileJson v]> fs.

Lemma safe_load_written fs name v :
  v <> PNone -> safe_load_json (atomic_write_json fs name v) name = Some v.
Proof. intros Hv. unfold safe_load_json, atomic_write_json. rewrite lookup_insert_eq. by destruct v. Qed.

Lemma safe_load_other fs name name' v :
  name <> name' -> safe_load_json (atomic_write_json fs name v) name' = safe_load_json fs name'.
Proof. intros Hn. unfold safe_load_json, atomic_write_json. by rewrite lookup_insert_ne. Qed.

Lemma file_exists_written fs name v : file_exists (atomic_write_json fs name v) name = true.
Proof. unfold file_exists, atomic_write_json. by rewrite lookup_insert_eq. Qed.

(** The file name never leaves the directory: it has no path separator and is
    not a relative directory. *)
Lemma safe_id_ascii_example :
  safe_id (U := fun _ => false) "a/../b" = "a-..-b" /\ safe_id (U := fun _ => false) ".." = "anon".
Proof. split; vm_compute; reflexivity. Qed.
