(* ===== verification/PyOps.v ===== *)
(** * Operations on values of unknown type

    Iteration, membership and the [dict] and [set] constructors applied to the
    values of a signed document, whose types nothing has checked. *)

From Stdlib Require Import ZArith Lia Ascii String.
From stdpp Require Import base list strings.
From S2P Require Import Prelude PyStr PyValue Projection Store.

Local Open Scope string_scope.
Local Open Scope Z_scope.

(** [s.strip()] *)
Fixpoint drop_spaces (l : list Z) : list Z :=
  match l with c :: l' => if cp_isspace c then drop_spaces l' else l | [] => [] end.
Definition py_strip (s : string) : string :=
  of_code_points (rev (drop_spaces (rev (drop_spaces (code_points s))))).

(** Whether [hash(v)] is defined. *)
Definition hashable (v : pyval) : bool := negb (is_list v || is_dict v).

(** [v in strings] for a literal set: an unhashable value raises. *)
Definition in_strings (v : pyval) (l : list string) : res bool :=
  if hashable v then Ok (value_in v l) else Err TypeError.

(** [set(v)]: the elements of an iterable of hashable values *)
Definition py_set (v : pyval) : res (list pyval) :=
  match v with
  | PList l => if forallb hashable l then Ok l else Err TypeError
  | PStr s => Ok (map (fun c => PStr (of_code_points [c])) (code_points s))
  | PDict d => Ok (map PStr (dict_keys d))
  | _ => Err TypeError
  end.

(** [x in s] for a set of values *)
Definition in_set (x : string) (s : list pyval) : bool := existsb (fun v => py_eqb v (PStr x)) s.

(** The items of [for t in v] *)
Definition iterate (v : pyval) : res (list pyval) :=
  match v with
  | PList l => Ok l
  | PStr s => Ok (map (fun c => PStr (of_code_points [c])) (code_points s))
  | PDict d => Ok (map PStr (dict_keys d))
  | _ => Err TypeError
  end.

(** [dict(items)]: pairs are iterables of two, the first hashable; a dict with a
    key that is not a [str] is foreign. *)
Fixpoint dict_pairs (items : list pyval) (acc : list (string * pyval)) (foreign : bool) : res pyval :=
  match items with
  | [] => Ok (if foreign then POther "dict" else PDict acc)
  | item :: items =>
    let* two := iterate item in
    match two with
    | [k; v] =>
      if negb (hashable k) then Err TypeError else
      match k with
      | PStr k => dict_pairs items (dict_set k v acc) foreign
      | _ => dict_pairs items acc true
      end
    | _ => Err ValueError
    end
  end.

(** [dict(v)] *)
Definition dict_of (v : pyval) : res pyval :=
  match v with
  | PDict d => Ok (PDict d)
  | _ => let* items := iterate v in dict_pairs items [] false
  end.

(** [t in s] for strings *)
Fixpoint is_substring (t s : string) : bool :=
  startswith t s || match s with String _ s' => is_substring t s' | "" => false end.

(** [v in c] *)
Definition py_in (v c : pyval) : res bool :=
  match c with
  | PList l => Ok (existsb (py_eqb v) l)
  | PStr s => match v with PStr t => Ok (is_substring t s) | _ => Err TypeError end
  | PDict d => if hashable v then Ok (match v with PStr k => dict_mem k d | _ => false end) else Err TypeError
  | _ => Err TypeError
  end.

(** [d.get(k)] of a value that may not be a [dict] *)
Definition get_attr (k : string) (v : pyval) : res pyval :=
  match v with PDict d => Ok (get_or_none k d) | _ => Err AttributeError end.
