(* ===== verification/CapToken.v ===== *)
(** * Capability tokens ([nth_dao/cap_token.py])

    An issuer signs that a subject may use some capabilities, within a time
    window and optionally for one task or one DAO; the bearer presents the token
    and [verify_cap_token] decides.  [CapTokenStore] keeps the issued tokens and
    the revocation list, one file each. *)

From Stdlib Require Import ZArith Lia Ascii String.
From stdpp Require Import base list strings gmap sorting.
From S2P Require Import Prelude PyStr PyValue Json JsonAscii CanonicalJson B64u DidKey Identity Store PyOps Projection Governance.

Local Open Scope string_scope.
Local Open Scope Z_scope.

Definition NTH_CAP_TOKEN_KIND : string := "nth-cap-token-v1".
Definition NTH_CAP_TOKEN_SPEC : string := "nth-dao/cap-token@1.0".
Definition DEFAULT_TTL_MS : Z := 60 * 60 * 1000.
Definition MAX_TTL_MS : Z := 7 * 24 * 60 * 60 * 1000.

Definition REJECT_MISSING_FIELD : string := "missing-field".
Definition REJECT_BAD_KIND : string := "bad-kind".
Definition REJECT_NOT_YET_VALID : string := "not-yet-valid".
Definition REJECT_EXPIRED : string := "expired".
Definition REJECT_REVOKED : string := "revoked".
Definition REJECT_BAD_ISSUER_DID : string := "bad-issuer-did".
Definition REJECT_SIG_INVALID : string := "sig-invalid".
Definition REJECT_CAP_INSUFFICIENT : string := "cap-insufficient".
Definition REJECT_SCOPE_MISMATCH : string := "scope-mismatch".
Definition REJECT_CRYPTO_UNAVAILABLE : string := "crypto-unavailable".
Definition REJECT_SIG_DECODE_FAILED : string := "sig-decode-failed".
Definition REJECT_MODEL_NOT_IN_TOKEN_SCOPE : string := "model-not-in-token-scope".

Definition REQUIRED_FIELDS : list string :=
  ["kind"; "issuer_did"; "subject_did"; "capabilities"; "not_before"; "not_after"; "sig"; "token_id"].

Section WithCrypto.
Context `{Ed : Ed25519} `{R : PyRepr} `{U : UnicodeDB}.

(** [all(c.isalnum() or c == "-" for c in tid)] *)
Definition plain_id (tid : string) : bool := forallb (fun c => cp_isalnum c || (c =? 45)) (code_points tid).

(** ** Signing *)

(** The normalisation of [scope_model_allowlist]. *)
Definition normalized_scope (models : list pyval) : res (list string) :=
  res_mapM (fun m => match m with
                     | PStr m => let stripped := py_strip m in
                                 if String.eqb stripped "" then Err ValueError else Ok stripped
                     | _ => Err ValueError
                     end) models.

(** [sign_cap_token]; [now], [fresh_id] and [nonce] are what the clock and the
    random generator return *)
Definition sign_cap_token (issuer : AgentIdentity) (subject_did : pyval) (capabilities : list string)
    (scope_task_id scope_dao : string) (scope_model_allowlist : option pyval) (ttl_ms : Z) (token_id : string)
    (now : Z) (fresh_id nonce : string) : res (list (string * pyval)) :=
  let caps_list := sorted_set capabilities in
  if match caps_list with [] => true | _ => false end then Err ValueError else
  if negb (forallb (fun c => negb (String.eqb c "")) caps_list) then Err ValueError else
  if ttl_ms <=? 0 then Err ValueError else
  if MAX_TTL_MS <? ttl_ms then Err ValueError else
  if negb (is_did_key subject_did) then Err ValueError else
  let rid := if String.eqb token_id "" then fresh_id else token_id in
  if negb (plain_id rid) then Err ValueError else
  let* scope := match scope_model_allowlist with
                | None => Ok None
                | Some (PList models) => res_map Some (normalized_scope models)
                | Some _ => Err ValueError
                end in
  let* issuer_did := as_did issuer in
  seal issuer
    ([("kind", PStr NTH_CAP_TOKEN_KIND); ("spec", PStr NTH_CAP_TOKEN_SPEC); ("token_id", PStr rid);
      ("issuer_did", PStr issuer_did); ("subject_did", subject_did);
      ("capabilities", PList (map PStr caps_list)); ("scope_task_id", PStr scope_task_id);
      ("scope_dao", PStr scope_dao); ("not_before", PInt now); ("not_after", PInt (now + ttl_ms));
      ("nonce", PStr nonce)]
     ++ match scope with
        | Some models => [("scope_model_allowlist", PList (map PStr (sorted_set models)))]
        | None => []
        end)%list.

(** ** Verifying *)

(** The optional arguments of a verification. *)
Record demand := {
  now_ms_override : Z;
  revoked_ids : list string;
  required_capabilities : option (list string);
  required_task_id : string;
  required_dao : string
}.

Definition no_demand : demand :=
  {| now_ms_override := 0; revoked_ids := []; required_capabilities := None; required_task_id := ""; required_dao := "" |}.

(** [scope = token.get(field, "")]; [if scope and scope != required] *)
Definition scope_mismatch (field required : string) (token : list (string * pyval)) : bool :=
  if String.eqb required "" then false else
  let scope := get_default field (PStr "") token in
  truthy scope && negb (py_eqb scope (PStr required)).

(** [verify_cap_token] on a dict; [clock] is the current time *)
Definition verify_cap_token (clock : Z) (want : demand) (token : list (string * pyval)) : res verdict :=
  if negb nacl_available then Ok (false, REJECT_CRYPTO_UNAVAILABLE) else
  if negb (forallb (fun f => dict_mem f token) REQUIRED_FIELDS) then Ok (false, REJECT_MISSING_FIELD) else
  if negb (py_eqb (get_or_none "kind" token) (PStr NTH_CAP_TOKEN_KIND)) then Ok (false, REJECT_BAD_KIND) else
  let now := if want.(now_ms_override) =? 0 then clock else want.(now_ms_override) in
  match (let* nbf := py_int (get_or_none "not_before" token) in
         let* exp := py_int (get_or_none "not_after" token) in Ok (nbf, exp)) with
  | Err e => if is_TypeOrValueError e then Ok (false, REJECT_MISSING_FIELD) else Err e
  | Ok (nbf, exp) =>
    if now <? nbf then Ok (false, REJECT_NOT_YET_VALID) else
    if exp <? now then Ok (false, REJECT_EXPIRED) else
    let token_id := get_or_none "token_id" token in
    let* revoked := match want.(revoked_ids) with
                    | [] => Ok false
                    | ids => if hashable token_id then Ok (value_in token_id ids) else Err TypeError
                    end in
    if (revoked : bool) then Ok (false, REJECT_REVOKED) else
    let* token_caps := py_set (get_or_none "capabilities" token) in
    if negb (forallb (fun c => in_set c token_caps) (default [] want.(required_capabilities)))
    then Ok (false, REJECT_CAP_INSUFFICIENT) else
    if scope_mismatch "scope_task_id" want.(required_task_id) token
       || scope_mismatch "scope_dao" want.(required_dao) token then Ok (false, REJECT_SCOPE_MISMATCH) else
    let issuer_did := get_or_none "issuer_did" token in
    match issuer_did with
    | PStr did =>
      if negb (is_did_key issuer_did) then Ok (false, REJECT_BAD_ISSUER_DID) else
      let* issuer_pubkey_hex := decode_ed25519_did_key_hex did in
      if String.eqb issuer_pubkey_hex "" then Ok (false, REJECT_BAD_ISSUER_DID) else
      match b64u_decode (py_str (get_or_none "sig" token)) with
      | Err _ => Ok (false, REJECT_SIG_DECODE_FAILED)
      | Ok sig_bytes =>
        match (let* key := fromhex issuer_pubkey_hex in
               let* body := canonical_json (signing_body "sig" token) in
               Ok ((bytes_len key =? 32) && (bytes_len sig_bytes =? 64) && ed_verify key body sig_bytes)) with
        | Ok true => Ok (true, "")
        | _ => Ok (false, REJECT_SIG_INVALID)
        end
      end
    | _ => Ok (false, REJECT_BAD_ISSUER_DID)
    end
  end.

(** [token_allows_model] *)
Definition token_allows_model (token : list (string * pyval)) (requested_model : string) : verdict :=
  if String.eqb requested_model "" then (true, "") else
  match dict_get "scope_model_allowlist" token with
  | None => (true, "")
  | Some (PList scope) =>
    if in_set requested_model scope then (true, "") else (false, REJECT_MODEL_NOT_IN_TOKEN_SCOPE)
  | Some _ => (false, REJECT_MODEL_NOT_IN_TOKEN_SCOPE)
  end.

(** ** The header codec *)

(** [encode_authorization_header] *)
Definition encode_authorization_header (token : list (string * pyval)) : res string :=
  let* body := canonical_json (PDict token) in Ok (b64u_encode body).

(** [decode_authorization_value] *)
Definition decode_authorization_value (value : string) : option pyval :=
  match (let* raw := b64u_decode value in loads_bytes raw) with Ok v => Some v | Err _ => None end.

(** ** The store *)

(** [CapTokenStore]: the issued tokens by file name, and the revocation list. *)
Record token_store := { issued : files; revoked_file : option slot }.

Definition token_file (tid : string) : string := tid ++ ".json".

(** [CapTokenStore.record] *)
Definition record (token : list (string * pyval)) (s : token_store) : token_store * res unit :=
  let raw := get_default "token_id" (PStr "") token in
  let tid := py_str (if truthy raw then raw else PStr "") in
  if String.eqb tid "" || negb (plain_id tid) then (s, Err ValueError) else
  ({| issued := <[token_file tid := FileJson (PDict token)]> s.(issued); revoked_file := s.(revoked_file) |}, Ok tt).

(** [CapTokenStore.get] *)
Definition get (token_id : string) (s : token_store) : option pyval :=
  if String.eqb token_id "" || negb (plain_id token_id) then None else
  match s.(issued) !! token_file token_id with
  | Some (FileJson v) => Some v
  | _ => None
  end.

(** [CapTokenStore.revoked_set]: a file that does not parse reads as empty *)
Definition revoked_set (s : token_store) : res (gset string) :=
  match s.(revoked_file) with
  | None | Some FileBroken => Ok ∅
  | Some (FileJson (PDict data)) =>
    let* items := iterate (get_default "revoked" (PList []) data) in
    Ok (list_to_set (map py_str items))
  | Some (FileJson _) => Err AttributeError
  end.

(** [CapTokenStore.revoke] *)
Definition revoke (token_id : string) (s : token_store) : token_store * res bool :=
  if String.eqb token_id "" || negb (plain_id token_id) then (s, Err ValueError) else
  match revoked_set s with
  | Err e => (s, Err e)
  | Ok current =>
    if decide (token_id ∈ current) then (s, Ok false) else
    let updated := merge_sort String.le (elements ({[token_id]} ∪ current)) in
    ({| issued := s.(issued);
        revoked_file := Some (FileJson (PDict [("revoked", PList (map PStr updated))])) |}, Ok true)
  end.
End WithCrypto.
