(* ===== verification/CapTokenSpec.v ===== *)
(** * What capability tokens promise

    A token is accepted exactly when its issuer signed it, the clock is in its
    window, it is not revoked and it covers what is asked; an issued token
    survives its transport; a revoked one never comes back. *)

From Stdlib Require Import ZArith Lia Ascii String Permutation.
From stdpp Require Import base list strings gmap sorting.
From S2P Require Import Prelude PyStr PyValue Json JsonAscii CanonicalJson B64u DidKey Identity Store PyOps Projection Governance CapToken.

Local Open Scope string_scope.
Local Open Scope Z_scope.

Lemma sorted_set_In x l : In x (sorted_set l) <-> In x l.
Proof.
  unfold sorted_set. rewrite <- !list_elem_of_In, (merge_sort_Permutation String.le (remove_dups l)).
  apply elem_of_remove_dups.
Qed.

Lemma value_in_text x l : value_in (PStr x) l = true <-> In x l.
Proof.
  unfold value_in. cbn [py_eqb]. rewrite existsb_exists. split.
  - intros (y & Hy & ->%String.eqb_eq). done.
  - intros H. exists x. split; [done|apply String.eqb_refl].
Qed.

Lemma in_set_strs x l : in_set x (map PStr l) = true <-> In x l.
Proof.
  unfold in_set. rewrite existsb_exists. setoid_rewrite in_map_iff. split.
  - intros (v & (y & <- & Hy) & He). cbn in He. apply String.eqb_eq in He. by subst.
  - intros H. exists (PStr x). split; [by exists x|]. cbn. apply String.eqb_refl.
Qed.

Section WithCrypto.
Context `{Ed : Ed25519} `{R : PyRepr} `{U : UnicodeDB}.

(** The issuer's signature, as [verify_cap_token] checks it. *)
Definition issuer_signed (token : list (string * pyval)) : Prop :=
  exists did pk body raw, get_or_none "issuer_did" token = PStr did /\ decode_ed25519_did_key did = Ok pk /\
    b64u_decode (py_str (get_or_none "sig" token)) = Ok raw /\
    canonical_json (signing_body "sig" token) = Ok body /\ bytes_len raw = 64 /\ ed_verify pk body raw = true.

(** Everything an accepted token satisfies. *)
Record acceptable (now : Z) (want : demand) (token : list (string * pyval)) : Prop := {
  ac_fields : forall f, In f REQUIRED_FIELDS -> dict_mem f token = true;
  ac_kind : get_or_none "kind" token = PStr NTH_CAP_TOKEN_KIND;
  ac_window : exists nbf exp, py_int (get_or_none "not_before" token) = Ok nbf /\
    py_int (get_or_none "not_after" token) = Ok exp /\ nbf <= now <= exp;
  ac_revoked : want.(revoked_ids) = [] \/
    (hashable (get_or_none "token_id" token) = true /\
     value_in (get_or_none "token_id" token) want.(revoked_ids) = false);
  ac_caps : exists caps, py_set (get_or_none "capabilities" token) = Ok caps /\
    forall c, In c (default [] want.(required_capabilities)) -> in_set c caps = true;
  ac_task : scope_mismatch "scope_task_id" want.(required_task_id) token = false;
  ac_dao : scope_mismatch "scope_dao" want.(required_dao) token = false;
  ac_signed : issuer_signed token
}.

Lemma decode_hex did pk : decode_ed25519_did_key did = Ok pk ->
  is_did_key (PStr did) = true /\ decode_ed25519_did_key_hex did = Ok (hex pk) /\ String.eqb (hex pk) "" = false /\
  fromhex (hex pk) = Ok pk /\ bytes_len pk = 32.
Proof.
  intros H. pose proof (decode_did_inv _ _ H) as [H32 _]. split_and!.
  - unfold is_did_key. rewrite H. unfold decode_ed25519_did_key in H. by destruct (startswith DID_KEY_PREFIX did).
  - unfold decode_ed25519_did_key_hex. by rewrite H.
  - apply String.eqb_neq. intros E. apply (f_equal fromhex) in E. rewrite fromhex_hex in E.
    apply bytes_len_nonempty in H32 as (c & t & ->). done.
  - apply fromhex_hex.
  - done.
Qed.

Lemma is_did_key_decodes did : is_did_key (PStr did) = true -> exists pk, decode_ed25519_did_key did = Ok pk.
Proof.
  unfold is_did_key. destruct (negb _); [done|]. destruct (decode_ed25519_did_key did) as [pk|]; [by exists pk|done].
Qed.

Lemma cap_token_accepted clock want token :
  nacl_available = true ->
  verify_cap_token clock want token = Ok (true, "") <->
  acceptable (if want.(now_ms_override) =? 0 then clock else want.(now_ms_override)) want token.
Proof.
  intros Hn. unfold verify_cap_token. rewrite Hn. cbn [negb].
  set (now := if now_ms_override want =? 0 then clock else now_ms_override want). split.
  - intros H.
    destruct (forallb (fun f => dict_mem f token) REQUIRED_FIELDS) eqn:Hf; [cbn [negb] in H|done].
    destruct (py_eqb (get_or_none "kind" token) (PStr NTH_CAP_TOKEN_KIND)) eqn:Hk; [cbn [negb] in H|done].
    destruct (py_int (get_or_none "not_before" token)) as [nbf|x] eqn:Hb; cbn [res_bind] in H;
      [|by destruct (is_TypeOrValueError x)].
    destruct (py_int (get_or_none "not_after" token)) as [exp|x] eqn:He; cbn [res_bind] in H;
      [|by destruct (is_TypeOrValueError x)].
    destruct (Z.ltb_spec now nbf); [done|]. destruct (Z.ltb_spec exp now); [done|].
    apply res_bind_Ok in H as (revoked & Hr & H). destruct revoked; [done|].
    apply res_bind_Ok in H as (caps & Hc & H).
    destruct (forallb (fun c => in_set c caps) (default [] (required_capabilities want))) eqn:Hcaps; [cbn [negb] in H|done].
    destruct (_ || _) eqn:Hs in H; [done|]. apply orb_false_iff in Hs as [Ht Hd].
    destruct (get_or_none "issuer_did" token) as [| | | |did| | |] eqn:Hi; try done.
    destruct (is_did_key (PStr did)) eqn:Hdid; [cbn [negb] in H|done].
    apply is_did_key_decodes in Hdid as [pk Hpk].
    destruct (decode_hex did pk Hpk) as (_ & Hhex & Hne & Hfrom & H32). rewrite Hhex in H. cbn [res_bind] in H.
    rewrite Hne, Hfrom in H. cbn [res_bind] in H.
    destruct (b64u_decode (py_str (get_or_none "sig" token))) as [raw|] eqn:Hraw; [|done].
    destruct (canonical_json (signing_body "sig" token)) as [body|] eqn:Hbody; [|done]. cbn [res_bind] in H.
    destruct ((bytes_len pk =? 32) && (bytes_len raw =? 64) && ed_verify pk body raw) eqn:Hv; [|done]. bool_to_prop.
    constructor; try done.
    + by apply forallb_forall.
    + by apply py_eqb_PStr_r in Hk.
    + exists nbf, exp. split_and!; done.
    + destruct (revoked_ids want); [by left|right]. destruct (hashable _); [|done].
      by apply Ok_inj in Hr.
    + exists caps. split; [done|]. by apply forallb_forall.
    + by exists did, pk, body, raw.
  - intros [Hf Hk (nbf & exp & Hb & He & Hw) Hr (caps & Hc & Hcaps) Ht Hd (did & pk & body & raw & Hi & Hpk & Hraw & Hbody & H64 & Hv)].
    rewrite (proj2 (forallb_forall _ _) Hf), Hk. cbn [negb py_eqb]. rewrite String.eqb_refl, Hb, He. cbn [negb res_bind].
    rewrite (proj2 (Z.ltb_ge now nbf)), (proj2 (Z.ltb_ge exp now)) by lia.
    assert (match revoked_ids want with
            | [] => Ok false
            | ids => if hashable (get_or_none "token_id" token) then Ok (value_in (get_or_none "token_id" token) ids)
                     else Err TypeError
            end = Ok false) as ->.
    { destruct Hr as [->|[-> Hr]]; [done|]. revert Hr. case (revoked_ids want); [done|]. intros i l Hr.
      f_equal. exact Hr. }
    cbn [res_bind]. rewrite Hc. cbn [res_bind]. rewrite (proj2 (forallb_forall _ _) Hcaps), Ht, Hd, Hi. cbn [negb orb].
    destruct (decode_hex did pk Hpk) as (-> & -> & Hne & Hfrom & H32). cbn [negb res_bind].
    rewrite Hne, Hraw, Hfrom, Hbody. cbn [res_bind]. by rewrite H32, H64, Hv.
Qed.

Lemma verify_cap_token_reason clock want token why :
  verify_cap_token clock want token = Ok (true, why) -> why = "".
Proof.
  unfold verify_cap_token. intros H.
  repeat match type of H with
  | (if ?b then _ else _) = _ => destruct b; [discriminate H|]
  | res_bind ?m _ = _ => destruct m as [?|?]; cbn [res_bind] in H; [|discriminate H]
  | match ?m with _ => _ end = _ => destruct m as [?|?]; try discriminate H
  | match ?m with _ => _ end = _ => destruct m; try discriminate H
  end.
  all: congruence.
Qed.

(** C31. A token is accepted exactly when it has the required fields and kind,
    the clock is in its window, its id is not revoked, its capabilities contain
    those required, its scopes do not exclude the task and the DAO, and the
    issuer it names signed all of it. *)
Theorem cap_token_accepted_iff clock want token :
  nacl_available = true ->
  verify_cap_token clock want token = Ok (true, "") <->
  acceptable (if want.(now_ms_override) =? 0 then clock else want.(now_ms_override)) want token.
Proof. apply cap_token_accepted. Qed.

(** ** From the issuer to the verifier *)

Context `{L : !Ed25519Laws Ed}.

(** The scope of a token admits a demand. *)
Definition in_scope (scope required : string) : Prop := required = "" \/ scope = "" \/ scope = required.

Lemma in_scope_ok field scope required token :
  get_default field (PStr "") token = PStr scope -> in_scope scope required ->
  scope_mismatch field required token = false.
Proof.
  intros Hg Hs. unfold scope_mismatch. rewrite Hg. destruct (String.eqb_spec required ""); [done|].
  cbn [truthy py_eqb]. destruct Hs as [->|[->| ->]]; [done|done|]. by rewrite String.eqb_refl, andb_false_r.
Qed.

(** What a demand asks of a token of these fields. *)
Record covered (tid : string) (caps : list string) (task dao : string) (want : demand) : Prop := {
  cv_clock : want.(now_ms_override) = 0;
  cv_live : ~ In tid want.(revoked_ids);
  cv_caps : forall c, In c (default [] want.(required_capabilities)) -> In c caps;
  cv_task : in_scope task want.(required_task_id);
  cv_dao : in_scope dao want.(required_dao)
}.

(** The fields of a token without its signature. *)
Definition token_items (rid did sub : string) (caps : list string) (task dao : string) (now ttl : Z) (nonce : string)
    (models : list (string * pyval)) : list (string * pyval) :=
  ([("kind", PStr NTH_CAP_TOKEN_KIND); ("spec", PStr NTH_CAP_TOKEN_SPEC); ("token_id", PStr rid);
    ("issuer_did", PStr did); ("subject_did", PStr sub); ("capabilities", PList (map PStr (sorted_set caps)));
    ("scope_task_id", PStr task); ("scope_dao", PStr dao); ("not_before", PInt now); ("not_after", PInt (now + ttl));
    ("nonce", PStr nonce)] ++ models)%list.

Lemma sign_cap_token_inv issuer did subject caps task dao scope ttl tid now fresh nonce token :
  signer issuer did ->
  sign_cap_token issuer subject caps task dao scope ttl tid now fresh nonce = Ok token ->
  exists sub models sig, subject = PStr sub /\ 0 < ttl <= MAX_TTL_MS /\
    (models = [] \/ exists l, models = [("scope_model_allowlist", PList (map PStr l))]) /\
    token = (token_items (if String.eqb tid "" then fresh else tid) did sub caps task dao now ttl nonce models
             ++ [("sig", PStr sig)])%list /\
    statement_signature did sig token = (true, "ok") /\ jsonlike (PDict token) = true.
Proof.
  intros Hs H. unfold sign_cap_token in H.
  repeat match type of H with (if ?b then Err _ else _) = Ok _ => destruct b eqn:?; [discriminate H|] end.
  bool_to_prop.
  assert (as_did issuer = Ok did) as Hd by by destruct Hs as (? & ? & ? & ? & ?).
  apply res_bind_Ok in H as (sc & Hsc & H). rewrite Hd in H. cbn [res_bind] in H.
  destruct subject as [| | | |sub| | |]; try done.
  set (models := match sc with Some ms => [("scope_model_allowlist", PList (map PStr (sorted_set ms)))] | None => [] end) in H.
  fold (token_items (if String.eqb tid "" then fresh else tid) did sub caps task dao now ttl nonce models) in H.
  set (stmt := token_items _ _ _ _ _ _ _ _ _ models) in *.
  assert (exists b, canonical_json (PDict stmt) = Ok b) as [b Hb].
  { unfold seal in H. apply res_bind_Ok in H as (b & Hb & _). unfold signing_body in Hb.
    rewrite dict_without_absent in Hb; [by exists b|]. unfold stmt, token_items, models. by destruct sc. }
  assert (dict_mem "sig" stmt = false) as Hn by (unfold stmt, token_items, models; by destruct sc).
  destruct (seal_spec issuer did stmt b Hs Hn Hb) as (sig & Hsig & Hseal & Hver).
  rewrite Hseal in H. apply Ok_inj in H as <-.
  assert (dict_set "sig" (PStr sig) stmt = stmt ++ [("sig", PStr sig)])%list as Hset.
  { apply dict_set_new. unfold dict_mem in Hn. by destruct (dict_get "sig" stmt). }
  rewrite Hset in *. apply canonical_json_Ok in Hb as (_ & Hj & _).
  exists sub, models, sig. split_and!; try done.
  - unfold models. destruct sc as [ms|]; [right; by eexists|by left].
  - cbn [jsonlike] in *. rewrite forallb_app, Hj. done.
Qed.

Section Items.
Context (rid did sub : string) (caps : list string) (task dao : string) (now ttl : Z) (nonce : string)
  (models : list (string * pyval)) (sig : string)
  (Hmodels : models = [] \/ exists l, models = [("scope_model_allowlist", PList (map PStr l))]).

Let token : list (string * pyval) :=
  (token_items rid did sub caps task dao now ttl nonce models ++ [("sig", PStr sig)])%list.

Lemma token_wf : wf (PDict token).
Proof.
  apply wf_PDict. unfold token, token_items.
  assert (forall l, wf (PList (map PStr l))) as Hl by (intros l; apply wf_PList, Forall_map, Forall_forall; done).
  destruct Hmodels as [->|[l ->]]; cbn [app];
    (split; [apply (bool_decide_eq_true_1 _); vm_compute; reflexivity|]);
    repeat (apply Forall_cons; split; cbn [snd]; [first [apply Hl|exact I]|]); constructor.
Qed.

Lemma norm_strs l : norm (PList (map PStr l)) = PList (map PStr l).
Proof. cbn [norm]. f_equal. rewrite map_map. by apply map_ext. Qed.

(** The signed token and the token read back agree on every field. *)
Lemma token_get (d : list (string * pyval)) :
  d = token \/ d = stored token ->
  get_or_none "kind" d = PStr NTH_CAP_TOKEN_KIND /\ get_or_none "token_id" d = PStr rid /\
  get_or_none "issuer_did" d = PStr did /\ get_or_none "capabilities" d = PList (map PStr (sorted_set caps)) /\
  get_default "scope_task_id" (PStr "") d = PStr task /\ get_default "scope_dao" (PStr "") d = PStr dao /\
  get_or_none "not_before" d = PInt now /\ get_or_none "not_after" d = PInt (now + ttl) /\
  get_or_none "sig" d = PStr sig /\ (forall f, In f REQUIRED_FIELDS -> dict_mem f d = true).
Proof.
  pose proof (proj1 (proj1 (wf_PDict token) token_wf)) as Hn.
  assert (forall k v, dict_get k token = Some v -> d = token \/ d = stored token -> norm v = v -> dict_get k d = Some v) as Hg.
  { intros k v Hk [->| ->] Hv; [done|].
    rewrite (dict_get_perm (map_snd norm token)); [|by rewrite dict_keys_map_snd|symmetry; apply stored_Permutation].
    rewrite dict_get_map_snd, Hk. cbn [option_map]. by rewrite Hv. }
  intros Hd. assert (forall k v, dict_get k token = Some v -> norm v = v -> dict_get k d = Some v) as Hg' by auto.
  unfold get_or_none, get_default.
  rewrite (Hg' "kind" (PStr NTH_CAP_TOKEN_KIND)), (Hg' "token_id" (PStr rid)), (Hg' "issuer_did" (PStr did)),
    (Hg' "capabilities" (PList (map PStr (sorted_set caps)))), (Hg' "scope_task_id" (PStr task)),
    (Hg' "scope_dao" (PStr dao)), (Hg' "not_before" (PInt now)), (Hg' "not_after" (PInt (now + ttl))),
    (Hg' "sig" (PStr sig)) by (done || apply norm_strs || by destruct Hmodels as [->|[l ->]]).
  split_and!; try done. intros f Hf. unfold dict_mem. destruct (dict_get f d) eqn:E; [done|].
  assert (exists v, dict_get f token = Some v /\ norm v = v) as (v & Hv & Hvn).
  { repeat destruct Hf as [<-|Hf]; try (eexists; split; [reflexivity|first [reflexivity|apply norm_strs]]); [|done..].
    destruct Hmodels as [->|[l ->]]; (eexists; split; [reflexivity|reflexivity]). }
  by rewrite (Hg' f v Hv Hvn) in E.
Qed.

Lemma token_acceptable clock want d :
  d = token \/ d = stored token -> nacl_available = true ->
  statement_signature did sig token = (true, "ok") -> jsonlike (PDict token) = true ->
  covered rid caps task dao want -> now <= clock <= now + ttl -> acceptable clock want d.
Proof.
  intros Hd Hnacl Hver Hj [_ Hl Hc Ht Hdao] Hw.
  destruct (token_get d Hd) as (Gk & Gt & Gi & Gc & Gst & Gsd & Gb & Ga & Gs & Gf).
  constructor; try done.
  - exists now, (now + ttl). by rewrite Gb, Ga.
  - right. rewrite Gt. split; [done|]. apply not_true_iff_false. by rewrite value_in_text.
  - exists (map PStr (sorted_set caps)). rewrite Gc. split.
    + cbn [py_set]. assert (forallb hashable (map PStr (sorted_set caps)) = true) as ->; [|done].
      apply forallb_forall. by intros v (x & <- & _)%in_map_iff.
    + intros c Hi. apply in_set_strs, sorted_set_In. by apply Hc.
  - by eapply in_scope_ok.
  - by eapply in_scope_ok.
  - destruct (token_get token (or_introl eq_refl)) as (_ & _ & _ & _ & _ & _ & _ & _ & Gs' & _).
    assert (text_of "sig" token = sig) as Htx by (unfold text_of; by rewrite Gs').
    rewrite <- Htx in Hver. apply statement_signature_signed in Hver as (pk & body & raw & Hpk & Hbody & Hraw & H64 & Hv); [|done].
    exists did, pk, body, raw. split_and!; try done.
    + rewrite Gs. cbn [py_str]. by rewrite <- Htx.
    + destruct Hd as [->| ->]; [done|]. by apply signing_body_stored; [apply token_wf|..].
Qed.
End Items.

(** A delegation reaches the verifier.  What [sign_cap_token] returns, sent
    through the authorization header and parsed back, is accepted at every
    moment of its window for every demand it covers, and refused at every other
    moment. *)
Theorem bearer_token_accepted issuer did subject caps task dao scope ttl tid now fresh nonce token clock want :
  signer issuer did ->
  sign_cap_token issuer subject caps task dao scope ttl tid now fresh nonce = Ok token ->
  strings_ok is_text (PDict token) = true ->
  covered (if String.eqb tid "" then fresh else tid) caps task dao want ->
  exists header d, encode_authorization_header token = Ok header /\
    decode_authorization_value header = Some (PDict d) /\
    (verify_cap_token clock want d = Ok (true, "") <-> now <= clock <= now + ttl).
Proof.
  intros Hs Hsign Htx Hcov.
  destruct (sign_cap_token_inv _ _ _ _ _ _ _ _ _ _ _ _ _ Hs Hsign) as (sub & models & sig & -> & _ & Hm & Htok & Hver & Hj).
  pose proof (token_wf (if String.eqb tid "" then fresh else tid) did sub caps task dao now ttl nonce models sig Hm) as Hw.
  rewrite <- Htok in Hw.
  assert (exists b, canonical_json (PDict token) = Ok b /\ b = dumps (PDict token)) as (b & Hb & Hbd).
  { eexists. split; [|reflexivity]. by apply canonical_json_total, encodable_text. }
  exists (b64u_encode b), (stored token). split_and!.
  - unfold encode_authorization_header. by rewrite Hb.
  - unfold decode_authorization_value. rewrite b64u_decode_encode. cbn [res_bind]. rewrite Hbd.
    by rewrite loads_bytes_dumps.
  - rewrite (cap_token_accepted clock want (stored token)) by apply nacl_present. rewrite (cv_clock _ _ _ _ _ Hcov). split.
    + intros [_ _ (nbf & exp & Hb' & He' & Hwin) _ _ _ _ _].
      destruct (token_get (if String.eqb tid "" then fresh else tid) did sub caps task dao now ttl nonce models sig Hm
        (stored token)) as (_ & _ & _ & _ & _ & _ & Gb & Ga & _); [right; by rewrite Htok|].
      rewrite Gb in Hb'. rewrite Ga in He'. cbn in Hb', He'. injection Hb' as <-. injection He' as <-. exact Hwin.
    + intros Hwin. apply (token_acceptable (if String.eqb tid "" then fresh else tid) did sub caps task dao now ttl
        nonce models sig Hm); try done; rewrite <- ?Htok; try done; [by right|apply nacl_present].
Qed.

(** ** Revocation *)

Lemma revoke_revokes tid s s' b :
  revoke tid s = (s', Ok b) ->
  exists old new, revoked_set s = Ok old /\ revoked_set s' = Ok new /\ tid ∈ new /\ old ⊆ new.
Proof.
  unfold revoke. destruct (_ || _); [done|]. destruct (revoked_set s) as [current|x] eqn:Ec; [|done].
  destruct (decide (tid ∈ current)) as [Hin|Hin].
  - intros [= <- <-]. by exists current, current.
  - intros [= <- <-]. eexists current, _. split_and!; [done|reflexivity|..].
    + apply elem_of_list_to_set, list_elem_of_In. rewrite map_map. apply in_map_iff. exists tid. split; [done|].
      apply list_elem_of_In. rewrite (merge_sort_Permutation String.le _), elem_of_elements. set_solver.
    + intros y Hy. apply elem_of_list_to_set, list_elem_of_In. rewrite map_map. apply in_map_iff. exists y.
      split; [done|]. apply list_elem_of_In. rewrite (merge_sort_Permutation String.le _), elem_of_elements. set_solver.
Qed.

(** The operations of the store. *)
Inductive store_op := Record (token : list (string * pyval)) | Revoke (tid : string).

Definition run_op (op : store_op) (s : token_store) : token_store :=
  match op with Record token => fst (record token s) | Revoke tid => fst (revoke tid s) end.

Lemma run_op_keeps op s X :
  revoked_set s = Ok X -> exists Y, revoked_set (run_op op s) = Ok Y /\ X ⊆ Y.
Proof.
  intros Hs. destruct op as [token|tid]; cbn [run_op].
  - exists X. unfold record. destruct (_ || _); [done|]. done.
  - destruct (revoke tid s) as [s' [b|x]] eqn:E.
    + destruct (revoke_revokes _ _ _ _ E) as (old & new & Ho & Hn & _ & Hsub). exists new.
      rewrite Hs in Ho. apply Ok_inj in Ho as ->. done.
    + exists X. split; [|done]. unfold revoke in E. destruct (_ || _); [by injection E as <- _|].
      rewrite Hs in E. destruct (decide _); [done|]. discriminate E.
Qed.

(** Revocation is final.  After [revoke] has succeeded, whatever tokens are
    recorded and revoked next, the revocation list that is read contains the
    id, and no token with that id is accepted against it, at any time and for
    any demand. *)
Theorem revoked_never_accepted tid s s' b ops :
  nacl_available = true -> revoke tid s = (s', Ok b) ->
  exists X, revoked_set (foldl (fun s op => run_op op s) s' ops) = Ok X /\ tid ∈ X /\
    forall clock want token, want.(revoked_ids) = elements X -> get_or_none "token_id" token = PStr tid ->
      verify_cap_token clock want token <> Ok (true, "").
Proof.
  intros Hn Hrev. destruct (revoke_revokes _ _ _ _ Hrev) as (_ & Y & _ & Hs & Hin & _). clear Hrev.
  assert (exists X, revoked_set (foldl (fun s op => run_op op s) s' ops) = Ok X /\ tid ∈ X) as (X & HX & HtX).
  { clear s b. revert s' Y Hs Hin. induction ops as [|op ops IH]; intros s Y Hs Hin; [by exists Y|]. cbn [foldl].
    destruct (run_op_keeps op s Y Hs) as (Z & HZ & Hsub). apply (IH _ Z); [done|set_solver]. }
  exists X. split_and!; [done..|]. intros clock want token Hw Ht Hacc.
  apply (cap_token_accepted clock want token Hn) in Hacc as [_ _ _ [He|[_ Hv]] _ _ _ _].
  - rewrite Hw in He. assert (tid ∈ elements X) as Hel by by apply elem_of_elements. rewrite He in Hel. by apply list_elem_of_In in Hel.
  - rewrite Hw, Ht in Hv. apply not_true_iff_false in Hv. apply Hv, value_in_text, list_elem_of_In. by apply elem_of_elements.
Qed.
End WithCrypto.

(** ** Examples *)

#[local] Existing Instance toy_ed25519.
#[local] Existing Instance toy_laws.
#[local] Instance toy_repr : PyRepr := fun _ => "".
#[local] Instance toy_unicode : UnicodeDB := fun _ => false.

Definition demo_token : list (string * pyval) := Eval vm_compute in
  match sign_cap_token (toy_identity "i") (PStr (toy_did "s")) ["a2a:task_get"; "nth:post_message"] "task1" "" None
          1000 "t1" 50 "" "n0" with
  | Ok d => d
  | Err _ => []
  end.

(** Asks for one of the capabilities, on the task of the token. *)
Definition demo_demand : demand :=
  {| now_ms_override := 0; revoked_ids := ["t2"]; required_capabilities := Some ["a2a:task_get"];
     required_task_id := "task1"; required_dao := "" |}.

Definition demo_store : token_store := {| issued := ∅; revoked_file := None |}.

Lemma cap_token_accepted_iff_witness :
  nacl_available = true /\
  (verify_cap_token 60 demo_demand demo_token = Ok (true, "") <-> acceptable 60 demo_demand demo_token).
Proof. split; [reflexivity|]. exact (cap_token_accepted_iff 60 demo_demand demo_token eq_refl). Defined.

Lemma bearer_token_accepted_witness :
  exists header d, encode_authorization_header demo_token = Ok header /\
    decode_authorization_value header = Some (PDict d) /\
    (verify_cap_token 60 demo_demand d = Ok (true, "") <-> 50 <= 60 <= 50 + 1000).
Proof.
  refine (bearer_token_accepted (toy_identity "i") (toy_did "i") (PStr (toy_did "s")) ["a2a:task_get"; "nth:post_message"]
    "task1" "" None 1000 "t1" 50 "" "n0" demo_token 60 demo_demand (toy_signer_of "i" eq_refl) _ _ _);
    [vm_compute; reflexivity|vm_compute; reflexivity|].
  split; [reflexivity|by intros [[=]|[]]|intros c [<-|[]]; by left|right; by right|by left].
Defined.

Lemma revoked_never_accepted_witness :
  exists s', revoke "t1" demo_store = (s', Ok true) /\
  exists X, revoked_set (foldl (fun s op => run_op op s) s' [Record demo_token; Revoke "t2"]) = Ok X /\ "t1" ∈ X /\
    forall clock want token, want.(revoked_ids) = elements X -> get_or_none "token_id" token = PStr "t1" ->
      verify_cap_token clock want token <> Ok (true, "").
Proof.
  eexists. split; [reflexivity|].
  exact (revoked_never_accepted "t1" demo_store _ true [Record demo_token; Revoke "t2"] eq_refl eq_refl).
Defined.
