(* ===== verification/Authz.v ===== *)
(** * The authorisation inbox ([nth_dao/authz/])

    An agent signs a request for capabilities, the operator of a node grants it
    by issuing a capability token or denies it, and the log keeps all three;
    [CapRequestProjection] folds them into the records of the inbox.

    [verify_cap_token] reads the clock, so the projection does too: [clock] is
    the time during a replay. *)

From Stdlib Require Import ZArith Lia Ascii String.
From stdpp Require Import base list strings gmap sorting.
From S2P Require Import Prelude PyStr PyValue CanonicalJson B64u DidKey Identity SpineEvent SpineLog Projection Governance Store PyOps CapToken.

Local Open Scope string_scope.
Local Open Scope Z_scope.

Definition CAP_REQUEST_KIND : string := "nth-cap-request-v1".

Section WithCrypto.
Context `{Ed : Ed25519} `{R : PyRepr} `{U : UnicodeDB}.

(** ** Requests ([request.py]) *)

(** [sign_cap_request]; [scope] is the dict given, if any *)
Definition sign_cap_request (requester : AgentIdentity) (capabilities : list pyval) (reason : string)
    (scope : option (list (string * pyval))) (request_id fresh_id : string) (issued_at_ms now : Z)
  : res (list (string * pyval)) :=
  let caps := List.filter (fun c => negb (String.eqb c "")) (map (fun c => py_strip (py_str c)) capabilities) in
  if match caps with [] => true | _ => false end then Err ValueError else
  let* did := as_did requester in
  seal requester [("kind", PStr CAP_REQUEST_KIND);
    ("request_id", PStr (if String.eqb request_id "" then fresh_id else request_id));
    ("requester_did", PStr did); ("capabilities", PList (map PStr (sorted_set caps))); ("reason", PStr reason);
    ("scope", PDict (default [] scope)); ("issued_at_ms", PInt (if issued_at_ms =? 0 then now else issued_at_ms))].

(** [verify_cap_request] *)
Definition verify_cap_request (stmt : pyval) : verdict :=
  match stmt with
  | PDict d =>
    if negb (py_eqb (get_or_none "kind" d) (PStr CAP_REQUEST_KIND)) then (false, "wrong kind") else
    match get_or_none "capabilities" d with
    | PList ((_ :: _) as caps) =>
      if negb (forallb nonempty_str caps) then (false, "missing/invalid capabilities") else
      if negb (texts_present ["request_id"; "requester_did"; "sig"] d) then (false, "missing/invalid field") else
      statement_signature (text_of "requester_did" d) (text_of "sig" d) d
    | _ => (false, "missing/invalid capabilities")
    end
  | _ => (false, "not a dict")
  end.

(** ** Decisions ([authz/__init__.py]) *)

Definition EVENT_CAP_REQUEST : string := "cap.request".
Definition EVENT_CAP_GRANT : string := "cap.grant".
Definition EVENT_CAP_DENY : string := "cap.deny".
Definition CAP_EVENTS : list string := [EVENT_CAP_REQUEST; EVENT_CAP_GRANT; EVENT_CAP_DENY].

(** [record_cap_request] *)
Definition record_cap_request (spine : AgentIdentity) (statement : pyval) (ts : Z)
    (rf : recovery_fault) (f : append_fault) (s : slog) : slog * res SpineEvent :=
  if negb (fst (verify_cap_request statement)) then (s, Err ValueError) else
  append spine EVENT_CAP_REQUEST statement ts rf f s.

(** [grant_cap_request]; [now] is the clock, [fresh_id] and [nonce] are random *)
Definition grant_cap_request (spine issuer : AgentIdentity) (request_id : string) (requester_did : pyval)
    (capabilities : list string) (scope : list (string * pyval)) (now_ms_override now : Z) (fresh_id nonce : string)
    (ts : Z) (rf : recovery_fault) (f : append_fault) (s : slog) : slog * res (list (string * pyval)) :=
  match (let* token := sign_cap_token issuer requester_did capabilities
                         (py_str (get_default "task_id" (PStr "") scope)) (py_str (get_default "dao" (PStr "") scope))
                         None DEFAULT_TTL_MS "" now fresh_id nonce in
         let* did := as_did issuer in Ok (token, did)) with
  | Err e => (s, Err e)
  | Ok (token, did) =>
    let (s, r) := append spine EVENT_CAP_GRANT (PDict [
      ("request_id", PStr request_id); ("requester_did", requester_did);
      ("capabilities", PList (map PStr (sorted_set capabilities))); ("cap_token", PDict token);
      ("decided_by_did", PStr did);
      ("decided_at_ms", PInt (if now_ms_override =? 0 then now else now_ms_override))]) ts rf f s in
    (s, res_map (fun _ => token) r)
  end.

(** [deny_cap_request] *)
Definition deny_cap_request (spine decider : AgentIdentity) (request_id reason : string) (now_ms_override now : Z)
    (ts : Z) (rf : recovery_fault) (f : append_fault) (s : slog) : slog * res SpineEvent :=
  match as_did decider with
  | Err e => (s, Err e)
  | Ok did =>
    append spine EVENT_CAP_DENY (PDict [("request_id", PStr request_id); ("decided_by_did", PStr did);
      ("reason", PStr reason); ("decided_at_ms", PInt (if now_ms_override =? 0 then now else now_ms_override))]) ts rf f s
  end.

(** ** The projection ([projection.py]) *)

Definition STATUS_PENDING : string := "pending".
Definition STATUS_GRANTED : string := "granted".
Definition STATUS_DENIED : string := "denied".

(** [CapRequestRecord] *)
Record CapRequestRecord := {
  request_id : string;
  requester_did : string;
  capabilities : list pyval;
  reason : string;
  scope : pyval;
  status : string;
  cap_token : option (list (string * pyval));
  decided_by_did : string;
  decided_at_ms : Z
}.

(** [self._reqs] *)
Abbreviation inbox := (list (string * CapRequestRecord)).

Definition granted_record (token : list (string * pyval)) (by_did : string) (at_ms : Z) (r : CapRequestRecord) :=
  {| request_id := r.(request_id); requester_did := r.(requester_did); capabilities := r.(capabilities);
     reason := r.(reason); scope := r.(scope); status := STATUS_GRANTED; cap_token := Some token;
     decided_by_did := by_did; decided_at_ms := at_ms |}.

Definition denied_record (why : string) (by_did : string) (at_ms : Z) (r : CapRequestRecord) :=
  {| request_id := r.(request_id); requester_did := r.(requester_did); capabilities := r.(capabilities);
     reason := why; scope := r.(scope); status := STATUS_DENIED; cap_token := r.(cap_token);
     decided_by_did := by_did; decided_at_ms := at_ms |}.

(** The branch of [apply] for a request. *)
Definition apply_request (rid : string) (payload : list (string * pyval)) (s : inbox) : inbox * res unit :=
  if negb (fst (verify_cap_request (PDict payload))) || dict_mem rid s then (s, Ok tt) else
  match (let* caps := iterate (get_default "capabilities" (PList []) payload) in
         let* scope := dict_of (get_default "scope" (PDict []) payload) in Ok (caps, scope)) with
  | Err e => (s, Err e)
  | Ok (caps, scope) =>
    (dict_set rid {| request_id := rid; requester_did := text_of "requester_did" payload; capabilities := caps;
                     reason := py_str (get_default "reason" (PStr "") payload); scope := scope;
                     status := STATUS_PENDING; cap_token := None; decided_by_did := ""; decided_at_ms := 0 |} s, Ok tt)
  end.

(** The branches for a decision on a pending request [rec]; [int] raises after
    the first fields are set. *)
Definition apply_grant (clock : Z) (rid : string) (rec : CapRequestRecord) (payload : list (string * pyval)) (s : inbox)
  : inbox * res unit :=
  match get_or_none "cap_token" payload with
  | PDict token =>
    match verify_cap_token clock no_demand token with
    | Err e => (s, Err e)
    | Ok (tok_ok, _) =>
      if negb tok_ok || negb (py_eqb (get_or_none "subject_did" token) (PStr rec.(requester_did))) then (s, Ok tt) else
      let by_did := py_str (get_default "decided_by_did" (PStr "") payload) in
      match py_int (get_default "decided_at_ms" (PInt 0) payload) with
      | Ok at_ms => (dict_set rid (granted_record token by_did at_ms rec) s, Ok tt)
      | Err e => (dict_set rid (granted_record token by_did rec.(decided_at_ms) rec) s, Err e)
      end
    end
  | _ => (s, Ok tt)
  end.

Definition apply_deny (rid : string) (rec : CapRequestRecord) (payload : list (string * pyval)) (s : inbox)
  : inbox * res unit :=
  let by_did := py_str (get_default "decided_by_did" (PStr "") payload) in
  match py_int (get_default "decided_at_ms" (PInt 0) payload) with
  | Err e => (dict_set rid (denied_record rec.(reason) by_did rec.(decided_at_ms) rec) s, Err e)
  | Ok at_ms =>
    let why := py_str (get_default "reason" (PStr "") payload) in
    (dict_set rid (denied_record (if String.eqb why "" then rec.(reason) else why) by_did at_ms rec) s, Ok tt)
  end.

(** [CapRequestProjection.apply] *)
Definition cap_apply (clock : Z) (event : SpineEvent) (s : inbox) : inbox * res unit :=
  if negb (existsb (String.eqb event.(type)) CAP_EVENTS) then (s, Ok tt) else
  let payload := event.(payload) in
  match get_or_none "request_id" payload with
  | PStr rid =>
    if String.eqb rid "" then (s, Ok tt) else
    if String.eqb event.(type) EVENT_CAP_REQUEST then apply_request rid payload s else
    match dict_get rid s with
    | Some rec =>
      if negb (String.eqb rec.(status) STATUS_PENDING) then (s, Ok tt) else
      if String.eqb event.(type) EVENT_CAP_GRANT then apply_grant clock rid rec payload s
      else apply_deny rid rec payload s
    | None => (s, Ok tt)
    end
  | _ => (s, Ok tt)
  end.

Definition CapRequestProjection (clock : Z) : Projection inbox := {| p_reset := []; p_apply := cap_apply clock |}.

(** [get], [pending], [all] *)
Definition inbox_get (rid : string) (s : inbox) : option CapRequestRecord := dict_get rid s.
Definition inbox_all (s : inbox) : list CapRequestRecord := map snd s.
Definition inbox_pending (s : inbox) : list CapRequestRecord :=
  List.filter (fun r => String.eqb r.(status) STATUS_PENDING) (inbox_all s).
End WithCrypto.
