(* ===== verification/AuthzSpec.v ===== *)
(** * What the authorisation inbox promises

    Every record stands on a request its requester signed; it is granted only
    with an accepted token issued to that requester; what was decided stays, as
    long as the clock leaves the tokens of the decisions valid. *)

From Stdlib Require Import ZArith Lia Ascii String.
From stdpp Require Import base list strings gmap.
From S2P Require Import Prelude PyStr PyValue CanonicalJson B64u DidKey Identity SpineEvent SpineLog Projection Governance Store PyOps CapToken CapTokenSpec Authz.

Local Open Scope string_scope.
Local Open Scope Z_scope.

Section WithCrypto.
Context `{Ed : Ed25519} `{R : PyRepr} `{U : UnicodeDB}.

(** A request in the log, signed by the requester. *)
Definition requested (evs : list SpineEvent) (rid did : string) : Prop :=
  exists ev, In ev evs /\ ev.(type) = EVENT_CAP_REQUEST /\ get_or_none "request_id" ev.(payload) = PStr rid /\
    text_of "requester_did" ev.(payload) = did /\ signed_by did ev.(payload).

(** A grant in the log with a token that is accepted at [clock]. *)
Definition granted_by (clock : Z) (evs : list SpineEvent) (rid did : string) (token : list (string * pyval)) : Prop :=
  exists ev, In ev evs /\ ev.(type) = EVENT_CAP_GRANT /\ get_or_none "request_id" ev.(payload) = PStr rid /\
    get_or_none "cap_token" ev.(payload) = PDict token /\ get_or_none "subject_did" token = PStr did /\
    acceptable clock no_demand token.

Definition denied_in (evs : list SpineEvent) (rid : string) : Prop :=
  exists ev, In ev evs /\ ev.(type) = EVENT_CAP_DENY /\ get_or_none "request_id" ev.(payload) = PStr rid.

(** What a record stands on. *)
Definition consented (clock : Z) (evs : list SpineEvent) (rid : string) (r : CapRequestRecord) : Prop :=
  r.(request_id) = rid /\ requested evs rid r.(requester_did) /\
  ((r.(status) = STATUS_PENDING /\ r.(cap_token) = None) \/
   (r.(status) = STATUS_GRANTED /\ exists token, r.(cap_token) = Some token /\
      granted_by clock evs rid r.(requester_did) token) \/
   (r.(status) = STATUS_DENIED /\ r.(cap_token) = None /\ denied_in evs rid)).

Lemma consented_more clock evs ev rid r : consented clock evs rid r -> consented clock (evs ++ [ev]) rid r.
Proof.
  assert (forall e, In e evs -> In e (evs ++ [ev])%list) as Hin by (intros e; rewrite in_app_iff; auto).
  intros (Hid & (e & He & Hr) & Hs). split_and!; [done|exists e; auto|].
  destruct Hs as [Hs|[(Hs & token & Ht & e' & He' & Hg)|(Hs & Ht & e' & He' & Hg)]].
  - by left.
  - right; left. split; [done|]. exists token. split; [done|]. exists e'. auto.
  - right; right. split_and!; [done..|]. exists e'. auto.
Qed.

Lemma verified_request_signed d :
  nacl_available = true -> fst (verify_cap_request (PDict d)) = true -> signed_by (text_of "requester_did" d) d.
Proof.
  intros Hn H. unfold verify_cap_request in H.
  destruct (negb _); [done|]. destruct (get_or_none "capabilities" d) as [| | | | |[|c l]| |]; try done.
  destruct (negb _); [done|]. destruct (negb _); [done|].
  destruct (statement_signature _ _ d) as [[] why] eqn:E; [|done]. by eapply statement_signature_signed.
Qed.

Lemma in_snoc {A} (l : list A) x : In x (l ++ [x])%list.
Proof. apply in_app_iff. right. by left. Qed.

(** The state only changes at the key of the event, and only to a record that
    its event justifies. *)
Lemma cap_apply_cases clock ev s :
  nacl_available = true ->
  fst (cap_apply clock ev s) = s \/
  exists rid r, get_or_none "request_id" ev.(payload) = PStr rid /\ fst (cap_apply clock ev s) = dict_set rid r s /\
    ((dict_get rid s = None /\ ev.(type) = EVENT_CAP_REQUEST /\ r.(request_id) = rid /\
      r.(requester_did) = text_of "requester_did" ev.(payload) /\ r.(status) = STATUS_PENDING /\ r.(cap_token) = None /\
      signed_by r.(requester_did) ev.(payload)) \/
     exists old, dict_get rid s = Some old /\ old.(status) = STATUS_PENDING /\ r.(request_id) = old.(request_id) /\
       r.(requester_did) = old.(requester_did) /\ r.(capabilities) = old.(capabilities) /\ r.(scope) = old.(scope) /\
       ((ev.(type) = EVENT_CAP_GRANT /\ r.(status) = STATUS_GRANTED /\ exists token, r.(cap_token) = Some token /\
           get_or_none "cap_token" ev.(payload) = PDict token /\ get_or_none "subject_did" token = PStr old.(requester_did) /\
           acceptable clock no_demand token) \/
        (ev.(type) = EVENT_CAP_DENY /\ r.(status) = STATUS_DENIED /\ r.(cap_token) = old.(cap_token)))).
Proof.
  intros Hn. unfold cap_apply. destruct (existsb _ _) eqn:Hty; [cbn [negb]|by left].
  destruct (get_or_none "request_id" (payload ev)) as [| | | |rid| | |] eqn:Hrid; try (by left).
  destruct (String.eqb rid ""); [by left|]. destruct (String.eqb_spec (type ev) EVENT_CAP_REQUEST) as [Hreq|Hreq].
  - unfold apply_request. destruct (fst (verify_cap_request (PDict (payload ev)))) eqn:Hv; [cbn [negb orb]|by left].
    unfold dict_mem. destruct (dict_get rid s) as [old|] eqn:Hold; [by left|].
    destruct (res_bind _ _) as [[caps sc]|]; [|by left]. right. exists rid. eexists.
    split_and!; [done|reflexivity|]. left. split_and!; try done. by apply verified_request_signed.
  - destruct (dict_get rid s) as [old|] eqn:Hold; [|by left].
    destruct (String.eqb_spec (status old) STATUS_PENDING) as [Hp|]; [cbn [negb]|by left].
    destruct (String.eqb_spec (type ev) EVENT_CAP_GRANT) as [Hg|Hg].
    + unfold apply_grant. destruct (get_or_none "cap_token" (payload ev)) as [| | | | | |token|] eqn:Htok; try (by left).
      destruct (verify_cap_token clock no_demand token) as [[ok why]|] eqn:Hv; [|by left].
      destruct ok; [cbn [negb orb]|by left].
      destruct (py_eqb _ _) eqn:Hsub; [cbn [negb]|by left]. apply py_eqb_PStr_r in Hsub.
      assert (why = "") as -> by by eapply verify_cap_token_reason.
      apply (cap_token_accepted clock no_demand token Hn) in Hv. right.
      destruct (py_int _); exists rid; (eexists; split_and!; [done|reflexivity|]); right; exists old;
        split_and!; try done; left; (split_and!; [done..|]); by exists token.
    + assert (ev.(type) = EVENT_CAP_DENY) as Hd.
      { apply existsb_exists in Hty as (t & Hin & Heq). apply String.eqb_eq in Heq. subst t.
        destruct Hin as [E|[E|[E|[]]]]; [by destruct Hreq|by destruct Hg|done]. }
      unfold apply_deny. right. destruct (py_int _); exists rid; (eexists; split_and!; [done|reflexivity|]);
        right; exists old; split_and!; try done; right; done.
Qed.

Lemma cap_apply_consented clock evs ev s :
  nacl_available = true ->
  (forall rid r, dict_get rid s = Some r -> consented clock evs rid r) ->
  forall rid r, dict_get rid (fst (cap_apply clock ev s)) = Some r -> consented clock (evs ++ [ev]) rid r.
Proof.
  intros Hn IH rid r Hr. destruct (cap_apply_cases clock ev s Hn) as [E|(k & new & Hrid & E & Hnew)]; rewrite E in Hr.
  { by apply consented_more, IH. }
  rewrite dict_get_set in Hr. destruct (String.eqb_spec k rid) as [->|]; [|by apply consented_more, IH].
  injection Hr as <-. pose proof (in_snoc evs ev) as Hin.
  destruct Hnew as [(_ & Ht & Hid & Hd & Hst & Htok & Hsig)|(old & Hold & Hp & Hid & Hd & _ & _ & Hnew)].
  - split_and!; [done| |by left]. exists ev. by rewrite Hd in *.
  - apply IH, (consented_more clock evs ev) in Hold as (Hoid & Hreq & Hst).
    split_and!; [congruence|by rewrite Hd|].
    assert (old.(cap_token) = None) as Hnone.
    { destruct Hst as [[_ H]|[[H _]|[H _]]]; [done|rewrite Hp in H; discriminate H..]. }
    destruct Hnew as [(Ht & Hs' & token & Htok & Hct & Hsub & Hacc)|(Ht & Hs' & Htok)].
    + right; left. split; [done|]. exists token. split; [done|]. exists ev. rewrite Hd. done.
    + right; right. split_and!; [done|congruence|]. by exists ev.
Qed.

Lemma inbox_consented clock events rid r :
  nacl_available = true ->
  dict_get rid (fst (replay (P := CapRequestProjection clock) events [])) = Some r ->
  consented clock events rid r.
Proof.
  intros Hn.
  destruct (replay_invariant (P := CapRequestProjection clock)
    (fun evs s => forall rid r, dict_get rid s = Some r -> consented clock evs rid r)) with
    (evs0 := @nil SpineEvent) (evs := events) (s := @nil (string * CapRequestRecord))
    as (seen & (later & ->) & Hs); [|done|].
  - intros evs ev s. by apply cap_apply_consented.
  - intros Hr. apply Hs in Hr. clear Hs. cbn [app] in Hr. clear -Hr.
    induction later as [|ev later IH] using rev_ind; [by rewrite app_nil_r|]. rewrite app_assoc. by apply consented_more.
Qed.

(** One event leaves decided records, and the identity of all records. *)
Lemma cap_apply_final clock ev s rid r :
  nacl_available = true -> dict_get rid s = Some r ->
  exists r', dict_get rid (fst (cap_apply clock ev s)) = Some r' /\ r'.(request_id) = r.(request_id) /\
    r'.(requester_did) = r.(requester_did) /\ r'.(capabilities) = r.(capabilities) /\ r'.(scope) = r.(scope) /\
    (r.(status) <> STATUS_PENDING -> r' = r).
Proof.
  intros Hn Hr. destruct (cap_apply_cases clock ev s Hn) as [E|(k & new & _ & E & Hnew)]; rewrite E.
  { by exists r. }
  rewrite dict_get_set. destruct (String.eqb_spec k rid) as [->|]; [|by exists r].
  exists new. destruct Hnew as [(Hnone & _)|(old & Hold & Hp & Hid & Hd & Hc & Hsc & _)]; [congruence|].
  rewrite Hr in Hold. injection Hold as <-. by split_and!.
Qed.

Lemma inbox_final clock events later rid r :
  nacl_available = true ->
  dict_get rid (fst (replay (P := CapRequestProjection clock) events [])) = Some r ->
  exists r', dict_get rid (fst (replay (P := CapRequestProjection clock) (events ++ later) [])) = Some r' /\
    r'.(request_id) = r.(request_id) /\ r'.(requester_did) = r.(requester_did) /\
    r'.(capabilities) = r.(capabilities) /\ r'.(scope) = r.(scope) /\ (r.(status) <> STATUS_PENDING -> r' = r).
Proof.
  intros Hn. rewrite replay_app. destruct (replay events []) as [s [u|x]]; cbn [fst]; [|by exists r].
  clear events. revert s r. induction later as [|ev later IH]; intros s r Hr; [by exists r|]. cbn [replay].
  destruct (cap_apply_final clock ev s rid r Hn Hr) as (r1 & H1 & E1 & E2 & E3 & E4 & E5).
  change (p_apply ev s) with (cap_apply clock ev s). destruct (cap_apply clock ev s) as [s1 [u'|x]]; cbn [fst] in *.
  - destruct (IH s1 r1 H1) as (r2 & H2 & F1 & F2 & F3 & F4 & F5). exists r2.
    split_and!; [done|congruence..|]. intros Hd. rewrite F5; [by apply E5|]. by rewrite E5.
  - exists r1. by split_and!.
Qed.
(** Between two clock readings, no token granted in the log expires or becomes
    valid. *)
Definition tokens_stand (clock clock' : Z) (evs : list SpineEvent) : Prop :=
  forall ev token, In ev evs -> get_or_none "cap_token" ev.(payload) = PDict token ->
    verify_cap_token clock' no_demand token = verify_cap_token clock no_demand token.

(** The replay looks at the clock through the tokens only. *)
Lemma replay_tokens_stand clock clock' evs : forall s,
  tokens_stand clock clock' evs ->
  replay (P := CapRequestProjection clock') evs s = replay (P := CapRequestProjection clock) evs s.
Proof.
  induction evs as [|ev evs IH]; intros s Hst; [done|]. cbn [replay].
  assert (cap_apply clock' ev s = cap_apply clock ev s) as E.
  { unfold cap_apply, apply_grant. destruct (negb _); [done|]. destruct (get_or_none "request_id" _); try done.
    destruct (String.eqb _ ""); [done|]. destruct (String.eqb _ EVENT_CAP_REQUEST); [done|].
    destruct (dict_get _ s); [|done]. destruct (negb _); [done|]. destruct (String.eqb _ EVENT_CAP_GRANT); [|done].
    destruct (get_or_none "cap_token" (payload ev)) as [| | | | | |token|] eqn:Et; try done.
    by rewrite (Hst ev token (or_introl eq_refl) Et). }
  change (p_apply (Projection := CapRequestProjection clock') ev s) with (cap_apply clock' ev s).
  change (p_apply (Projection := CapRequestProjection clock) ev s) with (cap_apply clock ev s). rewrite E.
  destruct (cap_apply clock ev s) as [s1 [u|x]]; [|done]. apply IH. intros e token Hin. apply Hst. by right.
Qed.

(** C32. The inbox is consented and, while its tokens stand, final.  Whatever
    the events and wherever an exception stops the replay, every record stands
    on a request in the log that its requester signed; it is granted only if
    the log has a grant of it whose token is accepted at the clock of the
    replay and was issued to that requester, and carries that token; it is
    denied only if the log has a denial of it.  A replay of more events, at the
    same clock reading or at any other between which no token in the log
    expires or becomes valid, never changes its requester, capabilities and
    scope, and changes nothing of it once it is granted or denied.  (A replay
    after the expiry of a token does change it: its grant is not applied.) *)
Theorem inbox_is_consented_and_final clock clock' events later rid r :
  nacl_available = true -> tokens_stand clock clock' (events ++ later) ->
  dict_get rid (fst (replay (P := CapRequestProjection clock) events [])) = Some r ->
  consented clock events rid r /\
  exists r', dict_get rid (fst (replay (P := CapRequestProjection clock') (events ++ later) [])) = Some r' /\
    r'.(request_id) = r.(request_id) /\ r'.(requester_did) = r.(requester_did) /\
    r'.(capabilities) = r.(capabilities) /\ r'.(scope) = r.(scope) /\ (r.(status) <> STATUS_PENDING -> r' = r).
Proof.
  intros Hn Hst Hr. split; [by apply inbox_consented|]. rewrite (replay_tokens_stand _ _ _ _ Hst).
  by apply inbox_final.
Qed.

(** C40. A signed request can stop the inbox.  [verify_cap_request] does not look
    at the scope, and [dict(scope)] raises when it is not a mapping: once such a
    request with a new id is in the log, every replay raises at it, and no later
    event is ever applied. *)
Theorem signed_request_stops_inbox clock events later ev rid s e :
  replay (P := CapRequestProjection clock) events [] = (s, Ok tt) ->
  ev.(type) = EVENT_CAP_REQUEST -> get_or_none "request_id" ev.(payload) = PStr rid -> dict_get rid s = None ->
  fst (verify_cap_request (PDict ev.(payload))) = true ->
  dict_of (get_default "scope" (PDict []) ev.(payload)) = Err e ->
  replay (P := CapRequestProjection clock) (events ++ ev :: later) [] = (s, Err e).
Proof.
  intros Hr Ht Hrid Hnew Hv Hsc. rewrite replay_app, Hr. cbn [replay].
  change (p_apply ev s) with (cap_apply clock ev s). unfold cap_apply. rewrite Ht, Hrid.
  assert (rid <> "") as Hne.
  { intros ->. unfold verify_cap_request in Hv.
    destruct (negb _); [done|]. destruct (get_or_none "capabilities" _) as [| | | | |[|c l]| |]; try done.
    destruct (negb _); [done|]. destruct (texts_present _ _) eqn:Htx; [|done].
    unfold texts_present in Htx. cbn [forallb] in Htx. by rewrite Hrid in Htx. }
  rewrite (proj2 (String.eqb_neq rid "")) by done. cbn [existsb CAP_EVENTS]. rewrite String.eqb_refl. cbn [negb orb].
  unfold apply_request, dict_mem. rewrite Hv, Hnew. cbn [negb orb].
  assert (exists caps, iterate (get_default "capabilities" (PList []) ev.(payload)) = Ok caps) as [caps ->].
  { unfold verify_cap_request in Hv. destruct (negb _); [done|]. unfold get_default, get_or_none in *.
    destruct (dict_get "capabilities" ev.(payload)) as [[| | | | |l| |]|]; try done. by exists l. }
  cbn [res_bind]. by rewrite Hsc.
Qed.
End WithCrypto.

(** ** Examples *)

#[local] Existing Instance toy_ed25519.
#[local] Existing Instance toy_laws.
#[local] Instance toy_repr : PyRepr := fun _ => "".
#[local] Instance toy_unicode : UnicodeDB := fun _ => false.

Definition event_of (ty : string) (p : list (string * pyval)) : SpineEvent :=
  {| seq := 0; prev_hash := ""; type := ty; payload := p; author_did := ""; ts_ms := 1; content_hash := ""; sig := "" |}.

Definition demo_request : list (string * pyval) := Eval vm_compute in
  match sign_cap_request (toy_identity "s") [PStr "a2a:task_get"] "why" None "r1" "" 5 0 with Ok d => d | Err _ => [] end.
Definition demo_grant : list (string * pyval) := Eval vm_compute in
  match sign_cap_token (toy_identity "i") (PStr (toy_did "s")) ["a2a:task_get"] "" "" None 1000 "t1" 50 "" "n0" with
  | Ok d => [("request_id", PStr "r1"); ("cap_token", PDict d); ("decided_by_did", PStr (toy_did "i"));
             ("decided_at_ms", PInt 50)]
  | Err _ => []
  end.
Definition demo_inbox : list SpineEvent := [event_of EVENT_CAP_REQUEST demo_request; event_of EVENT_CAP_GRANT demo_grant].
Definition demo_record : CapRequestRecord := Eval vm_compute in
  match dict_get "r1" (fst (replay (P := CapRequestProjection 60) demo_inbox [])) with
  | Some r => r
  | None => {| request_id := ""; requester_did := ""; capabilities := []; reason := ""; scope := PNone; status := "";
               cap_token := None; decided_by_did := ""; decided_at_ms := 0 |}
  end.

Definition demo_denied : list SpineEvent := demo_inbox ++ [event_of EVENT_CAP_DENY demo_grant].

Definition demo_token : list (string * pyval) :=
  match get_or_none "cap_token" demo_grant with PDict token => token | _ => [] end.

Lemma demo_token_stands : verify_cap_token 900 no_demand demo_token = verify_cap_token 60 no_demand demo_token.
Proof. vm_compute. reflexivity. Qed.

Lemma demo_tokens_stand : tokens_stand 60 900 demo_denied.
Proof.
  intros ev token Hin Ht.
  assert (token = demo_token) as ->; [|exact demo_token_stands].
  destruct Hin as [<-|[<-|[<-|[]]]]; [discriminate Ht|injection Ht as <-; reflexivity..].
Qed.

Lemma inbox_is_consented_and_final_witness :
  demo_record.(status) = STATUS_GRANTED /\ consented 60 demo_inbox "r1" demo_record /\
  exists r', dict_get "r1" (fst (replay (P := CapRequestProjection 900) demo_denied [])) = Some r' /\
    r'.(request_id) = demo_record.(request_id) /\ r'.(requester_did) = demo_record.(requester_did) /\
    r'.(capabilities) = demo_record.(capabilities) /\ r'.(scope) = demo_record.(scope) /\
    (demo_record.(status) <> STATUS_PENDING -> r' = demo_record).
Proof.
  split; [reflexivity|].
  refine (inbox_is_consented_and_final 60 900 demo_inbox [event_of EVENT_CAP_DENY demo_grant] "r1" demo_record eq_refl
            demo_tokens_stand _).
  vm_compute. reflexivity.
Defined.

(** Once the token has expired, a replay of the same log leaves the granted
    request pending, and a denial in it counts. *)
Example expired_grant_reverts :
  option_map status (dict_get "r1" (fst (replay (P := CapRequestProjection 60) demo_denied []))) = Some STATUS_GRANTED /\
  option_map status (dict_get "r1" (fst (replay (P := CapRequestProjection 2000) demo_inbox []))) = Some STATUS_PENDING /\
  option_map status (dict_get "r1" (fst (replay (P := CapRequestProjection 2000) demo_denied []))) = Some STATUS_DENIED.
Proof. vm_compute. done. Qed.

Definition demo_bad_request : list (string * pyval) := Eval vm_compute in
  match seal (toy_identity "s") [("kind", PStr CAP_REQUEST_KIND); ("request_id", PStr "r2");
          ("requester_did", PStr (toy_did "s")); ("capabilities", PList [PStr "a2a:task_get"]); ("scope", PNone)] with
  | Ok d => d
  | Err _ => []
  end.

Lemma signed_request_stops_inbox_witness :
  replay (P := CapRequestProjection 60) ([] ++ event_of EVENT_CAP_REQUEST demo_bad_request :: demo_inbox) [] = ([], Err TypeError).
Proof.
  refine (signed_request_stops_inbox 60 [] demo_inbox (event_of EVENT_CAP_REQUEST demo_bad_request) "r2" [] TypeError
    eq_refl eq_refl eq_refl eq_refl _ eq_refl). vm_compute. reflexivity.
Defined.
