(* ===== verification/Dispute.v ===== *)
(** * Disputes ([nth_dao/dispute/])

    The parties sign what they open, add and rule; the statements are events of
    the log and [DisputeProjection] folds them into one record per dispute. *)

From Stdlib Require Import ZArith Lia Ascii String.
From stdpp Require Import base list strings gmap sorting.
From S2P Require Import Prelude PyStr PyValue CanonicalJson B64u DidKey Identity SpineEvent SpineLog Projection Store PyOps CapToken Authz.

Local Open Scope string_scope.
Local Open Scope Z_scope.

(** ** Statements ([statement.py]) *)

Definition DISPUTE_STATEMENT_KIND : string := "nth-dispute-statement-v1".
Definition DISPUTE_OPEN : string := "open".
Definition DISPUTE_EVIDENCE : string := "evidence".
Definition DISPUTE_RESOLVE : string := "resolve".
Definition DISPUTE_TYPES : list string := [DISPUTE_OPEN; DISPUTE_EVIDENCE; DISPUTE_RESOLVE].

Definition EVENT_DISPUTE_OPEN : string := "dispute.open".
Definition EVENT_DISPUTE_EVIDENCE : string := "dispute.evidence".
Definition EVENT_DISPUTE_RESOLVE : string := "dispute.resolve".
Definition DISPUTE_EVENTS : list string := [EVENT_DISPUTE_OPEN; EVENT_DISPUTE_EVIDENCE; EVENT_DISPUTE_RESOLVE].

Definition STATUS_OPEN : string := "open".
Definition STATUS_RESOLVED : string := "resolved".

(** [DisputeRecord] *)
Record DisputeRecord := {
  dispute_id : string;
  announcement_id : string;
  opener_did : string;
  status : string;
  ruling : pyval;
  arbiter_did : string;
  statements : list (list (string * pyval))
}.

(** [self._disputes] *)
Abbreviation docket := (list (string * DisputeRecord)).

Section WithCrypto.
Context `{Ed : Ed25519}.

(** [sign_dispute_statement]; [body] is the dict given, if any *)
Definition sign_dispute_statement (signer : AgentIdentity) (statement_type announcement_id : string)
    (body : option (list (string * pyval))) (dispute_id fresh_id : string) (issued_at_ms now : Z)
  : res (list (string * pyval)) :=
  if negb (existsb (String.eqb statement_type) DISPUTE_TYPES) then Err ValueError else
  if String.eqb announcement_id "" then Err ValueError else
  let* did := as_did signer in
  seal signer [("kind", PStr DISPUTE_STATEMENT_KIND); ("type", PStr statement_type);
    ("dispute_id", PStr (if String.eqb dispute_id "" then fresh_id else dispute_id));
    ("announcement_id", PStr announcement_id); ("signer_did", PStr did);
    ("issued_at_ms", PInt (if issued_at_ms =? 0 then now else issued_at_ms)); ("body", PDict (default [] body))].

(** [verify_dispute_statement] *)
Definition verify_dispute_statement (stmt : pyval) : verdict :=
  match stmt with
  | PDict d =>
    if negb (py_eqb (get_or_none "kind" d) (PStr DISPUTE_STATEMENT_KIND)) then (false, "wrong kind") else
    if negb (value_in (get_or_none "type" d) DISPUTE_TYPES) then (false, "unknown type") else
    if negb (texts_present ["dispute_id"; "announcement_id"; "signer_did"; "sig"] d)
    then (false, "missing/invalid field") else
    statement_signature (text_of "signer_did" d) (text_of "sig" d) d
  | _ => (false, "not a dict")
  end.

(** [record_dispute] *)
Definition record_dispute (spine : AgentIdentity) (statement : pyval) (ts : Z)
    (rf : recovery_fault) (f : append_fault) (s : slog) : slog * res SpineEvent :=
  if negb (fst (verify_dispute_statement statement)) then (s, Err ValueError) else
  match statement with
  | PDict d => append spine ("dispute." ++ text_of "type" d) statement ts rf f s
  | _ => (s, Err ValueError)
  end.

(** ** The projection ([projection.py]) *)

Definition opened (did : string) (stmt : list (string * pyval)) : DisputeRecord :=
  {| dispute_id := did; announcement_id := text_of "announcement_id" stmt; opener_did := text_of "signer_did" stmt;
     status := STATUS_OPEN; ruling := PDict []; arbiter_did := ""; statements := [stmt] |}.

(** [rec.statements.append(stmt)] *)
Definition with_statement (stmt : list (string * pyval)) (r : DisputeRecord) : DisputeRecord :=
  {| dispute_id := r.(dispute_id); announcement_id := r.(announcement_id); opener_did := r.(opener_did);
     status := r.(status); ruling := r.(ruling); arbiter_did := r.(arbiter_did);
     statements := (r.(statements) ++ [stmt])%list |}.

Definition resolved (ruling : pyval) (arbiter : string) (r : DisputeRecord) : DisputeRecord :=
  {| dispute_id := r.(dispute_id); announcement_id := r.(announcement_id); opener_did := r.(opener_did);
     status := STATUS_RESOLVED; ruling := ruling; arbiter_did := arbiter; statements := r.(statements) |}.

(** [DisputeProjection.apply]; [dict(body)] raises with the status already set *)
Definition dispute_apply (event : SpineEvent) (s : docket) : docket * res unit :=
  if negb (existsb (String.eqb event.(type)) DISPUTE_EVENTS) then (s, Ok tt) else
  let stmt := event.(payload) in
  if negb (fst (verify_dispute_statement (PDict stmt))) then (s, Ok tt) else
  let did := text_of "dispute_id" stmt in
  if String.eqb event.(type) EVENT_DISPUTE_OPEN then
    (match dict_get did s with None => dict_set did (opened did stmt) s | Some _ => s end, Ok tt)
  else
  match dict_get did s with
  | None => (s, Ok tt)
  | Some rec =>
    if negb (String.eqb (text_of "announcement_id" stmt) rec.(announcement_id)) then (s, Ok tt) else
    let rec := with_statement stmt rec in
    if String.eqb event.(type) EVENT_DISPUTE_RESOLVE && negb (String.eqb rec.(status) STATUS_RESOLVED) then
      match dict_of (get_default "body" (PDict []) stmt) with
      | Ok ruling => (dict_set did (resolved ruling (text_of "signer_did" stmt) rec) s, Ok tt)
      | Err e => (dict_set did (resolved rec.(ruling) rec.(arbiter_did) rec) s, Err e)
      end
    else (dict_set did rec s, Ok tt)
  end.

Global Instance DisputeProjection : Projection docket := {| p_reset := []; p_apply := dispute_apply |}.

(** [all], [for_announcement] *)
Definition docket_all (s : docket) : list DisputeRecord := map snd s.
Definition for_announcement (announcement : string) (s : docket) : list DisputeRecord :=
  List.filter (fun r => String.eqb r.(announcement_id) announcement) (docket_all s).
End WithCrypto.
