(* ===== verification/DisputeSpec.v ===== *)
(** * What disputes promise

    A dispute is what its parties signed: it starts with the opener's statement,
    grows by signed statements about the same announcement, and keeps its first
    ruling. *)

From Stdlib Require Import ZArith Lia Ascii String.
From stdpp Require Import base list strings.
From S2P Require Import Prelude PyStr PyValue CanonicalJson B64u DidKey Identity SpineEvent Projection PyOps Authz Dispute.

Local Open Scope string_scope.
Local Open Scope Z_scope.

Section Spec.
Context `{Ed : Ed25519}.

(** A statement about a dispute that the party it names signed, in an event of
    the log. *)
Definition statement_of (evs : list SpineEvent) (types : list string) (did ann : string)
    (stmt : list (string * pyval)) : Prop :=
  exists ev, In ev evs /\ In ev.(type) types /\ ev.(payload) = stmt /\ text_of "dispute_id" stmt = did /\
    text_of "announcement_id" stmt = ann /\ signed_by (text_of "signer_did" stmt) stmt.

(** What a record stands on: an open statement, then evidence and rulings. *)
Definition grounded (evs : list SpineEvent) (did : string) (r : DisputeRecord) : Prop :=
  r.(dispute_id) = did /\
  (exists first rest, r.(statements) = first :: rest /\
     statement_of evs [EVENT_DISPUTE_OPEN] did r.(announcement_id) first /\ r.(opener_did) = text_of "signer_did" first /\
     Forall (statement_of evs [EVENT_DISPUTE_EVIDENCE; EVENT_DISPUTE_RESOLVE] did r.(announcement_id)) rest) /\
  (r.(status) = STATUS_OPEN \/
   (r.(status) = STATUS_RESOLVED /\ exists stmt, In stmt r.(statements) /\
      statement_of evs [EVENT_DISPUTE_RESOLVE] did r.(announcement_id) stmt)).

Lemma statement_of_more evs ev types did ann stmt :
  statement_of evs types did ann stmt -> statement_of (evs ++ [ev]) types did ann stmt.
Proof. intros (e & He & Hr). exists e. rewrite in_app_iff. auto. Qed.

Lemma grounded_more evs ev did r : grounded evs did r -> grounded (evs ++ [ev]) did r.
Proof.
  intros (Hid & (first & rest & Hst & Hf & Ho & Hr) & Hs). split_and!; [done| |].
  - exists first, rest. split_and!; [done|by apply statement_of_more|done|].
    eapply Forall_impl; [exact Hr|]. intros x. apply statement_of_more.
  - destruct Hs as [Hs|(Hs & stmt & Hi & Hst')]; [by left|right]. split; [done|].
    exists stmt. split; [done|by apply statement_of_more].
Qed.

Lemma verified_dispute_signed d :
  nacl_available = true -> fst (verify_dispute_statement (PDict d)) = true -> signed_by (text_of "signer_did" d) d.
Proof.
  intros Hn H. unfold verify_dispute_statement in H.
  repeat match type of H with fst (if ?b then _ else _) = true => destruct b; [discriminate H|] end.
  destruct (statement_signature _ _ d) as [[] why] eqn:E; [|done]. by eapply statement_signature_signed.
Qed.

(** An event changes at most the record of its dispute, to a new one or by
    adding its statement to it. *)
Lemma dispute_apply_cases ev s :
  nacl_available = true ->
  fst (dispute_apply ev s) = s \/
  let did := text_of "dispute_id" ev.(payload) in
  signed_by (text_of "signer_did" ev.(payload)) ev.(payload) /\ exists r, fst (dispute_apply ev s) = dict_set did r s /\
    ((dict_get did s = None /\ ev.(type) = EVENT_DISPUTE_OPEN /\ r = opened did ev.(payload)) \/
     exists old, dict_get did s = Some old /\ text_of "announcement_id" ev.(payload) = old.(announcement_id) /\
       ((In ev.(type) [EVENT_DISPUTE_EVIDENCE; EVENT_DISPUTE_RESOLVE] /\ r = with_statement ev.(payload) old) \/
        (ev.(type) = EVENT_DISPUTE_RESOLVE /\ old.(status) <> STATUS_RESOLVED /\
         exists ruling arbiter, r = resolved ruling arbiter (with_statement ev.(payload) old)))).
Proof.
  intros Hn. unfold dispute_apply. destruct (existsb _ _) eqn:Hty; [cbn [negb]|by left].
  destruct (fst (verify_dispute_statement (PDict (payload ev)))) eqn:Hv; [cbn [negb]|by left].
  pose proof (verified_dispute_signed _ Hn Hv) as Hsig.
  destruct (String.eqb_spec (type ev) EVENT_DISPUTE_OPEN) as [Ho|Ho].
  - destruct (dict_get _ s) as [old|] eqn:Hold; [by left|right]. split; [done|]. eexists. split; [reflexivity|by left].
  - assert (In ev.(type) [EVENT_DISPUTE_EVIDENCE; EVENT_DISPUTE_RESOLVE]) as Hin.
    { apply existsb_exists in Hty as (t & Hin & Heq). apply String.eqb_eq in Heq. subst t.
      destruct Hin as [E|Hin]; [by destruct Ho|exact Hin]. }
    destruct (dict_get _ s) as [old|] eqn:Hold; [|by left].
    destruct (String.eqb_spec (text_of "announcement_id" (payload ev)) old.(announcement_id)) as [Ha|]; [cbn [negb]|by left].
    right. split; [done|].
    destruct (_ && _) eqn:Hc; [|eexists; split; [reflexivity|right; exists old; auto]].
    apply andb_true_iff in Hc as [Hr Hst]. apply String.eqb_eq in Hr. apply negb_true_iff, String.eqb_neq in Hst.
    cbn [with_statement status] in Hst.
    destruct (dict_of _) as [ruling|]; (eexists; split; [reflexivity|]); right; exists old; split_and!; try done; right;
      (split_and!; [done|exact Hst|by eexists _, _]).
Qed.

Lemma dispute_apply_grounded evs ev s :
  nacl_available = true ->
  (forall did r, dict_get did s = Some r -> grounded evs did r) ->
  forall did r, dict_get did (fst (dispute_apply ev s)) = Some r -> grounded (evs ++ [ev]) did r.
Proof.
  intros Hn IH did r Hr. destruct (dispute_apply_cases ev s Hn) as [E|(Hsig & new & E & Hnew)]; rewrite E in Hr.
  { by apply grounded_more, IH. }
  rewrite dict_get_set in Hr. destruct (String.eqb_spec (text_of "dispute_id" (payload ev)) did) as [Hk|];
    [|by apply grounded_more, IH].
  injection Hr as <-. assert (In ev (evs ++ [ev])) as Hin by (apply in_app_iff; right; by left).
  destruct Hnew as [(_ & Ht & ->)|(old & Hold & Ha & Hnew)].
  - split_and!; [done| |by left]. exists ev.(payload), []. split_and!; try done.
    exists ev. split_and!; try done. by left.
  - rewrite Hk in Hold. apply IH, (grounded_more evs ev) in Hold as (Hid & (first & rest & Hst & Hf & Ho & Hrest) & Hs).
    assert (forall types, In ev.(type) types -> statement_of (evs ++ [ev]) types did old.(announcement_id) ev.(payload)) as Hnow.
    { intros types Hi. exists ev. done. }
    assert (exists rest', (old.(statements) ++ [ev.(payload)])%list = first :: rest' /\
      (In ev.(type) [EVENT_DISPUTE_EVIDENCE; EVENT_DISPUTE_RESOLVE] ->
       Forall (statement_of (evs ++ [ev]) [EVENT_DISPUTE_EVIDENCE; EVENT_DISPUTE_RESOLVE] did old.(announcement_id)) rest'))
      as (rest' & Hst' & Hrest').
    { exists (rest ++ [ev.(payload)])%list. rewrite Hst. split; [done|]. intros Hi. apply Forall_app. split; [done|].
      constructor; [by apply Hnow|constructor]. }
    destruct Hnew as [(Hi & ->)|(Ht & _ & ruling & arbiter & ->)].
    + split_and!; [done|exists first, rest'; split_and!; auto|].
      destruct Hs as [Hs|(Hs & stmt & Hin' & Hst'')]; [by left|right]. split; [done|]. exists stmt.
      split; [|done]. cbn. apply in_app_iff. by left.
    + split_and!; [done|exists first, rest'; split_and!; auto; apply Hrest'; rewrite Ht; right; by left|].
      right. split; [done|]. exists ev.(payload). split; [cbn; apply in_app_iff; right; by left|].
      apply Hnow. rewrite Ht. by left.
Qed.

(** What later events preserve of a record. *)
Definition continues (r r' : DisputeRecord) : Prop :=
  r'.(dispute_id) = r.(dispute_id) /\ r'.(announcement_id) = r.(announcement_id) /\ r'.(opener_did) = r.(opener_did) /\
  (exists more, r'.(statements) = r.(statements) ++ more)%list /\
  (r.(status) = STATUS_RESOLVED ->
     r'.(status) = STATUS_RESOLVED /\ r'.(ruling) = r.(ruling) /\ r'.(arbiter_did) = r.(arbiter_did)).

Lemma continues_refl r : continues r r.
Proof. split_and!; try done. exists []. by rewrite app_nil_r. Qed.

Lemma continues_trans a b c : continues a b -> continues b c -> continues a c.
Proof.
  intros (A1 & A2 & A3 & (m & A4) & A5) (B1 & B2 & B3 & (n & B4) & B5). split_and!; try congruence.
  - exists (m ++ n)%list. by rewrite B4, A4, app_assoc.
  - intros H. destruct (A5 H) as (S1 & S2 & S3). destruct (B5 S1) as (T1 & T2 & T3). split_and!; congruence.
Qed.

Lemma dispute_apply_continues ev s did r :
  nacl_available = true -> dict_get did s = Some r ->
  exists r', dict_get did (fst (dispute_apply ev s)) = Some r' /\ continues r r'.
Proof.
  intros Hn Hr. destruct (dispute_apply_cases ev s Hn) as [E|(_ & new & E & Hnew)]; rewrite E.
  { exists r. split; [done|apply continues_refl]. }
  rewrite dict_get_set. destruct (String.eqb_spec (text_of "dispute_id" (payload ev)) did) as [Hk|];
    [|exists r; split; [done|apply continues_refl]].
  exists new. split; [done|]. rewrite Hk in Hnew.
  destruct Hnew as [(Hnone & _)|(old & Hold & _ & Hnew)]; [congruence|]. rewrite Hr in Hold. injection Hold as <-.
  destruct Hnew as [(_ & ->)|(_ & Hst & ruling & arbiter & ->)]; (split_and!; try done; by eexists).
Qed.

(** A dispute is what its parties signed.  Whatever the events and wherever
    an exception stops the replay: a record begins with an opening statement by
    its opener and continues with statements about the same dispute and
    announcement, each signed by the party it names, and is resolved only if a
    ruling is among them; and replaying more events never removes a statement,
    changes what the dispute is about, or changes a ruling once given. *)
Theorem dispute_is_signed_and_final events later did r :
  nacl_available = true ->
  dict_get did (fst (replay events [])) = Some r ->
  grounded events did r /\
  exists r', dict_get did (fst (replay (events ++ later) [])) = Some r' /\ continues r r'.
Proof.
  intros Hn Hr. split.
  - destruct (replay_invariant (fun evs s => forall did r, dict_get did s = Some r -> grounded evs did r)) with
      (evs0 := @nil SpineEvent) (evs := events) (s := @nil (string * DisputeRecord))
      as (seen & (rest & ->) & Hs); [|done|].
    + intros evs ev s. by apply dispute_apply_grounded.
    + apply Hs in Hr. clear Hs. cbn [app] in Hr. clear -Hr.
      induction rest as [|ev rest IH] using rev_ind; [by rewrite app_nil_r|]. rewrite app_assoc. by apply grounded_more.
  - rewrite replay_app. destruct (replay events []) as [s [u|x]]; cbn [fst] in *;
      [|exists r; split; [done|apply continues_refl]].
    clear events. revert s r Hr. induction later as [|ev later IH]; intros s r Hr;
      [exists r; split; [done|apply continues_refl]|]. cbn [replay].
    destruct (dispute_apply_continues ev s did r Hn Hr) as (r1 & H1 & C1).
    change (p_apply ev s) with (dispute_apply ev s). destruct (dispute_apply ev s) as [s1 [u'|x]]; cbn [fst] in *.
    + destruct (IH s1 r1 H1) as (r2 & H2 & C2). exists r2. split; [done|by eapply continues_trans].
    + by exists r1.
Qed.
End Spec.

(** ** Examples *)

#[local] Existing Instance toy_ed25519.
#[local] Existing Instance toy_laws.

Definition event_with (ty : string) (p : list (string * pyval)) : SpineEvent :=
  {| seq := 0; prev_hash := ""; type := ty; payload := p; author_did := ""; ts_ms := 1; content_hash := ""; sig := "" |}.

Definition demo_statement (who : ascii) (ty : string) : list (string * pyval) :=
  match sign_dispute_statement (toy_identity who) ty "ann1" (Some [("note", PStr ty)]) "d1" "" 5 0 with
  | Ok d => d
  | Err _ => []
  end.
Definition demo_open : list (string * pyval) := Eval vm_compute in demo_statement "a" DISPUTE_OPEN.
Definition demo_resolve : list (string * pyval) := Eval vm_compute in demo_statement "j" DISPUTE_RESOLVE.
Definition demo_disputes : list SpineEvent :=
  [event_with EVENT_DISPUTE_OPEN demo_open; event_with EVENT_DISPUTE_RESOLVE demo_resolve].
Definition demo_dispute : DisputeRecord := Eval vm_compute in
  match dict_get "d1" (fst (replay demo_disputes [])) with Some r => r | None => opened "" [] end.

Lemma dispute_is_signed_and_final_witness :
  demo_dispute.(status) = STATUS_RESOLVED /\ grounded demo_disputes "d1" demo_dispute /\
  exists r', dict_get "d1" (fst (replay (demo_disputes ++ [event_with EVENT_DISPUTE_RESOLVE demo_resolve]) [])) = Some r' /\
    continues demo_dispute r'.
Proof.
  split; [reflexivity|].
  refine (dispute_is_signed_and_final demo_disputes [event_with EVENT_DISPUTE_RESOLVE demo_resolve] "d1" demo_dispute
    eq_refl _). vm_compute. reflexivity.
Defined.
