(* ===== verification/Settlement.v ===== *)
(** * Settlement adapters ([nth_dao/commerce/settlement.py])

    Payment intents and their idempotency keys, the bounded walk over provider
    proofs, payment rails as an interface with the promises their docstring
    makes, the built-in fake rail, the two adapters, and the independent
    verification of a settlement record against signed terms. *)

From Stdlib Require Import ZArith Lia Ascii String.
From stdpp Require Import base list strings.
From S2P Require Import Prelude Digits PyStr PyValue Json CanonicalJson Sha256 Store DidKey.

Local Open Scope string_scope.
Local Open Scope Z_scope.

Definition ADAPTER_MANUAL : string := "manual".
Definition ADAPTER_X402_TESTNET : string := "x402-testnet".
Definition KNOWN_ADAPTERS : list string := [ADAPTER_MANUAL; ADAPTER_X402_TESTNET].
Definition SUPPORTED_CURRENCIES : list string := ["USDC"; "NTH-TEST"; "credit"].
Definition MAX_NETWORK_CHARS : Z := 128.
Definition MAX_TX_REF_CHARS : Z := 512.
Definition MAX_PROOF_BYTES : Z := 64 * 1024.
Definition MAX_PROOF_DEPTH : Z := 32.
Definition MAX_PROOF_NODES : Z := 4096.
Definition MAX_PROVIDER_REFERENCE_CHARS : Z := 256.
Definition MAX_SETTLEMENT_FUTURE_SKEW_MS : Z := 5 * 60 * 1000.
Definition SETTLEMENT_PAYLOAD_FIELDS : list string :=
  ["adapter_id"; "amount_minor"; "currency"; "payee_did"; "payer_did"; "tx_ref"; "network";
   "proof"; "settled_at_ms"].
Definition X402_TEST_NETWORKS : list string :=
  ["eip155:84532"; "eip155:11155111"; "eip155:421614";
   "solana:EtWTRABZaYq6iMfeYKouRu166VU2xqa1"; "stellar:testnet"; "aptos:2"; "hedera:testnet";
   "tvm:-3"].
Definition RAIL_RECEIPT_CONFIRMED : string := "confirmed".

(** [s in names] *)
Definition str_in (s : string) (names : list string) : bool := existsb (String.eqb s) names.

(** [SettlementFailed(reason)] before any provider side effect *)
Definition settlement_failed {A} (reason : string) : res A := Err (SettlementFailed reason false "" "").

(** ** Untrusted fields *)

(** [_safe_int] *)
Definition safe_int (v : pyval) : option Z := as_int v.

(** [_safe_str] *)
Definition safe_str (v : pyval) : string := match v with PStr s => s | _ => "" end.

(** [_is_wire_token] *)
Definition is_wire_token (value : string) (max_chars : Z) : bool :=
  (1 <=? py_len value) && (py_len value <=? max_chars) &&
  forallb (fun c => (0x21 <=? c) && (c <=? 0x7E)) (code_points value).

(** [_positive_amount] *)
Definition positive_amount (v : pyval) : option Z :=
  match safe_int v with
  | None => None
  | Some iv => if iv <=? 0 then None else Some iv
  end.

(** ** The bounded walk over a proof *)

(** One iteration of the loop of [_proof_encoded_size]: the checks on the
    popped value and the values it pushes, in the order they are pushed.
    Values of the model are trees, so the test for a container met twice never
    fires. *)
Definition proof_visit (value : pyval) (depth : Z) : res (list pyval) :=
  match value with
  | PNone | PBool _ => Ok []
  | PInt z => if MAX_PROOF_BYTES * 4 <? bit_length (Z.abs z) then Err ProofLimitExceeded else Ok []
  | PStr s => if MAX_PROOF_BYTES <? py_len s then Err ProofLimitExceeded else Ok []
  | PList l =>
    if (MAX_PROOF_DEPTH <=? depth) && truthy value then Err ProofLimitExceeded else
    if MAX_PROOF_NODES <? Z.of_nat (List.length l) then Err ProofLimitExceeded else Ok l
  | PDict d =>
    if (MAX_PROOF_DEPTH <=? depth) && truthy value then Err ProofLimitExceeded else
    if MAX_PROOF_NODES <? Z.of_nat (List.length d) then Err ProofLimitExceeded else
    if existsb (fun kv => MAX_PROOF_BYTES <? py_len kv.1) d then Err ProofLimitExceeded
    else Ok (map snd d)
  | PFloat _ | POther _ => Err TypeError
  end.

(** The loop.  [nodes] counts to [MAX_PROOF_NODES] at most, which bounds the
    iterations: the initial fuel is one more. *)
Fixpoint proof_walk (fuel : nat) (nodes : Z) (stack : list (pyval * Z)) : res unit :=
  match stack with
  | [] => Ok tt
  | (value, depth) :: stack =>
    let nodes := nodes + 1 in
    if MAX_PROOF_NODES <? nodes then Err ProofLimitExceeded else
    match fuel with
    | O => Err ProofLimitExceeded
    | S fuel =>
      let* items := proof_visit value depth in
      proof_walk fuel nodes (rev (map (fun x => (x, depth + 1)) items) ++ stack)%list
    end
  end.

Definition proof_fuel : nat := Z.to_nat (MAX_PROOF_NODES + 1).

(** [_proof_encoded_size] *)
Definition proof_encoded_size (proof : pyval) : res Z :=
  match proof with
  | PDict _ =>
    let* _ := proof_walk proof_fuel 0 [(proof, 0)] in
    let* encoded := canonical_json (PDict [("proof", proof)]) in
    if MAX_PROOF_BYTES <? bytes_len encoded then Err ProofLimitExceeded else Ok (bytes_len encoded)
  | _ => Err TypeError
  end.

(** ** Intents *)

Record SettlementIntent := {
  trade_id : pyval;
  amount_minor : pyval;
  currency : pyval;
  payee_did : pyval;
  payer_did : pyval;
  memo : pyval
}.

Definition bounded_text (v : pyval) (max_length : Z) (allow_empty : bool) : bool :=
  match v with
  | PStr s => (allow_empty || negb (String.eqb s "")) && (py_len s <=? max_length)
  | _ => false
  end.

(** A non-empty DID field: [did:] and no whitespace. *)
Definition did_text (v : pyval) : bool :=
  let s := safe_str v in
  String.eqb s "" || (startswith "did:" s && negb (any_space s)).

(** [SettlementIntent.validate]; the loop over the text fields reports the same
    reason for each of them. *)
Definition validate (i : SettlementIntent) : res unit :=
  if negb (bounded_text i.(trade_id) 256 false && bounded_text i.(currency) 32 false &&
           bounded_text i.(payee_did) 512 false && bounded_text i.(payer_did) 512 true &&
           bounded_text i.(memo) 2048 true) then settlement_failed "settlement-intent-invalid" else
  if negb (did_text i.(payee_did) && did_text i.(payer_did)) then
    settlement_failed "settlement-intent-invalid" else
  match positive_amount i.(amount_minor) with
  | None => settlement_failed "settlement-amount-invalid"
  | Some _ =>
    if negb (str_in (safe_str i.(currency)) SUPPORTED_CURRENCIES) then
      settlement_failed "settlement-currency-unsupported" else
    if negb (truthy i.(payee_did)) then settlement_failed "settlement-payee-mismatch" else
    Ok tt
  end.

Definition SETTLEMENT_IDEMPOTENCY_KIND : string := "nth/commerce-settlement-intent@1".

Definition intent_body (i : SettlementIntent) : pyval :=
  PDict [("kind", PStr SETTLEMENT_IDEMPOTENCY_KIND); ("trade_id", i.(trade_id));
         ("amount_minor", i.(amount_minor)); ("currency", i.(currency));
         ("payee_did", i.(payee_did)); ("payer_did", i.(payer_did))].

(** [settlement_idempotency_key] *)
Definition settlement_idempotency_key (i : SettlementIntent) : res string :=
  let* _ := validate i in
  let* body := canonical_json (intent_body i) in
  Ok ("nth-settlement:v1:sha256:" ++ sha256_hex body).

(** ** Results and receipts *)

Record SettlementResult := {
  r_adapter_id : string;
  r_amount_minor : pyval;
  r_currency : pyval;
  r_payee_did : pyval;
  r_payer_did : pyval;
  r_tx_ref : string;
  r_network : string;
  r_proof : list (string * pyval);
  r_settled_at_ms : Z
}.

(** [SettlementResult.to_payload] *)
Definition to_payload (r : SettlementResult) : list (string * pyval) :=
  [("adapter_id", PStr r.(r_adapter_id)); ("amount_minor", r.(r_amount_minor));
   ("currency", r.(r_currency)); ("payee_did", r.(r_payee_did)); ("payer_did", r.(r_payer_did));
   ("tx_ref", PStr r.(r_tx_ref)); ("network", PStr r.(r_network)); ("proof", PDict r.(r_proof));
   ("settled_at_ms", PInt r.(r_settled_at_ms))].

(** What a rail returns: a [RailReceipt] with unchecked fields, or some other
    object, of which only the type name is looked at. *)
Record RailReceipt := {
  tx_ref : pyval;
  status : pyval;
  proof : pyval;
  idempotency_key : pyval
}.

Inductive rail_value :=
| Receipt (r : RailReceipt)
| NotAReceipt (type_name : string).

(** [type(v).__name__] *)
Definition type_name (v : pyval) : string :=
  match v with
  | PNone => "NoneType" | PBool _ => "bool" | PInt _ => "int" | PFloat _ => "float"
  | PStr _ => "str" | PList _ => "list" | PDict _ => "dict" | POther t => t
  end.

(** [s[:n]] *)
Definition cp_take (n : nat) (s : string) : string := of_code_points (take n (code_points s)).

Definition digest_of (body : pyval) : res string :=
  let* encoded := canonical_json body in Ok ("sha256:" ++ sha256_hex encoded).

(** [_receipt_evidence] *)
Definition receipt_evidence (v : rail_value) : res (string * string) :=
  match v with
  | NotAReceipt t =>
    let* digest := digest_of (PDict [("receipt_type", PStr (cp_take 128 t))]) in Ok ("", digest)
  | Receipt r =>
    let tx_ref := safe_str r.(tx_ref) in
    let provider_reference := if is_wire_token tx_ref MAX_PROVIDER_REFERENCE_CHARS then tx_ref else "" in
    let key := safe_str r.(idempotency_key) in
    let body :=
      [("receipt_type", PStr "RailReceipt"); ("tx_ref", PStr provider_reference);
       ("tx_ref_length", PInt (py_len tx_ref));
       ("idempotency_key", PStr (if is_wire_token key 128 then key else ""));
       ("idempotency_key_length", PInt (py_len key));
       ("status", PStr (cp_take 128 (safe_str r.(status))));
       ("proof_type", PStr (cp_take 128 (type_name r.(proof))))] in
    let* extra :=
      try_except
        (let* _ := proof_encoded_size r.(proof) in
         let* digest := digest_of (PDict [("proof", r.(proof))]) in
         Ok [("proof_digest", PStr digest)])
        is_TypeOrValueError
        (fun _ => match r.(proof) with
                  | PDict d => Ok [("proof_entries", PInt (Z.of_nat (List.length d)))]
                  | PList l => Ok [("proof_entries", PInt (Z.of_nat (List.length l)))]
                  | _ => Ok []
                  end) in
    let* digest := digest_of (PDict (body ++ extra)%list) in
    Ok (provider_reference, digest)
  end.

(** [raise _committed_receipt_failure(...)] *)
Definition committed_receipt_failure {A} (reason : string) (v : rail_value) : res A :=
  let* (provider_reference, evidence_digest) := receipt_evidence v in
  Err (SettlementFailed reason true provider_reference evidence_digest).

(** ** Payment rails *)

Record PayArgs := {
  a_payee_did : pyval;
  a_amount_minor : pyval;
  a_currency : pyval;
  a_memo : pyval
}.

(** The [PaymentRail] protocol over a rail state [S]. *)
Record PaymentRail (St : Type) := {
  rail_network : pyval;
  rail_lookup : string -> St -> St * res (option rail_value);
  rail_pay : PayArgs -> string -> St -> St * res rail_value
}.
Arguments rail_network {St}.
Arguments rail_lookup {St}.
Arguments rail_pay {St}.

(** What the protocol's docstring promises, in terms of the payments the
    provider has committed: [lookup] exposes exactly the committed receipt,
    [pay] deduplicates by key, and a failing [pay] may have committed. *)
Class RailLaws {St} (R : PaymentRail St) (committed : St -> list (string * rail_value)) := {
  lookup_frame key s : committed (rail_lookup R key s).1 = committed s;
  lookup_exact key s r : (rail_lookup R key s).2 = Ok r -> r = dict_get key (committed s);
  pay_dedup key a s r0 : dict_get key (committed s) = Some r0 ->
    committed (rail_pay R a key s).1 = committed s /\
    (forall r, (rail_pay R a key s).2 = Ok r -> r = r0);
  pay_commits key a s r : dict_get key (committed s) = None -> (rail_pay R a key s).2 = Ok r ->
    committed (rail_pay R a key s).1 = (committed s ++ [(key, r)])%list;
  pay_fails key a s e : dict_get key (committed s) = None -> (rail_pay R a key s).2 = Err e ->
    committed (rail_pay R a key s).1 = committed s \/
    exists r, committed (rail_pay R a key s).1 = (committed s ++ [(key, r)])%list
}.

(** *** [FakePaymentRail] *)

Record FakeConfig := { fail : bool; fail_after_commit : bool; root : bool }.

Record FakeState := {
  receipts : list (string * RailReceipt);
  rail_files : files;
  calls : list PayArgs;
  lookups : list string
}.

Definition RECEIPT_FIELDS : list string := ["tx_ref"; "status"; "proof"; "idempotency_key"].

(** [asdict(receipt)] *)
Definition receipt_dict (r : RailReceipt) : pyval :=
  PDict [("tx_ref", r.(tx_ref)); ("status", r.(status)); ("proof", r.(proof));
         ("idempotency_key", r.(idempotency_key))].

(** [FakePaymentRail._path] *)
Definition fake_path (key : string) : res string :=
  let* encoded := utf8_encode key in Ok (sha256_hex encoded).

(** [FakePaymentRail._load_receipt]; an oversized file counts as unreadable *)
Definition fake_load_receipt (fs : files) (path key : string) : res (option RailReceipt) :=
  match fs !! path with
  | None => Ok None
  | Some FileBroken => settlement_failed "rail-receipt-unreadable"
  | Some (FileJson (PDict d)) =>
    if negb (same_keys RECEIPT_FIELDS d) then settlement_failed "rail-receipt-unreadable" else
    let receipt := {| tx_ref := get_or_none "tx_ref" d; status := get_or_none "status" d;
                      proof := get_or_none "proof" d;
                      idempotency_key := get_or_none "idempotency_key" d |} in
    if negb (py_eqb receipt.(idempotency_key) (PStr key)) then
      settlement_failed "settlement-idempotency-key-mismatch"
    else Ok (Some receipt)
  | Some (FileJson _) => settlement_failed "rail-receipt-unreadable"
  end.

(** [FakePaymentRail.lookup] *)
Definition fake_lookup (c : FakeConfig) (key : string) (s : FakeState)
  : FakeState * res (option rail_value) :=
  let s := {| receipts := s.(receipts); rail_files := s.(rail_files); calls := s.(calls);
              lookups := (s.(lookups) ++ [key])%list |} in
  (s, if c.(root) then
        let* path := fake_path key in
        res_map (option_map Receipt) (fake_load_receipt s.(rail_files) path key)
      else Ok (option_map Receipt (dict_get key s.(receipts)))).

Definition fake_receipt (key : string) : RailReceipt := {|
  tx_ref := PStr ("fake:" ++ str_take 16 (sha256_hex key));
  status := PStr RAIL_RECEIPT_CONFIRMED;
  proof := PDict [("facilitator", PStr "fake"); ("settled", PBool true)];
  idempotency_key := PStr key |}.

(** [FakePaymentRail._commit_payment]; [path] is [None] without a root *)
Definition fake_commit_payment (c : FakeConfig) (a : PayArgs) (key : string)
    (path : option string) (s : FakeState) : FakeState * res rail_value :=
  if c.(fail) then (s, settlement_failed "rail-declined") else
  let s := {| receipts := s.(receipts); rail_files := s.(rail_files);
              calls := (s.(calls) ++ [a])%list; lookups := s.(lookups) |} in
  match ascii_encode key with
  | Err e => (s, Err e)
  | Ok encoded =>
    let receipt := fake_receipt encoded in
    let s := match path with
             | None => {| receipts := dict_set key receipt s.(receipts);
                          rail_files := s.(rail_files); calls := s.(calls);
                          lookups := s.(lookups) |}
             | Some p => {| receipts := s.(receipts);
                            rail_files := atomic_write_json s.(rail_files) p (receipt_dict receipt);
                            calls := s.(calls); lookups := s.(lookups) |}
             end in
    (s, if c.(fail_after_commit) then settlement_failed "rail-outcome-unknown"
        else Ok (Receipt receipt))
  end.

(** [FakePaymentRail.pay] *)
Definition fake_pay (c : FakeConfig) (a : PayArgs) (key : string) (s : FakeState)
  : FakeState * res rail_value :=
  if String.eqb key "" then (s, settlement_failed "settlement-idempotency-key-mismatch") else
  if c.(root) then
    match (let* path := fake_path key in
           let* existing := fake_load_receipt s.(rail_files) path key in Ok (path, existing)) with
    | Err e => (s, Err e)
    | Ok (_, Some existing) => (s, Ok (Receipt existing))
    | Ok (path, None) => fake_commit_payment c a key (Some path) s
    end
  else
    match dict_get key s.(receipts) with
    | Some existing => (s, Ok (Receipt existing))
    | None => fake_commit_payment c a key None s
    end.

Definition FakePaymentRail (c : FakeConfig) : PaymentRail FakeState := {|
  rail_network := PStr "eip155:84532";
  rail_lookup := fake_lookup c;
  rail_pay := fake_pay c |}.

(** ** Adapters *)

(** [ManualSettlementAdapter.settle] *)
Definition manual_settle (now : Z) (i : SettlementIntent) : res SettlementResult :=
  let* _ := validate i in
  Ok {| r_adapter_id := ADAPTER_MANUAL; r_amount_minor := i.(amount_minor);
        r_currency := i.(currency); r_payee_did := i.(payee_did); r_payer_did := i.(payer_did);
        r_tx_ref := ""; r_network := ""; r_proof := []; r_settled_at_ms := now |}.

(** [X402SettlementAdapter._network] *)
Definition x402_network (declared : pyval) : res string :=
  let network := safe_str declared in
  if String.eqb network "" then settlement_failed "settlement-network-missing" else
  if negb (is_wire_token network MAX_NETWORK_CHARS) then settlement_failed "settlement-receipt-invalid" else
  if negb (str_in network X402_TEST_NETWORKS) then settlement_failed "settlement-network-not-testnet" else
  Ok network.

(** [X402SettlementAdapter._result_from_receipt] *)
Definition result_from_receipt (now : Z) (i : SettlementIntent) (v : rail_value) (network : string)
  : res SettlementResult :=
  let* key := settlement_idempotency_key i in
  match v with
  | NotAReceipt _ => committed_receipt_failure "settlement-receipt-invalid" v
  | Receipt r =>
    if negb (py_eqb r.(idempotency_key) (PStr key)) then
      committed_receipt_failure "settlement-idempotency-key-mismatch" v else
    if negb (py_eqb r.(status) (PStr RAIL_RECEIPT_CONFIRMED)) then
      committed_receipt_failure "settlement-receipt-not-confirmed" v else
    let tx_ref := safe_str r.(tx_ref) in
    if String.eqb tx_ref "" then committed_receipt_failure "settlement-tx-ref-missing" v else
    if negb (is_wire_token tx_ref MAX_TX_REF_CHARS) then
      committed_receipt_failure "settlement-receipt-invalid" v else
    let proof := match r.(proof) with PDict d => d | _ => [] end in
    match proof_encoded_size (PDict proof) with
    | Err ProofLimitExceeded => committed_receipt_failure "settlement-receipt-too-large" v
    | Err e => if is_TypeOrValueError e then committed_receipt_failure "settlement-receipt-invalid" v
               else Err e
    | Ok _ =>
      let proof_key := safe_str (get_or_none "idempotency_key" proof) in
      if negb (String.eqb proof_key "") && negb (String.eqb proof_key key) then
        committed_receipt_failure "settlement-idempotency-key-mismatch" v else
      if Nat.eqb (List.length (dict_without "idempotency_key" proof)) 0 then
        committed_receipt_failure "settlement-proof-missing" v else
      Ok {| r_adapter_id := ADAPTER_X402_TESTNET; r_amount_minor := i.(amount_minor);
            r_currency := i.(currency); r_payee_did := i.(payee_did); r_payer_did := i.(payer_did);
            r_tx_ref := tx_ref; r_network := network;
            r_proof := dict_set "idempotency_key" (PStr key) proof; r_settled_at_ms := now |}
    end
  end.

Section X402.
Context {St : Type} (R : PaymentRail St).

Definition pay_args (i : SettlementIntent) : PayArgs := {|
  a_payee_did := i.(payee_did); a_amount_minor := i.(amount_minor);
  a_currency := i.(currency); a_memo := i.(memo) |}.

(** The checks both operations make before they touch the rail. *)
Definition x402_prepare (i : SettlementIntent) : res (string * string) :=
  let* _ := validate i in
  let* network := x402_network R.(rail_network) in
  let* key := settlement_idempotency_key i in
  Ok (network, key).

(** [X402SettlementAdapter.lookup_settlement] *)
Definition lookup_settlement (now : Z) (i : SettlementIntent) (s : St)
  : St * res (option SettlementResult) :=
  match x402_prepare i with
  | Err e => (s, Err e)
  | Ok (network, key) =>
    match rail_lookup R key s with
    | (s, Err e) => (s, Err e)
    | (s, Ok None) => (s, Ok None)
    | (s, Ok (Some v)) => (s, res_map Some (result_from_receipt now i v network))
    end
  end.

(** [X402SettlementAdapter.settle] *)
Definition x402_settle (now : Z) (i : SettlementIntent) (s : St) : St * res SettlementResult :=
  match x402_prepare i with
  | Err e => (s, Err e)
  | Ok (network, key) =>
    match rail_lookup R key s with
    | (s, Err e) => (s, Err e)
    | (s, Ok (Some v)) => (s, result_from_receipt now i v network)
    | (s, Ok None) =>
      match rail_pay R (pay_args i) key s with
      | (s, Err e) => (s, Err e)
      | (s, Ok v) => (s, result_from_receipt now i v network)
      end
    end
  end.
End X402.

(** ** Independent verification *)

(** A DID field of a settlement record. *)
Definition settlement_did (s : string) : bool :=
  startswith "did:" s && (py_len s <=? 512) && negb (any_space s).

(** The checks of [verify_settlement] on an external-rail record. *)
Definition verify_external (d : list (string * pyval)) (payer : string) : verdict :=
  if String.eqb payer "" then (false, "settlement-payer-mismatch") else
  let tx_ref := safe_str (get_or_none "tx_ref" d) in
  if String.eqb tx_ref "" then (false, "settlement-tx-ref-missing") else
  if negb (is_wire_token tx_ref MAX_TX_REF_CHARS) then (false, "settlement-receipt-invalid") else
  let network := safe_str (get_or_none "network" d) in
  if String.eqb network "" then (false, "settlement-network-missing") else
  if negb (is_wire_token network MAX_NETWORK_CHARS) then (false, "settlement-receipt-invalid") else
  if negb (str_in network X402_TEST_NETWORKS) then (false, "settlement-network-not-testnet") else
  match get_or_none "proof" d with
  | PDict [] => (false, "settlement-proof-missing")
  | PDict p =>
    match proof_encoded_size (PDict p) with
    | Err ProofLimitExceeded => (false, "settlement-receipt-too-large")
    | Err _ => (false, "settlement-receipt-invalid")
    | Ok _ => (true, "ok")
    end
  | _ => (false, "settlement-proof-missing")
  end.

(** [verify_settlement] *)
Definition verify_settlement (now : Z) (settlement : pyval) (expected_amount_minor : Z)
    (expected_currency expected_payee_did expected_payer_did : string) : verdict :=
  match settlement with
  | PDict d =>
    if negb (same_keys SETTLEMENT_PAYLOAD_FIELDS d) then (false, "settlement-schema-invalid") else
    let adapter_id := safe_str (get_or_none "adapter_id" d) in
    if negb (str_in adapter_id KNOWN_ADAPTERS) then (false, "settlement-unknown-adapter") else
    match positive_amount (get_or_none "amount_minor" d) with
    | None => (false, "settlement-amount-invalid")
    | Some amount =>
      if negb (amount =? expected_amount_minor) then (false, "settlement-amount-mismatch") else
      let currency := safe_str (get_or_none "currency" d) in
      if negb (str_in currency SUPPORTED_CURRENCIES) then (false, "settlement-currency-unsupported") else
      if negb (String.eqb currency expected_currency) then (false, "settlement-currency-mismatch") else
      let payee := safe_str (get_or_none "payee_did" d) in
      if negb (settlement_did payee) then (false, "settlement-schema-invalid") else
      if negb (String.eqb payee expected_payee_did) then (false, "settlement-payee-mismatch") else
      match get_or_none "payer_did" d with
      | PStr payer =>
        if negb ((py_len payer <=? 512) && (String.eqb payer "" || startswith "did:" payer)
                 && negb (any_space payer)) then (false, "settlement-schema-invalid") else
        if negb (String.eqb expected_payer_did "") && negb (String.eqb payer expected_payer_did)
        then (false, "settlement-payer-mismatch") else
        match positive_amount (get_or_none "settled_at_ms" d) with
        | None => (false, "settlement-settled-at-invalid")
        | Some settled_at_ms =>
          if now + MAX_SETTLEMENT_FUTURE_SKEW_MS <? settled_at_ms then
            (false, "settlement-settled-at-invalid") else
          if String.eqb adapter_id ADAPTER_X402_TESTNET then verify_external d payer
          else if py_eqb (get_or_none "tx_ref" d) (PStr "") && py_eqb (get_or_none "network" d) (PStr "")
                  && is_dict (get_or_none "proof" d) && py_eqb (get_or_none "proof" d) (PDict [])
          then (true, "ok") else (false, "settlement-schema-invalid")
        end
      | _ => (false, "settlement-schema-invalid")
      end
    end
  | _ => (false, "settlement-schema-invalid")
  end.

#[global] Arguments proof_encoded_size : simpl never.
#[global] Arguments proof_walk : simpl never.
#[global] Arguments is_wire_token : simpl never.
#[global] Arguments settlement_did : simpl never.
#[global] Arguments str_in : simpl never.
#[global] Arguments canonical_json : simpl never.
#[global] Opaque MAX_PROOF_BYTES MAX_SETTLEMENT_FUTURE_SKEW_MS.

(** ** Lemmas *)

Lemma str_in_In s l : str_in s l = true <-> In s l.
Proof.
  unfold str_in. rewrite existsb_exists. split.
  - intros (x & Hx & E). apply String.eqb_eq in E as ->. done.
  - intros H. exists s. by rewrite String.eqb_refl.
Qed.

Lemma positive_amount_Some v n : positive_amount v = Some n <-> v = PInt n /\ 0 < n.
Proof.
  unfold positive_amount, safe_int, as_int. destruct v; try (split; [done|by intros [? _]]).
  destruct (Z.leb_spec z 0); split; [done|intros [[= ->] ?]; lia|intros [= ->]; done|].
  by intros [[= ->] _].
Qed.

Lemma bounded_text_PStr v n b :
  bounded_text v n b = true ->
  exists s, v = PStr s /\ (py_len s <=? n) = true /\ (b = false -> s <> "").
Proof.
  destruct v; try done. simpl. intros [H1 H2]%andb_true_iff. exists s. split_and!; [done|done|].
  intros ->. simpl in H1. by apply negb_true_iff, String.eqb_neq in H1.
Qed.

Lemma did_text_PStr s :
  did_text (PStr s) = true <-> s = "" \/ (startswith "did:" s = true /\ any_space s = false).
Proof.
  unfold did_text, safe_str. rewrite orb_true_iff, andb_true_iff, negb_true_iff, String.eqb_eq. done.
Qed.

(** A payer field: empty, or a DID. *)
Definition payer_ok (s : string) : bool :=
  (py_len s <=? 512) && (String.eqb s "" || startswith "did:" s) && negb (any_space s).

(** A validated intent has text fields and a positive integer amount. *)
Lemma validate_fields i u :
  validate i = Ok u ->
  exists t c pe pr m n, i = {| trade_id := PStr t; amount_minor := PInt n; currency := PStr c;
      payee_did := PStr pe; payer_did := PStr pr; memo := PStr m |} /\ 0 < n /\
    str_in c SUPPORTED_CURRENCIES = true /\ settlement_did pe = true /\ payer_ok pr = true.
Proof.
  unfold validate. destruct i as [t a c pe pr m].
  cbn [trade_id amount_minor currency payee_did payer_did memo]. intros H. inv_guards H.
  apply negb_false_iff in G, G0. rewrite !andb_true_iff in G. apply andb_true_iff in G0.
  destruct G as ((((Gt & Gc) & Ge) & Gr) & Gm), G0 as [Gpe Gpr].
  apply positive_amount_Some in G1 as [-> Hn].
  apply bounded_text_PStr in Gt as (st & -> & _), Gc as (sc & -> & _), Ge as (spe & -> & Hpe & Hne),
    Gr as (spr & -> & Hpr & _), Gm as (sm & -> & _).
  rewrite did_text_PStr in Gpe, Gpr. apply negb_false_iff in G2.
  exists st, sc, spe, spr, sm, z. split_and!; [done..| |].
  - unfold settlement_did. destruct Gpe as [->|[-> ->]]; [by destruct (Hne eq_refl)|].
    by rewrite Hpe.
  - unfold payer_ok. rewrite Hpr. destruct Gpr as [->|[-> ->]]; [done|]. by rewrite orb_true_r.
Qed.

(** *** The record a settlement verifier accepts *)

(** The declarative reading of [verify_settlement]. *)
Record settlement_ok (now : Z) (d : list (string * pyval)) (amount : Z)
    (currency payee expected_payer : string) : Prop := {
  ok_keys : same_keys SETTLEMENT_PAYLOAD_FIELDS d = true;
  ok_amount : get_or_none "amount_minor" d = PInt amount /\ 0 < amount;
  ok_currency : get_or_none "currency" d = PStr currency /\ In currency SUPPORTED_CURRENCIES;
  ok_payee : get_or_none "payee_did" d = PStr payee /\ settlement_did payee = true;
  ok_payer : exists payer, get_or_none "payer_did" d = PStr payer /\ payer_ok payer = true /\
    (expected_payer <> "" -> payer = expected_payer) /\
    (get_or_none "adapter_id" d = PStr ADAPTER_X402_TESTNET -> payer <> "");
  ok_time : exists t, get_or_none "settled_at_ms" d = PInt t /\
    0 < t <= now + MAX_SETTLEMENT_FUTURE_SKEW_MS;
  ok_evidence :
    (get_or_none "adapter_id" d = PStr ADAPTER_MANUAL /\ get_or_none "tx_ref" d = PStr "" /\
     get_or_none "network" d = PStr "" /\ get_or_none "proof" d = PDict []) \/
    (get_or_none "adapter_id" d = PStr ADAPTER_X402_TESTNET /\
     exists tx net p n, get_or_none "tx_ref" d = PStr tx /\ is_wire_token tx MAX_TX_REF_CHARS = true /\
       get_or_none "network" d = PStr net /\ In net X402_TEST_NETWORKS /\
       get_or_none "proof" d = PDict p /\ p <> [] /\ proof_encoded_size (PDict p) = Ok n)
}.

Lemma safe_str_nonempty v s : safe_str v = s -> s <> "" -> v = PStr s.
Proof. destruct v; simpl; congruence. Qed.

Lemma py_eqb_empty_dict v : is_dict v = true -> py_eqb v (PDict []) = true -> v = PDict [].
Proof. destruct v as [| | | | | |[|]|]; done. Qed.

Lemma is_wire_token_nonempty s n : is_wire_token s n = true -> s <> "".
Proof. by intros H ->. Qed.

Lemma verify_external_iff d payer r :
  verify_external d payer = (true, r) ->
  payer <> "" /\ exists tx net p n,
    get_or_none "tx_ref" d = PStr tx /\ is_wire_token tx MAX_TX_REF_CHARS = true /\
    get_or_none "network" d = PStr net /\ In net X402_TEST_NETWORKS /\
    get_or_none "proof" d = PDict p /\ p <> [] /\ proof_encoded_size (PDict p) = Ok n.
Proof.
  unfold verify_external. intros H. inv_guards H. bool_to_prop. split; [done|].
  all: eexists _, _, _, _; split_and!;
    [by apply safe_str_nonempty|done|by apply safe_str_nonempty|by apply str_in_In|done|done|done].
Qed.

Lemma verify_settlement_sound now v amt cur payee payer r :
  verify_settlement now v amt cur payee payer = (true, r) ->
  exists d, v = PDict d /\ settlement_ok now d amt cur payee payer.
Proof.
  destruct v as [| | | | | |d|]; try done. unfold verify_settlement. intros H. exists d. split; [done|].
  destruct (same_keys SETTLEMENT_PAYLOAD_FIELDS d) eqn:Hk; [|done]. cbn [negb] in H.
  destruct (str_in (safe_str (get_or_none "adapter_id" d)) KNOWN_ADAPTERS) eqn:Hk2; [|done].
  cbn [negb] in H.
  destruct (positive_amount (get_or_none "amount_minor" d)) as [a|] eqn:Ha; [|done].
  apply positive_amount_Some in Ha.
  destruct (Z.eqb_spec a amt) as [->|]; [|done]. cbn [negb] in H.
  destruct (str_in (safe_str (get_or_none "currency" d)) SUPPORTED_CURRENCIES) eqn:Hc; [|done].
  cbn [negb] in H. apply str_in_In in Hc.
  destruct (String.eqb_spec (safe_str (get_or_none "currency" d)) cur) as [Ec|]; [|done]. cbn [negb] in H.
  destruct (settlement_did (safe_str (get_or_none "payee_did" d))) eqn:Hp; [|done]. cbn [negb] in H.
  destruct (String.eqb_spec (safe_str (get_or_none "payee_did" d)) payee) as [Ep|]; [|done].
  cbn [negb] in H.
  destruct (get_or_none "payer_did" d) as [| | | |pr| | |] eqn:Epr; try done.
  destruct (negb _) eqn:Hpr in H; [done|]. apply negb_false_iff in Hpr.
  destruct (negb (payer =? "")%string && _) eqn:Hx in H; [done|].
  destruct (positive_amount (get_or_none "settled_at_ms" d)) as [t|] eqn:Ht; [|done].
  apply positive_amount_Some in Ht as [Et Ht].
  destruct (Z.ltb_spec (now + MAX_SETTLEMENT_FUTURE_SKEW_MS) t) as [|Hle]; [done|].
  assert (get_or_none "currency" d = PStr cur) as Ec'.
  { apply safe_str_nonempty; [done|]. intros ->. rewrite Ec in Hc. simpl in Hc. intuition discriminate. }
  assert (get_or_none "payee_did" d = PStr payee) as Ep'.
  { apply safe_str_nonempty; [done|]. intros ->. rewrite Ep in Hp. done. }
  rewrite Ec in Hc. rewrite Ep in Hp.
  assert (payer <> "" -> pr = payer) as Hpp.
  { intros Hne. destruct (String.eqb_spec payer ""); [done|]. simpl in Hx.
    by apply negb_false_iff, String.eqb_eq in Hx. }
  apply str_in_In in Hk2. simpl in Hk2.
  destruct (String.eqb_spec (safe_str (get_or_none "adapter_id" d)) ADAPTER_X402_TESTNET) as [Ea|Ea].
  - apply verify_external_iff in H as (Hne & Hev). apply safe_str_nonempty in Ea; [|done].
    split; try done; [by exists pr|by exists t|by right].
  - assert (get_or_none "adapter_id" d = PStr ADAPTER_MANUAL) as Em.
    { destruct Hk2 as [E|[E|[]]]; [|congruence]. by apply safe_str_nonempty. }
    inv_guards H. apply andb_true_iff in G as [G G4]. apply andb_true_iff in G as [G G3].
    apply andb_true_iff in G as [G1%py_eqb_PStr_r G2%py_eqb_PStr_r].
    split; try done; [| |by left; eauto using py_eqb_empty_dict]; [|by exists t].
    exists pr. split_and!; try done. intros E. rewrite Em in E. done.
Qed.

Lemma str_in_true s l : In s l -> str_in s l = true.
Proof. apply str_in_In. Qed.

Lemma verify_external_complete d payer tx net p n :
  payer <> "" -> get_or_none "tx_ref" d = PStr tx -> is_wire_token tx MAX_TX_REF_CHARS = true ->
  get_or_none "network" d = PStr net -> In net X402_TEST_NETWORKS ->
  get_or_none "proof" d = PDict p -> p <> [] -> proof_encoded_size (PDict p) = Ok n ->
  verify_external d payer = (true, "ok").
Proof.
  intros Hp Et Ht En Hn Epr Hne Hs. unfold verify_external. rewrite Et, En, Epr. cbn [safe_str].
  rewrite (proj2 (String.eqb_neq _ _) Hp).
  rewrite (proj2 (String.eqb_neq _ _) (is_wire_token_nonempty _ _ Ht)), Ht. cbn [negb].
  assert (is_wire_token net MAX_NETWORK_CHARS = true) as Hw.
  { assert (forallb (fun s => is_wire_token s MAX_NETWORK_CHARS) X402_TEST_NETWORKS = true) as H
      by by vm_compute.
    rewrite forallb_forall in H. by apply H. }
  rewrite (proj2 (String.eqb_neq _ _) (is_wire_token_nonempty _ _ Hw)), Hw, str_in_true by done.
  cbn [negb]. rewrite Hs. by destruct p.
Qed.

Lemma verify_settlement_complete now d amt cur payee payer :
  settlement_ok now d amt cur payee payer ->
  verify_settlement now (PDict d) amt cur payee payer = (true, "ok").
Proof.
  intros [Hk [Ea Ha] [Ec Hc] [Ep Hp] (pr & Er & Hr & Hpp & Hx) (t & Et & Ht) Hev].
  unfold verify_settlement. rewrite Hk, Ea, Ec, Ep, Er, Et. cbn [negb safe_str].
  rewrite (proj2 (positive_amount_Some (PInt amt) amt)) by done.
  rewrite (proj2 (positive_amount_Some (PInt t) t)) by (split; [done|lia]).
  rewrite Z.eqb_refl, String.eqb_refl, (str_in_true cur), Hp, String.eqb_refl by done. cbn [negb].
  unfold payer_ok in Hr. rewrite Hr. cbn [negb].
  rewrite (proj2 (Z.ltb_ge (now + MAX_SETTLEMENT_FUTURE_SKEW_MS) t)) by lia.
  assert (negb (payer =? "")%string && negb (pr =? payer)%string = false) as ->.
  { destruct (String.eqb_spec payer ""); [done|]. rewrite Hpp, String.eqb_refl by done. done. }
  destruct Hev as [(-> & -> & -> & ->)|(Ead & tx & net & p & n & ?)]; [done|].
  rewrite Ead. cbn [safe_str]. destruct_and!.
  change (str_in ADAPTER_X402_TESTNET KNOWN_ADAPTERS) with true. cbn [negb].
  change (ADAPTER_X402_TESTNET =? ADAPTER_X402_TESTNET)%string with true.
  eapply verify_external_complete; eauto.
Qed.

(** *** Adapters produce records the verifier accepts *)

(** A record that verifies keeps verifying as time passes. *)
Lemma settlement_ok_later now now' d amt cur payee payer :
  now <= now' -> settlement_ok now d amt cur payee payer -> settlement_ok now' d amt cur payee payer.
Proof. intros Hn [? ? ? ? ? (t & ? & ?) ?]. split; try done. exists t. split; [done|lia]. Qed.

Lemma verify_settlement_later now now' v amt cur payee payer r :
  now <= now' -> verify_settlement now v amt cur payee payer = (true, r) ->
  verify_settlement now' v amt cur payee payer = (true, "ok").
Proof.
  intros Hn (d & -> & H)%verify_settlement_sound. apply verify_settlement_complete.
  by eapply settlement_ok_later.
Qed.

Lemma settlement_key_valid i key :
  settlement_idempotency_key i = Ok key -> validate i = Ok tt.
Proof. unfold settlement_idempotency_key. intros H. inv_guards H. by destruct a. Qed.

(** Every refusal after the receipt exists says that the payment may have
    committed, or is the encoding error of an unencodable status. *)
Lemma committed_failure_not_Ok {A} reason v (a : A) : committed_receipt_failure reason v <> Ok a.
Proof. unfold committed_receipt_failure. destruct (receipt_evidence v) as [[]|]; done. Qed.

Lemma result_from_receipt_Ok now i v network r :
  result_from_receipt now i v network = Ok r ->
  exists key rec p n, settlement_idempotency_key i = Ok key /\ v = Receipt rec /\
    rec.(idempotency_key) = PStr key /\ rec.(status) = PStr RAIL_RECEIPT_CONFIRMED /\
    is_wire_token (safe_str rec.(tx_ref)) MAX_TX_REF_CHARS = true /\
    p = match rec.(proof) with PDict d => d | _ => [] end /\
    proof_encoded_size (PDict p) = Ok n /\
    r = {| r_adapter_id := ADAPTER_X402_TESTNET; r_amount_minor := i.(amount_minor);
           r_currency := i.(currency); r_payee_did := i.(payee_did); r_payer_did := i.(payer_did);
           r_tx_ref := safe_str rec.(tx_ref); r_network := network;
           r_proof := dict_set "idempotency_key" (PStr key) p; r_settled_at_ms := now |}.
Proof.
  unfold result_from_receipt. destruct (settlement_idempotency_key i) as [key|]; [|done].
  cbn [res_bind]. destruct v as [rec|]; [|by intros H%committed_failure_not_Ok].
  destruct (py_eqb _ _) eqn:H1; [|by intros H%committed_failure_not_Ok]. cbn [negb].
  destruct (py_eqb (status rec) _) eqn:H2; [|by intros H%committed_failure_not_Ok]. cbn [negb].
  destruct (String.eqb _ _); [by intros H%committed_failure_not_Ok|].
  destruct (is_wire_token _ _) eqn:H3; [|by intros H%committed_failure_not_Ok]. cbn [negb].
  destruct (proof_encoded_size _) as [n|e] eqn:H4.
  2: { intros H. destruct e; try (by apply committed_failure_not_Ok in H);
         simpl in H; try discriminate H; by apply committed_failure_not_Ok in H. }
  destruct (_ && _); [by intros H%committed_failure_not_Ok|].
  destruct (Nat.eqb _ _); [by intros H%committed_failure_not_Ok|]. intros H. apply Ok_inj in H as <-.
  apply py_eqb_PStr_r in H1, H2. by exists key, rec, (match proof rec with PDict d => d | _ => [] end), n.
Qed.

Lemma x402_network_Ok v n : x402_network v = Ok n -> In n X402_TEST_NETWORKS.
Proof.
  unfold x402_network. intros H. inv_guards H. apply Ok_inj in H as <-. bool_to_prop. by apply str_in_In.
Qed.

Lemma x402_result_ok now now' i v net r n amt cur payee payer :
  result_from_receipt now i v net = Ok r -> In net X402_TEST_NETWORKS ->
  i.(amount_minor) = PInt amt -> i.(currency) = PStr cur -> i.(payee_did) = PStr payee ->
  i.(payer_did) = PStr payer -> payer <> "" ->
  0 < now <= now' + MAX_SETTLEMENT_FUTURE_SKEW_MS ->
  proof_encoded_size (PDict r.(r_proof)) = Ok n ->
  settlement_ok now' (to_payload r) amt cur payee payer.
Proof.
  intros (key & rec & p & m & Hkey & -> & _ & _ & Hw & _ & _ & ->)%result_from_receipt_Ok Hnet
    Ea Ec Ee Er Hne Hnow Hs.
  apply settlement_key_valid, validate_fields in Hkey
    as (t & c & pe & pr & mm & a & -> & Hpos & Hcur & Hpe & Hpr).
  cbn [amount_minor currency payee_did payer_did r_proof] in *.
  injection Ea as ->. injection Ec as ->. injection Ee as ->. injection Er as ->.
  apply str_in_In in Hcur. split; try done; simpl.
  - by exists payer.
  - by exists now.
  - right. split; [done|]. eexists _, _, _, _. split_and!; try done. apply dict_set_nonempty.
Qed.

(** *** Idempotency keys *)

Lemma str_app_inj_prefix (p s t : string) : p ++ s = p ++ t -> s = t.
Proof. apply str_app_inv_l. Qed.

Lemma intent_key_binds i j key :
  settlement_idempotency_key i = Ok key -> settlement_idempotency_key j = Ok key ->
  (i.(trade_id) = j.(trade_id) /\ i.(amount_minor) = j.(amount_minor) /\
   i.(currency) = j.(currency) /\ i.(payee_did) = j.(payee_did) /\ i.(payer_did) = j.(payer_did)) \/
  exists a b, canonical_json (intent_body i) = Ok a /\ canonical_json (intent_body j) = Ok b /\
    sha256_collision a b.
Proof.
  intros Hi Hj. pose proof (settlement_key_valid _ _ Hi) as Vi. pose proof (settlement_key_valid _ _ Hj) as Vj.
  unfold settlement_idempotency_key in *. rewrite Vi in Hi. rewrite Vj in Hj. cbn [res_bind] in *.
  destruct (canonical_json (intent_body i)) as [a|] eqn:Ea; [|done].
  destruct (canonical_json (intent_body j)) as [b|] eqn:Eb; [|done]. cbn [res_bind] in *.
  apply Ok_inj in Hi, Hj. rewrite <- Hj in Hi. apply str_app_inj_prefix in Hi.
  apply sha256_hex_inj in Hi as [<-|Hcol]; [left|right; eauto].
  apply validate_fields in Vi as (t & c & pe & pr & mm & n & -> & _).
  apply validate_fields in Vj as (t' & c' & pe' & pr' & mm' & n' & -> & _).
  pose proof (fun Hv Hw => canonical_json_wf_inj _ _ a Hv Hw Ea Eb) as H.
  specialize (H ltac:(apply wfb_wf; by vm_compute) ltac:(apply wfb_wf; by vm_compute)).
  cbn in H. bool_to_prop. simpl. by subst.
Qed.

(** *** Payments are made at most once *)

Section AtMostOnce.
Context {St : Type} (R : PaymentRail St) (committed : St -> list (string * rail_value)).
Context `{L : !RailLaws R committed}.

(** What one call of [settle] does to the committed payments: nothing, or one
    payment under the intent's key, which was not paid before. *)
Lemma settle_effect now i s :
  committed (x402_settle R now i s).1 = committed s \/
  exists key r, settlement_idempotency_key i = Ok key /\ dict_get key (committed s) = None /\
    committed (x402_settle R now i s).1 = (committed s ++ [(key, r)])%list.
Proof.
  unfold x402_settle, x402_prepare. destruct (validate i); [|by left]. cbn [res_bind].
  destruct (x402_network _); [|by left]. cbn [res_bind].
  destruct (settlement_idempotency_key i) as [key|]; [|by left]. cbn [res_bind].
  pose proof (lookup_frame key s) as Hf. pose proof (lookup_exact key s) as He.
  destruct (rail_lookup R key s) as [s1 [[v|]|]]; simpl in *; [by left| |by left].
  specialize (He _ eq_refl). symmetry in He. rewrite <- Hf in He |- *.
  destruct (rail_pay R (pay_args i) key s1) as [s2 r2] eqn:Hp.
  pose proof (fun r => pay_commits key (pay_args i) s1 r He) as Hc.
  pose proof (fun e => pay_fails key (pay_args i) s1 e He) as Hx. rewrite Hp in Hc, Hx. simpl in *.
  destruct r2 as [v|e]; simpl.
  - right. exists key, v. by rewrite (Hc v eq_refl).
  - destruct (Hx e eq_refl) as [E|[r E]]; [by left|right]. by exists key, r.
Qed.

Definition paid_once (s : St) : Prop := NoDup (dict_keys (committed s)).

Lemma settle_paid_once now i s : paid_once s -> paid_once (x402_settle R now i s).1.
Proof.
  unfold paid_once, dict_keys. intros Hn.
  destruct (settle_effect now i s) as [->|(key & r & _ & Hnone & ->)]; [done|].
  rewrite fmap_app. apply NoDup_app. split_and!; [done| |apply NoDup_singleton].
  intros k Hk Hk'. apply list_elem_of_singleton in Hk' as ->.
  apply dict_get_None in Hnone. apply Hnone. by apply list_elem_of_In.
Qed.

(** Any sequence of settlement attempts, each with its own clock reading. *)
Fixpoint settle_all (attempts : list (Z * SettlementIntent)) (s : St) : St :=
  match attempts with
  | [] => s
  | (now, i) :: attempts' => settle_all attempts' (x402_settle R now i s).1
  end.

Lemma settle_all_paid_once attempts s : paid_once s -> paid_once (settle_all attempts s).
Proof.
  revert s. induction attempts as [|[now i] l IH]; intros s H; [done|]. simpl.
  by apply IH, settle_paid_once.
Qed.

(** Committed payments are never changed or forgotten. *)
Lemma settle_all_keeps attempts s key r :
  dict_get key (committed s) = Some r -> dict_get key (committed (settle_all attempts s)) = Some r.
Proof.
  revert s. induction attempts as [|[now i] l IH]; intros s H; [done|]. simpl. apply IH.
  destruct (settle_effect now i s) as [->|(k & r' & _ & Hnone & ->)]; [done|].
  by rewrite dict_get_app, H.
Qed.

(** What an intent obliges the payer to: everything but the memo. *)
Definition obligation (i : SettlementIntent) : pyval * pyval * pyval * pyval * pyval :=
  (i.(trade_id), i.(amount_minor), i.(currency), i.(payee_did), i.(payer_did)).

Lemma key_of_obligation i j k l :
  obligation i = obligation j -> settlement_idempotency_key i = Ok k -> settlement_idempotency_key j = Ok l -> k = l.
Proof.
  unfold obligation, settlement_idempotency_key, intent_body. intros [= -> -> -> -> ->].
  destruct (validate i); [|done]. destruct (validate j); [|done]. cbn [res_bind].
  destruct (canonical_json _); [|done]. by intros [= <-] [= <-].
Qed.

(** The payments [added] were made for the intents [paid], one each. *)
Definition pays_for (p : string * rail_value) (i : SettlementIntent) : Prop :=
  settlement_idempotency_key i = Ok p.1.

Lemma settle_all_adds attempts s :
  exists added paid, committed (settle_all attempts s) = (committed s ++ added)%list /\
    Forall2 pays_for added paid /\ incl paid (map snd attempts).
Proof.
  revert s. induction attempts as [|[now i] l IH]; intros s.
  { exists [], []. rewrite app_nil_r. split; [done|]. split; [by apply List.Forall2_nil|apply incl_nil_l]. }
  cbn [settle_all]. destruct (IH (x402_settle R now i s).1) as (added & paid & Ha & Hp & Hi).
  destruct (settle_effect now i s) as [E|(key & r & Hk & _ & E)]; rewrite E in Ha.
  - exists added, paid. split_and!; [done..|]. by apply incl_tl.
  - exists ((key, r) :: added), (i :: paid). rewrite <- app_assoc in Ha.
    split_and!; [done|by constructor|]. apply incl_cons; [by left|by apply incl_tl].
Qed.

Lemma distinct_obligations added paid :
  Forall2 pays_for added paid -> NoDup (dict_keys added) -> NoDup (map obligation paid).
Proof.
  induction 1 as [|p i added paid Hp H IH]; intros Hn; [constructor|]. unfold dict_keys in *.
  cbn [fmap list_fmap map] in *. apply NoDup_cons in Hn as [Hnin Hn]. apply NoDup_cons. split; [|by apply IH].
  intros (j & Hj & Hin)%list_elem_of_fmap. apply Hnin.
  apply list_elem_of_lookup in Hin as [n Hn'].
  destruct (Forall2_lookup_r _ _ _ _ _ H Hn') as (q & Hq' & Hq).
  apply list_elem_of_fmap. exists q. split; [by eapply key_of_obligation|by eapply list_elem_of_lookup_2].
Qed.

(** Once an obligation is committed, [settle] only looks it up. *)
Lemma settle_committed now i s key v :
  settlement_idempotency_key i = Ok key -> dict_get key (committed s) = Some v ->
  ((x402_settle R now i s).1 = s \/ (x402_settle R now i s).1 = (rail_lookup R key s).1) /\
  forall res_, (x402_settle R now i s).2 = Ok res_ ->
    exists network, x402_network R.(rail_network) = Ok network /\ result_from_receipt now i v network = Ok res_.
Proof.
  intros Hk Hv. unfold x402_settle, x402_prepare. destruct (validate i); [|cbn; split; [by left|done]]. cbn [res_bind].
  destruct (x402_network _) as [net|]; [|cbn; split; [by left|done]]. rewrite Hk. cbn [res_bind].
  pose proof (lookup_exact key s) as He.
  destruct (rail_lookup R key s) as [s1 [[w|]|]]; cbn [fst snd] in *.
  - split; [by right|]. intros res_ H. exists net. split; [done|]. specialize (He _ eq_refl). congruence.
  - specialize (He _ eq_refl). congruence.
  - by split; [right|].
Qed.

(** A settled intent is paid, and the result is built from that payment. *)
Lemma settle_Ok_committed now i s res_ :
  (x402_settle R now i s).2 = Ok res_ ->
  exists key v network, settlement_idempotency_key i = Ok key /\
    x402_network R.(rail_network) = Ok network /\
    dict_get key (committed (x402_settle R now i s).1) = Some v /\
    result_from_receipt now i v network = Ok res_.
Proof.
  unfold x402_settle, x402_prepare. destruct (validate i); [|done]. cbn [res_bind].
  destruct (x402_network _) as [net|]; [|done]. cbn [res_bind].
  destruct (settlement_idempotency_key i) as [key|]; [|done]. cbn [res_bind].
  pose proof (lookup_frame key s) as Hf. pose proof (lookup_exact key s) as He.
  destruct (rail_lookup R key s) as [s1 [[v|]|]]; simpl in *; [| |done].
  - intros H. exists key, v, net. split_and!; [done..| |done]. rewrite Hf.
    by rewrite <- (He _ eq_refl).
  - specialize (He _ eq_refl). symmetry in He. rewrite <- Hf in He.
    destruct (rail_pay R (pay_args i) key s1) as [s2 [v|]] eqn:Hp; simpl; [|done].
    intros H. exists key, v, net. split_and!; try done.
    pose proof (pay_commits key (pay_args i) s1 v He) as Hc. rewrite Hp in Hc. simpl in Hc.
    rewrite (Hc eq_refl), dict_get_app, He. simpl. by rewrite String.eqb_refl.
Qed.
End AtMostOnce.

(** The in-memory fake rail keeps the promises. *)
Definition fake_committed (s : FakeState) : list (string * rail_value) := map_snd Receipt s.(receipts).

Global Instance fake_rail_laws c : c.(root) = false -> RailLaws (FakePaymentRail c) fake_committed.
Proof.
  intros Hroot. split.
  - done.
  - intros key s r. simpl. rewrite Hroot. intros [= <-]. unfold fake_committed.
    by rewrite dict_get_map_snd.
  - intros key a s r0. unfold fake_committed. rewrite dict_get_map_snd. simpl. unfold fake_pay.
    destruct (String.eqb key ""); [done|]. rewrite Hroot.
    destruct (dict_get key (receipts s)) as [x|]; [|done]. simpl. intros [= <-].
    split; [done|]. by intros r [= <-].
  - intros key a s r. unfold fake_committed. rewrite dict_get_map_snd. simpl. unfold fake_pay.
    destruct (String.eqb key ""); [done|]. rewrite Hroot.
    destruct (dict_get key (receipts s)) as [x|] eqn:Hg; [done|]. intros _.
    unfold fake_commit_payment. destruct (fail c); [done|]. destruct (ascii_encode key) eqn:Ha; [|done].
    simpl. destruct (fail_after_commit c); [done|]. intros [= <-].
    rewrite dict_set_new by done. unfold map_snd. by rewrite map_app.
  - intros key a s e. unfold fake_committed. rewrite dict_get_map_snd. simpl. unfold fake_pay.
    destruct (String.eqb key ""); [by left|]. rewrite Hroot.
    destruct (dict_get key (receipts s)) as [x|] eqn:Hg; [done|]. intros _.
    unfold fake_commit_payment. destruct (fail c); [by left|]. destruct (ascii_encode key) as [k|] eqn:Ha; [|by left].
    simpl. destruct (fail_after_commit c); [|done]. intros _. right. exists (Receipt (fake_receipt k)).
    rewrite dict_set_new by done. unfold map_snd. by rewrite map_app.
Qed.

(** ** Properties *)

(** C27.  [verify_settlement] accepts exactly the records that meet the signed
    terms: the nine fields and no other, a known adapter, the expected amount,
    currency and payee, the expected payer when one is bound, a settlement time
    that is not in the future, and either no external evidence at all (manual)
    or a transaction reference on an approved test network with a non-empty,
    bounded proof and a payer (x402). *)
Theorem verify_settlement_exact now v amt cur payee payer :
  verify_settlement now v amt cur payee payer = (true, "ok") <->
  exists d, v = PDict d /\ settlement_ok now d amt cur payee payer.
Proof.
  split; [apply verify_settlement_sound|]. intros (d & -> & H). by apply verify_settlement_complete.
Qed.

(** C18.  Payments happen at most once per obligation: over any rail that keeps
    the protocol's promises, whatever sequence of settlement attempts is made,
    with whatever memos and outcomes, the payments [settle] adds are made for
    attempted intents of pairwise different obligations (trade, amount,
    currency, payee and payer) and under idempotency keys that were not paid
    before, and no committed payment is changed or lost; and from then on an
    attempt on an obligation that is paid only looks it up: it does not call
    the rail's payment operation, and the result it returns, if any, is built
    from the committed receipt. *)
Theorem x402_pays_at_most_once {St} (R : PaymentRail St) committed attempts s :
  RailLaws R committed -> paid_once committed s ->
  let s' := settle_all R attempts s in
  (exists added paid, committed s' = (committed s ++ added)%list /\ Forall2 pays_for added paid /\
     incl paid (map snd attempts) /\ NoDup (map obligation paid) /\
     NoDup (dict_keys (committed s ++ added))) /\
  forall now i key v,
    settlement_idempotency_key i = Ok key -> dict_get key (committed s') = Some v ->
    ((x402_settle R now i s').1 = s' \/ (x402_settle R now i s').1 = (rail_lookup R key s').1) /\
    forall r, (x402_settle R now i s').2 = Ok r ->
      exists network, x402_network R.(rail_network) = Ok network /\ result_from_receipt now i v network = Ok r.
Proof.
  intros L H s'. split; [|intros now i key v; by eapply settle_committed].
  destruct (settle_all_adds R committed attempts s) as (added & paid & Ha & Hp & Hi).
  pose proof (settle_all_paid_once R committed attempts s H) as Hn. unfold paid_once in Hn. rewrite Ha in Hn.
  exists added, paid. split_and!; try done. apply (distinct_obligations added); [done|].
  unfold dict_keys in *. rewrite fmap_app in Hn. by apply NoDup_app in Hn as (_ & _ & ?).
Qed.

(** The idempotency key is the obligation: it does not depend on the memo,
    and two intents with the same key agree on trade, amount, currency, payee
    and payer, unless they exhibit a SHA-256 collision. *)
Theorem settlement_key_is_obligation i key m :
  settlement_idempotency_key i = Ok key ->
  bounded_text m 2048 true = true ->
  settlement_idempotency_key {| trade_id := i.(trade_id); amount_minor := i.(amount_minor);
    currency := i.(currency); payee_did := i.(payee_did); payer_did := i.(payer_did);
    memo := m |} = Ok key /\
  forall j, settlement_idempotency_key j = Ok key ->
    (i.(trade_id) = j.(trade_id) /\ i.(amount_minor) = j.(amount_minor) /\
     i.(currency) = j.(currency) /\ i.(payee_did) = j.(payee_did) /\ i.(payer_did) = j.(payer_did)) \/
    exists a b, canonical_json (intent_body i) = Ok a /\ canonical_json (intent_body j) = Ok b /\
      sha256_collision a b.
Proof.
  intros Hk Hm. split; [|intros j Hj; by eapply intent_key_binds].
  pose proof (settlement_key_valid _ _ Hk) as Hv. rewrite <- Hk. unfold settlement_idempotency_key.
  assert (validate {| trade_id := i.(trade_id); amount_minor := i.(amount_minor);
    currency := i.(currency); payee_did := i.(payee_did); payer_did := i.(payer_did);
    memo := m |} = Ok tt) as ->; [|by rewrite Hv].
  rewrite <- Hv. unfold validate in *. cbn [trade_id amount_minor currency payee_did payer_did memo].
  destruct (bounded_text (memo i) 2048 true) eqn:E; [by rewrite Hm|].
  rewrite !andb_false_r in Hv. done.
Qed.

(** What the x402 adapter returns is what the verifier accepts, provided
    the stored proof (the rail's proof with the key added) is within the proof
    limits: the record names the intent's amount, currency, payee and payer. *)
Theorem x402_result_verifies {St} (R : PaymentRail St) committed now now' i s r n amt cur payee payer :
  RailLaws R committed ->
  (x402_settle R now i s).2 = Ok r ->
  i.(amount_minor) = PInt amt -> i.(currency) = PStr cur -> i.(payee_did) = PStr payee ->
  i.(payer_did) = PStr payer -> payer <> "" ->
  0 < now <= now' + MAX_SETTLEMENT_FUTURE_SKEW_MS ->
  proof_encoded_size (PDict r.(r_proof)) = Ok n ->
  verify_settlement now' (PDict (to_payload r)) amt cur payee payer = (true, "ok").
Proof.
  intros L (key & v & net & _ & Hnet & _ & Hr)%(settle_Ok_committed R committed) Ha Hc He Hp Hne Hn Hs.
  apply verify_settlement_complete. eapply x402_result_ok; eauto using x402_network_Ok.
Qed.

(** ** Examples *)

Definition sample_intent : SettlementIntent := {|
  trade_id := PStr "t1"; amount_minor := PInt 5; currency := PStr "USDC";
  payee_did := PStr "did:key:zPayee"; payer_did := PStr "did:key:zPayer"; memo := PStr "x" |}.

Definition sample_config : FakeConfig := {| fail := false; fail_after_commit := true; root := false |}.
Definition sample_state : FakeState :=
  {| receipts := []; rail_files := ∅; calls := []; lookups := [] |}.

(** Three attempts on one obligation under two memos. *)
Definition sample_again : SettlementIntent := {|
  trade_id := PStr "t1"; amount_minor := PInt 5; currency := PStr "USDC";
  payee_did := PStr "did:key:zPayee"; payer_did := PStr "did:key:zPayer"; memo := PStr "again" |}.

Definition sample_attempts : list (Z * SettlementIntent) :=
  [(10, sample_intent); (11, sample_again); (12, sample_intent)].

Lemma x402_pays_at_most_once_witness :
  let R := FakePaymentRail sample_config in
  let s' := settle_all R sample_attempts sample_state in
  List.length s'.(calls) = 1%nat /\
  (exists added paid, fake_committed s' = ([] ++ added)%list /\ Forall2 pays_for added paid /\
     incl paid (map snd sample_attempts) /\ NoDup (map obligation paid) /\ NoDup (dict_keys ([] ++ added))) /\
  forall now i key v,
    settlement_idempotency_key i = Ok key -> dict_get key (fake_committed s') = Some v ->
    ((x402_settle R now i s').1 = s' \/ (x402_settle R now i s').1 = (rail_lookup R key s').1) /\
    forall r, (x402_settle R now i s').2 = Ok r ->
      exists network, x402_network R.(rail_network) = Ok network /\ result_from_receipt now i v network = Ok r.
Proof.
  split; [vm_compute; reflexivity|].
  apply (x402_pays_at_most_once (FakePaymentRail sample_config) fake_committed sample_attempts sample_state).
  - by apply fake_rail_laws.
  - apply NoDup_nil_2.
Defined.

Definition sample_key : string :=
  match settlement_idempotency_key sample_intent with Ok k => k | Err _ => "" end.

Lemma settlement_key_is_obligation_witness :
  settlement_idempotency_key {| trade_id := PStr "t1"; amount_minor := PInt 5; currency := PStr "USDC";
    payee_did := PStr "did:key:zPayee"; payer_did := PStr "did:key:zPayer"; memo := PStr "" |}
  = Ok sample_key.
Proof.
  apply (settlement_key_is_obligation sample_intent sample_key (PStr "")); vm_compute; reflexivity.
Defined.

Definition working_config : FakeConfig := {| fail := false; fail_after_commit := false; root := false |}.

Lemma x402_result_verifies_witness :
  exists r, (x402_settle (FakePaymentRail working_config) 10 sample_intent sample_state).2 = Ok r /\
    verify_settlement 10 (PDict (to_payload r)) 5 "USDC" "did:key:zPayee" "did:key:zPayer" = (true, "ok").
Proof.
  eexists. split; [vm_compute; reflexivity|].
  eapply (x402_result_verifies (FakePaymentRail working_config) fake_committed 10 10 sample_intent
            sample_state).
  - by apply fake_rail_laws.
  - vm_compute; reflexivity.
  - reflexivity.
  - reflexivity.
  - reflexivity.
  - reflexivity.
  - discriminate.
  - split; [lia|]. vm_compute. discriminate.
  - vm_compute; reflexivity.
Defined.

(** A rail whose proof just fits the byte limit. *)
Definition tight_receipt : rail_value := Receipt {|
  tx_ref := PStr "tx"; status := PStr RAIL_RECEIPT_CONFIRMED;
  proof := PDict [("x", PStr (str_repeat "a" (Z.to_nat 65518)))]; idempotency_key := PStr sample_key |}.

(** The verdict on what the adapter makes of a receipt. *)
Definition adapter_then_verifier (v : rail_value) : option verdict :=
  match result_from_receipt 10 sample_intent v "eip155:84532" with
  | Ok r => Some (verify_settlement 10 (PDict (to_payload r)) 5 "USDC" "did:key:zPayee" "did:key:zPayer")
  | Err _ => None
  end.

(** The proof limit is checked before the idempotency key is added to the
    proof: the adapter accepts a proof that just fits, and the record it
    returns is refused by the verifier as too large. *)
Theorem x402_result_can_be_refused :
  exists r, result_from_receipt 10 sample_intent tight_receipt "eip155:84532" = Ok r /\
    verify_settlement 10 (PDict (to_payload r)) 5 "USDC" "did:key:zPayee" "did:key:zPayer"
    = (false, "settlement-receipt-too-large").
Proof.
  assert (adapter_then_verifier tight_receipt = Some (false, "settlement-receipt-too-large")) as H
    by (vm_compute; reflexivity).
  revert H. generalize tight_receipt. intros v H. unfold adapter_then_verifier in H.
  destruct (result_from_receipt 10 sample_intent v "eip155:84532") as [r|]; [|done].
  exists r. split; [done|]. by injection H.
Qed.
