(* ===== verification/Trade.v ===== *)
(** * The trade state machine ([nth_dao/commerce/trade.py])

    A trade is an append-only chain of signed events; its state is the fold of
    the chain.  [verify_trade] audits a chain offline, [append_event] is the one
    transition all six operations go through. *)

From Stdlib Require Import ZArith Lia Ascii String.
From stdpp Require Import base list strings gmap.
From S2P Require Import Prelude Digits PyStr PyValue Json CanonicalJson B64u DidKey Sha256 Identity Store Settlement.

Local Open Scope string_scope.
Local Open Scope Z_scope.

Definition NTH_TRADE_EVENT_KIND : string := "nth-trade-event-v1".
Definition MAX_TRADE_PAYLOAD_BYTES : Z := 256 * 1024.
Definition MAX_TRADE_CHAIN_BYTES : Z := 320 * 1024.
Definition TRADE_EVENT_FIELDS : list string :=
  ["trade_id"; "seq"; "type"; "actor_did"; "prev_state"; "new_state"; "payload"; "created_at_ms";
   "kind"; "event_sig"].

Definition STATE_EXECUTING : string := "executing".
Definition STATE_DELIVERED : string := "delivered".
Definition STATE_VERIFIED : string := "verified".
Definition STATE_FAILED : string := "failed".
Definition STATE_SETTLED : string := "settled".
Definition STATE_DISPUTED : string := "disputed".
Definition STATE_REFUNDED : string := "refunded".
Definition STATE_SPLIT_SETTLED : string := "split_settled".
Definition TERMINAL_STATES : list string := [STATE_SETTLED; STATE_REFUNDED; STATE_SPLIT_SETTLED].

Definition EVENT_TRADE_OPENED : string := "trade_opened".
Definition EVENT_DELIVERY_SUBMITTED : string := "delivery_submitted".
Definition EVENT_VERIFICATION_RECORDED : string := "verification_recorded".
Definition EVENT_SETTLEMENT_RECORDED : string := "settlement_recorded".
Definition EVENT_DISPUTE_OPENED : string := "dispute_opened".
Definition EVENT_DISPUTE_RESOLVED : string := "dispute_resolved".

(** ** Events *)

(** The fields of a stored event are JSON values until [verify_trade] has
    checked them. *)
Record TradeEvent := {
  trade_id : pyval;
  seq : pyval;
  type : pyval;
  actor_did : pyval;
  prev_state : pyval;
  new_state : pyval;
  payload : pyval;
  created_at_ms : pyval;
  kind : pyval;
  event_sig : pyval
}.

(** [TradeEvent.to_dict] ([asdict]) *)
Definition to_dict (e : TradeEvent) : list (string * pyval) :=
  [("trade_id", e.(trade_id)); ("seq", e.(seq)); ("type", e.(type)); ("actor_did", e.(actor_did));
   ("prev_state", e.(prev_state)); ("new_state", e.(new_state)); ("payload", e.(payload));
   ("created_at_ms", e.(created_at_ms)); ("kind", e.(kind)); ("event_sig", e.(event_sig))].

(** [TradeEvent.from_dict], on a dictionary with all ten fields *)
Definition from_dict (d : list (string * pyval)) : TradeEvent := {|
  trade_id := get_or_none "trade_id" d; seq := get_or_none "seq" d; type := get_or_none "type" d;
  actor_did := get_or_none "actor_did" d; prev_state := get_or_none "prev_state" d;
  new_state := get_or_none "new_state" d; payload := get_or_none "payload" d;
  created_at_ms := get_or_none "created_at_ms" d; kind := get_or_none "kind" d;
  event_sig := get_or_none "event_sig" d |}.

(** [TradeEvent.signing_body] *)
Definition event_signing_body (e : TradeEvent) : pyval := signing_body "event_sig" (to_dict e).

(** ** The transition table *)

(** [_LEGAL_PRIOR.get(event_type, frozenset())] *)
Definition LEGAL_PRIOR (event_type : string) : list string :=
  if String.eqb event_type EVENT_TRADE_OPENED then [""]
  else if String.eqb event_type EVENT_DELIVERY_SUBMITTED then [STATE_EXECUTING]
  else if String.eqb event_type EVENT_VERIFICATION_RECORDED then [STATE_DELIVERED]
  else if String.eqb event_type EVENT_SETTLEMENT_RECORDED then [STATE_VERIFIED]
  else if String.eqb event_type EVENT_DISPUTE_OPENED then
    [STATE_DELIVERED; STATE_VERIFIED; STATE_FAILED]
  else if String.eqb event_type EVENT_DISPUTE_RESOLVED then [STATE_DISPUTED]
  else [].

(** [_LEGAL_PRIOR.get] of an unchecked value: lists and dictionaries cannot be
    hashed. *)
Definition legal_prior (event_type : pyval) : res (list string) :=
  match event_type with
  | PStr t => Ok (LEGAL_PRIOR t)
  | PList _ | PDict _ => Err TypeError
  | _ => Ok []
  end.

(** [_expected_new_state] *)
Definition expected_new_state (event_type : string) (payload : list (string * pyval)) : option string :=
  if String.eqb event_type EVENT_TRADE_OPENED then Some STATE_EXECUTING
  else if String.eqb event_type EVENT_DELIVERY_SUBMITTED then Some STATE_DELIVERED
  else if String.eqb event_type EVENT_VERIFICATION_RECORDED then
    let verdict := get_or_none "verdict" payload in
    if py_eqb verdict (PStr "pass") then Some STATE_VERIFIED
    else if py_eqb verdict (PStr "fail") then Some STATE_FAILED
    else None
  else if String.eqb event_type EVENT_SETTLEMENT_RECORDED then Some STATE_SETTLED
  else if String.eqb event_type EVENT_DISPUTE_OPENED then Some STATE_DISPUTED
  else if String.eqb event_type EVENT_DISPUTE_RESOLVED then
    let resolution := get_or_none "resolution" payload in
    if py_eqb resolution (PStr "settle") then Some STATE_SETTLED
    else if py_eqb resolution (PStr "refund") then Some STATE_REFUNDED
    else if py_eqb resolution (PStr "split") then Some STATE_SPLIT_SETTLED
    else None
  else None.

Section Trade.
Context `{Ed : Ed25519} `{Rp : PyRepr} `{U : UnicodeDB}.

(** [sign_trade_event] *)
Definition sign_trade_event (actor : AgentIdentity) (e : TradeEvent) : res TradeEvent :=
  let* body := canonical_json (event_signing_body e) in
  let* sig := sign actor body in
  Ok {| trade_id := e.(trade_id); seq := e.(seq); type := e.(type); actor_did := e.(actor_did);
        prev_state := e.(prev_state); new_state := e.(new_state); payload := e.(payload);
        created_at_ms := e.(created_at_ms); kind := e.(kind); event_sig := PStr (b64u_encode sig) |}.

(** [verify_trade_event] *)
Definition verify_trade_event (e : TradeEvent) : verdict :=
  if negb nacl_available then (false, "crypto-unavailable") else
  match e.(actor_did) with
  | PStr did =>
    if negb (is_did_key (PStr did)) then (false, "event-bad-actor-did") else
    match decode_ed25519_did_key did with
    | Err _ => (false, "event-bad-actor-did")
    | Ok pk =>
      match e.(event_sig) with
      | PStr s =>
        if negb ((1 <=? py_len s) && (py_len s <=? 128)) then (false, "event-sig-invalid") else
        match b64u_decode s, canonical_json (event_signing_body e) with
        | Ok sig, Ok body =>
          if negb (bytes_len sig =? 64) || negb (String.eqb (b64u_encode sig) s) then
            (false, "event-sig-invalid")
          else if ed_verify pk body sig then (true, "") else (false, "event-sig-invalid")
        | _, _ => (false, "event-sig-invalid")
        end
      | _ => (false, "event-sig-invalid")
      end
    end
  | _ => (false, "event-bad-actor-did")
  end.

(** ** Bound parties and terms *)

(** [_parties]; the keys missing before a trade is opened read as the empty
    string, which no role check accepts. *)
Record Parties := {
  claimant_did : string;
  publisher_did : string;
  verifier_did : string;
  settler_did : string;
  resolver_did : string
}.

Definition no_parties : Parties := {| claimant_did := ""; publisher_did := ""; verifier_did := "";
                                      settler_did := ""; resolver_did := "" |}.

(** [str(p.get(k, ""))] *)
Definition str_get (k : string) (d : list (string * pyval)) : string :=
  match dict_get k d with Some v => py_str v | None => "" end.

Definition parties_of (p : list (string * pyval)) : Parties := {|
  claimant_did := str_get "claimant_did" p; publisher_did := str_get "publisher_did" p;
  verifier_did := str_get "verifier_did" p; settler_did := str_get "settler_did" p;
  resolver_did := str_get "resolver_did" p |}.

(** The payload of the opening event, as [_parties] and [_trade_terms] read it. *)
Definition opening_payload (events : list pyval) : res (list (string * pyval)) :=
  match events with
  | PDict d :: _ =>
    match dict_get "payload" d with
    | None => Ok []
    | Some (PDict p) => Ok p
    | Some _ => Err AttributeError
    end
  | _ => Ok []
  end.

Definition parties (events : list pyval) : res Parties :=
  match events with
  | [] => Ok no_parties
  | _ => res_map parties_of (opening_payload events)
  end.

(** [_trade_terms] *)
Definition trade_terms (events : list pyval) : res (option (list (string * pyval))) :=
  let* p := opening_payload events in
  Ok (match dict_get "terms" p with Some (PDict t) => Some t | _ => None end).

(** [_current_state] *)
Definition current_state (events : list pyval) : res string :=
  match last events with
  | None => Ok ""
  | Some (PDict d) => Ok (str_get "new_state" d)
  | Some _ => Err AttributeError
  end.

(** The roles that may sign an event of a given type after the opening. *)
Definition role_set (event_type : string) (p : Parties) : option (list string) :=
  if String.eqb event_type EVENT_DELIVERY_SUBMITTED then Some [p.(claimant_did)]
  else if String.eqb event_type EVENT_VERIFICATION_RECORDED then Some [p.(verifier_did)]
  else if String.eqb event_type EVENT_SETTLEMENT_RECORDED then Some [p.(settler_did)]
  else if String.eqb event_type EVENT_DISPUTE_OPENED then Some [p.(publisher_did); p.(claimant_did)]
  else if String.eqb event_type EVENT_DISPUTE_RESOLVED then Some [p.(resolver_did)]
  else None.

(** [actor in {d for d in role_set if d}] *)
Definition in_roles (actor : string) (roles : list string) : bool :=
  str_in actor (filter (fun d => d <> "") roles).

(** ** Verification *)

(** [len(canonical_json(v)) > limit] rejects, and so does an encoding error. *)
Definition check_size (v : pyval) (limit : Z) : res unit :=
  match canonical_json v with
  | Ok b => check (bytes_len b <=? limit) "payload-invalid"
  | Err e => if is_TypeOrValueError e then reject "payload-invalid" else Err e
  end.

(** The direct-settlement branch: the record must meet the signed terms. *)
Definition check_settlement (now : Z) (terms : list (string * pyval)) (p : Parties)
    (payload : list (string * pyval)) : res unit :=
  let settlement := match dict_get "settlement" payload with
                    | Some (PDict s) => PDict s
                    | _ => PDict []
                    end in
  let exp_amt := match get_or_none "amount_minor" terms with PInt z => z | _ => -1 end in
  let '(ok, reason) := verify_settlement now settlement exp_amt (str_get "currency" terms)
                         (str_get "payee_did" terms) p.(publisher_did) in
  check ok reason.

(** The dispute-resolution branch. *)
Definition check_resolution (now : Z) (terms : list (string * pyval)) (p : Parties)
    (payload : list (string * pyval)) : res unit :=
  match (match dict_get "settlement" payload with Some v => v | None => PDict [] end) with
  | PDict s =>
    let resolution := get_or_none "resolution" payload in
    match get_or_none "amount_minor" terms with
    | PInt amount =>
      if amount <=? 0 then reject "settlement-amount-invalid" else
      let currency := str_get "currency" terms in
      if py_eqb resolution (PStr "settle") then
        let '(ok, reason) := verify_settlement now (PDict s) amount currency
                               (str_get "payee_did" terms) p.(publisher_did) in
        check ok reason
      else if py_eqb resolution (PStr "refund") then
        check (py_eqb (get_or_none "adapter_id" s) (PStr "manual") &&
               py_eqb (get_or_none "amount_minor" s) (PInt 0) &&
               py_eqb (get_or_none "refunded_amount_minor" s) (PInt amount) &&
               py_eqb (get_or_none "currency" s) (PStr currency) &&
               py_eqb (get_or_none "payee_did" s) (PStr p.(publisher_did)) &&
               py_eqb (get_or_none "payer_did" s) (PStr p.(publisher_did)))
          "settlement-refund-mismatch"
      else if py_eqb resolution (PStr "split") then
        match get_or_none "amount_minor" s, get_or_none "refunded_amount_minor" s with
        | PInt paid, PInt refunded =>
          check (negb (paid <=? 0) && negb (refunded <=? 0) && (paid + refunded =? amount) &&
                 py_eqb (get_or_none "adapter_id" s) (PStr "manual") &&
                 py_eqb (get_or_none "currency" s) (PStr currency) &&
                 py_eqb (get_or_none "payee_did" s) (PStr p.(claimant_did)) &&
                 py_eqb (get_or_none "payer_did" s) (PStr p.(publisher_did)))
            "settlement-split-mismatch"
        | _, _ => reject "settlement-split-mismatch"
        end
      else Ok tt
    | _ => reject "settlement-amount-invalid"
    end
  | _ => reject "settlement-malformed"
  end.

(** The actor of an event after the opening holds the role for it. *)
Definition check_role (event_type : string) (actor : pyval) (p : Parties) : res unit :=
  match role_set event_type p with
  | None => Ok tt
  | Some roles =>
    match actor with
    | PStr a => check (in_roles a roles) "wrong-actor"
    | _ => reject "wrong-actor"
    end
  end.

(** The settlement record of an event that moves money meets the terms. *)
Definition check_terms (now : Z) (events : list pyval) (event_type : string)
    (payload : list (string * pyval)) (p : Parties) : res unit :=
  if String.eqb event_type EVENT_SETTLEMENT_RECORDED then
    let* terms := trade_terms events in
    match terms with
    | Some ((_ :: _) as t) => check_settlement now t p payload
    | _ => Ok tt
    end
  else if String.eqb event_type EVENT_DISPUTE_RESOLVED then
    let* terms := trade_terms events in
    match terms with
    | Some ((_ :: _) as t) => check_resolution now t p payload
    | _ => Ok tt
    end
  else Ok tt.

(** One iteration of the loop of [verify_trade]: from the parties and state
    before the event to those after it. *)
Definition check_event (now : Z) (id : string) (events : list pyval) (i : Z) (raw : pyval)
    (acc : Parties * string) : res (Parties * string) :=
  let '(p, state) := acc in
  match raw with
  | PDict d =>
    let* _ := check (same_keys TRADE_EVENT_FIELDS d) "chain-broken" in
    let ev := from_dict d in
    let* _ := check (py_eqb ev.(trade_id) (PStr id)) "chain-broken" in
    match ev.(payload) with
    | PDict pl =>
      let* _ := check_size (PDict pl) MAX_TRADE_PAYLOAD_BYTES in
      let* _ := check (py_eqb ev.(seq) (PInt i)) "chain-broken" in
      let '(ok, reason) := verify_trade_event ev in
      let* _ := check ok reason in
      let* _ := check (py_eqb ev.(prev_state) (PStr state)) "chain-broken" in
      let* legal := legal_prior ev.(type) in
      let* _ := check (str_in state legal) "illegal-transition" in
      match ev.(type) with
      | PStr t =>
        match expected_new_state t pl with
        | None => reject "illegal-transition"
        | Some expected =>
          let* _ := check (py_eqb ev.(new_state) (PStr expected)) "illegal-transition" in
          if String.eqb t EVENT_TRADE_OPENED then Ok (parties_of pl, expected)
          else
            let* _ := check_role t ev.(actor_did) p in
            let* _ := check_terms now events t pl p in
            Ok (p, expected)
        end
      | _ => reject "illegal-transition"
      end
    | _ => reject "payload-invalid"
    end
  | _ => reject "chain-broken"
  end.

Fixpoint check_events (now : Z) (id : string) (events : list pyval) (i : Z) (rest : list pyval)
    (acc : Parties * string) : res (Parties * string) :=
  match rest with
  | [] => Ok acc
  | raw :: rest' =>
    let* acc := check_event now id events i raw acc in
    check_events now id events (i + 1) rest' acc
  end.

(** [verify_trade] on the events the store returned *)
Definition verify_events (now : Z) (id : string) (events : list pyval) : res verdict :=
  run_body
    (match events with
     | [] => reject "trade-not-found"
     | _ =>
       let* _ := check_size (PDict [("events", PList events)]) MAX_TRADE_CHAIN_BYTES in
       let* _ := check_events now id events 0 events (no_parties, "") in
       Ok (true, "")
     end).
End Trade.

(** ** The store and the transitions *)

Section TradeStore.
Context `{Ed : Ed25519} `{Rp : PyRepr} `{U : UnicodeDB}.

(** [TradeStore._path], as a file name *)
Definition trade_path (id : string) : string := safe_id id.

(** [TradeStore.get_events] *)
Definition get_events (fs : files) (id : string) : option (list pyval) :=
  match safe_load_json fs (trade_path id) with
  | None => None
  | Some (PDict d) => match dict_get "events" d with Some (PList l) => Some l | _ => Some [] end
  | Some _ => Some []
  end.

(** [store.get_events(trade_id) or []] *)
Definition events_or_nil (fs : files) (id : string) : list pyval :=
  match get_events fs id with Some l => l | None => [] end.

(** [verify_trade] *)
Definition verify_trade (now : Z) (fs : files) (id : string) : res verdict :=
  verify_events now id (events_or_nil fs id).

(** [trade_state] *)
Definition trade_state (fs : files) (id : string) : res (option string) :=
  match get_events fs id with
  | None => Ok None
  | Some events => res_map Some (current_state events)
  end.

Definition trade_file (id : string) (events : list pyval) : pyval :=
  PDict [("trade_id", PStr id); ("events", PList events)].

(** *** Replication *)

(** [TradeStore._validate_import_locked] *)
Definition validate_import (now : Z) (fs : files) (id : string) (events : pyval) : res (list pyval) :=
  match events with
  | PList ((_ :: _) as candidate) =>
    if 1000 <? Z.of_nat (List.length candidate) then Err (TradeRejected "chain-broken") else
    let existing := get_events fs id in
    if file_exists fs (trade_path id) &&
       match existing with Some (_ :: _) => false | _ => true end then Err TradeConflict else
    let stored := match existing with Some l => l | None => [] end in
    if negb (list_eqb py_eqb (take (List.length stored) candidate) stored) then Err TradeConflict else
    if match existing with
       | Some l => Nat.ltb (List.length candidate) (List.length l)
       | None => false
       end then Err TradeConflict else
    let* (ok, reason) := verify_events now id candidate in
    if negb ok then Err (TradeRejected reason) else Ok candidate
  | _ => Err (TradeRejected "chain-broken")
  end.

(** [TradeStore.import_verified_events] *)
Definition import_verified_events (now : Z) (fs : files) (id : string) (events : pyval)
  : res (files * list pyval) :=
  let* candidate := validate_import now fs id events in
  Ok (atomic_write_json fs (trade_path id) (trade_file id candidate), candidate).

(** [TradeStore._validate_verified_orphan_locked] *)
Definition validate_orphan (now : Z) (fs : files) (id expected_chain_head : string)
  : res (option (list pyval)) :=
  match last (events_or_nil fs id) with
  | None => Ok None
  | Some head =>
    let* (ok, reason) := verify_trade now fs id in
    if negb ok then Err (TradeRejected reason) else
    let* actual_head := digest_of head in
    if negb (String.eqb actual_head expected_chain_head) then Err TradeConflict
    else Ok (Some (events_or_nil fs id))
  end.

(** [TradeStore.quarantine_verified_orphan]: the active files and the files
    of the quarantine directory *)
Definition quarantine_orphan (now : Z) (fs quarantine : files) (id expected_chain_head : string)
    (destination : string) : res (files * files * bool) :=
  let* events := validate_orphan now fs id expected_chain_head in
  match events with
  | None => Ok (fs, quarantine, false)
  | Some _ =>
    if file_exists quarantine destination then Err TradeConflict else
    match fs !! trade_path id with
    | None => Ok (fs, quarantine, false)
    | Some file => Ok (delete (trade_path id) fs, <[destination := file]> quarantine, true)
    end
  end.

(** *** The transition *)

(** [raise TradeRejected(REJECT_PAYLOAD_INVALID)] on an oversized or
    unencodable document *)
Definition size_guard (v : pyval) (limit : Z) : res unit :=
  match canonical_json v with
  | Ok b => if limit <? bytes_len b then Err (TradeRejected "payload-invalid") else Ok tt
  | Err e => if is_TypeOrValueError e then Err (TradeRejected "payload-invalid") else Err e
  end.

(** The events of the stored file, or the refusal to touch it. *)
Definition load_for_append (fs : files) (id : string) : res (list pyval) :=
  match safe_load_json fs (trade_path id) with
  | Some (PDict d) =>
    match dict_get "events" d with
    | None => Ok []
    | Some (PList l) => Ok l
    | Some _ => Err (TradeRejected "chain-broken")
    end
  | _ => if file_exists fs (trade_path id) then Err (TradeRejected "chain-broken") else Ok []
  end.

(** The guards on the previous state and the actor; [allowed] is [None] when
    roles are not checked. *)
Definition append_guards (events : list pyval) (actor : AgentIdentity) (event_type : string)
    (expect_open : bool) (allowed : option (list string)) : res string :=
  if expect_open then
    match events with [] => Ok "" | _ => Err (TradeRejected "trade-already-exists") end
  else
    match events with
    | [] => Err (TradeRejected "trade-not-found")
    | _ =>
      let* state := current_state events in
      if negb (str_in state (LEGAL_PRIOR event_type)) then Err (TradeRejected "illegal-transition") else
      let* _ := match allowed with
                | None => Ok tt
                | Some roles =>
                  let* did := as_did actor in
                  if in_roles did roles then Ok tt else Err (TradeRejected "wrong-actor")
                end in
      Ok state
    end.

(** [_append_event]; [created] is [now_ms_override or now_ms()] *)
Definition append_event (now created : Z) (fs : files) (id : string) (actor : AgentIdentity)
    (event_type new_state : string) (payload : list (string * pyval)) (expect_open : bool)
    (allowed : option (list string)) : res (files * TradeEvent) :=
  let* _ := size_guard (PDict payload) MAX_TRADE_PAYLOAD_BYTES in
  let* events := load_for_append fs id in
  let* _ := match events with
            | [] => Ok tt
            | _ => let* (ok, reason) := verify_trade now fs id in
                   if ok then Ok tt else Err (TradeRejected reason)
            end in
  let* prev_state := append_guards events actor event_type expect_open allowed in
  let* did := as_did actor in
  let* ev := sign_trade_event actor {|
    trade_id := PStr id; seq := PInt (Z.of_nat (List.length events)); type := PStr event_type;
    actor_did := PStr did; prev_state := PStr prev_state; Trade.new_state := PStr new_state;
    payload := PDict payload; created_at_ms := PInt created; kind := PStr NTH_TRADE_EVENT_KIND;
    event_sig := PStr "" |} in
  let candidate_events := (events ++ [PDict (to_dict ev)])%list in
  let* _ := size_guard (PDict [("events", PList candidate_events)]) MAX_TRADE_CHAIN_BYTES in
  Ok (atomic_write_json fs (trade_path id) (trade_file id candidate_events), ev).

(** [now_ms_override or now_ms()] *)
Definition clock (override now : Z) : Z := if override =? 0 then now else override.

(** *** The six operations *)

(** The terms [open_trade] signs into the opening event. *)
Definition open_terms (terms : option (list (string * pyval))) (claimant_did : string)
  : res (list (string * pyval)) :=
  match terms with
  | None => Ok []
  | Some t =>
    match get_or_none "amount_minor" t with
    | PInt amt =>
      if amt <=? 0 then Err (TradeRejected "bad-terms") else
      let cur := str_get "currency" t in
      if String.eqb cur "" then Err (TradeRejected "bad-terms") else
      let payee := str_get "payee_did" t in
      Ok [("terms", PDict [("amount_minor", PInt amt); ("currency", PStr cur);
                           ("payee_did", PStr (if String.eqb payee "" then claimant_did else payee))])]
    | _ => Err (TradeRejected "bad-terms")
    end
  end.

Definition or_else (a b : string) : string := if String.eqb a "" then b else a.

(** [open_trade] *)
Definition open_trade (now override : Z) (fs : files) (authority : AgentIdentity)
    (claim_record : list (string * pyval)) (verifier_did settler_did resolver_did : string)
    (terms : option (list (string * pyval))) : res (files * TradeEvent) :=
  let announcement_id := str_get "announcement_id" claim_record in
  let claimant := str_get "claimant_did" claim_record in
  let publisher := str_get "publisher_did" claim_record in
  if String.eqb announcement_id "" || String.eqb claimant "" || String.eqb publisher "" then
    Err (TradeRejected "bad-claim-record") else
  let vd := or_else verifier_did publisher in
  let sd := or_else settler_did publisher in
  let rd := or_else resolver_did vd in
  let* extra := open_terms terms claimant in
  append_event now (clock override now) fs announcement_id authority EVENT_TRADE_OPENED STATE_EXECUTING
    ([("announcement_id", PStr announcement_id); ("claimant_did", PStr claimant);
      ("publisher_did", PStr publisher); ("verifier_did", PStr vd); ("settler_did", PStr sd);
      ("resolver_did", PStr rd); ("claim_receipt_id", PStr (str_get "receipt_id" claim_record))]
     ++ extra)%list true None.

(** [submit_delivery] *)
Definition submit_delivery (now override : Z) (fs : files) (id : string) (claimant : AgentIdentity)
    (delivery : pyval) : res (files * TradeEvent) :=
  let* p := parties (events_or_nil fs id) in
  append_event now (clock override now) fs id claimant EVENT_DELIVERY_SUBMITTED STATE_DELIVERED
    [("delivery", delivery)] false (Some [p.(claimant_did)]).

(** [record_verification] *)
Definition record_verification (now override : Z) (fs : files) (id : string)
    (verifier : AgentIdentity) (verdict : string) (result : pyval) : res (files * TradeEvent) :=
  if negb (str_in verdict ["pass"; "fail"]) then Err (TradeRejected "bad-verdict") else
  let new_state := if String.eqb verdict "pass" then STATE_VERIFIED else STATE_FAILED in
  let* p := parties (events_or_nil fs id) in
  append_event now (clock override now) fs id verifier EVENT_VERIFICATION_RECORDED new_state
    [("verdict", PStr verdict); ("result", result)] false (Some [p.(verifier_did)]).

(** [record_settlement] *)
Definition record_settlement (now override : Z) (fs : files) (id : string) (settler : AgentIdentity)
    (settlement : pyval) : res (files * TradeEvent) :=
  let* p := parties (events_or_nil fs id) in
  append_event now (clock override now) fs id settler EVENT_SETTLEMENT_RECORDED STATE_SETTLED
    [("settlement", settlement)] false (Some [p.(settler_did)]).

(** [v or {}] *)
Definition or_empty (v : pyval) : pyval := if truthy v then v else PDict [].

(** [open_dispute] *)
Definition open_dispute (now override : Z) (fs : files) (id : string) (disputant : AgentIdentity)
    (reason : string) (evidence : pyval) : res (files * TradeEvent) :=
  let* p := parties (events_or_nil fs id) in
  let* did := as_did disputant in
  let role := if String.eqb did p.(publisher_did) then "publisher"
              else if String.eqb did p.(claimant_did) then "claimant" else "" in
  append_event now (clock override now) fs id disputant EVENT_DISPUTE_OPENED STATE_DISPUTED
    [("reason", PStr reason); ("disputant_role", PStr role); ("evidence", or_empty evidence)]
    false (Some [p.(publisher_did); p.(claimant_did)]).

(** [resolve_dispute] *)
Definition resolve_dispute (now override : Z) (fs : files) (id : string) (resolver : AgentIdentity)
    (resolution : string) (settlement : pyval) (rationale : string) : res (files * TradeEvent) :=
  if negb (str_in resolution ["settle"; "refund"; "split"]) then Err (TradeRejected "bad-resolution") else
  let new_state := if String.eqb resolution "settle" then STATE_SETTLED
                   else if String.eqb resolution "refund" then STATE_REFUNDED
                   else STATE_SPLIT_SETTLED in
  let* p := parties (events_or_nil fs id) in
  append_event now (clock override now) fs id resolver EVENT_DISPUTE_RESOLVED new_state
    [("resolution", PStr resolution); ("settlement", or_empty settlement);
     ("rationale", PStr rationale)] false (Some [p.(resolver_did)]).
End TradeStore.
