(* ===== verification/TradeSpec.v ===== *)
(** * What trades promise

    The abstract machine a trade runs, the refinement theorem that every chain
    [verify_trade] accepts is one of its runs, and the properties of the
    transition and replication operations. *)

From Stdlib Require Import ZArith Lia Ascii String.
From stdpp Require Import base list strings gmap.
From S2P Require Import Prelude Digits PyStr PyValue Json CanonicalJson B64u DidKey Sha256 Identity Store Settlement Trade.

Local Open Scope string_scope.
Local Open Scope Z_scope.

#[local] Arguments verify_settlement : simpl never.
#[local] Arguments verify_trade_event : simpl never.
#[local] Opaque MAX_TRADE_PAYLOAD_BYTES MAX_TRADE_CHAIN_BYTES verify_settlement.

(** ** The abstract machine *)

Inductive tstate :=
| Executing | Delivered | Verified | Failed | Settled | Disputed | Refunded | SplitSettled.

Global Instance tstate_eq_dec : EqDecision tstate.
Proof. solve_decision. Defined.

Definition state_name (s : tstate) : string :=
  match s with
  | Executing => "executing" | Delivered => "delivered" | Verified => "verified"
  | Failed => "failed" | Settled => "settled" | Disputed => "disputed"
  | Refunded => "refunded" | SplitSettled => "split_settled"
  end.

Definition terminal (s : tstate) : Prop := s = Settled \/ s = Refunded \/ s = SplitSettled.

(** Who may move a trade, from where to where. *)
Inductive tstep (p : Parties) : tstate -> string -> tstate -> Prop :=
| step_deliver : tstep p Executing p.(claimant_did) Delivered
| step_pass : tstep p Delivered p.(verifier_did) Verified
| step_fail : tstep p Delivered p.(verifier_did) Failed
| step_settle : tstep p Verified p.(settler_did) Settled
| step_dispute s a :
    s = Delivered \/ s = Verified \/ s = Failed ->
    a = p.(publisher_did) \/ a = p.(claimant_did) -> tstep p s a Disputed
| step_resolve s' : terminal s' -> tstep p Disputed p.(resolver_did) s'.

(** A run, as the list of actors and the states they moved to. *)
Inductive trun (p : Parties) : tstate -> list (string * tstate) -> tstate -> Prop :=
| run_nil s : trun p s [] s
| run_step s a s' tr s'' : a <> "" -> tstep p s a s' -> trun p s' tr s'' -> trun p s ((a, s') :: tr) s''.

Lemma trun_snoc p s tr s' a s'' :
  trun p s tr s' -> a <> "" -> tstep p s' a s'' -> trun p s (tr ++ [(a, s'')]) s''.
Proof.
  induction 1 as [s|s b t tr u Hb Hst _ IH]; intros Ha Hs.
  - eapply run_step; eauto using trun.
  - simpl. eapply run_step; eauto.
Qed.

Lemma state_name_inj s t : state_name s = state_name t -> s = t.
Proof. destruct s, t; done. Qed.

(** Terminal states have no way out. *)
Lemma tstep_terminal p s a s' : terminal s -> ~ tstep p s a s'.
Proof. intros Ht Hs. destruct Hs, Ht as [|[|]]; subst; naive_solver. Qed.

(** Money moves only after acceptance by the verifier or a ruling of the
    resolver. *)
Lemma settled_after_acceptance p s tr s' :
  trun p s tr s' -> s <> Verified -> ~ terminal s -> s' = Settled ->
  In (p.(verifier_did), Verified) tr \/ In (p.(resolver_did), Settled) tr.
Proof.
  intros H. induction H as [s|s a u tr v Ha Hs Hr IH]; intros Hv Ht E.
  - destruct Ht. by left.
  - destruct (decide (u = Verified)) as [->|Hu].
    + left. inversion Hs; subst; [by left|]. by destruct H as [|[|]].
    + destruct (decide (u = Settled)) as [->|Hn].
      * inversion Hs; subst; [done|]. right. by left.
      * assert (~ terminal u) as Hnt.
        { intros Hu'. inversion Hr; subst; [congruence|]. by eapply tstep_terminal. }
        destruct (IH Hu Hnt E) as [?|?]; [left|right]; by right.
Qed.

(** ** Refinement *)

Section Refinement.
Context `{Ed : Ed25519} `{Rp : PyRepr} `{U : UnicodeDB}.

Lemma py_eqb_int v i : py_eqb v (PInt i) = true -> v = PInt i \/ (exists b, v = PBool b) \/ exists f, v = PFloat f.
Proof. destruct v; simpl; try done; eauto. intros H%Z.eqb_eq. left. congruence. Qed.

Lemma verify_trade_event_actor e r : verify_trade_event e = (true, r) -> exists a, e.(actor_did) = PStr a /\ a <> "".
Proof.
  unfold verify_trade_event. intros H. destruct (negb nacl_available); [done|].
  destruct (actor_did e) as [| | | |a| | |]; try done. exists a. split; [done|]. intros ->. done.
Qed.

(** Everything one accepted event guarantees. *)
Definition event_ok (now : Z) (id : string) (events : list pyval) (i : Z)
    (d pl : list (string * pyval)) (t a : string) (p : Parties) (st : string)
    (p' : Parties) (st' : string) : Prop :=
  let e := from_dict d in
  same_keys TRADE_EVENT_FIELDS d = true /\ e.(trade_id) = PStr id /\ e.(payload) = PDict pl /\
  check_size (PDict pl) MAX_TRADE_PAYLOAD_BYTES = Ok tt /\ py_eqb e.(seq) (PInt i) = true /\
  (exists r, verify_trade_event e = (true, r)) /\
  e.(prev_state) = PStr st /\ e.(type) = PStr t /\ e.(actor_did) = PStr a /\ a <> "" /\
  str_in st (LEGAL_PRIOR t) = true /\ expected_new_state t pl = Some st' /\ e.(new_state) = PStr st' /\
  ((t = EVENT_TRADE_OPENED /\ p' = parties_of pl) \/
   (t <> EVENT_TRADE_OPENED /\ p' = p /\
    check_role t (PStr a) p = Ok tt /\ check_terms now events t pl p = Ok tt)).

Ltac step_check H :=
  match type of H with
  | res_bind (check ?c _) _ = Ok _ =>
    let E := fresh "C" in destruct c eqn:E; [cbn [check res_bind] in H|done]
  end.

Lemma check_event_inv now id events i raw p st p' st' :
  check_event now id events i raw (p, st) = Ok (p', st') ->
  exists d pl t a, raw = PDict d /\ event_ok now id events i d pl t a p st p' st'.
Proof.
  unfold check_event. destruct raw as [| | | | | |d|]; try done. intros H. step_check H.
  step_check H. apply py_eqb_PStr_r in C0.
  destruct (payload (from_dict d)) as [| | | | | |pl|] eqn:Ep; try done.
  destruct (check_size (PDict pl) MAX_TRADE_PAYLOAD_BYTES) as [[]|] eqn:Es; [|done].
  cbn [res_bind] in H. step_check H.
  destruct (verify_trade_event (from_dict d)) as [ok r] eqn:Ev. step_check H. subst ok.
  step_check H. apply py_eqb_PStr_r in C2.
  destruct (type (from_dict d)) as [| | | |t| | |] eqn:Et; try done.
  cbn [legal_prior res_bind] in H. step_check H.
  destruct (expected_new_state t pl) as [x|] eqn:Ex; [|done]. step_check H.
  apply py_eqb_PStr_r in C4.
  destruct (verify_trade_event_actor _ _ Ev) as (a & Ea & Hne).
  exists d, pl, t, a. split; [done|]. unfold event_ok.
  destruct (String.eqb_spec t EVENT_TRADE_OPENED) as [Ho|Ho].
  - apply Ok_inj in H. injection H as <- <-. split_and!; eauto.
  - rewrite Ea in H. destruct (check_role t (PStr a) p) as [[]|] eqn:Er; [|done]. cbn [res_bind] in H.
    destruct (check_terms now events t pl p) as [[]|] eqn:Ec; [|done].
    apply Ok_inj in H. injection H as <- <-. split_and!; eauto 10.
Qed.

Lemma check_event_intro now id events i d pl t a p st p' st' :
  event_ok now id events i d pl t a p st p' st' ->
  check_event now id events i (PDict d) (p, st) = Ok (p', st').
Proof.
  intros (Hk & Ei & Ep & Hs & Hq & (r & Hv) & Eps & Et & Ea & _ & Hl & Hx & En & Hend).
  unfold check_event. rewrite Hk, Ei, Ep, Hs, Hq, Hv, Eps, Et, Ea, En. cbn [check res_bind legal_prior].
  rewrite (proj2 (py_eqb_PStr_r (PStr id) id)), (proj2 (py_eqb_PStr_r (PStr st) st)) by done.
  cbn [check res_bind]. rewrite Hl, Hx. cbn [check res_bind].
  rewrite (proj2 (py_eqb_PStr_r (PStr st') st')) by done. cbn [check res_bind].
  destruct Hend as [[-> ->]|(Hne & -> & Hr & Hc)]; [done|].
  rewrite (proj2 (String.eqb_neq _ _) Hne), Hr. cbn [res_bind]. by rewrite Hc.
Qed.

(** ** One event is one step *)

Lemma in_roles_In a l : in_roles a l = true <-> a <> "" /\ In a l.
Proof.
  unfold in_roles. rewrite str_in_In, <- list_elem_of_In, list_elem_of_filter, list_elem_of_In. done.
Qed.

Lemma check_role_In t a p :
  check_role t (PStr a) p = Ok tt ->
  forall roles, role_set t p = Some roles -> a <> "" /\ In a roles.
Proof.
  unfold check_role. intros H roles Hr. rewrite Hr in H.
  destruct (in_roles a roles) eqn:E; [|done]. by apply in_roles_In in E.
Qed.

(** Decide which of the six event types [t] is. *)
Ltac event_cases t :=
  unfold LEGAL_PRIOR, expected_new_state, role_set in *;
  repeat match goal with
  | H : context [String.eqb t ?x] |- _ => destruct (String.eqb_spec t x) as [->|]; simpl in *
  | |- context [String.eqb t ?x] => destruct (String.eqb_spec t x) as [->|]; simpl in *
  end.

Lemma opening_step t pl st st' :
  str_in st (LEGAL_PRIOR t) = true -> expected_new_state t pl = Some st' ->
  (t = EVENT_TRADE_OPENED <-> st = "") /\ (t = EVENT_TRADE_OPENED -> st' = "executing").
Proof.
  rewrite str_in_In. intros Hl He. split.
  - clear He. event_cases t; destruct_or?; subst; try done; split; congruence.
  - intros ->. by injection He as <-.
Qed.

Lemma later_step t a pl p st st' :
  str_in st (LEGAL_PRIOR t) = true -> expected_new_state t pl = Some st' ->
  t <> EVENT_TRADE_OPENED -> check_role t (PStr a) p = Ok tt ->
  exists s s', st = state_name s /\ st' = state_name s' /\ a <> "" /\ tstep p s a s'.
Proof.
  rewrite str_in_In. intros Hl He Hne Hc. pose proof (check_role_In _ _ _ Hc) as Hr. clear Hc.
  event_cases t; try done; destruct (Hr _ eq_refl) as [Hn Hin]; simpl in Hin.
  - destruct Hl as [<-|[]], Hin as [<-|[]]. injection He as <-.
    exists Executing, Delivered. eauto using tstep.
  - destruct Hl as [<-|[]], Hin as [<-|[]]. repeat case_match; simplify_eq.
    + exists Delivered, Verified. eauto using tstep.
    + exists Delivered, Failed. eauto using tstep.
  - destruct Hl as [<-|[]], Hin as [<-|[]]. injection He as <-.
    exists Verified, Settled. eauto using tstep.
  - injection He as <-. assert (a = p.(publisher_did) \/ a = p.(claimant_did)) as Ha by intuition.
    destruct Hl as [<-|[<-|[<-|[]]]];
      [exists Delivered, Disputed|exists Verified, Disputed|exists Failed, Disputed];
      (split_and!; [done..|constructor; auto]).
  - destruct Hl as [<-|[]], Hin as [<-|[]]. repeat case_match; simplify_eq;
      [exists Disputed, Settled|exists Disputed, Refunded|exists Disputed, SplitSettled];
      (split_and!; [done..|constructor; unfold terminal; auto]).
Qed.

(** A stored event is the signed record of a move of the abstract machine. *)
Definition signed_move (id : string) (raw : pyval) (m : string * tstate) : Prop :=
  exists d r, raw = PDict d /\ (from_dict d).(trade_id) = PStr id /\
    (from_dict d).(actor_did) = PStr m.1 /\ (from_dict d).(new_state) = PStr (state_name m.2) /\
    verify_trade_event (from_dict d) = (true, r).

Lemma state_name_nonempty s : state_name s <> "".
Proof. by destruct s. Qed.

Lemma check_event_run now id events i raw p s p' st' :
  check_event now id events i raw (p, state_name s) = Ok (p', st') ->
  exists a s', p' = p /\ st' = state_name s' /\ a <> "" /\ tstep p s a s' /\
    signed_move id raw (a, s').
Proof.
  intros (d & pl & t & a & -> & Hk & Ei & Ep & _ & _ & (r & Hv) & _ & Et & Ea & Hne & Hl & Hx & En & Hend)%check_event_inv.
  destruct (opening_step _ _ _ _ Hl Hx) as [Ho _].
  destruct Hend as [[Eo _]|(Hno & -> & Hc & _)]; [by destruct (state_name_nonempty s); apply Ho|].
  destruct (later_step _ _ _ _ _ _ Hl Hx Hno Hc) as (s0 & s' & E1 & -> & Ha & Hs).
  apply state_name_inj in E1 as ->. exists a, s'. split_and!; try done. by exists d, r.
Qed.

Lemma check_events_run now id events i rest p s p' st' :
  check_events now id events i rest (p, state_name s) = Ok (p', st') ->
  exists tr s', p' = p /\ st' = state_name s' /\ trun p s tr s' /\ Forall2 (signed_move id) rest tr.
Proof.
  revert i s. induction rest as [|raw rest IH]; intros i s H; simpl in H.
  - apply Ok_inj in H. injection H as <- <-. exists [], s. split_and!; by constructor.
  - apply res_bind_Ok in H as ([p1 st1] & H1 & H2).
    apply check_event_run in H1 as (a & s1 & -> & -> & Hn & Hs & Hm).
    apply IH in H2 as (tr & s' & -> & -> & Hr & Hf).
    exists ((a, s1) :: tr), s'. split_and!; try done; [by eapply run_step|by constructor].
Qed.

Lemma verify_events_inv now id events r :
  verify_events now id events = Ok (true, r) ->
  events <> [] /\ check_size (PDict [("events", PList events)]) MAX_TRADE_CHAIN_BYTES = Ok tt /\
  exists p st, check_events now id events 0 events (no_parties, "") = Ok (p, st).
Proof.
  unfold verify_events. intros H%run_body_true. destruct events as [|raw rest]; [done|].
  apply res_bind_Ok in H as ([] & Hs & H). apply res_bind_Ok in H as ([p st] & Hc & _). eauto.
Qed.

Lemma verify_events_intro now id events p st :
  events <> [] -> check_size (PDict [("events", PList events)]) MAX_TRADE_CHAIN_BYTES = Ok tt ->
  check_events now id events 0 events (no_parties, "") = Ok (p, st) ->
  verify_events now id events = Ok (true, "").
Proof.
  intros Hne Hs Hc. unfold verify_events. destruct events; [done|]. rewrite Hs. cbn [res_bind].
  by rewrite Hc.
Qed.

Lemma get_or_none_dict k d v : get_or_none k d = v -> v <> PNone -> dict_get k d = Some v.
Proof. unfold get_or_none. destruct (dict_get k d); congruence. Qed.

(** The first event of an accepted chain opens the trade. *)
Lemma check_first now id events raw p st :
  check_event now id events 0 raw (no_parties, "") = Ok (p, st) ->
  exists d pl a, raw = PDict d /\ (from_dict d).(payload) = PDict pl /\ p = parties_of pl /\
    st = state_name Executing /\ signed_move id raw (a, Executing).
Proof.
  intros (d & pl & t & a & -> & Hk & Ei & Ep & _ & _ & (r & Hv) & _ & Et & Ea & Hne & Hl & Hx & En & Hend)%check_event_inv.
  destruct (opening_step _ _ _ _ Hl Hx) as [Ho Hst].
  assert (t = EVENT_TRADE_OPENED) as Eo by by apply Ho.
  rewrite (Hst Eo) in *. exists d, pl, a.
  destruct Hend as [[_ ->]|(Hno & _)]; [|done]. split_and!; try done. by exists d, r.
Qed.

Lemma signed_move_state id raw m : signed_move id raw m -> current_state [raw] = Ok (state_name m.2).
Proof.
  intros (d & r & -> & _ & _ & En & _). simpl in *. apply get_or_none_dict in En; [|done].
  unfold current_state, str_get. simpl. by rewrite En.
Qed.

Lemma current_state_snoc events raw : current_state (events ++ [raw]) = current_state [raw].
Proof. unfold current_state. by rewrite last_snoc. Qed.

Lemma current_state_cons x events raw :
  current_state (x :: events ++ [raw]) = current_state [raw].
Proof. apply (current_state_snoc (x :: events)). Qed.

Lemma run_state id p s rest tr s' x :
  trun p s tr s' -> Forall2 (signed_move id) rest tr -> current_state [x] = Ok (state_name s) ->
  current_state (x :: rest) = Ok (state_name s').
Proof.
  intros H. revert rest x. induction H as [s|s a u tr v Ha Hs Hr IH]; intros rest x Hf Hx;
    inversion Hf; subst; [done|].
  change (x :: x0 :: l) with ([x] ++ x0 :: l)%list.
  match goal with Hm : signed_move _ ?y _, Ht : Forall2 _ ?l _ |- _ =>
    rewrite <- (IH l y Ht (signed_move_state _ _ _ Hm)) end.
  done.
Qed.

(** An accepted chain, as a run. *)
Lemma verify_events_run now id events r :
  verify_events now id events = Ok (true, r) ->
  exists opened rest pl author tr s, events = PDict opened :: rest /\
    (from_dict opened).(payload) = PDict pl /\ signed_move id (PDict opened) (author, Executing) /\
    trun (parties_of pl) Executing tr s /\ Forall2 (signed_move id) rest tr /\
    current_state events = Ok (state_name s) /\
    check_events now id events 0 events (no_parties, "") = Ok (parties_of pl, state_name s).
Proof.
  intros (Hne & _ & p & st & Hc)%verify_events_inv. destruct events as [|raw rest]; [done|].
  pose proof Hc as Hall. cbn [check_events] in Hc. apply res_bind_Ok in Hc as ([p1 st1] & H1 & H2).
  apply check_first in H1 as (d & pl & a & -> & Hpl & -> & -> & Hm).
  apply check_events_run in H2 as (tr & s' & -> & -> & Hr & Hf).
  exists d, rest, pl, a, tr, s'. split_and!; try done.
  eapply run_state; eauto using signed_move_state.
  by apply (signed_move_state id _ (a, Executing)).
Qed.
End Refinement.

(** ** Appending *)

Section Appending.
Context `{Ed : Ed25519} `{Rp : PyRepr} `{U : UnicodeDB}.

(** The checks of earlier events look at the rest of the chain only through
    its first event. *)
Lemma opening_payload_app events x :
  events <> [] -> opening_payload (events ++ [x]) = opening_payload events.
Proof. by destruct events. Qed.

Lemma check_event_app now id events x i raw acc :
  events <> [] -> check_event now id (events ++ [x]) i raw acc = check_event now id events i raw acc.
Proof.
  intros Hne. unfold check_event, check_terms, trade_terms.
  by rewrite opening_payload_app by done.
Qed.

Lemma check_events_extend now id events x i rest acc :
  events <> [] -> check_events now id (events ++ [x]) i rest acc = check_events now id events i rest acc.
Proof.
  intros Hne. revert i acc. induction rest as [|raw rest IH]; intros i acc; [done|]. simpl.
  rewrite check_event_app by done. destruct (check_event _ _ _ _ _ _); [|done]. simpl. apply IH.
Qed.

Lemma check_events_app now id events i l k acc :
  check_events now id events i (l ++ k) acc =
  res_bind (check_events now id events i l acc)
    (check_events now id events (i + Z.of_nat (List.length l)) k).
Proof.
  revert i acc. induction l as [|raw l IH]; intros i acc; simpl; [by rewrite Z.add_0_r|].
  destruct (check_event _ _ _ _ _ _); [|done]. simpl. rewrite IH.
  by replace (i + 1 + Z.of_nat (List.length l)) with (i + Z.of_nat (S (List.length l))) by lia.
Qed.

Lemma size_guard_check v limit u : size_guard v limit = Ok u -> check_size v limit = Ok tt.
Proof.
  unfold size_guard, check_size. destruct (canonical_json v) as [b|e].
  - destruct (Z.ltb_spec limit (bytes_len b)); [done|]. intros _.
    by rewrite (proj2 (Z.leb_le _ _)) by lia.
  - by destruct (is_TypeOrValueError e).
Qed.

Lemma load_events fs id events : load_for_append fs id = Ok events -> events_or_nil fs id = events.
Proof.
  unfold load_for_append, events_or_nil, get_events.
  destruct (safe_load_json fs (trade_path id)) as [[| | | | | |d|]|];
    try (by destruct (file_exists _ _); intros [= <-]).
  destruct (dict_get "events" d) as [[| | | | |l| |]|]; try done; by intros [= <-].
Qed.

Lemma get_events_written fs id events :
  get_events (atomic_write_json fs (trade_path id) (trade_file id events)) id = Some events.
Proof. unfold get_events. by rewrite safe_load_written. Qed.

(** A signed event verifies, and signing changes nothing but the signature. *)
Lemma sign_trade_event_inv `{L : !Ed25519Laws Ed} actor did e ev :
  signer actor did -> e.(actor_did) = PStr did -> sign_trade_event actor e = Ok ev ->
  verify_trade_event ev = (true, "") /\
  exists sig, ev = {| trade_id := e.(trade_id); seq := e.(seq); type := e.(type);
    actor_did := e.(actor_did); prev_state := e.(prev_state); new_state := e.(new_state);
    payload := e.(payload); created_at_ms := e.(created_at_ms); kind := e.(kind);
    event_sig := sig |}.
Proof.
  intros Hs Ea H. destruct e as [e1 e2 e3 e4 e5 e6 e7 e8 e9 e10]. simpl in Ea. subst e4.
  unfold sign_trade_event in H.
  apply res_bind_Ok in H as (body & Hb & H). apply res_bind_Ok in H as (raw & Hr & H).
  apply Ok_inj in H as <-. split; [|by eexists].
  destruct (signer_sign actor did body Hs) as (s & v & pk & Hsig & H64 & Hpk & Hver & _).
  rewrite Hsig in Hr. apply Ok_inj in Hr as <-.
  unfold verify_trade_event. rewrite nacl_present. cbn [negb actor_did event_sig].
  assert (is_did_key (PStr did) = true) as ->.
  { unfold is_did_key. rewrite Hpk. destruct (startswith DID_KEY_PREFIX did) eqn:Ep; [done|].
    unfold decode_ed25519_did_key in Hpk. by rewrite Ep in Hpk. }
  cbn [negb]. rewrite Hpk, b64u_signature_length by done. cbn [Z.leb Z.compare Pos.compare Pos.compare_cont andb negb].
  rewrite b64u_decode_encode.
  match type of Hb with canonical_json ?b = _ =>
    match goal with |- context [event_signing_body ?x] => change (event_signing_body x) with b end end.
  rewrite Hb.
  rewrite H64, String.eqb_refl. cbn [Z.eqb Pos.eqb negb orb]. by rewrite Hver.
Qed.

Lemma event_from_dict_to_dict e : from_dict (to_dict e) = e.
Proof. by destruct e. Qed.

(** What a successful [append_event] did. *)
Lemma append_event_inv now created fs id actor t ns pl open allowed fs' ev :
  append_event now created fs id actor t ns pl open allowed = Ok (fs', ev) ->
  exists did prev, let events := events_or_nil fs id in
    as_did actor = Ok did /\
    check_size (PDict pl) MAX_TRADE_PAYLOAD_BYTES = Ok tt /\
    (events <> [] -> exists r, verify_trade now fs id = Ok (true, r)) /\
    append_guards events actor t open allowed = Ok prev /\
    sign_trade_event actor {| trade_id := PStr id; seq := PInt (Z.of_nat (List.length events));
      type := PStr t; actor_did := PStr did; prev_state := PStr prev; new_state := PStr ns;
      payload := PDict pl; created_at_ms := PInt created; kind := PStr NTH_TRADE_EVENT_KIND;
      event_sig := PStr "" |} = Ok ev /\
    check_size (PDict [("events", PList (events ++ [PDict (to_dict ev)]))]) MAX_TRADE_CHAIN_BYTES = Ok tt /\
    fs' = atomic_write_json fs (trade_path id) (trade_file id (events ++ [PDict (to_dict ev)])).
Proof.
  unfold append_event. intros H.
  apply res_bind_Ok in H as (u1 & H1 & H). apply res_bind_Ok in H as (events & Hl & H).
  apply res_bind_Ok in H as (u2 & H2 & H). apply res_bind_Ok in H as (prev & H3 & H).
  apply res_bind_Ok in H as (did & H4 & H). apply res_bind_Ok in H as (ev' & H5 & H).
  apply res_bind_Ok in H as (u3 & H6 & H). apply Ok_inj in H. injection H as <- <-.
  apply load_events in Hl. subst events. exists did, prev. cbn zeta.
  split_and!; eauto using size_guard_check.
  intros Hne. destruct (events_or_nil fs id) as [|x l]; [done|].
  apply res_bind_Ok in H2 as ([ok r] & Hv & H2). destruct ok; [|done]. eauto.
Qed.

Lemma parties_of_chain events opened rest pl :
  events = PDict opened :: rest -> (from_dict opened).(payload) = PDict pl ->
  parties events = Ok (parties_of pl).
Proof.
  intros -> Hpl. simpl in Hpl. apply get_or_none_dict in Hpl; [|done].
  unfold parties, opening_payload. by rewrite Hpl.
Qed.

Lemma append_guards_open events actor t allowed prev :
  append_guards events actor t true allowed = Ok prev -> events = [] /\ prev = "".
Proof. unfold append_guards. destruct events; [by intros [= <-]|done]. Qed.

Lemma append_guards_later events actor t allowed prev :
  append_guards events actor t false allowed = Ok prev ->
  events <> [] /\ current_state events = Ok prev /\ str_in prev (LEGAL_PRIOR t) = true /\
  (forall roles did, allowed = Some roles -> as_did actor = Ok did -> in_roles did roles = true).
Proof.
  unfold append_guards. destruct events as [|x l]; [done|]. intros H.
  apply res_bind_Ok in H as (st & Hs & H). destruct (str_in st (LEGAL_PRIOR t)) eqn:El; [|done].
  simpl in H. apply res_bind_Ok in H as (u & Hr & H). apply Ok_inj in H as <-.
  split_and!; try done. intros roles did -> Hd. rewrite Hd in Hr. simpl in Hr.
  by destruct (in_roles did roles).
Qed.

Context `{L : !Ed25519Laws Ed}.

(** The transition, completely: whoever signs, the new chain is the old chain
    with one more event, and it verifies exactly because the event type, the
    state, the role and the terms fit. *)
Lemma append_event_verified now created fs id actor did t ns pl open allowed fs' ev :
  signer actor did ->
  append_event now created fs id actor t ns pl open allowed = Ok (fs', ev) ->
  expected_new_state t pl = Some ns ->
  (open = true /\ t = EVENT_TRADE_OPENED) \/
  (open = false /\ t <> EVENT_TRADE_OPENED /\
   exists p, parties (events_or_nil fs id) = Ok p /\
     check_role t (PStr did) p = Ok tt /\
     check_terms now (events_or_nil fs id) t pl p = Ok tt) ->
  fs' = atomic_write_json fs (trade_path id)
          (trade_file id (events_or_nil fs id ++ [PDict (to_dict ev)])) /\
  verify_events now id (events_or_nil fs id ++ [PDict (to_dict ev)]) = Ok (true, "").
Proof.
  intros Hs H Hx Hcase. destruct (append_event_inv _ _ _ _ _ _ _ _ _ _ _ _ H)
    as (did' & prev & Hd & Hsz & Hver & Hg & Hsig & Hcs & ->). cbn zeta in *.
  assert (did' = did) as -> by (destruct Hs as (? & _ & _ & _ & Hd2); congruence).
  split; [done|]. set (events := events_or_nil fs id) in *.
  pose proof (fun E => sign_trade_event_inv _ _ _ _ Hs E Hsig) as Hsv.
  destruct (Hsv eq_refl) as (Hv & sig & ->). clear Hsv. simpl in *.
  match type of Hv with verify_trade_event ?x = _ => set (ev := x) in * end.
  assert (did <> "") as Hdne.
  { intros ->. by destruct (verify_trade_event_actor _ _ Hv) as (a & [= <-] & ?). }
  assert (forall p st p', str_in prev (LEGAL_PRIOR t) = true -> st = prev ->
    ((t = EVENT_TRADE_OPENED /\ p' = parties_of pl) \/
     (t <> EVENT_TRADE_OPENED /\ p' = p /\
      check_role t (PStr did) p = Ok tt /\
      check_terms now (events ++ [PDict (to_dict ev)]) t pl p = Ok tt)) ->
    check_event now id (events ++ [PDict (to_dict ev)]) (Z.of_nat (List.length events))
      (PDict (to_dict ev)) (p, st) = Ok (p', ns)) as Hstep.
  { intros p st p' Hl -> Hend. apply (check_event_intro _ _ _ _ _ pl t did). unfold event_ok.
    rewrite event_from_dict_to_dict. simpl. split_and!; try done; [by rewrite Z.eqb_refl|by eexists]. }
  destruct Hcase as [[-> ->]|(-> & Hno & p & Hp & Hrole & Hc)].
  - apply append_guards_open in Hg as [He ->]. rewrite He in *.
    cbn [app List.length] in *. change (Z.of_nat 0) with 0 in Hstep.
    apply (verify_events_intro now id _ (parties_of pl) ns); [done|done|].
    cbn [check_events]. rewrite (Hstep no_parties "" (parties_of pl)); [done|done|done|by left].
  - apply append_guards_later in Hg as (Hne & Hcur & Hl & _).
    destruct (Hver Hne) as [r Hvt]. unfold verify_trade in Hvt. fold events in Hvt.
    destruct (verify_events_run _ _ _ _ Hvt) as (op & rest & ppl & author & tr & s & Ee & Hpl & _ & _ & _ & Hcs2 & Hall).
    rewrite (parties_of_chain _ _ _ _ Ee Hpl) in Hp. apply Ok_inj in Hp. subst p.
    rewrite Hcur in Hcs2. apply Ok_inj in Hcs2.
    eapply (verify_events_intro now id _ (parties_of ppl) ns); [by destruct events|done|].
    rewrite check_events_app, check_events_extend, Hall by done. cbn [res_bind check_events].
    rewrite (Hstep (parties_of ppl) (state_name s) (parties_of ppl)); [done|done|done|].
    right. split_and!; try done. unfold check_terms, trade_terms in *.
    by rewrite opening_payload_app.
Qed.
End Appending.

(** ** Time *)

Section Time.
Context `{Ed : Ed25519} `{Rp : PyRepr} `{U : UnicodeDB}.

Lemma check_verdict_later now now' v amt cur payee payer :
  now <= now' ->
  (let '(ok, reason) := verify_settlement now v amt cur payee payer in check ok reason) = Ok tt ->
  (let '(ok, reason) := verify_settlement now' v amt cur payee payer in check ok reason) = Ok tt.
Proof.
  intros Hn. destruct (verify_settlement now v amt cur payee payer) as [[] r] eqn:E; [|done].
  by rewrite (verify_settlement_later _ _ _ _ _ _ _ _ Hn E).
Qed.

Lemma check_settlement_later now now' terms p pl :
  now <= now' -> check_settlement now terms p pl = Ok tt -> check_settlement now' terms p pl = Ok tt.
Proof. intros Hn. unfold check_settlement. by apply check_verdict_later. Qed.

Lemma check_resolution_later now now' terms p pl :
  now <= now' -> check_resolution now terms p pl = Ok tt -> check_resolution now' terms p pl = Ok tt.
Proof.
  intros Hn. unfold check_resolution.
  destruct (match dict_get "settlement" pl with Some v => v | None => PDict [] end)
    as [| | | | | |s|]; [exact id..| |exact id].
  destruct (get_or_none "amount_minor" terms) as [| |amount| | | | |]; [exact id..| |exact id|exact id|exact id|exact id|exact id].
  destruct (amount <=? 0); [exact id|].
  destruct (py_eqb (get_or_none "resolution" pl) (PStr "settle")); [by apply check_verdict_later|exact id].
Qed.

Lemma check_terms_later now now' events t pl p :
  now <= now' -> check_terms now events t pl p = Ok tt -> check_terms now' events t pl p = Ok tt.
Proof.
  intros Hn. unfold check_terms. destruct (String.eqb t EVENT_SETTLEMENT_RECORDED).
  - destruct (trade_terms events) as [[[|x terms]|]|]; cbn [res_bind];
      [exact id|by apply check_settlement_later|exact id|exact id].
  - destruct (String.eqb t EVENT_DISPUTE_RESOLVED); [|exact id].
    destruct (trade_terms events) as [[[|x terms]|]|]; cbn [res_bind];
      [exact id|by apply check_resolution_later|exact id|exact id].
Qed.

Lemma check_events_later now now' id events i rest acc acc' :
  now <= now' -> check_events now id events i rest acc = Ok acc' ->
  check_events now' id events i rest acc = Ok acc'.
Proof.
  intros Hn. revert i acc. induction rest as [|raw rest IH]; intros i [p st] H; [done|].
  cbn [check_events] in H |- *. apply res_bind_Ok in H as ([p1 st1] & H1 & H2).
  apply check_event_inv in H1 as (d & pl & t & a & -> & H1).
  assert (event_ok now' id events i d pl t a p st p1 st1) as H1'.
  { unfold event_ok in *. cbn zeta in *.
    destruct H1 as (? & ? & ? & ? & ? & ? & ? & ? & ? & ? & ? & ? & ? & Hend).
    do 13 (split; [assumption|]).
    destruct Hend as [|(? & ? & ? & Hc)]; [by left|right].
    do 3 (split; [assumption|]). exact (check_terms_later _ _ _ _ _ _ Hn Hc). }
  rewrite (check_event_intro _ _ _ _ _ _ _ _ _ _ _ _ H1'). exact (IH _ _ H2).
Qed.

(** Verification does not expire. *)
Lemma verify_events_later now now' id events r :
  now <= now' -> verify_events now id events = Ok (true, r) ->
  verify_events now' id events = Ok (true, "").
Proof.
  intros Hn (Hne & Hs & p & st & Hc)%verify_events_inv.
  eapply verify_events_intro; eauto using check_events_later.
Qed.
End Time.

(** ** Reachable stores *)

Section Reachable.
Context `{Ed : Ed25519} `{Rp : PyRepr} `{U : UnicodeDB}.

(** One successful operation of a signing party.  The two operations that
    move money carry the requirement that their record meets the signed
    terms; the other four need nothing. *)
Inductive trade_op (now : Z) (fs : files) (actor : AgentIdentity) : string -> files -> Prop :=
| op_open override claim vd sd rd terms fs' ev :
    open_trade now override fs actor claim vd sd rd terms = Ok (fs', ev) ->
    trade_op now fs actor (str_get "announcement_id" claim) fs'
| op_deliver override id delivery fs' ev :
    submit_delivery now override fs id actor delivery = Ok (fs', ev) ->
    trade_op now fs actor id fs'
| op_verify override id v result fs' ev :
    record_verification now override fs id actor v result = Ok (fs', ev) ->
    trade_op now fs actor id fs'
| op_settle override id settlement fs' ev p :
    record_settlement now override fs id actor settlement = Ok (fs', ev) ->
    parties (events_or_nil fs id) = Ok p ->
    check_terms now (events_or_nil fs id) EVENT_SETTLEMENT_RECORDED [("settlement", settlement)] p = Ok tt ->
    trade_op now fs actor id fs'
| op_dispute override id reason evidence fs' ev :
    open_dispute now override fs id actor reason evidence = Ok (fs', ev) ->
    trade_op now fs actor id fs'
| op_resolve override id r settlement rationale fs' ev p :
    resolve_dispute now override fs id actor r settlement rationale = Ok (fs', ev) ->
    parties (events_or_nil fs id) = Ok p ->
    check_terms now (events_or_nil fs id) EVENT_DISPUTE_RESOLVED
      [("resolution", PStr r); ("settlement", or_empty settlement); ("rationale", PStr rationale)] p = Ok tt ->
    trade_op now fs actor id fs'.

Inductive reachable : Z -> files -> Prop :=
| reach_empty now : reachable now ∅
| reach_op now now' fs actor did id fs' :
    reachable now fs -> now <= now' -> signer actor did -> trade_op now' fs actor id fs' ->
    reachable now' fs'
| reach_import now now' fs id remote fs' l :
    reachable now fs -> now <= now' ->
    import_verified_events now' fs id remote = Ok (fs', l) -> reachable now' fs'.

(** Every file is the verified chain of the trade it is named after. *)
Definition store_valid (now : Z) (fs : files) : Prop :=
  forall name s, fs !! name = Some s ->
    exists id events, s = FileJson (trade_file id events) /\ trade_path id = name /\
      verify_events now id events = Ok (true, "").

Lemma store_valid_write now fs id events :
  store_valid now fs -> verify_events now id events = Ok (true, "") ->
  store_valid now (atomic_write_json fs (trade_path id) (trade_file id events)).
Proof.
  intros Hv He name s. unfold atomic_write_json.
  destruct (decide (trade_path id = name)) as [<-|Hne].
  - rewrite lookup_insert_eq. intros [= <-]. by exists id, events.
  - rewrite lookup_insert_ne by done. apply Hv.
Qed.

Lemma store_valid_later now now' fs : now <= now' -> store_valid now fs -> store_valid now' fs.
Proof.
  intros Hn Hv name s Hs. destruct (Hv name s Hs) as (id & events & -> & Hp & He).
  exists id, events. split_and!; [done..|]. by eapply verify_events_later.
Qed.

Context `{L : !Ed25519Laws Ed}.

Lemma role_of_guard t p roles did :
  role_set t p = Some roles -> in_roles did roles = true -> check_role t (PStr did) p = Ok tt.
Proof. intros Hr Hi. unfold check_role. by rewrite Hr, Hi. Qed.

(** The shared shape of the five operations after the opening. *)
Lemma later_op now created fs id actor did t ns pl p roles fs' ev :
  signer actor did -> parties (events_or_nil fs id) = Ok p ->
  append_event now created fs id actor t ns pl false (Some roles) = Ok (fs', ev) ->
  t <> EVENT_TRADE_OPENED -> role_set t p = Some roles -> expected_new_state t pl = Some ns ->
  check_terms now (events_or_nil fs id) t pl p = Ok tt ->
  fs' = atomic_write_json fs (trade_path id)
          (trade_file id (events_or_nil fs id ++ [PDict (to_dict ev)])) /\
  verify_events now id (events_or_nil fs id ++ [PDict (to_dict ev)]) = Ok (true, "").
Proof.
  intros Hs Hp H Hno Hr Hx Hc. eapply append_event_verified; eauto.
  right. split_and!; [done..|]. exists p. split_and!; [done| |done].
  destruct (append_event_inv _ _ _ _ _ _ _ _ _ _ _ _ H) as (did' & prev & Hd & _ & _ & Hg & _).
  apply append_guards_later in Hg as (_ & _ & _ & Hroles).
  assert (did' = did) as -> by (destruct Hs as (? & _ & _ & _ & ?); congruence).
  eapply role_of_guard; eauto.
Qed.

Lemma trade_op_effect now fs actor did id fs' :
  signer actor did -> trade_op now fs actor id fs' ->
  exists ev, fs' = atomic_write_json fs (trade_path id)
                     (trade_file id (events_or_nil fs id ++ [PDict (to_dict ev)])) /\
    verify_events now id (events_or_nil fs id ++ [PDict (to_dict ev)]) = Ok (true, "").
Proof.
  intros Hs Hop. destruct Hop as [ov claim vd sd rd terms fs' ev H|ov id d fs' ev H
    |ov id v res' fs' ev H|ov id st fs' ev p H Hp Hc|ov id re evd fs' ev H|ov id r st ra fs' ev p H Hp Hc];
    exists ev.
  - unfold open_trade in H. inv_guards H. eapply append_event_verified; eauto.
  - unfold submit_delivery in H. apply res_bind_Ok in H as (p & Hp & H).
    eapply later_op; eauto; done.
  - unfold record_verification in H. destruct (str_in v ["pass"; "fail"]) eqn:Ev; [|done]. simpl in H.
    apply res_bind_Ok in H as (p & Hp & H). eapply later_op; eauto; try done.
    apply str_in_In in Ev as [<-|[<-|[]]]; done.
  - unfold record_settlement in H. rewrite Hp in H. cbn [res_bind] in H.
    eapply later_op; eauto; done.
  - unfold open_dispute in H. apply res_bind_Ok in H as (p & Hp & H).
    apply res_bind_Ok in H as (did' & Hd & H). eapply later_op; eauto; done.
  - unfold resolve_dispute in H. destruct (str_in r _) eqn:Er; [|done]. simpl in H.
    rewrite Hp in H. cbn [res_bind] in H. eapply later_op; eauto; try done.
    apply str_in_In in Er as [<-|[<-|[<-|[]]]]; done.
Qed.

Lemma validate_import_inv now fs id remote l :
  validate_import now fs id remote = Ok l ->
  remote = PList l /\ l <> [] /\ verify_events now id l = Ok (true, "") /\
  list_eqb py_eqb (take (List.length (events_or_nil fs id)) l) (events_or_nil fs id) = true /\
  (List.length (events_or_nil fs id) <= List.length l)%nat.
Proof.
  unfold validate_import. destruct remote as [| | | | |[|x cand]| |]; try done. intros H.
  destruct (_ <? _); [done|]. destruct (_ && _); [done|].
  change (match get_events fs id with Some l0 => l0 | None => [] end) with (events_or_nil fs id) in H.
  destruct (list_eqb _ _ _) eqn:El; [|done]. cbn [negb] in H.
  destruct (match get_events fs id with Some _ => _ | None => _ end) eqn:Elen in H; [done|].
  apply res_bind_Ok in H as ([ok r] & Hv & H). destruct ok; [|done]. apply Ok_inj in H as <-.
  split_and!; try done; [by eapply (verify_events_later now now); [lia|]|].
  unfold events_or_nil in *. destruct (get_events fs id) as [k|]; [|simpl; lia].
  by apply Nat.ltb_ge in Elen.
Qed.

Lemma reachable_store_valid now fs : reachable now fs -> store_valid now fs.
Proof.
  induction 1 as [now|now now' fs actor did id fs' _ IH Hn Hs Hop|now now' fs id remote fs' l _ IH Hn Hi].
  - intros name s Hs. by rewrite lookup_empty in Hs.
  - destruct (trade_op_effect _ _ _ _ _ _ Hs Hop) as (ev & -> & He).
    apply store_valid_write; [by eapply store_valid_later|done].
  - unfold import_verified_events in Hi. apply res_bind_Ok in Hi as (c & Hc & Hi).
    apply Ok_inj in Hi. injection Hi as <- <-.
    apply validate_import_inv in Hc as (_ & _ & Hv & _).
    apply store_valid_write; [by eapply store_valid_later|done].
Qed.
End Reachable.

(** ** Lemmas for the properties *)

Section Consequences.
Context `{Ed : Ed25519} `{Rp : PyRepr} `{U : UnicodeDB}.

Lemma trun_app_inv p s tr1 tr2 s' :
  trun p s (tr1 ++ tr2) s' -> exists m, trun p s tr1 m /\ trun p m tr2 s'.
Proof.
  revert s. induction tr1 as [|[a u] tr1 IH]; intros s H; [eauto using trun|].
  simpl in H. inversion H; subst. destruct (IH u) as (m & H1 & H2); [done|].
  exists m. split; [by eapply run_step|done].
Qed.

(** Events after the first are checked against the parties the first bound. *)
Lemma check_events_In now id events i rest p s p' st' raw :
  check_events now id events i rest (p, state_name s) = Ok (p', st') -> In raw rest ->
  exists j u v, check_event now id events j raw (p, state_name u) = Ok (p, state_name v).
Proof.
  revert i s. induction rest as [|x rest IH]; intros i s H Hin; [done|].
  cbn [check_events] in H. apply res_bind_Ok in H as ([p1 st1] & H1 & H2).
  pose proof H1 as H1'. apply check_event_run in H1' as (a & s1 & -> & -> & _).
  destruct Hin as [->|Hin]; [eauto|]. eapply IH; eauto.
Qed.

(** A later event of an accepted chain, with everything checked about it. *)
Lemma verified_event now id events r p d t :
  verify_events now id events = Ok (true, r) -> parties events = Ok p ->
  In (PDict d) events -> (from_dict d).(type) = PStr t -> t <> EVENT_TRADE_OPENED ->
  exists pl a, (from_dict d).(payload) = PDict pl /\ (from_dict d).(actor_did) = PStr a /\
    check_size (PDict pl) MAX_TRADE_PAYLOAD_BYTES = Ok tt /\ check_role t (PStr a) p = Ok tt /\
    check_terms now events t pl p = Ok tt.
Proof.
  intros Hv Hp Hin Ht Hno.
  destruct (verify_events_run _ _ _ _ Hv) as (op & rest & ppl & au & tr & s & Ee & Hpl & Hm & _ & _ & _ & Hall).
  rewrite (parties_of_chain _ _ _ _ Ee Hpl) in Hp. apply Ok_inj in Hp as <-.
  rewrite Ee in Hall at 2. cbn [check_events] in Hall.
  apply res_bind_Ok in Hall as ([p1 st1] & H1 & H2).
  assert (exists p2 j st p' st', check_event now id events j (PDict d) (p2, st) = Ok (p', st') /\
    (p2 = parties_of ppl \/ st = "")) as (p2 & j & st & p' & st' & Hc & Hor).
  { subst events. destruct Hin as [[= <-]|Hin]; [eauto 10|].
    apply check_first in H1 as (d' & pl' & a' & [= <-] & Hpl' & -> & -> & _).
    rewrite Hpl in Hpl'. injection Hpl' as <-.
    destruct (check_events_In _ _ _ _ _ _ _ _ _ _ H2 Hin) as (j & u & v & Hc). eauto 10. }
  apply check_event_inv in Hc as (d' & pl & t' & a & [= <-] & Hok).
  destruct Hok as (_ & _ & Hp' & Hsz & _ & _ & _ & Ht' & Ha & _ & Hl & Hx & _ & Hend).
  rewrite Ht in Ht'. injection Ht' as <-.
  destruct (opening_step _ _ _ _ Hl Hx) as [Ho _].
  destruct Hend as [[? _]|(_ & -> & Hr & Htm)]; [done|].
  destruct Hor as [->|Est]; [|by destruct Hno; apply Ho]. exists pl, a. done.
Qed.

Lemma check_pair_true (v : verdict) : (let '(ok, reason) := v in check ok reason) = Ok tt -> exists r, v = (true, r).
Proof. destruct v as [[] r]; [eauto|done]. Qed.

(** The amounts of a settlement record, read as numbers. *)
Definition amount_of (k : string) (s : list (string * pyval)) : option Z := int_of_num (get_or_none k s).

Lemma py_eqb_amount k s n :
  encodable (PDict s) = true -> py_eqb (get_or_none k s) (PInt n) = true -> amount_of k s = Some n.
Proof.
  unfold amount_of, get_or_none. intros He. destruct (dict_get k s) as [v|] eqn:Ek; [|done].
  apply dict_get_In in Ek. simpl in He. rewrite forallb_forall in He.
  specialize (He _ Ek). apply andb_true_iff in He as [_ He]. simpl in He.
  destruct v; simpl in *; try done; intros Hn%Z.eqb_eq; congruence.
Qed.

Lemma check_size_encodable d limit : check_size (PDict d) limit = Ok tt -> encodable (PDict d) = true.
Proof.
  unfold check_size. destruct (canonical_json (PDict d)) as [b|e] eqn:E.
  - by apply canonical_json_encodable in E as [].
  - by destruct (is_TypeOrValueError e).
Qed.

Lemma encodable_get k d v : encodable (PDict d) = true -> dict_get k d = Some v -> encodable v = true.
Proof.
  intros He Hk%dict_get_In. simpl in He. rewrite forallb_forall in He.
  specialize (He _ Hk). by apply andb_true_iff in He as [_ He].
Qed.

(** A recorded settlement is signed by the settler and meets the terms. *)
Lemma recorded_settlement now id events r p terms d pl :
  verify_events now id events = Ok (true, r) -> parties events = Ok p ->
  trade_terms events = Ok (Some terms) -> terms <> [] ->
  In (PDict d) events -> (from_dict d).(type) = PStr EVENT_SETTLEMENT_RECORDED ->
  (from_dict d).(payload) = PDict pl ->
  (from_dict d).(actor_did) = PStr p.(settler_did) /\
  exists s, dict_get "settlement" pl = Some (PDict s) /\
    settlement_ok now s (match get_or_none "amount_minor" terms with PInt z => z | _ => -1 end)
      (str_get "currency" terms) (str_get "payee_did" terms) p.(publisher_did).
Proof.
  intros Hv Hp Hterms Hne Hin Ht Hpl.
  destruct (verified_event _ _ _ _ _ _ _ Hv Hp Hin Ht) as (pl' & a & Hpl' & Ha & _ & Hr & Hc); [done|].
  rewrite Hpl in Hpl'. injection Hpl' as <-. split.
  - by destruct (check_role_In _ _ _ Hr _ eq_refl) as [_ [<-|[]]].
  - unfold check_terms in Hc. rewrite Hterms in Hc. cbn in Hc. destruct terms as [|x terms]; [done|].
    unfold check_settlement in Hc. apply check_pair_true in Hc as (r' & Hs).
    apply verify_settlement_sound in Hs as (s & Es & Hok).
    destruct (dict_get "settlement" pl) as [[| | | | | |s'|]|]; injection Es as <-;
      try (by destruct Hok as [Hk _ _ _ _ _ _]). eauto.
Qed.
End Consequences.

(** ** Properties *)

Section Properties.
Context `{Ed : Ed25519} `{Rp : PyRepr} `{U : UnicodeDB}.

(** C1.  Refinement: a chain [verify_trade] accepts is a run of the abstract
    machine.  Its first event binds the parties; each later event is the
    signed record of one permitted step by the party entitled to it; and the
    stored state is the state of the machine. *)
Theorem verified_trade_is_a_run now fs id r :
  verify_trade now fs id = Ok (true, r) ->
  exists opened rest pl author tr s, events_or_nil fs id = PDict opened :: rest /\
    (from_dict opened).(payload) = PDict pl /\ signed_move id (PDict opened) (author, Executing) /\
    trun (parties_of pl) Executing tr s /\ Forall2 (signed_move id) rest tr /\
    trade_state fs id = Ok (Some (state_name s)).
Proof.
  intros (op & rest & pl & au & tr & s & Ee & Hpl & Hm & Hr & Hf & Hc & _)%verify_events_run.
  exists op, rest, pl, au, tr, s. split_and!; try done. unfold trade_state, events_or_nil in *.
  destruct (get_events fs id); [|done]. by rewrite Hc.
Qed.

(** No payment without acceptance: in an accepted chain that ends settled,
    the bound verifier signed a passing verification, or the bound resolver
    signed a ruling to settle. *)
Theorem settled_needs_acceptance now id events r p :
  verify_events now id events = Ok (true, r) -> parties events = Ok p ->
  current_state events = Ok STATE_SETTLED ->
  exists raw, In raw events /\
    (signed_move id raw (p.(verifier_did), Verified) \/ signed_move id raw (p.(resolver_did), Settled)).
Proof.
  intros (op & rest & pl & au & tr & s & Ee & Hpl & Hm & Hr & Hf & Hc & _)%verify_events_run Hp Hset.
  rewrite (parties_of_chain _ _ _ _ Ee Hpl) in Hp. apply Ok_inj in Hp as <-.
  assert (s = Settled) as -> by (rewrite Hset in Hc; apply Ok_inj in Hc; by apply state_name_inj).
  assert (forall m, In m tr -> exists raw, In raw events /\ signed_move id raw m) as Hsm.
  { intros m Hin. subst events. clear -Hf Hin. induction Hf as [|x y l k Hxy _ IH]; [done|].
    destruct Hin as [->|Hin]; [exists x; split; [right; by left|done]|].
    destruct (IH Hin) as (raw & Hraw & Hs). exists raw. split; [|done].
    destruct Hraw as [->|]; [by left|by do 2 right]. }
  destruct (settled_after_acceptance _ _ _ _ Hr) as [Hin|Hin]; try done.
  { by intros [|[|]]. }
  all: destruct (Hsm _ Hin) as (raw & ? & ?); eauto.
Qed.

(** Terminal states are final: no accepted chain continues after a trade was
    settled, refunded or split. *)
Theorem terminal_is_final now id events e rest r :
  verify_events now id (events ++ e :: rest) = Ok (true, r) ->
  forall st, In st TERMINAL_STATES -> current_state events <> Ok st.
Proof.
  intros (op & l & pl & au & tr & s & Ee & Hpl & Hm & Hr & Hf & _)%verify_events_run st Hst Hc.
  destruct events as [|x events]; [by destruct Hst as [<-|[<-|[<-|[]]]]|].
  cbn [app] in Ee. injection Ee as -> <-.
  apply Forall2_app_inv_l in Hf as (tr1 & tr2 & Hf1 & Hf2 & ->).
  apply trun_app_inv in Hr as (m & Hr1 & Hr2). inversion Hf2; subst. inversion Hr2; subst.
  pose proof (run_state _ _ _ _ _ _ _ Hr1 Hf1 (signed_move_state _ _ _ Hm)) as Hcs.
  rewrite Hcs in Hc. apply Ok_inj in Hc. eapply tstep_terminal; [|eassumption].
  unfold terminal. destruct Hst as [<-|[<-|[<-|[]]]]; destruct m; try discriminate Hc; auto.
Qed.

(** C9.  Direct settlements pay what was signed: when the opening event carries
    terms, a recorded settlement in an accepted chain is a valid record for
    exactly the agreed amount, currency and payee, paid by the publisher. *)
Theorem settlement_meets_terms now id events r p terms d pl amt :
  verify_events now id events = Ok (true, r) -> parties events = Ok p ->
  trade_terms events = Ok (Some terms) -> get_or_none "amount_minor" terms = PInt amt ->
  In (PDict d) events -> (from_dict d).(type) = PStr EVENT_SETTLEMENT_RECORDED ->
  (from_dict d).(payload) = PDict pl ->
  exists s, dict_get "settlement" pl = Some (PDict s) /\
    settlement_ok now s amt (str_get "currency" terms) (str_get "payee_did" terms) p.(publisher_did).
Proof.
  intros Hv Hp Hterms Hamt Hin Ht Hpl.
  assert (terms <> []) as Hne by (by intros ->).
  destruct (recorded_settlement _ _ _ _ _ _ _ _ Hv Hp Hterms Hne Hin Ht Hpl) as (_ & s & Hs & Hok).
  exists s. by rewrite Hamt in Hok.
Qed.

(** C29.  Disputes conserve money: in an accepted chain with terms, a ruling to
    split or to refund divides the agreed amount between the claimant and
    the publisher without creating or losing a unit; a split pays both.  (A
    comment in [verify_trade] says that the amounts of a ruling are up to the
    resolver and not bound by the terms; the code binds them.) *)
Theorem resolution_conserves now id events r p terms d pl :
  verify_events now id events = Ok (true, r) -> parties events = Ok p ->
  trade_terms events = Ok (Some terms) -> terms <> [] ->
  In (PDict d) events -> (from_dict d).(type) = PStr EVENT_DISPUTE_RESOLVED ->
  (from_dict d).(payload) = PDict pl ->
  exists amount s, get_or_none "amount_minor" terms = PInt amount /\ 0 < amount /\
    match dict_get "settlement" pl with Some v => v | None => PDict [] end = PDict s /\
    (get_or_none "resolution" pl = PStr "refund" ->
       amount_of "amount_minor" s = Some 0 /\ amount_of "refunded_amount_minor" s = Some amount /\
       get_or_none "payee_did" s = PStr p.(publisher_did)) /\
    (get_or_none "resolution" pl = PStr "split" ->
       exists paid refunded, amount_of "amount_minor" s = Some paid /\
         amount_of "refunded_amount_minor" s = Some refunded /\ 0 < paid /\ 0 < refunded /\
         paid + refunded = amount /\ get_or_none "payee_did" s = PStr p.(claimant_did)).
Proof.
  intros Hv Hp Hterms Hne Hin Ht Hpl.
  destruct (verified_event _ _ _ _ _ _ _ Hv Hp Hin Ht) as (pl' & a & Hpl' & _ & Hsz & _ & Hc); [done|].
  rewrite Hpl in Hpl'. injection Hpl' as <-. apply check_size_encodable in Hsz.
  unfold check_terms in Hc. rewrite Hterms in Hc.
  change (EVENT_DISPUTE_RESOLVED =? EVENT_SETTLEMENT_RECORDED)%string with false in Hc.
  change (EVENT_DISPUTE_RESOLVED =? EVENT_DISPUTE_RESOLVED)%string with true in Hc.
  cbn [res_bind] in Hc. destruct terms as [|x terms]; [done|]. unfold check_resolution in Hc.
  destruct (match dict_get "settlement" pl with Some v => v | None => PDict [] end)
    as [| | | | | |s|] eqn:Es; try done.
  assert (encodable (PDict s) = true) as Hes.
  { destruct (dict_get "settlement" pl) eqn:Ed'; [|by injection Es as <-].
    subst. by eapply encodable_get. }
  destruct (get_or_none "amount_minor" (x :: terms)) as [| |amount| | | | |]; try done.
  destruct (Z.leb_spec amount 0); [done|]. exists amount, s. split_and!; try done.
  - intros Hres. rewrite Hres in Hc. cbn [py_eqb] in Hc.
    change ("refund" =? "settle")%string with false in Hc.
    change ("refund" =? "refund")%string with true in Hc. cbv iota in Hc.
    apply check_Ok in Hc. rewrite !andb_true_iff in Hc.
    destruct Hc as (((((_ & Hc1) & Hc2) & _) & Hc3) & _). rewrite py_eqb_PStr_r in Hc3.
    eauto using py_eqb_amount.
  - intros Hres. rewrite Hres in Hc. cbn [py_eqb] in Hc.
    change ("split" =? "settle")%string with false in Hc.
    change ("split" =? "refund")%string with false in Hc.
    change ("split" =? "split")%string with true in Hc. cbv iota in Hc.
    unfold amount_of. destruct (get_or_none "amount_minor" s) as [| |paid| | | | |]; try done.
    destruct (get_or_none "refunded_amount_minor" s) as [| |refunded| | | | |]; try done.
    apply check_Ok in Hc. rewrite !andb_true_iff, !negb_true_iff, !Z.leb_gt, Z.eqb_eq in Hc.
    destruct Hc as ((((((? & ?) & ?) & _) & _) & Hc3) & _). rewrite py_eqb_PStr_r in Hc3.
    exists paid, refunded. split_and!; done.
Qed.

(** Replication is append-only: an import succeeds only with a chain that
    verifies for this trade and has the stored chain as a prefix; it stores
    exactly that chain and touches no other file. *)
Theorem import_is_append_only now fs id remote fs' l :
  import_verified_events now fs id remote = Ok (fs', l) ->
  remote = PList l /\ get_events fs' id = Some l /\ verify_trade now fs' id = Ok (true, "") /\
  Forall2 (fun x y => py_eqb x y = true) (take (List.length (events_or_nil fs id)) l) (events_or_nil fs id) /\
  (List.length (events_or_nil fs id) <= List.length l)%nat /\
  forall name, name <> trade_path id -> fs' !! name = fs !! name.
Proof.
  unfold import_verified_events. intros H. apply res_bind_Ok in H as (c & Hc & H).
  apply Ok_inj in H. injection H as <- <-.
  apply validate_import_inv in Hc as (-> & Hne & Hv & Hpre & Hlen).
  apply list_eqb_Forall2 in Hpre. pose proof (get_events_written fs id c) as Hg.
  split_and!; try done.
  - unfold verify_trade, events_or_nil. by rewrite Hg.
  - intros name Hn. unfold atomic_write_json. by rewrite lookup_insert_ne.
Qed.

Context `{L : !Ed25519Laws Ed}.

(** C17.  The store invariant: whatever operations signing parties perform and
    whatever chains are imported, in any order, with the two money-moving
    operations recording settlements that meet the signed terms, every file
    of the store is at all times the verified chain of the trade it is named
    after. *)
Theorem reachable_stores_verify now fs : reachable now fs -> store_valid now fs.
Proof. apply reachable_store_valid. Qed.
End Properties.

(** ** Examples *)

#[local] Existing Instance toy_ed25519.
#[local] Existing Instance toy_laws.
#[local] Instance toy_repr : PyRepr := fun _ => "".
#[local] Instance toy_unicode : UnicodeDB := fun _ => false.

Definition demo_claim : list (string * pyval) :=
  [("announcement_id", PStr "t1"); ("claimant_did", PStr (toy_did "c"));
   ("publisher_did", PStr (toy_did "p")); ("receipt_id", PStr "r1")].

Definition demo_terms : list (string * pyval) := [("amount_minor", PInt 5); ("currency", PStr "USDC")].

Definition files_of (m : res (files * TradeEvent)) : files := match m with Ok (fs, _) => fs | Err _ => ∅ end.

Definition demo_open : res (files * TradeEvent) :=
  Eval vm_compute in open_trade 100 0 ∅ (toy_identity "o") demo_claim "" "" "" (Some demo_terms).
Definition demo_delivered : res (files * TradeEvent) :=
  Eval vm_compute in submit_delivery 100 0 (files_of demo_open) "t1" (toy_identity "c") (PDict [("url", PStr "x")]).
Definition demo_verified : res (files * TradeEvent) :=
  Eval vm_compute in record_verification 100 0 (files_of demo_delivered) "t1" (toy_identity "p") "pass" PNone.

Definition demo_record (amount : Z) : pyval := PDict (Settlement.to_payload {|
  r_adapter_id := "manual"; r_amount_minor := PInt amount; r_currency := PStr "USDC";
  r_payee_did := PStr (toy_did "c"); r_payer_did := PStr (toy_did "p"); r_tx_ref := "";
  r_network := ""; r_proof := []; r_settled_at_ms := 100 |}).

Definition demo_settled (amount : Z) : res (files * TradeEvent) :=
  record_settlement 100 0 (files_of demo_verified) "t1" (toy_identity "p") (demo_record amount).

Definition demo_events : list pyval := Eval vm_compute in events_or_nil (files_of (demo_settled 5)) "t1".

(** A dispute over the delivered work, split three to two. *)
Definition demo_split_record : pyval :=
  PDict [("adapter_id", PStr "manual"); ("amount_minor", PInt 3); ("refunded_amount_minor", PInt 2);
         ("currency", PStr "USDC"); ("payee_did", PStr (toy_did "c")); ("payer_did", PStr (toy_did "p"))].
Definition demo_disputed : res (files * TradeEvent) :=
  Eval vm_compute in open_dispute 100 0 (files_of demo_delivered) "t1" (toy_identity "c") "late" PNone.
Definition demo_split : res (files * TradeEvent) :=
  Eval vm_compute in resolve_dispute 100 0 (files_of demo_disputed) "t1" (toy_identity "p") "split" demo_split_record "".
Definition demo_split_events : list pyval := Eval vm_compute in events_or_nil (files_of demo_split) "t1".

Lemma verified_trade_is_a_run_witness :
  exists opened rest pl author tr s,
    events_or_nil (files_of (demo_settled 5)) "t1" = PDict opened :: rest /\
    (from_dict opened).(payload) = PDict pl /\ signed_move "t1" (PDict opened) (author, Executing) /\
    trun (parties_of pl) Executing tr s /\ Forall2 (signed_move "t1") rest tr /\
    trade_state (files_of (demo_settled 5)) "t1" = Ok (Some (state_name s)).
Proof. apply (verified_trade_is_a_run 100 _ _ ""). vm_compute. reflexivity. Defined.

Definition demo_parties : Parties := {|
  claimant_did := toy_did "c"; publisher_did := toy_did "p"; verifier_did := toy_did "p";
  settler_did := toy_did "p"; resolver_did := toy_did "p" |}.

Lemma settled_needs_acceptance_witness :
  exists raw, In raw demo_events /\
    (signed_move "t1" raw (demo_parties.(verifier_did), Verified) \/
     signed_move "t1" raw (demo_parties.(resolver_did), Settled)).
Proof.
  apply (settled_needs_acceptance 100 "t1" demo_events "" demo_parties); vm_compute; reflexivity.
Defined.

Lemma terminal_is_final_witness :
  current_state (take 3 demo_events) <> Ok STATE_SETTLED.
Proof.
  apply (terminal_is_final 100 "t1" (take 3 demo_events) (nth 3 demo_events PNone) [] "").
  - vm_compute. reflexivity.
  - left. reflexivity.
Defined.

Definition items_of (v : pyval) : list (string * pyval) := match v with PDict d => d | _ => [] end.

Lemma nth_item_In l n :
  Nat.ltb n (List.length l) && is_dict (nth n l PNone) = true -> In (PDict (items_of (nth n l PNone))) l.
Proof.
  rewrite andb_true_iff, Nat.ltb_lt. intros [Hn Hd]. pose proof (nth_In l PNone Hn) as H.
  by destruct (nth n l PNone).
Qed.

Lemma settlement_meets_terms_witness :
  exists s, dict_get "settlement" [("settlement", demo_record 5)] = Some (PDict s) /\
    settlement_ok 100 s 5 "USDC" (toy_did "c") (toy_did "p").
Proof.
  apply (settlement_meets_terms 100 "t1" demo_events "" demo_parties
           [("amount_minor", PInt 5); ("currency", PStr "USDC"); ("payee_did", PStr (toy_did "c"))]
           (items_of (nth 3 demo_events PNone)) [("settlement", demo_record 5)] 5).
  5: { apply nth_item_In. vm_compute. reflexivity. }
  all: vm_compute; reflexivity.
Defined.

Lemma resolution_conserves_witness :
  exists amount s, get_or_none "amount_minor" demo_terms = PInt amount /\ 0 < amount /\
    match dict_get "settlement" (items_of (get_or_none "payload" (items_of (nth 3 demo_split_events PNone))))
    with Some v => v | None => PDict [] end = PDict s /\
    (exists paid refunded, amount_of "amount_minor" s = Some paid /\
       amount_of "refunded_amount_minor" s = Some refunded /\ 0 < paid /\ 0 < refunded /\
       paid + refunded = amount /\ get_or_none "payee_did" s = PStr demo_parties.(claimant_did)).
Proof.
  destruct (resolution_conserves 100 "t1" demo_split_events "" demo_parties
    [("amount_minor", PInt 5); ("currency", PStr "USDC"); ("payee_did", PStr (toy_did "c"))]
    (items_of (nth 3 demo_split_events PNone))
    (items_of (get_or_none "payload" (items_of (nth 3 demo_split_events PNone)))))
    as (amount & s & H1 & H2 & H3 & _ & H5).
  - vm_compute; reflexivity.
  - vm_compute; reflexivity.
  - vm_compute; reflexivity.
  - discriminate.
  - apply nth_item_In. vm_compute. reflexivity.
  - vm_compute; reflexivity.
  - vm_compute; reflexivity.
  - exists amount, s. split; [exact H1|]. split; [exact H2|]. split; [exact H3|].
    apply H5. vm_compute. reflexivity.
Defined.

Lemma import_is_append_only_witness :
  exists fs', import_verified_events 100 (files_of demo_delivered) "t1" (PList demo_events)
              = Ok (fs', demo_events) /\
    get_events fs' "t1" = Some demo_events /\ verify_trade 100 fs' "t1" = Ok (true, "").
Proof.
  exists (atomic_write_json (files_of demo_delivered) (trade_path "t1") (trade_file "t1" demo_events)).
  assert (import_verified_events 100 (files_of demo_delivered) "t1" (PList demo_events) =
          Ok (atomic_write_json (files_of demo_delivered) (trade_path "t1") (trade_file "t1" demo_events),
              demo_events)) as H by (vm_compute; reflexivity).
  split; [exact H|].
  destruct (import_is_append_only 100 _ "t1" _ _ _ H) as (_ & H1 & H2 & _). split; [exact H1|exact H2].
Defined.

Lemma reachable_stores_verify_witness :
  exists fs, reachable 100 fs /\ get_events fs "t1" = Some (take 2 demo_events) /\ store_valid 100 fs.
Proof.
  assert (reachable 100 (files_of demo_delivered)) as H.
  { apply (reach_op 100 100 (files_of demo_open) (toy_identity "c") (toy_did "c") "t1"); [|lia|..].
    - apply (reach_op 100 100 ∅ (toy_identity "o") (toy_did "o") "t1"); [constructor|lia|..].
      + apply toy_signer_of. vm_compute. reflexivity.
      + apply (op_open 100 ∅ (toy_identity "o") 0 demo_claim "" "" "" (Some demo_terms) _
                 (match demo_open with Ok (_, ev) => ev | Err _ => from_dict [] end)).
        vm_compute. reflexivity.
    - apply toy_signer_of. vm_compute. reflexivity.
    - apply (op_deliver 100 (files_of demo_open) (toy_identity "c") 0 "t1" (PDict [("url", PStr "x")]) _
               (match demo_delivered with Ok (_, ev) => ev | Err _ => from_dict [] end)).
      vm_compute. reflexivity. }
  exists (files_of demo_delivered). split; [exact H|]. split; [vm_compute; reflexivity|].
  exact (reachable_stores_verify 100 _ H).
Defined.

(** ** Two limits of the code *)

(** A signed event whose type is a list. *)
Definition list_type_event : res TradeEvent :=
  sign_trade_event (toy_identity "o") {| trade_id := PStr "t1"; seq := PInt 0; type := PList [];
    actor_did := PStr (toy_did "o"); prev_state := PStr ""; new_state := PStr ""; payload := PDict [];
    created_at_ms := PInt 1; kind := PStr NTH_TRADE_EVENT_KIND; event_sig := PStr "" |}.

(** [verify_trade] does not always return a verdict: on an event with a valid
    signature whose type is a JSON array it raises [TypeError], because the
    type is looked up in a dictionary before it is known to be a string. *)
Theorem verify_trade_can_raise :
  exists e, list_type_event = Ok e /\ verify_events 100 "t1" [PDict (to_dict e)] = Err TypeError.
Proof. eexists. split; [vm_compute; reflexivity|]. vm_compute. reflexivity. Qed.

(** A settler can lock a trade: [record_settlement] appends a record that
    disagrees with the signed terms without complaint, after which
    [verify_trade] refuses the stored chain and no operation on the trade
    succeeds any more. *)
Theorem settlement_can_lock_trade :
  exists fs ev, demo_settled 4 = Ok (fs, ev) /\
    verify_trade 100 fs "t1" = Ok (false, "settlement-amount-mismatch") /\
    record_settlement 100 0 fs "t1" (toy_identity "p") (demo_record 5)
      = Err (TradeRejected "settlement-amount-mismatch") /\
    open_dispute 100 0 fs "t1" (toy_identity "c") "underpaid" PNone
      = Err (TradeRejected "settlement-amount-mismatch").
Proof.
  eexists _, _. split; [vm_compute; reflexivity|]. split_and!; vm_compute; reflexivity.
Qed.
