(* ===== verification/Mandate.v ===== *)
(** * The mandate triad ([nth_dao/mandate/])

    A buyer's principal signs an intent (what an agent may spend, with whom and
    by which rails), a seller answers with a signed cart, and the principal
    accepts it with a signed payment; [complete_triad_chain] is the gate before
    money moves.

    Mandates are dictionaries read from the network, so every field is a value
    of unknown type.  The texts of the reasons, which quote the values, are
    abbreviated; the log lines are left out, except that building them can
    raise ([verify_fail]). *)

From Stdlib Require Import ZArith Lia Ascii String.
From stdpp Require Import base list strings gmap sorting.
From S2P Require Import Prelude PyStr PyValue PyDecimal PyDate CanonicalJson DidKey Sha256 Identity Store PyOps.

Local Open Scope string_scope.
Local Open Scope Z_scope.

Abbreviation mandate := (list (string * pyval)).

Definition INTENT_CONTEXT : list string :=
  ["https://www.w3.org/ns/credentials/v2"; "https://nth-dao.org/credentials/intent-mandate/v1"].
Definition INTENT_TYPE : list string := ["VerifiableCredential"; "IntentMandate"].
Definition CART_CONTEXT : list string :=
  ["https://www.w3.org/ns/credentials/v2"; "https://nth-dao.org/credentials/cart-mandate/v1"].
Definition CART_TYPE : list string := ["VerifiableCredential"; "CartMandate"].
Definition PAYMENT_CONTEXT : list string :=
  ["https://www.w3.org/ns/credentials/v2"; "https://nth-dao.org/credentials/payment-mandate/v1"].
Definition PAYMENT_TYPE : list string := ["VerifiableCredential"; "PaymentMandate"].
Definition PROOF_TYPE : string := "Ed25519Signature2020".
Definition INTENT_PROOF_PURPOSE : string := "capabilityInvocation".
Definition CART_PROOF_PURPOSE : string := "assertionMethod".
Definition PAYMENT_PROOF_PURPOSE : string := "capabilityInvocation".
Definition MAX_VALIDITY : Z := 365 * DAY_MICROS.
Definition KNOWN_CONSTRAINT_KEYS : list string :=
  ["max_amount"; "allowed_counterparties"; "allowed_settlement_methods"].
Definition ED25519_SIG_HEX_LEN : Z := 128.

(** ** Shapes *)

(** A pattern [^...$] under [re.match]: [$] also matches before a final
    newline. *)
Definition dollar (p : string -> bool) (s : string) : bool :=
  p s || (endswith (String "010" "") s && p (str_take (String.length s - 1) s)).

Definition is_b58 (c : ascii) : bool := match B58_INDEX c with Some _ => true | None => false end.

(** [_DID_KEY_RE.match] *)
Definition DID_KEY_RE : string -> bool := dollar (fun s =>
  startswith "did:key:z" s &&
  let body := str_drop 9 s in
  Nat.leb 43 (String.length body) && Nat.leb (String.length body) 150 && char_all is_b58 body).

(** [_is_did_key] *)
Definition is_did_shape (v : pyval) : bool := match v with PStr s => DID_KEY_RE s | _ => false end.

(** The parts of a token around its first colon. *)
Definition colon_parts (s : string) : option (string * string) :=
  option_map (fun '(a, b) => (of_chars a, of_chars b)) (split_at_char ":" (chars s)).

(** [_SETTLEMENT_METHOD_RE.fullmatch]: [[a-z][a-z0-9_]{0,15}:[a-z0-9][a-z0-9_]{0,31}] *)
Definition word_char (c : ascii) : bool := is_lower c || is_dec c || is_char "_" c.
Definition settlement_token (s : string) : bool :=
  match colon_parts s with
  | Some (a, b) => match_head_tail is_lower word_char 15 a
                   && match_head_tail (fun c => is_lower c || is_dec c) word_char 31 b
  | None => false
  end.
Definition SETTLEMENT_METHOD_RE : string -> bool := dollar settlement_token.
Definition is_method (v : pyval) : bool := match v with PStr s => SETTLEMENT_METHOD_RE s | _ => false end.

(** [_CURRENCY_RE.fullmatch]: [[A-Z][A-Z0-9]*(?:-[A-Z0-9]+)*] *)
Fixpoint currency_tail (fresh : bool) (l : list ascii) : bool :=
  match l with
  | [] => negb fresh
  | c :: l =>
    if is_upper c || is_dec c then currency_tail false l
    else is_char "-" c && negb fresh && currency_tail true l
  end.
Definition CURRENCY_RE (s : string) : bool :=
  match chars s with c :: l => is_upper c && currency_tail false l | [] => false end.

(** [len(s)] between two bounds *)
Definition len_between (lo hi : Z) (s : string) : bool := (lo <=? py_len s) && (py_len s <=? hi).

(** [isinstance(v, str) and len(v) == 64] and [bytes.fromhex(v)] *)
Definition is_digest_text (v : pyval) : bool :=
  match v with
  | PStr s => (py_len s =? 64) && match fromhex s with Ok _ => true | Err _ => false end
  | _ => false
  end.

Section Mandate.
Context `{Ed : Ed25519} `{D : IsoDates} `{U : UnicodeDigits}.

(** [if not c: raise ValueError] *)
Definition demand_value (c : bool) : res unit := if c then Ok tt else Err ValueError.

(** ** Data integrity ([_data_integrity.py]) *)

(** [verification_method] *)
Definition verification_method (issuer_did : pyval) : res string :=
  match issuer_did with
  | PStr did =>
    if startswith "did:key:z" did then Ok (did ++ "#" ++ str_drop 8 did) else Err ValueError
  | _ => Err ValueError
  end.

(** [_strip_proof] *)
Definition strip_proof (m : mandate) : mandate := dict_without "proof" m.

(** [_proof_options] *)
Definition proof_options (proof : list (string * pyval)) : list (string * pyval) := dict_without "proofValue" proof.

(** What a proof signs. *)
Definition signed_payload (document options : list (string * pyval)) : res string :=
  let* doc := canonical_json (PDict document) in
  let* opt := canonical_json (PDict options) in
  Ok (sha256 opt ++ sha256 doc).

(** [sign_with_data_integrity] *)
Definition sign_with_data_integrity (identity : AgentIdentity) (document options : list (string * pyval)) : res string :=
  if negb (can_sign identity) then Err RuntimeError else
  if dict_mem "proof" document || dict_mem "proofValue" options then Err ValueError else
  let* payload := signed_payload document options in
  let* sig := sign identity payload in
  Ok (hex sig).

(** [verify_with_data_integrity] *)
Definition verify_with_data_integrity (document proof : list (string * pyval)) (pubkey_bytes : string) : res verdict :=
  if negb nacl_available then Err RuntimeError else
  if dict_mem "proof" document then Ok (false, "document must NOT include proof") else
  match get_default "proofValue" (PStr "") proof with
  | PStr sig_hex =>
    if String.eqb sig_hex "" then Ok (false, "missing proofValue") else
    if negb (py_len sig_hex =? ED25519_SIG_HEX_LEN) then Ok (false, "proofValue must be 128-hex") else
    match fromhex sig_hex with
    | Err _ => Ok (false, "proofValue is not valid hex")
    | Ok sig_bytes =>
      let* payload := signed_payload document (proof_options proof) in
      if (bytes_len pubkey_bytes =? 32) && (bytes_len sig_bytes =? 64) && ed_verify pubkey_bytes payload sig_bytes
      then Ok (true, "ok") else Ok (false, "signature invalid")
    end
  | _ => Ok (false, "missing proofValue")
  end.

(** ** Signing and verifying a mandate *)

(** [sign_intent_mandate], [sign_cart_mandate] and [sign_payment_mandate] for
    the purpose of each; [created] is the given or current time. *)
Definition sign_mandate (purpose : string) (m : mandate) (identity : AgentIdentity) (created : datetime) : res mandate :=
  if negb (can_sign identity) then Err RuntimeError else
  if dict_mem "proof" m then Err ValueError else
  let issuer := get_or_none "issuer" m in
  if negb (truthy issuer) then Err ValueError else
  match as_did identity with
  | Err _ => Err RuntimeError
  | Ok expected_did =>
    if negb (py_eqb issuer (PStr expected_did)) then Err ValueError else
    let* vm := verification_method issuer in
    let options := [("type", PStr PROOF_TYPE); ("created", PStr (isoformat created));
                    ("verificationMethod", PStr vm); ("proofPurpose", PStr purpose)] in
    let* sig_hex := sign_with_data_integrity identity (strip_proof m) options in
    Ok (dict_set "proof" (PDict (options ++ [("proofValue", PStr sig_hex)])%list) m)
  end.

Definition sign_intent_mandate := sign_mandate INTENT_PROOF_PURPOSE.
Definition sign_cart_mandate := sign_mandate CART_PROOF_PURPOSE.
Definition sign_payment_mandate := sign_mandate PAYMENT_PROOF_PURPOSE.

(** [_verify_fail]: the log line reads the subject as a [dict] *)
Definition verify_fail (m : mandate) (reason : string) : res verdict :=
  let subject := get_or_none "credentialSubject" m in
  if truthy subject && negb (is_dict subject) then Err AttributeError else Ok (false, reason).

(** The end the three verifiers share: the issuer's key, then the signature. *)
Definition verify_issuer (m : mandate) (proof : list (string * pyval)) : res verdict :=
  let issuer := get_or_none "issuer" m in
  match (if truthy issuer then issuer else PStr "") with
  | PStr did =>
    if negb (startswith "did:key:" did) then verify_fail m "unsupported issuer scheme" else
    match verification_method (PStr did) with
    | Err _ => verify_fail m "issuer is not a valid did:key"
    | Ok expected_vm =>
      if negb (py_eqb (get_or_none "verificationMethod" proof) (PStr expected_vm))
      then verify_fail m "verificationMethod mismatch" else
      if negb nacl_available then verify_fail m "issuer decode failed" else
      match decode_ed25519_did_key did with
      | Err _ => verify_fail m "issuer decode failed"
      | Ok pubkey_bytes =>
        let* (ok, reason) := verify_with_data_integrity (strip_proof m) proof pubkey_bytes in
        if ok then Ok (true, "ok") else verify_fail m reason
      end
    end
  | _ => verify_fail m "unsupported issuer scheme"
  end.

(** [verify_intent_mandate] *)
Definition verify_intent_mandate (m : mandate) : res verdict :=
  if negb nacl_available then Err RuntimeError else
  match get_or_none "proof" m with
  | PDict proof =>
    if negb (py_eqb (get_or_none "type" proof) (PStr PROOF_TYPE)) then verify_fail m "unsupported proof type" else
    if negb (py_eqb (get_or_none "proofPurpose" proof) (PStr INTENT_PROOF_PURPOSE))
    then verify_fail m "wrong proof purpose" else
    match get_default "proofValue" (PStr "") proof with
    | PStr sig_hex =>
      if String.eqb sig_hex "" then verify_fail m "missing proofValue" else
      if negb (py_len sig_hex =? ED25519_SIG_HEX_LEN) then verify_fail m "proofValue must be 128-hex" else
      verify_issuer m proof
    | _ => verify_fail m "missing proofValue"
    end
  | _ => verify_fail m "missing proof"
  end.

(** [verify_cart_mandate] and [verify_payment_mandate] *)
Definition verify_accepted (purpose : string) (m : mandate) : res verdict :=
  match get_or_none "proof" m with
  | PDict proof =>
    if negb (py_eqb (get_or_none "type" proof) (PStr PROOF_TYPE)) then verify_fail m "unsupported proof type" else
    if negb (py_eqb (get_or_none "proofPurpose" proof) (PStr purpose)) then verify_fail m "wrong proof purpose" else
    verify_issuer m proof
  | _ => verify_fail m "missing proof"
  end.
Definition verify_cart_mandate := verify_accepted CART_PROOF_PURPOSE.
Definition verify_payment_mandate := verify_accepted PAYMENT_PROOF_PURPOSE.

(** [intent_mandate_digest], [cart_mandate_digest], [payment_mandate_digest] *)
Definition mandate_digest (m : mandate) : res string :=
  res_map sha256_hex (canonical_json (PDict (strip_proof m))).

(** ** Freshness *)

Inductive ExpiryStatus := VALID | EXPIRED | MALFORMED.

(** [intent_expiry_status], [cart_expiry_status], [payment_expiry_status]; [now]
    is the instant of the given or current time *)
Definition expiry_status (now : Z) (m : mandate) : ExpiryStatus :=
  match get_or_none "validUntil" m with
  | PStr valid_until =>
    if String.eqb valid_until "" then MALFORMED else
    match fromisoformat valid_until with
    | None => MALFORMED
    | Some deadline =>
      match instant deadline with
      | None => MALFORMED
      | Some t => if t <? now then EXPIRED else VALID
      end
    end
  | _ => MALFORMED
  end.

(** [is_intent_expired] and its two siblings *)
Definition is_expired (now : Z) (m : mandate) : bool :=
  match expiry_status now m with EXPIRED => true | _ => false end.

(** ** Does a cart fit an intent? *)

(** [False] with a reason that shows the first characters of a digest: slicing
    raises on a value that is not a sequence. *)
Definition digest_mismatch (declared : pyval) (reason : string) : res verdict :=
  if is_str declared || is_list declared then Ok (false, reason) else Err TypeError.

(** [any(m in allowed for m in methods)] *)
Definition overlap (allowed methods : list pyval) : bool :=
  existsb (fun m => existsb (py_eqb m) allowed) methods.

(** [v or []] *)
Definition or_list (v : pyval) : pyval := if truthy v then v else PList [].

(** Checks 2 to 4: the total and the budget. *)
Definition check_budget (cart_subject constraints : list (string * pyval)) : res unit :=
  match get_default "total" (PDict []) cart_subject with
  | PDict cart_total =>
    match Decimal (get_default "value" (PStr "") cart_total) with
    | Err InvalidOperation => reject "cart.total.value not a valid decimal"
    | Err e => Err e
    | Ok cart_value =>
      if negb (is_finite cart_value) then reject "cart.total.value must be finite" else
      if negb (dec_positive cart_value) then reject "cart.total.value must be positive" else
      match get_or_none "max_amount" constraints with
      | PDict ((_ :: _) as max_amount) =>
        if negb (py_eqb (get_default "currency" (PStr "") cart_total) (get_default "currency" (PStr "") max_amount))
        then reject "currency mismatch" else
        match Decimal (get_default "value" (PStr "") max_amount) with
        | Err InvalidOperation => reject "intent.max_amount.value not a valid decimal"
        | Err e => Err e
        | Ok max_value =>
          if negb (is_finite max_value) then reject "intent.max_amount.value must be finite" else
          if dec_ltb max_value cart_value then reject "total exceeds budget" else Ok tt
        end
      | _ => reject "intent.max_amount missing"
      end
    end
  | _ => reject "cart.total malformed"
  end.

(** Check 5: the counterparty. *)
Definition check_counterparty (cart : mandate) (constraints : list (string * pyval)) : res unit :=
  match dict_get "allowed_counterparties" constraints with
  | None => reject "intent.allowed_counterparties missing"
  | Some (PList []) => reject "intent.allowed_counterparties is empty"
  | Some (PList allowed) =>
    check (existsb (py_eqb (get_default "issuer" (PStr "") cart)) allowed) "counterparty not in allowed_counterparties"
  | Some _ => reject "intent.allowed_counterparties must be a list"
  end.

(** Check 6: the settlement rails. *)
Definition check_rails (cart_subject constraints : list (string * pyval)) : res unit :=
  match dict_get "allowed_settlement_methods" constraints with
  | None => reject "intent.allowed_settlement_methods missing"
  | Some (PList []) => reject "intent.allowed_settlement_methods is empty"
  | Some (PList allowed) =>
    let* methods := iterate (or_list (get_default "settlement_methods" (PList []) cart_subject)) in
    check (overlap allowed methods) "no overlap between cart methods and allowed methods"
  | Some _ => reject "intent.allowed_settlement_methods must be a list"
  end.

(** [cart_satisfies_intent] *)
Definition cart_satisfies_intent (cart intent : pyval) (require_signed : bool) : res verdict :=
  match cart, intent with
  | PDict cart, PDict intent =>
    run_body (
      let* _ := (if require_signed then
                   let* (ok, _) := verify_intent_mandate intent in
                   let* _ := check ok "intent must be signed" in
                   let* (ok, _) := verify_cart_mandate cart in
                   check ok "cart must be signed"
                 else Ok tt) in
      match get_default "credentialSubject" (PDict []) cart with
      | PDict cart_subject =>
        let declared := get_default "intent_mandate_digest" (PStr "") cart_subject in
        let* actual := mandate_digest intent in
        if negb (py_eqb declared (PStr actual)) then digest_mismatch declared "intent digest mismatch" else
        match get_default "credentialSubject" (PDict []) intent with
        | PDict intent_subject =>
          match get_default "constraints" (PDict []) intent_subject with
          | PDict constraints =>
            let* _ := check_budget cart_subject constraints in
            let* _ := check_counterparty cart constraints in
            let* _ := check_rails cart_subject constraints in
            Ok (true, "ok")
          | _ => Ok (false, "intent.credentialSubject.constraints malformed")
          end
        | _ => Err AttributeError
        end
      | _ => Ok (false, "cart.credentialSubject malformed")
      end)
  | _, _ => Ok (false, "cart and intent must be dicts")
  end.

(** ** Does a payment accept a cart? *)

(** Check 4: the payment and the intent have the same issuer. *)
Definition same_issuer (payment intent : mandate) : bool :=
  let intent_issuer := get_default "issuer" (PStr "") intent in
  truthy intent_issuer && py_eqb intent_issuer (get_default "issuer" (PStr "") payment).

(** [payment_satisfies_cart]; [PNone] is the omitted [intent] *)
Definition payment_satisfies_cart (payment cart intent : pyval) (require_signed : bool) : res verdict :=
  match payment, cart with
  | PDict payment, PDict cart =>
    run_body (
      let* _ := (if require_signed then
                   let* (ok, _) := verify_payment_mandate payment in
                   let* _ := check ok "payment must be signed" in
                   let* (ok, _) := verify_cart_mandate cart in
                   check ok "cart must be signed"
                 else Ok tt) in
      match get_default "credentialSubject" (PDict []) payment with
      | PDict payment_subject =>
        let declared := get_default "cart_mandate_digest" (PStr "") payment_subject in
        let* actual := mandate_digest cart in
        if negb (py_eqb declared (PStr actual)) then digest_mismatch declared "cart digest mismatch" else
        match get_default "credentialSubject" (PDict []) cart with
        | PDict cart_subject =>
          let* offered := py_in (get_default "settlement_choice" (PStr "") payment_subject)
                            (or_list (get_default "settlement_methods" (PList []) cart_subject)) in
          let* _ := check offered "settlement_choice not in cart's offered methods" in
          let* _ := check (py_eqb (get_default "id" (PStr "") payment_subject) (get_default "issuer" (PStr "") cart))
                      "payee mismatch" in
          match intent with
          | PNone => Ok (true, "ok")
          | PDict intent =>
            let* _ := (if require_signed then
                         let* (ok, _) := verify_intent_mandate intent in check ok "intent must be signed"
                       else Ok tt) in
            let* _ := check (same_issuer payment intent) "issuer continuity broken" in
            Ok (true, "ok")
          | _ => Ok (false, "intent (if provided) must be a dict")
          end
        | _ => Ok (false, "cart.credentialSubject malformed")
        end
      | _ => Ok (false, "payment.credentialSubject malformed")
      end)
  | _, _ => Ok (false, "payment and cart must be dicts")
  end.

(** ** The whole chain *)

(** Gates B and C: the digest a mandate declares in its subject is that of the
    mandate it answers. *)
Definition check_link (field : string) (m target : mandate) : res unit :=
  match get_default "credentialSubject" (PDict []) m with
  | PDict subject =>
    let declared := get_default field (PStr "") subject in
    let* actual := mandate_digest target in
    if py_eqb declared (PStr actual) then Ok tt else
    let* (_, reason) := digest_mismatch declared "digest mismatch" in reject reason
  | _ => reject "credentialSubject malformed"
  end.

(** The freshness gate of one mandate. *)
Definition check_fresh (now : Z) (m : mandate) : res unit :=
  match expiry_status now m with
  | EXPIRED => reject "expired"
  | MALFORMED => reject "malformed validUntil"
  | VALID => Ok tt
  end.

(** [if not ok: return False, f"{label}: {reason}"] *)
Definition must (r : res verdict) : res unit := let* (ok, reason) := r in check ok reason.

(** [complete_triad_chain]; [now] is the instant of the given or current time *)
Definition complete_triad_chain (now : Z) (intent cart payment : pyval) : res verdict :=
  match intent, cart, payment with
  | PDict i, PDict c, PDict p =>
    run_body (
      let* _ := check (same_issuer p i) "issuer continuity broken" in
      let* _ := check_link "intent_mandate_digest" c i in
      let* _ := check_link "cart_mandate_digest" p c in
      let* _ := check_fresh now i in
      let* _ := check_fresh now c in
      let* _ := check_fresh now p in
      let* _ := must (verify_intent_mandate i) in
      let* _ := must (verify_cart_mandate c) in
      let* _ := must (cart_satisfies_intent cart intent false) in
      let* _ := must (verify_payment_mandate p) in
      let* _ := must (payment_satisfies_cart payment cart intent false) in
      Ok (true, "ok"))
  | _, _, _ => Ok (false, "intent, cart, payment must all be dicts")
  end.
(** ** Building unsigned mandates *)

(** [_validate_money] and [_validate_max_amount] *)
Definition validate_money (amount : pyval) : res pyval :=
  match amount with
  | PDict d =>
    match get_or_none "value" d with
    | PStr value =>
      let* _ := demand_value (String.eqb value (py_strip value)) in
      let* _ := demand_value (char_all (fun c => negb (is_char "e" c || is_char "E" c)) value) in
      match dec_of_str value with
      | None => Err ValueError
      | Some parsed =>
        let* _ := demand_value (is_finite parsed) in
        let* _ := demand_value (dec_positive parsed) in
        match get_or_none "currency" d with
        | PStr currency =>
          let* _ := demand_value (len_between 3 16 currency && CURRENCY_RE currency) in
          Ok (PDict [("value", PStr value); ("currency", PStr currency)])
        | _ => Err ValueError
        end
      end
    | _ => Err ValueError
    end
  | _ => Err ValueError
  end.
Definition validate_max_amount := validate_money.

(** A required list of the constraints, whose entries all pass a test. *)
Definition constraint_list (key : string) (test : pyval -> bool) (d : list (string * pyval)) : res pyval :=
  match dict_get key d with
  | Some (PList l) =>
    let* _ := demand_value (negb (existsb (py_eqb (PStr "*")) l)) in
    let* _ := demand_value (forallb test l) in
    Ok (PList l)
  | _ => Err ValueError
  end.

(** [_validate_constraints] *)
Definition validate_constraints (constraints : pyval) : res pyval :=
  match constraints with
  | PDict d =>
    let* _ := demand_value (forallb (fun k => existsb (String.eqb k) KNOWN_CONSTRAINT_KEYS) (dict_keys d)) in
    match dict_get "max_amount" d with
    | None => Err ValueError
    | Some amount =>
      let* max_amount := validate_max_amount amount in
      let* counterparties := constraint_list "allowed_counterparties" is_did_shape d in
      let* methods := constraint_list "allowed_settlement_methods" is_method d in
      Ok (PDict [("max_amount", max_amount); ("allowed_counterparties", counterparties);
                 ("allowed_settlement_methods", methods)])
    end
  | _ => Err ValueError
  end.

(** [_check_iso_with_tz], and the instant of the text *)
Definition check_iso_with_tz (value : pyval) : res Z :=
  match value with
  | PStr s =>
    if String.eqb s "" then Err ValueError else
    match fromisoformat s with
    | Some d => match instant d with Some t => Ok t | None => Err ValueError end
    | None => Err ValueError
    end
  | _ => Err ValueError
  end.

(** The checks on the validity window. *)
Definition check_window (deadline : Z) (issued_at : datetime) : res unit :=
  match instant issued_at with
  | None => Err ValueError
  | Some issued => demand_value ((issued <? deadline) && (deadline - issued <=? MAX_VALIDITY))
  end.

(** The document around a subject. *)
Definition envelope (context type : list string) (issuer : pyval) (issued_at : datetime) (expires_at : pyval)
    (subject : list (string * pyval)) : mandate :=
  let issued := PStr (isoformat issued_at) in
  [("@context", PList (map PStr context)); ("type", PList (map PStr type)); ("issuer", issuer);
   ("issuanceDate", issued); ("validFrom", issued); ("validUntil", expires_at); ("credentialSubject", PDict subject)].

(** [given or uuid.uuid4().hex] *)
Definition id_or (given fresh : string) : pyval := PStr (if String.eqb given "" then fresh else given).

(** [build_intent_mandate]; [fresh] is what [uuid4] returns and [issued_at] the
    given or current time *)
Definition build_intent_mandate (issuer_did agent_did purpose constraints expires_at : pyval)
    (intent_id fresh : string) (issued_at : datetime) : res mandate :=
  let* _ := demand_value (is_did_shape issuer_did && is_did_shape agent_did && nonempty_str purpose) in
  let* validated := validate_constraints constraints in
  let* deadline := check_iso_with_tz expires_at in
  let* _ := check_window deadline issued_at in
  Ok (envelope INTENT_CONTEXT INTENT_TYPE issuer_did issued_at expires_at
        [("id", agent_did); ("intent_id", id_or intent_id fresh); ("purpose", purpose); ("constraints", validated)]).

(** [_DID_KEY_RE.match(v)] of a value *)
Definition match_did (v : pyval) : res unit :=
  match v with PStr s => demand_value (DID_KEY_RE s) | _ => Err TypeError end.

(** [_validate_items] *)
Definition validate_items (items : pyval) : res pyval :=
  match items with
  | PList ((_ :: _) as l) =>
    let* _ := demand_value (forallb (fun item => match item with
                                                 | PDict d => nonempty_str (get_or_none "description" d)
                                                 | _ => false
                                                 end) l) in
    Ok (PList l)
  | _ => Err ValueError
  end.

(** [_validate_settlement_methods] *)
Definition validate_settlement_methods (methods : pyval) : res pyval :=
  match methods with
  | PList ((_ :: _) as l) => let* _ := demand_value (forallb is_method l) in Ok (PList l)
  | _ => Err ValueError
  end.

(** [build_cart_mandate] *)
Definition build_cart_mandate (issuer_did buyer_did intent_digest items total methods expires_at : pyval)
    (cart_id fresh : string) (issued_at : datetime) : res mandate :=
  let* _ := match_did issuer_did in
  let* _ := match_did buyer_did in
  let* _ := demand_value (is_digest_text intent_digest) in
  let* items := validate_items items in
  let* total := validate_money total in
  let* methods := validate_settlement_methods methods in
  let* deadline := check_iso_with_tz expires_at in
  let* _ := check_window deadline issued_at in
  Ok (envelope CART_CONTEXT CART_TYPE issuer_did issued_at expires_at
        [("id", buyer_did); ("cart_id", id_or cart_id fresh); ("intent_mandate_digest", intent_digest);
         ("items", items); ("total", total); ("settlement_methods", methods)]).

(** [build_payment_mandate]; [metadata] is the dict given, if any *)
Definition build_payment_mandate (issuer_did payee_did cart_digest choice expires_at : pyval)
    (metadata : pyval) (payment_id fresh : string) (issued_at : datetime) : res mandate :=
  let* _ := match_did issuer_did in
  let* _ := match_did payee_did in
  let* _ := demand_value (is_digest_text cart_digest) in
  let* _ := demand_value (is_method choice) in
  let* _ := match metadata with PNone | PDict _ => Ok tt | _ => Err ValueError end in
  let* deadline := check_iso_with_tz expires_at in
  let* _ := check_window deadline issued_at in
  Ok (envelope PAYMENT_CONTEXT PAYMENT_TYPE issuer_did issued_at expires_at
        ([("id", payee_did); ("payment_id", id_or payment_id fresh); ("cart_mandate_digest", cart_digest);
          ("settlement_choice", choice)]
         ++ (if truthy metadata then [("settlement_metadata", metadata)] else []))%list).

(** ** The store of mandates ([store.py]) *)

Definition KINDS : list string := ["intent"; "cart"; "payment"].

(** The files [<kind>/<digest>.json], and the corrupt ones moved aside at a
    time. *)
Record mandate_store := {
  live : gmap (string * string) slot;
  moved : gmap (string * string * Z) slot
}.

(** [_relocate_corrupt] *)
Definition relocate_corrupt (now_s : Z) (kind digest : string) (s : mandate_store) : mandate_store :=
  match s.(live) !! (kind, digest) with
  | None => s
  | Some f => {| live := delete (kind, digest) s.(live); moved := <[(kind, digest, now_s) := f]> s.(moved) |}
  end.

Definition stored_mandate (s : mandate_store) (kind digest : string) : option mandate :=
  match s.(live) !! (kind, digest) with
  | Some (FileJson (PDict d)) => Some d
  | _ => None
  end.

(** [_save] *)
Definition save (now_s : Z) (kind : string) (m : pyval) (s : mandate_store) : mandate_store * res string :=
  match m with
  | PDict d =>
    match mandate_digest d with
    | Err e => (s, Err e)
    | Ok digest =>
      match stored_mandate s kind digest with
      | Some _ => (s, Ok digest)
      | None =>
        let s := relocate_corrupt now_s kind digest s in
        ({| live := <[(kind, digest) := FileJson m]> s.(live); moved := s.(moved) |}, Ok digest)
      end
    end
  | _ => (s, Err ValueError)
  end.

(** [get] *)
Definition get_mandate (kind : string) (digest : pyval) (s : mandate_store) : res (option mandate) :=
  if negb (existsb (String.eqb kind) KINDS) then Err ValueError else
  match digest with
  | PStr d => if py_len d =? 64 then Ok (stored_mandate s kind d) else Err ValueError
  | _ => Err ValueError
  end.

(** The digests of a kind, in the order of the file names. *)
Definition digests_of (kind : string) (s : mandate_store) : list string :=
  merge_sort String.le
    (map (fun x => x.1.2) (List.filter (fun x => String.eqb x.1.1 kind) (map_to_list s.(live)))).

(** [_list] *)
Definition list_mandates (now_s : Z) (kind : string) (s : mandate_store) : mandate_store * list mandate :=
  fold_left (fun '(s, out) digest =>
    match stored_mandate s kind digest with
    | Some d => (s, (out ++ [d])%list)
    | None => (relocate_corrupt now_s kind digest s, out)
    end) (digests_of kind s) (s, []).
End Mandate.
