(* ===== verification/MandateSpec.v ===== *)
(** * What the mandate triad promises

    [authorised] says, without the order of the checks, when three mandates
    authorise a payment; [complete_triad_chain] accepts exactly those.  The
    builders and signers produce mandates it accepts. *)

From Stdlib Require Import ZArith Lia Ascii String.
From stdpp Require Import base list strings gmap sorting.
From S2P Require Import Prelude Digits PyStr PyValue Json PyDecimal PyDate JsonAscii CanonicalJson B64u DidKey Sha256 Identity Projection Store PyOps Mandate.

Local Open Scope string_scope.
Local Open Scope Z_scope.

(** ** Order of decimals *)

(** [d <= d'] of finite decimals. *)
Definition dec_le (d d' : decimal) : Prop :=
  exists n e n' e', d = DFinite n e /\ d' = DFinite n' e' /\ scaled n e e' <= scaled n' e' e.

Lemma dec_le_ltb d d' : is_finite d = true -> is_finite d' = true -> dec_ltb d' d = false <-> dec_le d d'.
Proof.
  destruct d as [n e| |]; try done. destruct d' as [n' e'| |]; try done. intros _ _. cbn [dec_ltb].
  rewrite Z.ltb_ge. split.
  - intros H. by exists n, e, n', e'.
  - intros (? & ? & ? & ? & [= -> ->] & [= -> ->] & H). exact H.
Qed.

(** The spend is positive, finite and within the limit. *)
Definition within_budget (total limit : list (string * pyval)) `{UnicodeDigits} : Prop :=
  exists v w, Decimal (get_default "value" (PStr "") total) = Ok v /\
    Decimal (get_default "value" (PStr "") limit) = Ok w /\
    is_finite v = true /\ is_finite w = true /\ dec_positive v = true /\ dec_le v w /\
    py_eqb (get_default "currency" (PStr "") total) (get_default "currency" (PStr "") limit) = true.

Lemma check_iff c r u : check c r = Ok u <-> c = true.
Proof. destruct u, c; cbn; split; done. Qed.

Lemma run_body_ok (m : res verdict) w : run_body m = Ok (true, w) <-> m = Ok (true, w).
Proof. split; [apply run_body_true|by intros ->]. Qed.

Lemma get_default_present k v d : get_default k v d = match dict_get k d with Some x => x | None => v end.
Proof. unfold get_default. by destruct (dict_get k d). Qed.

Section Spec.
Context `{Ed : Ed25519} `{D : IsoDates} `{U : UnicodeDigits}.

(** ** Who signed a mandate *)

(** The holder of the key behind [issuer] signed the mandate, and its proof
    options, for [purpose]. *)
Record proof_signed (purpose issuer : string) (m : mandate) : Prop := {
  ps_issuer : get_or_none "issuer" m = PStr issuer;
  ps_proof : exists proof sig_hex sig pk payload, get_or_none "proof" m = PDict proof /\
    get_or_none "type" proof = PStr PROOF_TYPE /\ get_or_none "proofPurpose" proof = PStr purpose /\
    get_or_none "verificationMethod" proof = PStr (issuer ++ "#" ++ str_drop 8 issuer) /\
    get_or_none "proofValue" proof = PStr sig_hex /\ py_len sig_hex = 128 /\ fromhex sig_hex = Ok sig /\
    decode_ed25519_did_key issuer = Ok pk /\ bytes_len sig = 64 /\
    signed_payload (strip_proof m) (proof_options proof) = Ok payload /\ ed_verify pk payload sig = true
}.

Lemma verify_fail_not m r w : verify_fail m r <> Ok (true, w).
Proof. unfold verify_fail. by destruct (truthy _ && _). Qed.

Lemma did_key_prefix did pk : decode_ed25519_did_key did = Ok pk ->
  startswith "did:key:" did = true /\ verification_method (PStr did) = Ok (did ++ "#" ++ str_drop 8 did) /\ did <> "" /\
  bytes_len pk = 32.
Proof.
  intros [H32 H]%decode_did_inv. unfold encode_ed25519_did_key in H. rewrite H32 in H. cbn [Z.eqb negb] in H.
  apply Ok_inj in H as <-. split_and!; [apply prefix_app| |done|done].
  unfold verification_method. match goal with |- (if ?c then _ else _) = _ => assert (c = true) as -> end; [|done].
  apply prefix_true_iff. by eexists.
Qed.

Lemma stripped_no_proof m : dict_mem "proof" (strip_proof m) = false.
Proof.
  unfold dict_mem, strip_proof. destruct (dict_get "proof" (dict_without "proof" m)) eqn:E; [|done].
  apply dict_get_In in E. unfold dict_without in E. apply list_elem_of_In, list_elem_of_filter in E as [H _]. done.
Qed.

Lemma integrity_ok document proof pk w :
  nacl_available = true -> dict_mem "proof" document = false -> bytes_len pk = 32 ->
  verify_with_data_integrity document proof pk = Ok (true, w) <->
  w = "ok" /\ exists sig_hex sig payload, get_or_none "proofValue" proof = PStr sig_hex /\ py_len sig_hex = 128 /\
    fromhex sig_hex = Ok sig /\ bytes_len sig = 64 /\ signed_payload document (proof_options proof) = Ok payload /\
    ed_verify pk payload sig = true.
Proof.
  intros Hn Hd H32. unfold verify_with_data_integrity. rewrite Hn, Hd, get_default_present. cbn [negb].
  unfold get_or_none. split.
  - intros H. destruct (dict_get "proofValue" proof) as [[| | | |s| | |]|] eqn:Es; try done.
    inv_guards H. bool_to_prop. split; [congruence|]. by exists s, a, a0.
  - intros (-> & s & sig & payload & Hs & Hlen & Hf & H64 & Hp & Hv).
    destruct (dict_get "proofValue" proof) as [v|]; [subst v|done].
    destruct (String.eqb_spec s "") as [->|]; [done|]. rewrite Hlen, Hf, Hp. cbn [Z.eqb negb res_bind].
    rewrite H32, H64, Hv. done.
Qed.

Lemma verify_issuer_ok m proof w :
  nacl_available = true ->
  verify_issuer m proof = Ok (true, w) <->
  w = "ok" /\ exists issuer sig_hex sig pk payload, get_or_none "issuer" m = PStr issuer /\
    get_or_none "verificationMethod" proof = PStr (issuer ++ "#" ++ str_drop 8 issuer) /\
    get_or_none "proofValue" proof = PStr sig_hex /\ py_len sig_hex = 128 /\ fromhex sig_hex = Ok sig /\
    decode_ed25519_did_key issuer = Ok pk /\ bytes_len sig = 64 /\
    signed_payload (strip_proof m) (proof_options proof) = Ok payload /\ ed_verify pk payload sig = true.
Proof.
  intros Hn. unfold verify_issuer. split.
  - intros H. destruct (truthy (get_or_none "issuer" m)) eqn:Ht; [|by apply verify_fail_not in H].
    destruct (get_or_none "issuer" m) as [| | | |did| | |]; try by apply verify_fail_not in H.
    destruct (startswith "did:key:" did); [|by apply verify_fail_not in H]. cbn [negb] in H.
    destruct (verification_method _) as [vm|] eqn:Hvm; [|by apply verify_fail_not in H].
    destruct (py_eqb _ _) eqn:Hm; [|by apply verify_fail_not in H]. cbn [negb] in H. rewrite Hn in H. cbn [negb] in H.
    destruct (decode_ed25519_did_key did) as [pk|] eqn:Hd; [|by apply verify_fail_not in H].
    destruct (did_key_prefix _ _ Hd) as (_ & Hvm' & _ & H32). rewrite Hvm' in Hvm. apply Ok_inj in Hvm as <-.
    apply res_bind_Ok in H as ([ok reason] & Hi & H). destruct ok; [|by apply verify_fail_not in H].
    apply integrity_ok in Hi as (-> & s & sig & payload & ? & ? & ? & ? & ? & ?); [|done|apply stripped_no_proof|done].
    split; [congruence|]. exists did, s, sig, pk, payload. split_and!; try done. by apply py_eqb_PStr_r.
  - intros (-> & did & s & sig & pk & payload & -> & Hvm & Hs & Hlen & Hf & Hd & H64 & Hp & Hv).
    destruct (did_key_prefix _ _ Hd) as (Hpre & Hvm' & Hne & H32).
    cbn [truthy]. rewrite (proj2 (String.eqb_neq _ _) Hne). cbn [negb]. rewrite Hpre, Hvm', Hvm. cbn [negb].
    rewrite (proj2 (py_eqb_PStr_r _ _) eq_refl), Hn, Hd. cbn [negb].
    rewrite (proj2 (integrity_ok (strip_proof m) proof pk "ok" Hn (stripped_no_proof m) H32)); [done|].
    split; [done|]. by exists s, sig, payload.
Qed.

Lemma verify_accepted_ok purpose m w :
  nacl_available = true ->
  verify_accepted purpose m = Ok (true, w) <-> w = "ok" /\ exists issuer, proof_signed purpose issuer m.
Proof.
  intros Hn. unfold verify_accepted. split.
  - intros H. destruct (get_or_none "proof" m) as [| | | | | |proof|] eqn:Hp; try by apply verify_fail_not in H.
    destruct (py_eqb (get_or_none "type" proof) _) eqn:Ht; [|by apply verify_fail_not in H]. cbn [negb] in H.
    destruct (py_eqb (get_or_none "proofPurpose" proof) _) eqn:Hq; [|by apply verify_fail_not in H]. cbn [negb] in H.
    apply verify_issuer_ok in H as (-> & did & s & sig & pk & payload & Hi & Hvm & Hs & H128 & Hf & Hd & H64 & Hpl & Hv); [|done].
    split; [done|]. exists did. constructor; [done|]. exists proof, s, sig, pk, payload.
    split_and!; try done; by apply py_eqb_PStr_r.
  - intros (-> & did & [Hi (proof & s & sig & pk & payload & -> & -> & -> & Hrest)]).
    rewrite !(proj2 (py_eqb_PStr_r _ _) eq_refl). cbn [negb]. apply verify_issuer_ok; [done|]. split; [done|].
    destruct Hrest as (? & ? & ? & ? & ? & ? & ? & ?). by exists did, s, sig, pk, payload.
Qed.

Lemma verify_intent_accepted m w :
  nacl_available = true ->
  verify_intent_mandate m = Ok (true, w) <-> verify_accepted INTENT_PROOF_PURPOSE m = Ok (true, w).
Proof.
  intros Hn. unfold verify_intent_mandate, verify_accepted. rewrite Hn. cbn [negb].
  destruct (get_or_none "proof" m) as [| | | | | |proof|]; try done.
  destruct (negb _); [done|]. destruct (negb _); [done|]. rewrite get_default_present.
  assert (forall s, get_or_none "proofValue" proof <> PStr s \/ s = "" \/ py_len s <> 128 ->
    get_or_none "proofValue" proof = PStr s -> verify_issuer m proof <> Ok (true, w)) as Hbad.
  { intros s Hs Es (-> & did & s' & sig & pk & payload & _ & _ & Es' & H128 & _)%verify_issuer_ok; [|done].
    rewrite Es in Es'. injection Es' as <-. destruct Hs as [Hs|[->|Hs]]; done. }
  assert ((forall s, get_or_none "proofValue" proof <> PStr s) -> verify_issuer m proof <> Ok (true, w)) as Hnone.
  { intros Hs (_ & did & s' & sig & pk & payload & _ & _ & Es & _)%verify_issuer_ok; [|done]. by apply Hs in Es. }
  unfold get_or_none in Hbad, Hnone.
  assert (forall r, verify_issuer m proof <> Ok (true, w) ->
    verify_fail m r = Ok (true, w) <-> verify_issuer m proof = Ok (true, w)) as Hfail.
  { intros r H. split; [intros H'; by apply verify_fail_not in H'|done]. }
  destruct (dict_get "proofValue" proof) as [[| | | |s| | |]|]; try by apply Hfail, Hnone.
  destruct (String.eqb_spec s "") as [->|]; [apply Hfail, (Hbad ""); auto|].
  destruct (Z.eqb_spec (py_len s) ED25519_SIG_HEX_LEN); [done|]. apply Hfail, (Hbad s); auto.
Qed.

(** ** The chain *)

(** The mandate is still valid at [now]. *)
Definition fresh_at (now : Z) (m : mandate) : Prop :=
  exists (text : string) deadline t, get_or_none "validUntil" m = PStr text /\ text <> "" /\
    fromisoformat text = Some deadline /\ instant deadline = Some t /\ now <= t.

(** The subject of [m] declares the digest of [target]. *)
Definition links (field : string) (m target : mandate) : Prop :=
  exists subject h, get_or_none "credentialSubject" m = PDict subject /\
    mandate_digest target = Ok h /\ get_or_none field subject = PStr h.

(** What the seller offers lies within what the buyer's principal allowed. *)
Record offer_fits (seller : string) (intent cart : mandate) : Prop := {
  of_terms : exists intent_subject constraints cart_subject total max_amount,
    get_or_none "credentialSubject" intent = PDict intent_subject /\
    get_or_none "constraints" intent_subject = PDict constraints /\
    get_or_none "credentialSubject" cart = PDict cart_subject /\
    get_or_none "total" cart_subject = PDict total /\
    get_or_none "max_amount" constraints = PDict max_amount /\ within_budget total max_amount /\
    (exists allowed, get_or_none "allowed_counterparties" constraints = PList allowed /\ In (PStr seller) allowed) /\
    (exists allowed methods m m', get_or_none "allowed_settlement_methods" constraints = PList allowed /\
    iterate (or_list (get_default "settlement_methods" (PList []) cart_subject)) = Ok methods /\
    In m methods /\ In m' allowed /\ py_eqb m m' = true)
}.

(** The payment chooses a rail the cart offers and pays its seller. *)
Definition accepts (seller : string) (payment cart : mandate) : Prop :=
  exists payment_subject cart_subject, get_or_none "credentialSubject" payment = PDict payment_subject /\
    get_or_none "credentialSubject" cart = PDict cart_subject /\
    py_in (get_default "settlement_choice" (PStr "") payment_subject)
      (or_list (get_default "settlement_methods" (PList []) cart_subject)) = Ok true /\
    get_or_none "id" payment_subject = PStr seller.

Record authorised (now : Z) (buyer seller : string) (intent cart payment : mandate) : Prop := {
  au_intent : proof_signed INTENT_PROOF_PURPOSE buyer intent;
  au_cart : proof_signed CART_PROOF_PURPOSE seller cart;
  au_payment : proof_signed PAYMENT_PROOF_PURPOSE buyer payment;
  au_fresh : Forall (fresh_at now) [intent; cart; payment];
  au_offer : links "intent_mandate_digest" cart intent;
  au_acceptance : links "cart_mandate_digest" payment cart;
  au_fits : offer_fits seller intent cart;
  au_accepts : accepts seller payment cart
}.

Lemma check_fresh_ok now m : check_fresh now m = Ok tt <-> fresh_at now m.
Proof.
  unfold check_fresh, expiry_status, fresh_at. split.
  - intros H. destruct (get_or_none "validUntil" m) as [| | | |s| | |]; try done.
    destruct (String.eqb_spec s ""); [done|]. destruct (fromisoformat s) as [d|] eqn:Hd; [|done].
    destruct (instant d) as [t|] eqn:Ht; [|done]. destruct (t <? now) eqn:E; [done|]. bool_to_prop.
    by exists s, d, t.
  - intros (s & d & t & -> & Hs & -> & -> & Ht). destruct (String.eqb_spec s ""); [done|].
    by rewrite (proj2 (Z.ltb_ge _ _)).
Qed.

Lemma sha256_hex_nonempty x : sha256_hex x <> "".
Proof. intros E. pose proof (sha256_hex_digest x) as H. by rewrite E in H. Qed.

Lemma mandate_digest_nonempty m h : mandate_digest m = Ok h -> h <> "".
Proof.
  unfold mandate_digest. destruct (canonical_json _); [|done]. intros [= <-]. apply sha256_hex_nonempty.
Qed.

Lemma get_default_dict k d x : get_default k (PDict []) d = PDict x -> x <> [] -> get_or_none k d = PDict x.
Proof. rewrite get_default_present. unfold get_or_none. destruct (dict_get k d); [done|congruence]. Qed.

Lemma get_default_of k v d x : get_or_none k d = x -> x <> PNone -> get_default k v d = x.
Proof. rewrite get_default_present. unfold get_or_none. by destruct (dict_get k d). Qed.

Lemma get_default_str k d s : get_default k (PStr "") d = PStr s -> s <> "" -> get_or_none k d = PStr s.
Proof. rewrite get_default_present. unfold get_or_none. destruct (dict_get k d); [done|congruence]. Qed.

Lemma digest_mismatch_not v r : digest_mismatch v r <> Ok (true, "ok").
Proof. unfold digest_mismatch. by destruct (_ || _). Qed.

Lemma check_link_ok field m target : check_link field m target = Ok tt <-> links field m target.
Proof.
  unfold check_link, links. split.
  - intros H. destruct (get_default "credentialSubject" (PDict []) m) as [| | | | | |subject|] eqn:Es; try done.
    apply res_bind_Ok in H as (h & Hh & H). destruct (py_eqb _ (PStr h)) eqn:E.
    + apply py_eqb_PStr_r in E. pose proof (mandate_digest_nonempty _ _ Hh) as Hne.
      apply get_default_str in E; [|done]. exists subject, h. split_and!; try done.
      apply get_default_dict; [done|]. intros ->. done.
    + apply res_bind_Ok in H as ([? ?] & _ & H). done.
  - intros (subject & h & Hs & Hh & Hd). rewrite (get_default_of _ _ _ _ Hs) by done. rewrite Hh. cbn [res_bind].
    rewrite (get_default_of _ _ _ _ Hd) by done. by rewrite (proj2 (py_eqb_PStr_r _ _) eq_refl).
Qed.

Lemma decimal_empty : Decimal (PStr "") = Err InvalidOperation.
Proof. reflexivity. Qed.

Lemma check_budget_ok cs cons :
  check_budget cs cons = Ok tt <->
  exists total limit, get_or_none "total" cs = PDict total /\ get_or_none "max_amount" cons = PDict limit /\
    within_budget total limit.
Proof.
  unfold check_budget, within_budget. split.
  - intros H. destruct (get_default "total" (PDict []) cs) as [| | | | | |total|] eqn:Ht; try done.
    destruct (Decimal (get_default "value" (PStr "") total)) as [v|e] eqn:Hv; [|by destruct e].
    destruct (is_finite v) eqn:Hfv; [|done]. destruct (dec_positive v) eqn:Hpos; [|done]. cbn [negb] in H.
    destruct (get_or_none "max_amount" cons) as [| | | | | |[|x limit]|] eqn:Hm; try done.
    destruct (py_eqb _ _) eqn:Hc; [|done]. cbn [negb] in H.
    destruct (Decimal (get_default "value" (PStr "") (x :: limit))) as [w|e] eqn:Hw; [|by destruct e].
    destruct (is_finite w) eqn:Hfw; [|done]. destruct (dec_ltb w v) eqn:Hlt; [done|].
    exists total, (x :: limit). split_and!; [|done|].
    + apply get_default_dict; [done|]. intros ->. done.
    + exists v, w. split_and!; try done. by apply dec_le_ltb.
  - intros (total & limit & Ht & Hm & v & w & Hv & Hw & Hfv & Hfw & Hpos & Hle & Hc).
    rewrite (get_default_of _ _ _ _ Ht) by done. rewrite Hv, Hfv, Hpos, Hm, Hc. cbn [negb].
    destruct limit as [|x limit]; [done|]. rewrite Hw, Hfw. cbn [negb].
    by rewrite (proj2 (dec_le_ltb v w Hfv Hfw) Hle).
Qed.

Lemma existsb_eq (v : pyval) l s : existsb (py_eqb (PStr s)) l = true <-> In (PStr s) l.
Proof.
  rewrite existsb_exists. split.
  - intros (x & Hx & E). destruct x; try done. cbn in E. apply String.eqb_eq in E as ->. done.
  - intros H. exists (PStr s). split; [done|]. cbn. apply String.eqb_refl.
Qed.

Lemma check_counterparty_ok cart cons seller :
  get_or_none "issuer" cart = PStr seller ->
  check_counterparty cart cons = Ok tt <->
  exists allowed, get_or_none "allowed_counterparties" cons = PList allowed /\ In (PStr seller) allowed.
Proof.
  intros Hi. unfold check_counterparty, get_or_none at 1. rewrite (get_default_of _ _ _ _ Hi) by done. split.
  - intros H. destruct (dict_get "allowed_counterparties" cons) as [[| | | | |[|x l]| |]|]; try done.
    apply check_iff, (existsb_eq PNone) in H. by exists (x :: l).
  - intros (allowed & Ha & Hin). destruct (dict_get "allowed_counterparties" cons) as [v|]; [subst v|done].
    destruct allowed as [|x l]; [done|]. apply check_iff. by apply (existsb_eq PNone).
Qed.

Lemma overlap_ok allowed methods :
  overlap allowed methods = true <-> exists m m', In m methods /\ In m' allowed /\ py_eqb m m' = true.
Proof.
  unfold overlap. rewrite existsb_exists. setoid_rewrite existsb_exists. split.
  - intros (m & Hm & m' & Hm' & E). by exists m, m'.
  - intros (m & m' & Hm & Hm' & E). exists m. split; [done|]. by exists m'.
Qed.

Lemma check_rails_ok cs cons :
  check_rails cs cons = Ok tt <->
  exists allowed methods m m', get_or_none "allowed_settlement_methods" cons = PList allowed /\
    iterate (or_list (get_default "settlement_methods" (PList []) cs)) = Ok methods /\
    In m methods /\ In m' allowed /\ py_eqb m m' = true.
Proof.
  unfold check_rails, get_or_none. split.
  - intros H. destruct (dict_get "allowed_settlement_methods" cons) as [[| | | | |[|x l]| |]|]; try done.
    apply res_bind_Ok in H as (methods & Hm & H). apply check_iff, overlap_ok in H as (m & m' & ? & ? & ?).
    by exists (x :: l), methods, m, m'.
  - intros (allowed & methods & m & m' & Ha & Hi & Hm & Hm' & E).
    destruct (dict_get "allowed_settlement_methods" cons) as [v|]; [subst v|done].
    destruct allowed as [|x l]; [done|]. rewrite Hi. cbn [res_bind]. apply check_iff, overlap_ok. by exists m, m'.
Qed.

Lemma links_digest field c i subject h :
  links field c i -> get_or_none "credentialSubject" c = PDict subject -> mandate_digest i = Ok h ->
  get_default field (PStr "") subject = PStr h.
Proof.
  intros (s & h' & Hs & Hh & Hd) Hs' Hh'. rewrite Hs in Hs'. rewrite Hh in Hh'.
  injection Hs' as <-. apply Ok_inj in Hh' as <-. by apply get_default_of.
Qed.

Lemma cart_satisfies_ok cart intent seller w :
  get_or_none "issuer" cart = PStr seller -> links "intent_mandate_digest" cart intent ->
  cart_satisfies_intent (PDict cart) (PDict intent) false = Ok (true, w) <-> w = "ok" /\ offer_fits seller intent cart.
Proof.
  intros Hi Hl. pose proof Hl as (cs & h & Hs & Hh & Hd).
  unfold cart_satisfies_intent. rewrite run_body_ok. cbn [res_bind].
  rewrite (get_default_of _ _ _ _ Hs), Hh by done. cbn [res_bind].
  rewrite (links_digest _ _ _ _ _ Hl Hs Hh), (proj2 (py_eqb_PStr_r _ _) eq_refl). cbn [negb]. split.
  - intros H. destruct (get_default "credentialSubject" (PDict []) intent) as [| | | | | |isub|] eqn:His; try done.
    destruct (get_default "constraints" (PDict []) isub) as [| | | | | |cons|] eqn:Hc; try done.
    apply res_bind_Ok in H as ([] & Hb & H). apply res_bind_Ok in H as ([] & Hp & H).
    apply res_bind_Ok in H as ([] & Hr & H). split; [congruence|].
    apply check_budget_ok in Hb as (total & limit & Ht & Hm & Hb).
    apply (check_counterparty_ok _ _ _ Hi) in Hp. apply check_rails_ok in Hr.
    assert (cons <> []) by (by intros ->). assert (isub <> []) by (intros ->; cbn in Hc; congruence).
    constructor. exists isub, cons, cs, total, limit. split_and!; try done; by apply get_default_dict.
  - intros [-> [(isub & cons & cs' & total & limit & His & Hc & Hs' & Ht & Hm & Hb & Hp & Hr)]].
    rewrite Hs in Hs'. injection Hs' as <-. rewrite (get_default_of _ _ _ _ His), (get_default_of _ _ _ _ Hc) by done.
    rewrite (proj2 (check_budget_ok cs cons)); [|by exists total, limit]. cbn [res_bind].
    rewrite (proj2 (check_counterparty_ok cart cons seller Hi)) by done. cbn [res_bind].
    by rewrite (proj2 (check_rails_ok cs cons)).
Qed.

Lemma same_issuer_ok payment intent buyer :
  get_or_none "issuer" intent = PStr buyer -> buyer <> "" ->
  same_issuer payment intent = true <-> get_or_none "issuer" payment = PStr buyer.
Proof.
  intros Hi Hb. unfold same_issuer. rewrite (get_default_of _ _ _ _ Hi) by done.
  cbn [truthy]. rewrite (proj2 (String.eqb_neq _ _) Hb). cbn [negb andb].
  rewrite get_default_present. unfold get_or_none. destruct (dict_get "issuer" payment) as [v|].
  - destruct v; cbn [py_eqb num_eqb int_of_num]; split; try done; [intros ->%String.eqb_eq; done|].
    intros [= ->]. apply String.eqb_refl.
  - cbn [py_eqb]. rewrite (proj2 (String.eqb_neq _ _) Hb). done.
Qed.

Lemma payment_satisfies_ok payment cart intent buyer seller w :
  get_or_none "issuer" cart = PStr seller -> seller <> "" -> get_or_none "issuer" intent = PStr buyer -> buyer <> "" ->
  get_or_none "issuer" payment = PStr buyer -> links "cart_mandate_digest" payment cart ->
  payment_satisfies_cart (PDict payment) (PDict cart) (PDict intent) false = Ok (true, w) <->
  w = "ok" /\ accepts seller payment cart.
Proof.
  intros Hi Hne Hb Hbne Hp Hl. pose proof Hl as (ps & h & Hs & Hh & Hd).
  unfold payment_satisfies_cart. rewrite run_body_ok. cbn [res_bind].
  rewrite (get_default_of _ _ _ _ Hs), Hh by done. cbn [res_bind].
  rewrite (links_digest _ _ _ _ _ Hl Hs Hh), (proj2 (py_eqb_PStr_r _ _) eq_refl). cbn [negb].
  rewrite (get_default_of "issuer" (PStr "") cart _ Hi) by done. split.
  - intros H. destruct (get_default "credentialSubject" (PDict []) cart) as [| | | | | |cs|] eqn:Hcs; try done.
    apply res_bind_Ok in H as (b & Ho & H). apply res_bind_Ok in H as (u & Hc & H). apply check_iff in Hc as ->.
    apply res_bind_Ok in H as (u' & He & H). apply check_iff, py_eqb_PStr_r, get_default_str in He; [|done].
    apply res_bind_Ok in H as (u'' & _ & H). split; [congruence|].
    exists ps, cs. split_and!; try done. apply get_default_dict; [done|]. intros ->. cbn in Ho. done.
  - intros [-> (ps' & cs & Hs' & Hcs & Ho & Hid)]. rewrite Hs in Hs'. injection Hs' as <-.
    rewrite (get_default_of _ _ _ _ Hcs) by done. rewrite Ho, (get_default_of _ _ _ _ Hid) by done. cbn [res_bind check].
    rewrite (proj2 (py_eqb_PStr_r _ _) eq_refl). cbn [check res_bind].
    by rewrite (proj2 (same_issuer_ok _ _ _ Hb Hbne)).
Qed.

Lemma proof_signed_issuer purpose issuer m : proof_signed purpose issuer m -> issuer <> "".
Proof.
  intros [_ (proof & s & sig & pk & pl & _ & _ & _ & _ & _ & _ & _ & Hd & _)]. by apply did_key_prefix in Hd as (_ & _ & ? & _).
Qed.

Lemma must_ok r u : must r = Ok u <-> exists w, r = Ok (true, w).
Proof.
  unfold must. destruct u. rewrite res_bind_Ok. split.
  - intros ([ok why] & -> & H). apply check_iff in H as ->. by exists why.
  - intros [w ->]. by exists (true, w).
Qed.

Lemma triad_accepted now i c p :
  nacl_available = true ->
  complete_triad_chain now (PDict i) (PDict c) (PDict p) = Ok (true, "ok") <->
  exists buyer seller, authorised now buyer seller i c p.
Proof.
  intros Hn. cbn [complete_triad_chain]. rewrite run_body_ok. split.
  - intros H. apply res_bind_Ok in H as (u1 & Hs & H). apply check_iff in Hs.
    apply res_bind_Ok in H as ([] & Hl1 & H). apply check_link_ok in Hl1.
    apply res_bind_Ok in H as ([] & Hl2 & H). apply check_link_ok in Hl2.
    apply res_bind_Ok in H as ([] & Hf1 & H). apply res_bind_Ok in H as ([] & Hf2 & H).
    apply res_bind_Ok in H as ([] & Hf3 & H). rewrite check_fresh_ok in Hf1, Hf2, Hf3.
    apply res_bind_Ok in H as (u4 & (w1 & Hi)%must_ok & H).
    apply verify_intent_accepted, verify_accepted_ok in Hi as (-> & buyer & Hi); [|done..].
    apply res_bind_Ok in H as (u5 & (w2 & Hc)%must_ok & H).
    apply verify_accepted_ok in Hc as (-> & seller & Hc); [|done].
    pose proof (ps_issuer _ _ _ Hi) as Ei. pose proof (ps_issuer _ _ _ Hc) as Ec.
    pose proof (proof_signed_issuer _ _ _ Hi). pose proof (proof_signed_issuer _ _ _ Hc).
    apply (same_issuer_ok p i buyer) in Hs; [|done..].
    apply res_bind_Ok in H as (u6 & (w3 & Hcs)%must_ok & H). apply (cart_satisfies_ok c i seller) in Hcs as [-> Hcs]; [|done..].
    apply res_bind_Ok in H as (u7 & (w4 & Hp)%must_ok & H).
    apply verify_accepted_ok in Hp as (-> & payer & Hp); [|done].
    pose proof (ps_issuer _ _ _ Hp) as Ep. rewrite Hs in Ep. injection Ep as <-.
    apply res_bind_Ok in H as (u8 & (w5 & Hps)%must_ok & _).
    apply (payment_satisfies_ok p c i buyer seller) in Hps as [-> Hps]; [|done..].
    exists buyer, seller. constructor; try done. by repeat constructor.
  - intros (buyer & seller & [Hi Hc Hp Hf Ho Ha Hfit Hacc]).
    pose proof (ps_issuer _ _ _ Hi) as Ei. pose proof (ps_issuer _ _ _ Hc) as Ec. pose proof (ps_issuer _ _ _ Hp) as Ep.
    pose proof (proof_signed_issuer _ _ _ Hi). pose proof (proof_signed_issuer _ _ _ Hc).
    rewrite (proj2 (same_issuer_ok p i buyer Ei ltac:(done)) Ep). cbn [check res_bind].
    rewrite (proj2 (check_link_ok _ _ _) Ho), (proj2 (check_link_ok _ _ _) Ha). cbn [res_bind].
    apply Forall_cons in Hf as [Hf1 Hf]. apply Forall_cons in Hf as [Hf2 Hf]. apply Forall_cons in Hf as [Hf3 _].
    rewrite !(proj2 (check_fresh_ok _ _)) by done. cbn [res_bind].
    rewrite (proj2 (verify_intent_accepted i "ok" Hn)) by (apply verify_accepted_ok; [done|]; split; [done|by exists buyer]).
    cbn [must res_bind check].
    unfold verify_cart_mandate, verify_payment_mandate.
    rewrite (proj2 (verify_accepted_ok CART_PROOF_PURPOSE c "ok" Hn)) by (split; [done|by exists seller]).
    cbn [must res_bind check]. rewrite (proj2 (cart_satisfies_ok c i seller "ok" Ec Ho)) by done. cbn [must res_bind check].
    rewrite (proj2 (verify_accepted_ok PAYMENT_PROOF_PURPOSE p "ok" Hn)) by (split; [done|by exists buyer]).
    cbn [must res_bind check]. rewrite (proj2 (payment_satisfies_ok p c i buyer seller "ok" Ec ltac:(done) Ei ltac:(done) Ep Ha)) by done.
    done.
Qed.

(** ** Signing *)

Context `{L : !Ed25519Laws Ed}.

Lemma hex_len s : py_len (hex s) = 2 * bytes_len s.
Proof.
  destruct (hex_spec s) as [Ha Hl]. rewrite py_len_ascii; [unfold bytes_len; lia|].
  assert (char_all ascii7 (hex s) = true) as H7 by (apply (hex_ascii7 (String.length (hex s))); unfold hex_digest; by rewrite Nat.eqb_refl).
  unfold bytes_of. apply Forall_fmap. unfold char_all in H7. apply forallb_Forall in H7.
  eapply Forall_impl; [exact H7|]. intros c Hc. unfold ascii7 in Hc. bool_to_prop. pose proof (byte_of_range c). cbn. lia.
Qed.

Lemma sign_mandate_spec purpose m identity did created m' :
  signer identity did -> get_or_none "issuer" m = PStr did -> sign_mandate purpose m identity created = Ok m' ->
  proof_signed purpose did m' /\ strip_proof m' = m /\ forall k, k <> "proof" -> get_or_none k m' = get_or_none k m.
Proof.
  intros Hs Hi. unfold sign_mandate. rewrite Hi. cbn [truthy]. intros H.
  destruct (can_sign identity) eqn:Hcan; [|done]. cbn [negb] in H.
  destruct (dict_mem "proof" m) eqn:Hnp; [done|]. destruct (negb (String.eqb did "")); [|done]. cbn [negb] in H.
  destruct (as_did identity); [|done]. destruct (py_eqb _ _); [|done]. cbn [negb] in H.
  apply res_bind_Ok in H as (vm & Hvm & H). apply res_bind_Ok in H as (sig_hex & Hsig & H). apply Ok_inj in H as <-.
  unfold sign_with_data_integrity in Hsig. rewrite Hcan, stripped_no_proof in Hsig. cbn [negb orb dict_mem dict_get] in Hsig.
  apply res_bind_Ok in Hsig as (payload & Hp & Hsig). apply res_bind_Ok in Hsig as (sig & Hsig & Hh). apply Ok_inj in Hh as <-.
  destruct (signer_sign identity did payload Hs) as (sig' & v & pk & Hsig' & H64 & Hpk & Hver & _).
  rewrite Hsig in Hsig'. apply Ok_inj in Hsig' as <-.
  destruct (did_key_prefix _ _ Hpk) as (_ & Hvm' & _). rewrite Hvm in Hvm'. apply Ok_inj in Hvm' as ->.
  assert (forall v, strip_proof (dict_set "proof" v m) = m) as Hstrip by (intros; by apply dict_without_set_new).
  assert (forall k v, k <> "proof" -> get_or_none k (dict_set "proof" v m) = get_or_none k m) as Hother.
  { intros k x Hk. unfold get_or_none. by rewrite dict_get_set_ne. }
  split_and!; [|apply Hstrip|intros; by apply Hother]. constructor; [by rewrite Hother|].
  eexists _, (hex sig), sig, pk, payload. split_and!.
  - unfold get_or_none. by rewrite dict_get_set_eq.
  - reflexivity.
  - reflexivity.
  - reflexivity.
  - reflexivity.
  - by rewrite hex_len, H64.
  - apply fromhex_hex.
  - done.
  - done.
  - rewrite Hstrip. unfold strip_proof in Hp. rewrite dict_without_absent in Hp by done. exact Hp.
  - done.
Qed.

Lemma digest_signed m m' : strip_proof m' = m -> strip_proof m = m -> mandate_digest m' = mandate_digest m.
Proof. unfold mandate_digest. by intros -> ->. Qed.

(** ** A purchase from the inputs of its builders *)

Section Purchase.
Variables (principal shop : AgentIdentity) (buyer seller : string).
Hypotheses (Hbuyer : signer principal buyer) (Hseller : signer shop seller).

(** The terms on both sides. *)
Variables (limit price currency : string) (counterparties : list pyval) (allowed offered : list pyval) (choice : string).
Definition limits : pyval :=
  PDict [("max_amount", PDict [("value", PStr limit); ("currency", PStr currency)]);
         ("allowed_counterparties", PList counterparties); ("allowed_settlement_methods", PList allowed)].
Definition asked : pyval := PDict [("value", PStr price); ("currency", PStr currency)].

(** The three mandates, built and signed one after the other. *)
Variables (agent purpose items buyer_agent metadata : pyval) (ids : string) (t0 t1 t2 s0 s1 s2 : datetime)
  (until0 until1 until2 : string).
Definition purchase : res (mandate * mandate * mandate) :=
  let* i := build_intent_mandate (PStr buyer) agent purpose limits (PStr until0) "" ids t0 in
  let* i := sign_intent_mandate i principal s0 in
  let* hi := mandate_digest i in
  let* c := build_cart_mandate (PStr seller) buyer_agent (PStr hi) items asked (PList offered) (PStr until1) "" ids t1 in
  let* c := sign_cart_mandate c shop s1 in
  let* hc := mandate_digest c in
  let* p := build_payment_mandate (PStr buyer) (PStr seller) (PStr hc) (PStr choice) (PStr until2) metadata "" ids t2 in
  let* p := sign_payment_mandate p principal s2 in
  Ok (i, c, p).

(** The three deadlines. *)
Definition deadline_of (text : string) : option Z := fromisoformat text ≫= instant.
Lemma demand_Ok b u : demand_value b = Ok u <-> b = true.
Proof. destruct u, b; split; done. Qed.

Lemma validate_amount value v :
  validate_money (PDict [("value", PStr value); ("currency", PStr currency)]) = Ok v ->
  v = PDict [("value", PStr value); ("currency", PStr currency)] /\
  exists d, Decimal (PStr value) = Ok d /\ is_finite d = true /\ dec_positive d = true.
Proof.
  unfold validate_money. change (get_or_none "value" _) with (PStr value). change (get_or_none "currency" _) with (PStr currency).
  cbn [Decimal]. intros H. apply res_bind_Ok in H as (u1 & _ & H). apply res_bind_Ok in H as (u2 & _ & H).
  destruct (dec_of_str value) as [d|]; [|done].
  apply res_bind_Ok in H as (u3 & Hf%demand_Ok & H). apply res_bind_Ok in H as (u4 & Hp%demand_Ok & H).
  apply res_bind_Ok in H as (u5 & _ & H). apply Ok_inj in H as <-. split; [done|]. by exists d.
Qed.

Lemma validate_limits v :
  validate_constraints limits = Ok v ->
  v = limits /\ exists d, Decimal (PStr limit) = Ok d /\ is_finite d = true /\ dec_positive d = true.
Proof.
  unfold validate_constraints, limits. intros H. apply res_bind_Ok in H as (u & _ & H).
  cbn [dict_get String.eqb Ascii.eqb Bool.eqb] in H. apply res_bind_Ok in H as (a & Ha & H).
  apply validate_amount in Ha as [-> Hd]. apply res_bind_Ok in H as (b & Hb & H). apply res_bind_Ok in H as (c & Hc & H).
  apply Ok_inj in H as <-. unfold constraint_list in Hb, Hc. cbn [dict_get String.eqb Ascii.eqb Bool.eqb] in Hb, Hc.
  apply res_bind_Ok in Hb as (? & _ & Hb). apply res_bind_Ok in Hb as (? & _ & Hb). apply Ok_inj in Hb as <-.
  apply res_bind_Ok in Hc as (? & _ & Hc). apply res_bind_Ok in Hc as (? & _ & Hc). apply Ok_inj in Hc as <-.
  split; [done|exact Hd].
Qed.

Lemma check_iso_fresh text t m now T :
  check_iso_with_tz (PStr text) = Ok t -> deadline_of text = Some T -> get_or_none "validUntil" m = PStr text ->
  fresh_at now m <-> now <= T.
Proof.
  unfold check_iso_with_tz, deadline_of, fresh_at. intros Hc HT ->. destruct (String.eqb_spec text ""); [done|].
  destruct (fromisoformat text) as [d|] eqn:Hd; [|done]. cbn in HT. split.
  - intros (s & d' & t' & [= <-] & _ & Hd' & Ht & Hle). congruence.
  - intros Hle. by exists text, d, T.
Qed.

Lemma purchase_accepted now i c p T0 T1 T2 v w :
  purchase = Ok (i, c, p) ->
  deadline_of until0 = Some T0 -> deadline_of until1 = Some T1 -> deadline_of until2 = Some T2 ->
  Decimal (PStr price) = Ok v -> Decimal (PStr limit) = Ok w -> dec_le v w ->
  In (PStr seller) counterparties -> In (PStr choice) allowed -> In (PStr choice) offered ->
  complete_triad_chain now (PDict i) (PDict c) (PDict p) = Ok (true, "ok") <-> now <= T0 /\ now <= T1 /\ now <= T2.
Proof.
  unfold purchase. intros H H0 H1 H2 Hv Hw Hle Hcp Hal Hof. pose proof (nacl_present (Ed25519Laws := L)) as Hn.
  apply res_bind_Ok in H as (i0 & Hi0 & H). apply res_bind_Ok in H as (i' & Hi & H).
  apply res_bind_Ok in H as (hi & Hhi & H). apply res_bind_Ok in H as (c0 & Hc0 & H).
  apply res_bind_Ok in H as (c' & Hc & H). apply res_bind_Ok in H as (hc & Hhc & H).
  apply res_bind_Ok in H as (p0 & Hp0 & H). apply res_bind_Ok in H as (p' & Hp & H). injection H as -> -> ->.
  unfold build_intent_mandate in Hi0. apply res_bind_Ok in Hi0 as (? & _ & Hi0).
  apply res_bind_Ok in Hi0 as (lim & Hlim & Hi0). apply validate_limits in Hlim as (-> & w' & Hw' & Hfw & _).
  apply res_bind_Ok in Hi0 as (d0 & Hd0 & Hi0). apply res_bind_Ok in Hi0 as (? & _ & Hi0). apply Ok_inj in Hi0 as <-.
  unfold build_cart_mandate in Hc0. apply res_bind_Ok in Hc0 as (? & _ & Hc0). apply res_bind_Ok in Hc0 as (? & _ & Hc0).
  apply res_bind_Ok in Hc0 as (? & _ & Hc0). apply res_bind_Ok in Hc0 as (its & _ & Hc0).
  apply res_bind_Ok in Hc0 as (tot & Htot & Hc0). apply validate_amount in Htot as (-> & v' & Hv' & Hfv & Hpos).
  apply res_bind_Ok in Hc0 as (ms & Hms & Hc0). apply res_bind_Ok in Hc0 as (d1 & Hd1 & Hc0).
  apply res_bind_Ok in Hc0 as (? & _ & Hc0). apply Ok_inj in Hc0 as <-.
  assert (ms = PList offered) as ->.
  { unfold validate_settlement_methods in Hms. destruct offered; [done|]. apply res_bind_Ok in Hms as (? & _ & Hms). congruence. }
  unfold build_payment_mandate in Hp0. do 5 (apply res_bind_Ok in Hp0 as (? & _ & Hp0)).
  apply res_bind_Ok in Hp0 as (d2 & Hd2 & Hp0). apply res_bind_Ok in Hp0 as (? & _ & Hp0). apply Ok_inj in Hp0 as <-.
  rewrite Hv in Hv'. rewrite Hw in Hw'. apply Ok_inj in Hv' as <-. apply Ok_inj in Hw' as <-.
  apply (sign_mandate_spec _ _ _ _ _ _ Hbuyer) in Hi as (Si & _ & Gi); [|done].
  apply (sign_mandate_spec _ _ _ _ _ _ Hseller) in Hc as (Sc & _ & Gc); [|done].
  apply (sign_mandate_spec _ _ _ _ _ _ Hbuyer) in Hp as (Sp & _ & Gp); [|done].
  assert (Forall (fresh_at now) [i; c; p] <-> now <= T0 /\ now <= T1 /\ now <= T2) as Hfresh.
  { rewrite !Forall_cons, Forall_nil, (check_iso_fresh _ _ i now T0 Hd0 H0), (check_iso_fresh _ _ c now T1 Hd1 H1),
      (check_iso_fresh _ _ p now T2 Hd2 H2); [tauto|by rewrite Gp|by rewrite Gc|by rewrite Gi]. }
  rewrite <- Hfresh, triad_accepted by done. split.
  - by intros (b & s & []).
  - intros Hf. exists buyer, seller. constructor; try done.
    + eexists _, hi. split_and!; [by rewrite Gc|done|reflexivity].
    + eexists _, hc. split_and!; [by rewrite Gp|done|reflexivity].
    + constructor. eexists _, _, _, _, _. split_and!; [by rewrite Gi|reflexivity|by rewrite Gc|reflexivity|reflexivity| | |].
      * exists v, w. split_and!; try done. cbn. apply String.eqb_refl.
      * exists counterparties. by split.
      * exists allowed, offered, (PStr choice), (PStr choice). split_and!; try done; [|cbn; apply String.eqb_refl].
        change (get_default "settlement_methods" _ _) with (PList offered). unfold or_list. destruct offered; done.
    + eexists _, _. split_and!; [by rewrite Gp|by rewrite Gc| |reflexivity].
      change (get_default "settlement_choice" _ _) with (PStr choice).
      change (get_default "settlement_methods" _ _) with (PList offered). unfold or_list.
      destruct offered as [|o os]; [done|]. cbn [truthy List.length Nat.eqb negb py_in]. f_equal. by apply (existsb_eq PNone).
Qed.
End Purchase.
End Spec.

(** ** Properties *)

Section Properties.
Context `{Ed : Ed25519} `{D : IsoDates} `{U : UnicodeDigits}.

(** C5. The gate before money moves accepts exactly the authorised purchases.
    Three mandates pass [complete_triad_chain] if and only if one principal
    signed the intent and the payment and one seller signed the cart, each is
    still valid, the cart answers this intent and the payment this cart, the
    total is a positive amount within the budget and in its currency, the
    seller is an allowed counterparty, a rail is common to both, and the payment
    takes a rail the cart offers and pays the seller. *)
Theorem triad_accepted_iff now intent cart payment :
  nacl_available = true ->
  complete_triad_chain now (PDict intent) (PDict cart) (PDict payment) = Ok (true, "ok") <->
  exists buyer seller, authorised now buyer seller intent cart payment.
Proof. apply triad_accepted. Qed.

(** C6. Honest parties can trade.  When a principal and a seller build and sign
    an intent, a cart and a payment whose price is within the limit, whose
    seller is a listed counterparty and whose rail both sides list, the three
    mandates are accepted at every moment up to the first of their deadlines,
    and refused after it. *)
Theorem signed_purchase_accepted `{L : !Ed25519Laws Ed} principal shop buyer seller limit price currency
    counterparties allowed offered choice agent purpose items buyer_agent metadata ids t0 t1 t2 s0 s1 s2
    until0 until1 until2 now i c p T0 T1 T2 v w :
  signer principal buyer -> signer shop seller ->
  purchase principal shop buyer seller limit price currency counterparties allowed offered choice
    agent purpose items buyer_agent metadata ids t0 t1 t2 s0 s1 s2 until0 until1 until2 = Ok (i, c, p) ->
  deadline_of until0 = Some T0 -> deadline_of until1 = Some T1 -> deadline_of until2 = Some T2 ->
  Decimal (PStr price) = Ok v -> Decimal (PStr limit) = Ok w -> dec_le v w ->
  In (PStr seller) counterparties -> In (PStr choice) allowed -> In (PStr choice) offered ->
  complete_triad_chain now (PDict i) (PDict c) (PDict p) = Ok (true, "ok") <->
  now <= Z.min T0 (Z.min T1 T2).
Proof.
  intros Hb Hs H H0 H1 H2 Hv Hw Hle Hcp Hal Hof.
  rewrite (purchase_accepted principal shop buyer seller Hb Hs limit price currency counterparties allowed offered choice
    agent purpose items buyer_agent metadata ids t0 t1 t2 s0 s1 s2 until0 until1 until2 now i c p T0 T1 T2 v w); [lia|done..].
Qed.
End Properties.

(** ** Examples *)

Definition no_wide_digits : UnicodeDigits := fun _ => None.
#[local] Existing Instance toy_ed25519.
#[local] Existing Instance toy_laws.
#[local] Existing Instance iso_grammar.
#[local] Existing Instance no_wide_digits.

Definition demo_time (day : Z) : datetime := {| dt_year := 2026; dt_month := 6; dt_day := day; dt_hour := 12;
  dt_minute := 0; dt_second := 0; dt_micro := 0; dt_offset := Some 0 |}.
Definition demo_instant (day : Z) : Z := default 0 (instant (demo_time day)).

Definition demo_item : pyval := PDict [("description", PStr "review"); ("quantity", PInt 1)].

(** A purchase of 12.50 with a budget of 100.00. *)
Abbreviation demo_triad allowed offered choice :=
  (purchase (toy_identity "b") (toy_identity "s") (toy_did "b") (toy_did "s") "100.00" "12.50" "USDC"
    [PStr (toy_did "s")] allowed offered choice
    (PStr (toy_did "a")) (PStr "buy a review") (PList [demo_item]) (PStr (toy_did "a")) PNone "id"
    (demo_time 1) (demo_time 1) (demo_time 1) (demo_time 1) (demo_time 1) (demo_time 1)
    (isoformat (demo_time 9)) (isoformat (demo_time 5)) (isoformat (demo_time 7))).
Definition demo_built : res (mandate * mandate * mandate) :=
  Eval vm_compute in demo_triad [PStr "manual:usdc"] [PStr "manual:usdc"] "manual:usdc".
Definition demo_mandates : mandate * mandate * mandate :=
  match demo_built with Ok m => m | Err _ => ([], [], []) end.
Definition demo_intent : mandate := demo_mandates.1.1.
Definition demo_cart : mandate := demo_mandates.1.2.
Definition demo_payment : mandate := demo_mandates.2.

Lemma demo_triad_built :
  demo_triad [PStr "manual:usdc"] [PStr "manual:usdc"] "manual:usdc" = Ok (demo_intent, demo_cart, demo_payment).
Proof. vm_compute. reflexivity. Qed.

Lemma triad_accepted_iff_witness :
  exists buyer seller, authorised (demo_instant 5) buyer seller demo_intent demo_cart demo_payment.
Proof.
  apply (triad_accepted_iff (Ed := toy_ed25519) (demo_instant 5) demo_intent demo_cart demo_payment eq_refl).
  vm_compute. reflexivity.
Defined.

(** The payment may take a rail that the intent does not allow: the gate asks
    that some rail be common to the intent and the cart, and that the cart offer
    the chosen one. *)
Definition demo_unlisted : res (mandate * mandate * mandate) :=
  Eval vm_compute in demo_triad [PStr "manual:usdc"] [PStr "manual:usdc"; PStr "x402:usdc"] "x402:usdc".

Example unlisted_rail_accepted :
  exists i c p, demo_unlisted = Ok (i, c, p) /\
    complete_triad_chain (demo_instant 3) (PDict i) (PDict c) (PDict p) = Ok (true, "ok").
Proof.
  eexists _, _, _. split; [reflexivity|]. vm_compute. reflexivity.
Qed.

Lemma signed_purchase_accepted_witness :
  complete_triad_chain (demo_instant 4) (PDict demo_intent) (PDict demo_cart) (PDict demo_payment) = Ok (true, "ok") <->
  demo_instant 4 <= Z.min (demo_instant 9) (Z.min (demo_instant 5) (demo_instant 7)).
Proof.
  refine (signed_purchase_accepted (Ed := toy_ed25519) (D := iso_grammar) (U := no_wide_digits) (L := toy_laws)
    (toy_identity "b") (toy_identity "s") (toy_did "b") (toy_did "s") "100.00" "12.50" "USDC"
    [PStr (toy_did "s")] [PStr "manual:usdc"] [PStr "manual:usdc"] "manual:usdc"
    (PStr (toy_did "a")) (PStr "buy a review") (PList [demo_item]) (PStr (toy_did "a")) PNone "id"
    (demo_time 1) (demo_time 1) (demo_time 1) (demo_time 1) (demo_time 1) (demo_time 1)
    (isoformat (demo_time 9)) (isoformat (demo_time 5)) (isoformat (demo_time 7))
    (demo_instant 4) demo_intent demo_cart demo_payment (demo_instant 9) (demo_instant 5) (demo_instant 7)
    (DFinite 1250 (-2)) (DFinite 10000 (-2)) (toy_signer_of "b" eq_refl) (toy_signer_of "s" eq_refl)
    _ _ _ _ _ _ _ _ _ _).
  - exact demo_triad_built.
  - vm_compute. reflexivity.
  - vm_compute. reflexivity.
  - vm_compute. reflexivity.
  - vm_compute. reflexivity.
  - vm_compute. reflexivity.
  - exists 1250, (-2), 10000, (-2). split_and!; [done|done|]. vm_compute. discriminate.
  - left. reflexivity.
  - left. reflexivity.
  - left. reflexivity.
Defined.
