(* ===== verification/AmountSpec.v ===== *)
(** * The two readings of an amount agree

    Amounts are read twice: the budget of an intent is compared through
    [decimal.Decimal], and what is charged is the integer of [decimal_to_minor].
    On every text that the second accepts, both mean the same number. *)

From Stdlib Require Import ZArith Lia Ascii String.
From stdpp Require Import base list strings.
From S2P Require Import Prelude Digits PyStr PyValue PyDecimal B64u Money Mandate MandateSpec.

Local Open Scope string_scope.
Local Open Scope Z_scope.

(** ** Order of decimals *)

Lemma dec_le_trans d1 d2 d3 : dec_le d1 d2 -> dec_le d2 d3 -> dec_le d1 d3.
Proof.
  intros (n1 & e1 & n2 & e2 & -> & -> & H12) (? & ? & n3 & e3 & [= <- <-] & -> & H23).
  exists n1, e1, n3, e3. split_and!; try done. unfold scaled in *.
  pose (m := Z.min e1 (Z.min e2 e3)).
  assert (forall n e e', m <= Z.min e e' -> n * 10 ^ (e - m) = n * 10 ^ (e - Z.min e e') * 10 ^ (Z.min e e' - m)) as Hs.
  { intros n e e' H. rewrite <- Z.mul_assoc, <- Z.pow_add_r by lia. do 2 f_equal. lia. }
  assert (forall n e n' e', m <= Z.min e e' ->
    n * 10 ^ (e - Z.min e e') <= n' * 10 ^ (e' - Z.min e' e) <-> n * 10 ^ (e - m) <= n' * 10 ^ (e' - m)) as Hc.
  { intros n e n' e' H. rewrite (Hs n e e'), (Hs n' e' e) by lia. rewrite (Z.min_comm e' e).
    assert (0 < 10 ^ (Z.min e e' - m)) by (apply Z.pow_pos_nonneg; lia). nia. }
  apply Hc in H12; [|lia]. apply Hc in H23; [|lia]. apply Hc; [lia|]. lia.
Qed.

(** Two finite decimals are the same number. *)
Definition same_number (d d' : decimal) : Prop := dec_le d d' /\ dec_le d' d.

(** ** Reading *)

Lemma split_at_char_spec c l a b : split_at_char c l = Some (a, b) -> l = (a ++ c :: b)%list.
Proof.
  revert a. induction l as [|x l IH]; intros a; [done|]. cbn [split_at_char].
  destruct (Ascii.eqb_spec c x) as [->|]; [by intros [= <- <-]|].
  destruct (split_at_char c l) as [[a' b']|]; [|done]. intros [= <- <-]. cbn. by rewrite (IH a').
Qed.

(** A plain numeral, as bytes. *)
Definition plain_byte (z : Z) : Prop := 48 <= z <= 57 \/ z = 46.

Lemma is_dec_byte c : is_dec c = true -> 48 <= byte_of c <= 57.
Proof. unfold is_dec, in_range. lia. Qed.

Section Reading.
Context `{U : UnicodeDigits}.

Lemma strip_left_plain l : Forall plain_byte l -> strip_left l = l.
Proof.
  destruct 1 as [|c l Hc _]; [done|]. cbn [strip_left]. assert (cp_isspace c = false) as ->; [|done].
  unfold cp_isspace. unfold plain_byte in Hc. lia.
Qed.

Lemma mapM_cp_plain l : Forall plain_byte l -> mapM_cp l = Some l.
Proof.
  induction 1 as [|c l Hc _ IH]; [done|]. cbn [mapM_cp]. unfold plain_byte in Hc.
  rewrite (proj2 (Z.eqb_neq _ _)) by lia. unfold cp_ascii.
  rewrite (proj2 (Z.ltb_lt _ _)), (proj2 (Z.eqb_neq _ _)), IH by lia. done.
Qed.

Lemma numeric_ascii_plain s : Forall plain_byte (bytes_of s) -> numeric_ascii s = Some (bytes_of s).
Proof.
  intros H. unfold numeric_ascii. assert (code_points s = bytes_of s) as ->.
  { apply decode_points_ascii. eapply Forall_impl; [exact H|]. unfold plain_byte. lia. }
  rewrite strip_left_plain, strip_left_plain, rev_involutive; [by apply mapM_cp_plain|..];
    rewrite ?strip_left_plain, ?rev_involutive; try done; by apply Forall_rev.
Qed.

Lemma span_cp_digits l k : Forall (fun c => 48 <= c <= 57) l ->
  match k with c :: _ => cp_digit c = false | [] => True end -> span_cp (l ++ k) = (l, k).
Proof.
  intros H Hk. induction H as [|c l Hc _ IH]; cbn [span_cp app].
  - destruct k as [|c k]; [done|]. cbn [span_cp]. by rewrite Hk.
  - unfold cp_digit. rewrite (proj2 (Z.leb_le _ _)), (proj2 (Z.leb_le _ _)) by lia. cbn [andb]. by rewrite IH.
Qed.

Lemma cp_lower_plain l : Forall plain_byte l -> map cp_lower l = l.
Proof.
  induction 1 as [|c l Hc _ IH]; [done|]. cbn [map]. rewrite IH. unfold cp_lower, plain_byte in *.
  by rewrite (proj2 (Z.leb_gt 65 c)) by lia.
Qed.

(** A text that starts with a digit is none of the special values. *)
Lemma not_special c l k n : 48 <= c <= 57 -> match k with x :: _ => 57 < x | [] => False end ->
  bool_decide (take (S n) (c :: l) = k) = false /\ bool_decide (c :: l = k) = false.
Proof.
  intros Hc Hk. destruct k as [|x k]; [done|]. cbn [take].
  split; apply bool_decide_eq_false_2; intros E; injection E as E _; lia.
Qed.

Lemma dec_exact_small coeff e : 0 <= coeff < 10 ^ 200 -> - 200 <= e <= 0 ->
  dec_exact false coeff e = Some (DFinite coeff e).
Proof.
  intros Hc He. unfold dec_exact. pose proof (to_digits_length 10 ltac:(lia) coeff 200 Hc) as Hl.
  unfold MIN_ETINY, MAX_EMAX. rewrite !(proj2 (Z.leb_le _ _)); [done| |lia].
  destruct (coeff =? 0); lia.
Qed.

(** The digits of a plain numeral, read by [Decimal]. *)
Lemma parse_plain (w f : list Z) :
  w <> [] -> Forall (fun c => 48 <= c <= 57) w -> Forall (fun c => 48 <= c <= 57) f ->
  (List.length w + List.length f <= 200)%nat ->
  parse_decimal (w ++ match f with [] => [] | _ => 46 :: f end) =
  Some (DFinite (digits_value (w ++ f)) (- Z.of_nat (List.length f))).
Proof.
  intros Hne Hw Hf Hlen. unfold parse_decimal.
  set (l := (w ++ _)%list). assert (Forall plain_byte l) as Hl.
  { apply Forall_app. split; [eapply Forall_impl; [exact Hw|]; by left|].
    destruct f; constructor; [by right|]. eapply Forall_impl; [exact Hf|]. by left. }
  assert (0 <= digits_value (w ++ f) < 10 ^ 200) as Hv.
  { unfold digits_value. pose proof (of_digits_bound 10 ltac:(lia) (map (fun c => c - 48) (w ++ f))) as H.
    destruct H as [H0 H1].
    { apply Forall_fmap. apply Forall_app. split; (eapply Forall_impl; [eassumption|]); unfold is_digit; cbn; lia. }
    split; [done|]. eapply Z.lt_le_trans; [exact H1|]. apply Z.pow_le_mono_r; [lia|].
    rewrite length_map, length_app. lia. }
  assert (span_cp l = (w, match f with [] => [] | _ => 46 :: f end)) as Hs.
  { apply span_cp_digits; [done|]. by destruct f. }
  destruct w as [|c w]; [done|]. apply Forall_cons in Hw as [Hc Hw].
  assert (l = c :: (w ++ match f with [] => [] | _ => 46 :: f end)%list) as El by done. clearbody l. subst l.
  unfold strip_sign. rewrite (proj2 (Z.eqb_neq c 45)), (proj2 (Z.eqb_neq c 43)) by lia.
  rewrite (cp_lower_plain _ Hl).
  assert (forall x k n, 57 < x -> bool_decide (take (S n) (c :: (w ++ match f with [] => [] | _ => 46 :: f end)%list) = x :: k) = false /\
    bool_decide (c :: (w ++ match f with [] => [] | _ => 46 :: f end)%list = x :: k) = false) as Hns.
  { intros x k n Hx. by apply not_special. }
  change (code_points "inf") with [105; 110; 102]. change (code_points "infinity") with [105; 110; 102; 105; 110; 105; 116; 121].
  change (code_points "nan") with [110; 97; 110]. change (code_points "snan") with [115; 110; 97; 110].
  rewrite !(proj2 (Hns 105 _ 0%nat ltac:(lia))), (proj1 (Hns 110 _ _ ltac:(lia))), (proj1 (Hns 115 _ _ ltac:(lia))).
  cbn [orb andb]. rewrite Hs. destruct f as [|x f].
  - rewrite app_nil_r. rewrite app_nil_r in Hv. cbn [app exponent_part List.length]. apply dec_exact_small; [done|lia].
  - cbn [Z.eqb Pos.eqb]. assert (span_cp (x :: f) = (x :: f, [])) as ->.
    { rewrite <- (app_nil_r (x :: f)) at 1. by apply span_cp_digits. }
    cbn [app]. apply dec_exact_small; [done|]. cbn [List.length] in *. lia.
Qed.

(** ** What is charged is what was compared with the budget *)

Lemma decimal_parts_inv text whole fraction :
  decimal_parts (AValue (PStr text)) = Ok (whole, fraction) ->
  whole <> "" /\ char_all is_dec whole = true /\ char_all is_dec fraction = true /\
  chars text = (chars whole ++ match chars fraction with [] => [] | f => "."%char :: f end)%list /\
  py_len text <= 96.
Proof.
  intros H. destruct (decimal_parts_spec _ _ _ H) as [Hw Hf]. unfold decimal_parts in H. cbn [res_bind] in H.
  inv_guards H. bool_to_prop. apply Ok_inj in H. injection H as <- <-.
  unfold MAX_AMOUNT_TEXT_CHARS in *. split_and!; try done.
  - intros E. apply (f_equal chars) in E. rewrite chars_of_chars in E.
    unfold PLAIN_DECIMAL in *. match goal with Hp : partition_dot _ = _ |- _ => rewrite Hp in * end. by subst.
  - rewrite chars_of_chars. unfold PLAIN_DECIMAL in *.
    match goal with Hp : partition_dot _ = _ |- _ => rewrite Hp in * ; unfold partition_dot in Hp;
      destruct (split_at_char "." (chars text)) as [[a b]|] eqn:Es; injection Hp as <- <- end.
    + rewrite chars_of_chars. bool_to_prop. apply split_at_char_spec in Es as ->. by destruct b.
    + cbn [chars]. by rewrite app_nil_r.
Qed.

Lemma digits_value_bytes s : digits_value (bytes_of s) = dec_value s.
Proof.
  unfold digits_value, dec_value, bytes_of. by rewrite <- (list_fmap_compose byte_of (fun c => c - 48)).
Qed.

Lemma dec_bytes s : char_all is_dec s = true -> Forall (fun c => 48 <= c <= 57) (bytes_of s).
Proof.
  intros H%forallb_Forall. apply Forall_fmap. eapply Forall_impl; [exact H|]. intros c. apply is_dec_byte.
Qed.

(** The text of an amount, read by [Decimal]. *)
Lemma read_parts text whole fraction :
  decimal_parts (AValue (PStr text)) = Ok (whole, fraction) ->
  Decimal (PStr text) = Ok (DFinite (dec_value whole * 10 ^ Z.of_nat (String.length fraction) + dec_value fraction)
    (- Z.of_nat (String.length fraction))).
Proof.
  intros H. destruct (decimal_parts_inv _ _ _ H) as (Hne & Hw & Hf & Et & Hlen).
  assert (bytes_of text = (bytes_of whole ++ match bytes_of fraction with [] => [] | _ => 46 :: bytes_of fraction end)%list) as Eb.
  { unfold bytes_of. rewrite Et, fmap_app. f_equal. unfold bytes_of. by destruct (chars fraction). }
  pose proof (dec_bytes _ Hw) as Bw. pose proof (dec_bytes _ Hf) as Bf.
  assert (Forall plain_byte (bytes_of text)) as Hp.
  { rewrite Eb. apply Forall_app. split; [eapply Forall_impl; [exact Bw|]; by left|].
    destruct Bf; constructor; [by right|]. constructor; [by left|]. eapply Forall_impl; [eassumption|]. by left. }
  assert (List.length (bytes_of fraction) = String.length fraction) as El.
  { unfold bytes_of. by rewrite length_fmap, str_length_chars. }
  assert (List.length (bytes_of whole) + List.length (bytes_of fraction) <= 200)%nat as H200.
  { rewrite py_len_ascii in Hlen.
    - unfold bytes_len in Hlen. rewrite str_length_chars in Hlen. apply (f_equal List.length) in Eb.
      unfold bytes_of at 1 in Eb. rewrite length_fmap, length_app in Eb.
      destruct (bytes_of fraction); cbn [List.length] in *; lia.
    - eapply Forall_impl; [exact Hp|]. unfold plain_byte. lia. }
  cbn [Decimal]. unfold dec_of_str. rewrite (numeric_ascii_plain _ Hp), Eb.
  rewrite parse_plain; [|by destruct whole|done..].
  do 2 f_equal; [|by rewrite El].
  rewrite <- bytes_of_app, digits_value_bytes, dec_value_app by done. done.
Qed.

Lemma same_number_scale n m a b : n * 10 ^ Z.of_nat a = m * 10 ^ Z.of_nat b ->
  same_number (DFinite m (- Z.of_nat a)) (DFinite n (- Z.of_nat b)).
Proof.
  intros E. assert (scaled m (- Z.of_nat a) (- Z.of_nat b) = scaled n (- Z.of_nat b) (- Z.of_nat a)) as Es.
  { unfold scaled. rewrite (Z.min_comm (- Z.of_nat b)). set (k := Z.min _ _).
    assert (0 < 10 ^ (- k)) by (apply Z.pow_pos_nonneg; lia).
    assert (m * 10 ^ (- Z.of_nat a - k) * 10 ^ Z.of_nat a * 10 ^ Z.of_nat b =
            n * 10 ^ (- Z.of_nat b - k) * 10 ^ Z.of_nat a * 10 ^ Z.of_nat b) as E'.
    { rewrite <- (Z.mul_assoc m), <- Z.pow_add_r by lia.
      rewrite <- (Z.mul_assoc (n * _)), (Z.mul_comm (10 ^ Z.of_nat a) (10 ^ Z.of_nat b)), (Z.mul_assoc (n * _)),
        <- (Z.mul_assoc n), <- Z.pow_add_r by lia.
      replace (- Z.of_nat a - k + Z.of_nat a) with (- k) by lia. replace (- Z.of_nat b - k + Z.of_nat b) with (- k) by lia.
      nia. }
    apply Z.mul_reg_r in E'; [|apply Z.pow_nonzero; lia]. by apply Z.mul_reg_r in E'; [|apply Z.pow_nonzero; lia]. }
  split; eexists _, _, _, _; (split; [reflexivity|]); (split; [reflexivity|]); lia.
Qed.

(** The amount that is charged is the number that [Decimal] reads. *)
Lemma amounts_agree v currency pos n decimals :
  decimal_to_minor (AValue v) currency pos = Ok n -> ASSET_DECIMALS currency = Some decimals ->
  exists d, Decimal v = Ok d /\ same_number d (DFinite n (- Z.of_nat decimals)).
Proof.
  intros H Hd. destruct (decimal_to_minor_exact _ _ _ _ H) as (k & whole & fraction & Hk & Hp & Hn & _).
  rewrite Hd in Hk. injection Hk as <-. pose proof Hp as Hp'. unfold decimal_parts in Hp'.
  apply res_bind_Ok in Hp' as (text & Ht & _). destruct v as [| | | |s| | |]; try done. clear Ht text.
  eexists. split; [by apply read_parts|]. by apply same_number_scale.
Qed.
End Reading.
