(* ===== verification/Listing.v ===== *)
(** * Seller-signed listings ([nth_dao/commerce/listing.py])

    A listing is signed by its seller and stored under the digest of its
    content. *)

From Stdlib Require Import ZArith Lia Ascii String.
From stdpp Require Import base list strings gmap.
From S2P Require Import Prelude PyStr PyValue CanonicalJson B64u DidKey Sha256 Money Identity Store PyOps Projection Mandate.

Local Open Scope string_scope.
Local Open Scope Z_scope.

Definition NTH_COMMERCE_LISTING_KIND : string := "nth-commerce-listing-v1".
Definition LISTING_TYPES : list string := ["product"; "service"].
Definition MAX_DETAILS_BYTES : Z := 32768.

(** [_METHOD.fullmatch] and [_DIGEST.fullmatch] *)
Definition listing_method (v : pyval) : bool := match v with PStr s => settlement_token s | _ => false end.
Definition sha256_ref (s : string) : bool := startswith "sha256:" s && hex_digest 64 (str_drop 7 s).

(** [decimal_to_minor] of unchecked values, with [require_positive=True] *)
Definition to_minor (value currency : pyval) : res Z :=
  match currency with
  | PStr c => decimal_to_minor (AValue value) c true
  | _ => if hashable currency then Err MoneyRejected else Err TypeError
  end.

(** ** Listings *)

(** [SignedListing]; the fields are what the document holds until
    [_validate_shape] has checked them. *)
Record SignedListing := {
  listing_id : pyval;
  listing_type : pyval;
  seller_did : pyval;
  title : pyval;
  description : pyval;
  price_value : pyval;
  price_currency : pyval;
  settlement_methods : pyval;
  details : pyval;
  published_at_ms : pyval;
  not_after_ms : pyval;
  listing_kind : pyval;
  seller_sig : pyval
}.

Definition LISTING_FIELDS : list string :=
  ["listing_id"; "listing_type"; "seller_did"; "title"; "description"; "price_value"; "price_currency";
   "settlement_methods"; "details"; "published_at_ms"; "not_after_ms"; "kind"; "seller_sig"].

(** [SignedListing.to_dict] *)
Definition listing_to_dict (l : SignedListing) : list (string * pyval) :=
  [("listing_id", l.(listing_id)); ("listing_type", l.(listing_type)); ("seller_did", l.(seller_did));
   ("title", l.(title)); ("description", l.(description)); ("price_value", l.(price_value));
   ("price_currency", l.(price_currency)); ("settlement_methods", l.(settlement_methods));
   ("details", l.(details)); ("published_at_ms", l.(published_at_ms)); ("not_after_ms", l.(not_after_ms));
   ("kind", l.(listing_kind)); ("seller_sig", l.(seller_sig))].

(** [SignedListing.signing_body] *)
Definition listing_signing_body (l : SignedListing) : pyval := signing_body "seller_sig" (listing_to_dict l).

(** [SignedListing.from_dict] *)
Definition listing_from_dict (data : pyval) : res SignedListing :=
  match data with
  | PDict d =>
    if negb (same_keys LISTING_FIELDS d) then Err ListingRejected else
    let g k := get_or_none k d in
    Ok {| listing_id := g "listing_id"; listing_type := g "listing_type"; seller_did := g "seller_did";
          title := g "title"; description := g "description"; price_value := g "price_value";
          price_currency := g "price_currency"; settlement_methods := g "settlement_methods";
          details := g "details"; published_at_ms := g "published_at_ms"; not_after_ms := g "not_after_ms";
          listing_kind := g "kind"; seller_sig := g "seller_sig" |}
  | _ => Err ListingRejected
  end.

(** A [str] with a length between two bounds. *)
Definition text_between (lo hi : Z) (v : pyval) : bool :=
  match v with PStr s => len_between lo hi s | _ => false end.

(** [except (TypeError, ValueError, ...): return False] around a test. *)
Definition check_encoding (v : pyval) (limit : Z) (reason : string) : res unit :=
  match canonical_json v with
  | Ok b => check (bytes_len b <=? limit) reason
  | Err e => if is_TypeOrValueError e then reject reason else Err e
  end.

(** The text of a value that is a [str]. *)
Definition text_value (v : pyval) : string := match v with PStr s => s | _ => "" end.

(** The checks on the settlement methods: a list of one to sixteen distinct
    tokens. *)
Definition methods_ok (v : pyval) : bool :=
  match v with
  | PList ((_ :: _) as l) =>
    Nat.leb (List.length l) 16 && forallb listing_method l && bool_decide (NoDup (map text_value l))
  | _ => false
  end.

(** The two timestamps. *)
Definition window_ok (published not_after : pyval) : bool :=
  match published, not_after with
  | PInt p, PInt n => (0 <? p) && (p <? n)
  | _, _ => false
  end.

Section Listing.
Context `{Ed : Ed25519}.

(** [_validate_shape] *)
Definition validate_shape (l : SignedListing) : res verdict :=
  run_body (
    let* _ := check (py_eqb l.(listing_kind) (PStr NTH_COMMERCE_LISTING_KIND)) "wrong listing kind" in
    let* _ := check (text_between 1 128 l.(listing_id)) "invalid listing_id" in
    let* known := in_strings l.(listing_type) LISTING_TYPES in
    let* _ := check known "invalid listing_type" in
    let* _ := check (text_between 1 200 l.(title)) "invalid title" in
    let* _ := check (text_between 0 4000 l.(description)) "invalid description" in
    let* _ := check (is_did_key l.(seller_did)) "invalid seller_did" in
    let* _ := check (window_ok l.(published_at_ms) l.(not_after_ms)) "invalid published_at_ms or not_after_ms" in
    let* _ := match to_minor l.(price_value) l.(price_currency) with
              | Ok _ => Ok tt
              | Err e => if is_ValueError e then reject "invalid price" else Err e
              end in
    let* _ := check (methods_ok l.(settlement_methods)) "invalid settlement_methods" in
    let* _ := check (is_dict l.(details)) "details must be an object" in
    let* _ := check_encoding l.(details) MAX_DETAILS_BYTES "details too large or not canonical JSON" in
    Ok (true, "ok")).

(** The signature checks that listings and orders share: a text of at most 128
    characters that is the one encoding of a signature of the body. *)
Definition detached_signature (did : string) (sig : pyval) (body : pyval) : bool :=
  match sig with
  | PStr s =>
    (1 <=? py_len s) && (py_len s <=? 128) &&
    match (let* key_hex := decode_ed25519_did_key_hex did in
           let* signature := b64u_decode s in
           let* pubkey := fromhex key_hex in
           let* bytes := canonical_json body in
           Ok ((bytes_len signature =? 64) && String.eqb (b64u_encode signature) s && ed_verify pubkey bytes signature)) with
    | Ok b => b
    | Err _ => false
    end
  | _ => false
  end.

(** [sign_listing] *)
Definition sign_listing (identity : AgentIdentity) (l : SignedListing) : res SignedListing :=
  let* did := as_did identity in
  if negb (py_eqb (PStr did) l.(seller_did)) then Err ListingRejected else
  let* (ok, _) := validate_shape l in
  if negb ok then Err ListingRejected else
  let* body := canonical_json (listing_signing_body l) in
  let* raw := sign identity body in
  Ok {| listing_id := l.(listing_id); listing_type := l.(listing_type); seller_did := l.(seller_did);
        title := l.(title); description := l.(description); price_value := l.(price_value);
        price_currency := l.(price_currency); settlement_methods := l.(settlement_methods);
        details := l.(details); published_at_ms := l.(published_at_ms); not_after_ms := l.(not_after_ms);
        listing_kind := l.(listing_kind); seller_sig := PStr (b64u_encode raw) |}.

(** [verify_listing] *)
Definition verify_listing (l : SignedListing) : res verdict :=
  let* (ok, reason) := validate_shape l in
  if negb ok then Ok (false, reason) else
  if negb nacl_available then Ok (false, "crypto unavailable") else
  if detached_signature (text_value l.(seller_did)) l.(seller_sig) (listing_signing_body l) then Ok (true, "ok")
  else Ok (false, "seller signature invalid").

(** [listing_digest] *)
Definition listing_digest (l : SignedListing) : res string :=
  let* body := canonical_json (PDict (listing_to_dict l)) in Ok ("sha256:" ++ sha256_hex body).

(** ** The store *)

(** [ListingStore._path] *)
Definition listing_path (digest : string) : res string :=
  if sha256_ref digest then Ok (str_drop 7 digest ++ ".json") else Err ListingRejected.

(** [ListingStore.save] *)
Definition listing_save (l : SignedListing) (fs : files) : files * res string :=
  match (let* (ok, _) := verify_listing l in
         if negb ok then Err ListingRejected else
         let* digest := listing_digest l in
         let* path := listing_path digest in
         Ok (digest, path)) with
  | Err e => (fs, Err e)
  | Ok (digest, path) =>
    let document := PDict (listing_to_dict l) in
    match safe_load_json fs path with
    | None => if file_exists fs path then (fs, Err ListingRejected)
              else (atomic_write_json fs path document, Ok digest)
    | Some existing => (fs, if py_eqb existing document then Ok digest else Err ListingRejected)
    end
  end.

(** [ListingStore.get] *)
Definition listing_get (digest : string) (fs : files) : res (option SignedListing) :=
  let* path := listing_path digest in
  match safe_load_json fs path with
  | Some (PDict data) =>
    match listing_from_dict (PDict data) with
    | Err _ => Ok None
    | Ok l =>
      let* (ok, _) := verify_listing l in
      if negb ok then Ok None else
      let* d := listing_digest l in
      Ok (if String.eqb d digest then Some l else None)
    end
  | _ => Ok None
  end.
End Listing.
