(* ===== verification/Order.v ===== *)
(** * Orders ([nth_dao/commerce/order.py], [checkout.py])

    An order is one event, signed by the buyer, that carries the whole
    authorization it stands on: the signed listing and the three mandates.
    [verify_order] rebuilds the chain of authority from that evidence, and
    [create_order_from_mandates] turns an authorised purchase into an order, at
    most one per payment mandate. *)

From Stdlib Require Import ZArith Lia Ascii String.
From stdpp Require Import base list strings gmap.
From S2P Require Import Prelude PyStr PyValue PyDecimal PyDate CanonicalJson B64u DidKey Sha256 Money Identity Store PyOps Projection Mandate Listing.

Local Open Scope string_scope.
Local Open Scope Z_scope.

Definition NTH_ORDER_EVENT_KIND : string := "nth-order-event-v1".
Definition EVENT_ORDER_CREATED : string := "order_created".
Definition STATE_CREATED : string := "created".
Definition MAX_ORDER_PAYLOAD_BYTES : Z := 128 * 1024.
Definition MAX_ORDER_EVENT_BYTES : Z := 160 * 1024.
Definition ORDER_EVENT_FIELDS : list string :=
  ["order_id"; "seq"; "type"; "actor_did"; "prev_state"; "new_state"; "payload"; "created_at_ms"; "kind"; "event_sig"].
Definition ORDER_PAYLOAD_FIELDS : list string :=
  ["schema_version"; "listing_id"; "listing_digest"; "listing_type"; "buyer_did"; "buyer_agent_did"; "seller_did";
   "intent_mandate_digest"; "cart_mandate_digest"; "payment_mandate_digest"; "payment_id"; "items"; "amount_minor";
   "currency"; "settlement_method"; "authorization_snapshot"].
Definition AUTHORIZATION_SNAPSHOT_FIELDS : list string := ["listing"; "intent"; "cart"; "payment"].
Definition REQUIRED_STRINGS : list string :=
  ["listing_id"; "listing_digest"; "listing_type"; "buyer_did"; "buyer_agent_did"; "seller_did";
   "intent_mandate_digest"; "cart_mandate_digest"; "payment_mandate_digest"; "payment_id"; "currency";
   "settlement_method"].
Definition ORDER_ID_PREFIX : string := "nth-order-sha256:".

(** ** Events *)

(** [OrderEvent] *)
Record OrderEvent := {
  order_id : pyval;
  seq : pyval;
  type : pyval;
  actor_did : pyval;
  prev_state : pyval;
  new_state : pyval;
  payload : pyval;
  created_at_ms : pyval;
  kind : pyval;
  event_sig : pyval
}.

(** [OrderEvent.to_dict] *)
Definition to_dict (e : OrderEvent) : list (string * pyval) :=
  [("order_id", e.(order_id)); ("seq", e.(seq)); ("type", e.(type)); ("actor_did", e.(actor_did));
   ("prev_state", e.(prev_state)); ("new_state", e.(new_state)); ("payload", e.(payload));
   ("created_at_ms", e.(created_at_ms)); ("kind", e.(kind)); ("event_sig", e.(event_sig))].

(** [OrderEvent.signing_body] *)
Definition order_signing_body (e : OrderEvent) : pyval := signing_body "event_sig" (to_dict e).

(** [OrderEvent.from_dict], on a dictionary with all ten fields *)
Definition from_dict (d : list (string * pyval)) : OrderEvent := {|
  order_id := get_or_none "order_id" d; seq := get_or_none "seq" d; type := get_or_none "type" d;
  actor_did := get_or_none "actor_did" d; prev_state := get_or_none "prev_state" d;
  new_state := get_or_none "new_state" d; payload := get_or_none "payload" d;
  created_at_ms := get_or_none "created_at_ms" d; kind := get_or_none "kind" d;
  event_sig := get_or_none "event_sig" d |}.

(** [order_id_for_payment] *)
Definition order_id_for_payment (payment_digest : pyval) : res string :=
  match payment_digest with
  | PStr s => if hex_digest 64 s then Ok (ORDER_ID_PREFIX ++ s) else Err OrderRejected
  | _ => Err OrderRejected
  end.

Section Order.
Context `{Ed : Ed25519} `{D : IsoDates} `{U : UnicodeDigits}.

(** [sign_order_event] *)
Definition sign_order_event (actor : AgentIdentity) (e : OrderEvent) : res OrderEvent :=
  let* did := as_did actor in
  if negb (py_eqb (PStr did) e.(actor_did)) then Err OrderRejected else
  let* body := canonical_json (order_signing_body e) in
  let* raw := sign actor body in
  Ok {| order_id := e.(order_id); seq := e.(seq); type := e.(type); actor_did := e.(actor_did);
        prev_state := e.(prev_state); new_state := e.(new_state); payload := e.(payload);
        created_at_ms := e.(created_at_ms); kind := e.(kind); event_sig := PStr (b64u_encode raw) |}.

(** [verify_order_event] *)
Definition verify_order_event (e : OrderEvent) : verdict :=
  if negb (py_eqb e.(kind) (PStr NTH_ORDER_EVENT_KIND)) then (false, "wrong event kind") else
  if negb (is_did_key e.(actor_did)) then (false, "invalid actor DID") else
  if negb nacl_available then (false, "crypto unavailable") else
  if detached_signature (text_value e.(actor_did)) e.(event_sig) (order_signing_body e) then (true, "ok")
  else (false, "event signature invalid").

(** ** The evidence *)

(** [payload.get(key) != expected] *)
Definition matches (key : string) (expected : pyval) (payload : list (string * pyval)) : res unit :=
  check (py_eqb (get_or_none key payload) expected) "authorization snapshot mismatch".

(** [len(v) == 1] of a list of one dictionary *)
Definition single_item (v : pyval) : option (list (string * pyval)) :=
  match v with PList [PDict item] => Some item | _ => None end.

Definition subject_of (m : list (string * pyval)) : res (list (string * pyval)) :=
  match get_or_none "credentialSubject" m with
  | PDict s => Ok s
  | _ => reject "authorization credentialSubject malformed"
  end.

(** [except ValueError: return False] *)
Definition amount_or_reject (value currency : pyval) : res Z :=
  match to_minor value currency with
  | Ok n => Ok n
  | Err e => if is_ValueError e then reject "authorization amount invalid" else Err e
  end.

(** The last part of [_validate_authorization_snapshot]: times, amounts and
    rail against the listing. *)
Definition check_listing_terms (created : Z) (l : SignedListing) (payload cart_subject : list (string * pyval)) : res unit :=
  let* _ := match l.(published_at_ms), l.(not_after_ms) with
            | PInt p, PInt n => check ((p <=? created) && (created <? n)) "authorization listing was not active"
            | _, _ => Err TypeError
            end in
  match get_or_none "total" cart_subject with
  | PDict total =>
    let* amount := amount_or_reject (get_or_none "value" total) (get_or_none "currency" total) in
    let* listed := amount_or_reject l.(price_value) l.(price_currency) in
    let* _ := check (py_eqb (get_or_none "amount_minor" payload) (PInt amount) && (amount =? listed) &&
                     py_eqb (get_or_none "currency" payload) (get_or_none "currency" total) &&
                     py_eqb (get_or_none "currency" payload) l.(price_currency))
                "authorization amount does not match listing and cart" in
    let* accepted := py_in (get_or_none "settlement_method" payload) l.(settlement_methods) in
    check accepted "authorization settlement method not accepted by listing"
  | _ => reject "authorization cart total malformed"
  end.

(** The comparisons of the payload with the evidence. *)
Definition check_bindings (l : SignedListing) (payload intent cart payment : list (string * pyval)) : res unit :=
  let* intent_subject := subject_of intent in
  let* cart_subject := subject_of cart in
  let* payment_subject := subject_of payment in
  let* intent_digest := mandate_digest intent in
  let* cart_digest := mandate_digest cart in
  let* payment_digest := mandate_digest payment in
  let* _ := matches "intent_mandate_digest" (PStr intent_digest) payload in
  let* _ := matches "cart_mandate_digest" (PStr cart_digest) payload in
  let* _ := matches "payment_mandate_digest" (PStr payment_digest) payload in
  let* digest := listing_digest l in
  let* _ := matches "listing_id" l.(listing_id) payload in
  let* _ := matches "listing_digest" (PStr digest) payload in
  let* _ := matches "listing_type" l.(listing_type) payload in
  let* _ := matches "buyer_did" (get_or_none "issuer" intent) payload in
  let* _ := matches "buyer_agent_did" (get_or_none "id" intent_subject) payload in
  let* _ := matches "seller_did" (get_or_none "issuer" cart) payload in
  let* _ := matches "payment_id" (get_or_none "payment_id" payment_subject) payload in
  let* _ := matches "items" (get_or_none "items" cart_subject) payload in
  let* _ := matches "settlement_method" (get_or_none "settlement_choice" payment_subject) payload in
  let* _ := check (py_eqb l.(seller_did) (get_or_none "seller_did" payload)) "authorization listing seller mismatch" in
  check (py_eqb (get_or_none "id" payment_subject) (get_or_none "seller_did" payload))
    "authorization payment counterparty mismatch".

(** [_validate_authorization_snapshot]; [created] is the time of the event *)
Definition validate_authorization_snapshot (created : Z) (payload : list (string * pyval)) : res unit :=
  match get_or_none "authorization_snapshot" payload with
  | PDict snapshot =>
    let* _ := check (same_keys AUTHORIZATION_SNAPSHOT_FIELDS snapshot) "authorization snapshot has missing or unknown fields" in
    match get_or_none "listing" snapshot, get_or_none "intent" snapshot, get_or_none "cart" snapshot,
          get_or_none "payment" snapshot with
    | PDict listing, PDict intent, PDict cart, PDict payment =>
      match listing_from_dict (PDict listing) with
      | Err _ => reject "authorization listing malformed"
      | Ok l =>
        let* (ok, _) := verify_listing l in
        let* _ := check ok "authorization listing invalid" in
        let* created_at := fromtimestamp_ms created in
        let* (ok, _) := complete_triad_chain created_at (PDict intent) (PDict cart) (PDict payment) in
        let* _ := check ok "authorization mandate triad invalid" in
        let* _ := check_bindings l payload intent cart payment in
        let* cart_subject := subject_of cart in
        check_listing_terms created l payload cart_subject
      end
    | _, _, _, _ => reject "authorization snapshot entries must be objects"
    end
  | _ => reject "authorization snapshot has missing or unknown fields"
  end.

(** The item is the listing, once. *)
Definition item_bound (payload item : list (string * pyval)) : bool :=
  py_eqb (get_or_none "listing_id" item) (get_or_none "listing_id" payload) &&
  py_eqb (get_or_none "listing_digest" item) (get_or_none "listing_digest" payload) &&
  match get_or_none "quantity" item with PInt q => q =? 1 | _ => false end.

(** [_validate_created_payload] *)
Definition validate_created_payload (created : Z) (e : OrderEvent) : res unit :=
  match e.(payload) with
  | PDict p =>
    let g k := get_or_none k p in
    let text k := text_value (g k) in
    let* _ := check (py_eqb (g "schema_version") (PInt 1)) "invalid order payload version" in
    let* _ := check (same_keys ORDER_PAYLOAD_FIELDS p) "order payload has missing or unknown fields" in
    let* _ := check (texts_present REQUIRED_STRINGS p) "order payload missing required string" in
    let* _ := check (py_eqb e.(actor_did) (g "buyer_did")) "order actor is not buyer" in
    let* _ := check (is_did_key (g "buyer_did") && is_did_key (g "buyer_agent_did") && is_did_key (g "seller_did"))
                "order payload contains invalid DID" in
    let* _ := check (value_in (g "listing_type") LISTING_TYPES) "invalid listing_type" in
    let* _ := check (sha256_ref (text "listing_digest")) "invalid listing_digest" in
    let* _ := check (hex_digest 64 (text "intent_mandate_digest") && hex_digest 64 (text "cart_mandate_digest") &&
                     hex_digest 64 (text "payment_mandate_digest")) "invalid mandate digest" in
    let* _ := check (match ASSET_DECIMALS (text "currency") with Some _ => true | None => false end)
                "unsupported order currency" in
    let* _ := check (settlement_token (text "settlement_method")) "invalid settlement_method" in
    let* id := order_id_for_payment (g "payment_mandate_digest") in
    let* _ := check (py_eqb e.(order_id) (PStr id)) "order_id is not bound to payment mandate" in
    let* _ := check (match g "amount_minor" with PInt n => (0 <? n) && (n <=? MAX_MINOR_AMOUNT) | _ => false end)
                "invalid amount_minor" in
    match single_item (g "items") with
    | None => reject "order v1 requires exactly one item"
    | Some item =>
      let* _ := check (item_bound p item) "order item is not bound to listing" in
      let* _ := check_encoding (PDict p) MAX_ORDER_PAYLOAD_BYTES "order payload too large or not canonical JSON" in
      validate_authorization_snapshot created p
    end
  | _ => reject "invalid order payload version"
  end.

(** [verify_order] *)
Definition verify_order (events : pyval) : res verdict :=
  run_body (
    match events with
    | PList [PDict d] =>
      let* _ := check (same_keys ORDER_EVENT_FIELDS d) "order event has missing or unknown fields" in
      let* _ := check_encoding (PDict d) MAX_ORDER_EVENT_BYTES "order event exceeds the budget or is not canonical JSON" in
      let e := from_dict d in
      let* _ := check (py_eqb e.(seq) (PInt 0) && py_eqb e.(type) (PStr EVENT_ORDER_CREATED)) "invalid creation event" in
      let* _ := check (py_eqb e.(prev_state) (PStr "") && py_eqb e.(new_state) (PStr STATE_CREATED))
                  "invalid order state transition" in
      match e.(created_at_ms) with
      | PInt created =>
        let* _ := check (0 <? created) "invalid creation time" in
        let* _ := validate_created_payload created e in
        Ok (verify_order_event e)
      | _ => reject "invalid creation time"
      end
    | _ => reject "order must contain exactly one creation event"
    end).

(** ** The store *)

(** [OrderStore._path] *)
Definition order_path (id : pyval) : res string :=
  match id with
  | PStr s =>
    if startswith ORDER_ID_PREFIX s && hex_digest 64 (str_drop (String.length ORDER_ID_PREFIX) s)
    then Ok (str_drop (String.length ORDER_ID_PREFIX) s ++ ".json") else Err OrderRejected
  | _ => Err OrderRejected
  end.

(** [OrderStore.get_events] *)
Definition get_events (fs : files) (id : pyval) : res (option pyval) :=
  let* path := order_path id in
  Ok (match safe_load_json fs path with
      | None => None
      | Some (PDict d) => match dict_get "events" d with Some (PList l) => Some (PList l) | _ => Some (PList []) end
      | Some _ => Some (PList [])
      end).

(** The event of a verified order. *)
Definition first_event (events : pyval) : OrderEvent :=
  match events with PList (PDict d :: _) => from_dict d | _ => from_dict [] end.

(** [OrderStore.get] *)
Definition get_order (fs : files) (id : pyval) : res (option OrderEvent) :=
  let* events := get_events fs id in
  match events with
  | None => Ok None
  | Some events =>
    if negb (truthy events) then Ok None else
    let* (ok, _) := verify_order events in
    Ok (if ok then Some (first_event events) else None)
  end.

(** [OrderStore.list_verified]; [stems] are the names of the files, the latest
    first *)
Fixpoint list_orders (fs : files) (limit : nat) (stems : list string) : res (list OrderEvent) :=
  match limit, stems with
  | O, _ | _, [] => Ok []
  | S n, stem :: stems =>
    if negb (hex_digest 64 stem) then list_orders fs limit stems else
    let* event := get_order fs (PStr (ORDER_ID_PREFIX ++ stem)) in
    match event with
    | None => list_orders fs limit stems
    | Some e => let* rest := list_orders fs n stems in Ok (e :: rest)
    end
  end.
Definition list_verified (fs : files) (limit : pyval) (stems : list string) : res (list OrderEvent) :=
  match limit with
  | PInt n => if (1 <=? n) && (n <=? 10000) then list_orders fs (Z.to_nat n) stems else Err OrderRejected
  | _ => Err OrderRejected
  end.

Definition order_file (id : pyval) (e : OrderEvent) : pyval :=
  PDict [("order_id", id); ("events", PList [PDict (to_dict e)])].

(** [OrderStore.validate_import] *)
Definition validate_import (fs : files) (e : OrderEvent) : res (option OrderEvent) :=
  let* path := order_path e.(order_id) in
  let document := PDict (to_dict e) in
  let* (ok, _) := verify_order (PList [document]) in
  if negb ok then Err OrderRejected else
  let* existing := get_events fs e.(order_id) in
  match existing with
  | None => if file_exists fs path then Err OrderConflict else Ok None
  | Some existing =>
    let* (ok, _) := verify_order existing in
    if negb ok then Err OrderConflict else
    if negb (py_eqb existing (PList [document])) then Err OrderConflict else
    Ok (Some (first_event existing))
  end.

(** [OrderStore.import_verified] *)
Definition import_verified (fs : files) (e : OrderEvent) : res (files * OrderEvent) :=
  let* path := order_path e.(order_id) in
  let* existing := validate_import fs e in
  match existing with
  | Some stored => Ok (fs, stored)
  | None => Ok (atomic_write_json fs path (order_file e.(order_id) e), e)
  end.

(** ** Creating orders *)

(** [create_order]; [created] is the given or current time *)
Definition create_order (fs : files) (authority : AgentIdentity) (payment_digest : pyval)
    (payload : list (string * pyval)) (created : Z) : res (files * OrderEvent) :=
  let* id := order_id_for_payment payment_digest in
  if negb (py_eqb (get_or_none "payment_mandate_digest" payload) payment_digest) then Err OrderRejected else
  let* did := as_did authority in
  if negb (py_eqb (PStr did) (get_or_none "buyer_did" payload)) then Err OrderRejected else
  let* path := order_path (PStr id) in
  let* existing := get_events fs (PStr id) in
  match existing with
  | Some existing =>
    let* (ok, _) := verify_order existing in
    if negb ok then Err OrderConflict else
    let event := first_event existing in
    if negb (py_eqb event.(Order.payload) (PDict payload)) then Err OrderConflict else Ok (fs, event)
  | None =>
    if file_exists fs path then Err OrderConflict else
    let* event := sign_order_event authority {|
      order_id := PStr id; seq := PInt 0; type := PStr EVENT_ORDER_CREATED; actor_did := PStr did;
      prev_state := PStr ""; new_state := PStr STATE_CREATED; Order.payload := PDict payload;
      created_at_ms := PInt created; kind := PStr NTH_ORDER_EVENT_KIND; event_sig := PStr "" |} in
    let* (ok, _) := verify_order (PList [PDict (to_dict event)]) in
    if negb ok then Err OrderRejected else
    Ok (atomic_write_json fs path (order_file (PStr id) event), event)
  end.

(** ** Checkout *)

Definition require_checkout (c : bool) : res unit := if c then Ok tt else Err CheckoutRejected.

(** [_subject] *)
Definition checkout_subject (m : list (string * pyval)) : res (list (string * pyval)) :=
  match get_or_none "credentialSubject" m with PDict s => Ok s | _ => Err CheckoutRejected end.

(** [except ValueError: raise CheckoutRejected] *)
Definition amount_or_checkout (value currency : pyval) : res Z :=
  try_except (to_minor value currency) is_ValueError (fun _ => Err CheckoutRejected).

(** The payload that [create_order_from_mandates] derives. *)
Definition order_payload `{PyRepr} (l : SignedListing) (intent cart payment : list (string * pyval))
    (intent_subject payment_subject : list (string * pyval)) (digest intent_digest cart_digest payment_digest : string)
    (items currency : pyval) (amount : Z) : list (string * pyval) :=
  [("schema_version", PInt 1); ("listing_id", l.(listing_id)); ("listing_digest", PStr digest);
   ("listing_type", l.(listing_type)); ("buyer_did", get_or_none "issuer" intent);
   ("buyer_agent_did", get_or_none "id" intent_subject); ("seller_did", get_or_none "issuer" cart);
   ("intent_mandate_digest", PStr intent_digest); ("cart_mandate_digest", PStr cart_digest);
   ("payment_mandate_digest", PStr payment_digest);
   ("payment_id", PStr (py_str (get_default "payment_id" (PStr "") payment_subject)));
   ("items", items); ("amount_minor", PInt amount); ("currency", currency);
   ("settlement_method", get_or_none "settlement_choice" payment_subject);
   ("authorization_snapshot", PDict [("listing", PDict (listing_to_dict l)); ("intent", PDict intent);
      ("cart", PDict cart); ("payment", PDict payment)])].

(** [create_order_from_mandates]; [now] is the current time, [later] the time
    when [create_order] reads the clock again *)
Definition create_order_from_mandates `{PyRepr} (fs : files) (authority : AgentIdentity)
    (intent cart payment : list (string * pyval)) (l : SignedListing) (now_ms_override : pyval) (now later : Z)
  : res (files * OrderEvent) :=
  match now_ms_override with
  | PInt override =>
    let* _ := require_checkout (0 <=? override) in
    let effective_now := if override =? 0 then now else override in
    let* authorization_time := fromtimestamp_ms effective_now in
    let* (ok, _) := complete_triad_chain authorization_time (PDict intent) (PDict cart) (PDict payment) in
    let* _ := require_checkout ok in
    let* (ok, _) := verify_listing l in
    let* _ := require_checkout ok in
    let* _ := match l.(published_at_ms), l.(not_after_ms) with
              | PInt p, PInt n => require_checkout ((p <=? effective_now) && (effective_now <? n))
              | _, _ => Err TypeError
              end in
    let* intent_subject := checkout_subject intent in
    let* cart_subject := checkout_subject cart in
    let* payment_subject := checkout_subject payment in
    let* did := as_did authority in
    let* _ := require_checkout (py_eqb (PStr did) (get_or_none "issuer" intent)) in
    let* _ := require_checkout (py_eqb (get_or_none "issuer" cart) l.(seller_did) &&
                                py_eqb (get_or_none "id" payment_subject) l.(seller_did)) in
    let items := get_or_none "items" cart_subject in
    match single_item items with
    | None => Err CheckoutRejected
    | Some item =>
      let* digest := listing_digest l in
      let* _ := require_checkout (py_eqb (get_or_none "listing_digest" item) (PStr digest) &&
                                  py_eqb (get_or_none "listing_id" item) l.(listing_id)) in
      let* _ := require_checkout (match get_or_none "quantity" item with
                                  | PBool _ => false
                                  | q => py_eqb q (PInt 1)
                                  end) in
      match get_or_none "total" cart_subject with
      | PDict total =>
        let currency := get_or_none "currency" total in
        let* amount := amount_or_checkout (get_or_none "value" total) currency in
        let* price := amount_or_checkout l.(price_value) l.(price_currency) in
        let* _ := require_checkout (py_eqb currency l.(price_currency) && (amount =? price)) in
        let* accepted := py_in (get_or_none "settlement_choice" payment_subject) l.(settlement_methods) in
        let* _ := require_checkout accepted in
        let* intent_digest := mandate_digest intent in
        let* cart_digest := mandate_digest cart in
        let* payment_digest := mandate_digest payment in
        create_order fs authority (PStr payment_digest)
          (order_payload l intent cart payment intent_subject payment_subject digest intent_digest cart_digest
             payment_digest items currency amount)
          (if override =? 0 then later else override)
      | _ => Err CheckoutRejected
      end
    end
  | _ => Err CheckoutRejected
  end.
End Order.
