(* ===== verification/OrderSpec.v ===== *)
(** * What orders promise

    A verified order is an authorised purchase: the evidence it carries shows
    that buyer and seller signed for exactly the amount it charges.  A payment
    mandate buys at most once, whatever else happens to the store. *)

From Stdlib Require Import ZArith Lia Ascii String.
From stdpp Require Import base list strings gmap.
From S2P Require Import Prelude Digits PyStr PyValue Json PyDecimal PyDate JsonAscii CanonicalJson B64u DidKey Sha256 Money Identity Store PyOps Projection Mandate MandateSpec AmountSpec Listing Order.

Local Open Scope string_scope.
Local Open Scope Z_scope.

(** [check_as H C]: the next check of the body [H] succeeded, as [C]. *)
Ltac check_as H C := apply res_bind_Ok in H as ([] & C%check_iff & H).

Section Evidence.
Context `{Ed : Ed25519} `{D : IsoDates} `{U : UnicodeDigits}.

(** ** Signatures *)

(** The holder of the key behind [did] signed [body]. *)
Definition signs (did : string) (sig body : pyval) : Prop :=
  exists s raw pk bytes, sig = PStr s /\ b64u_decode s = Ok raw /\ b64u_encode raw = s /\ bytes_len raw = 64 /\
    decode_ed25519_did_key did = Ok pk /\ canonical_json body = Ok bytes /\ ed_verify pk bytes raw = true.

Lemma detached_signs did sig body : detached_signature did sig body = true -> signs did sig body.
Proof.
  unfold detached_signature. destruct sig as [| | | |s| | |]; try done. intros [_ H]%andb_true_iff.
  destruct (res_bind (decode_ed25519_did_key_hex did) _) as [b|] eqn:E; [|done]. subst b.
  apply res_bind_Ok in E as (kh & Hk & E). apply res_bind_Ok in E as (raw & Hr & E).
  apply res_bind_Ok in E as (pk & Hp & E). apply res_bind_Ok in E as (bytes & Hb & E).
  apply Ok_inj in E. apply andb_true_iff in E as [[H64 Hs]%andb_true_iff Hv]. bool_to_prop.
  unfold decode_ed25519_did_key_hex in Hk. destruct (decode_ed25519_did_key did) as [pk'|] eqn:Hd; [|done].
  cbn in Hk. apply Ok_inj in Hk as <-. rewrite fromhex_hex in Hp. apply Ok_inj in Hp as ->.
  by exists s, raw, pk, bytes.
Qed.

(** ** Evidence *)

(** What the evidence inside an order proves about it. *)
Record order_evidence (e : OrderEvent) (p : list (string * pyval)) (buyer seller currency : string) (amount : Z)
    (l : SignedListing) (intent cart payment : mandate) : Prop := {
  oe_payload : e.(payload) = PDict p;
  oe_texts : texts_present REQUIRED_STRINGS p = true;
  (** the order holds the evidence *)
  oe_snapshot : exists snapshot listing, get_or_none "authorization_snapshot" p = PDict snapshot /\
    get_or_none "listing" snapshot = PDict listing /\ listing_from_dict (PDict listing) = Ok l /\
    get_or_none "intent" snapshot = PDict intent /\ get_or_none "cart" snapshot = PDict cart /\
    get_or_none "payment" snapshot = PDict payment;
  oe_buyer : get_or_none "buyer_did" p = PStr buyer;
  oe_seller : get_or_none "seller_did" p = PStr seller;
  oe_currency : get_or_none "currency" p = PStr currency;
  oe_amount : get_or_none "amount_minor" p = PInt amount;
  oe_bounds : 0 < amount <= MAX_MINOR_AMOUNT;
  (** the buyer signed the order *)
  oe_signed : e.(actor_did) = PStr buyer /\ signs buyer e.(event_sig) (order_signing_body e);
  (** the order is named after the payment mandate *)
  oe_named : exists h, mandate_digest payment = Ok h /\ e.(order_id) = PStr (ORDER_ID_PREFIX ++ h);
  (** at the time of the order the purchase was authorised and the listing
      active *)
  oe_time : exists created at_ published not_after, e.(created_at_ms) = PInt created /\
    fromtimestamp_ms created = Ok at_ /\ authorised at_ buyer seller intent cart payment /\
    l.(published_at_ms) = PInt published /\ l.(not_after_ms) = PInt not_after /\ published <= created < not_after;
  (** the seller signed the listing, at the price that is charged *)
  oe_listing : l.(seller_did) = PStr seller /\ signs seller l.(seller_sig) (listing_signing_body l) /\
    to_minor l.(price_value) l.(price_currency) = Ok amount /\ l.(price_currency) = PStr currency /\
    exists h, listing_digest l = Ok h /\ get_or_none "listing_digest" p = PStr h;
  (** the seller's cart asks for that price *)
  oe_cart : exists subject total, get_or_none "credentialSubject" cart = PDict subject /\
    get_or_none "total" subject = PDict total /\ get_or_none "currency" total = PStr currency /\
    to_minor (get_or_none "value" total) (PStr currency) = Ok amount
}.

Lemma subject_of_inv m s : subject_of m = Ok s <-> get_or_none "credentialSubject" m = PDict s.
Proof. unfold subject_of, reject. destruct (get_or_none _ m); split; congruence. Qed.

Lemma matches_str k s p u : matches k (PStr s) p = Ok u -> get_or_none k p = PStr s.
Proof. intros H. unfold matches in H. apply check_iff in H. by apply py_eqb_PStr_r. Qed.

Lemma py_eqb_PStr_l v s : py_eqb (PStr s) v = true <-> v = PStr s.
Proof.
  destruct v as [| [] | | f | t | | | ]; simpl; try (split; [discriminate|intros [=]]).
  rewrite String.eqb_eq. split; congruence.
Qed.

(** The bindings the proof needs. *)
Lemma check_bindings_inv l p intent cart payment buyer seller u :
  check_bindings l p intent cart payment = Ok u ->
  get_or_none "issuer" intent = PStr buyer -> get_or_none "issuer" cart = PStr seller ->
  (exists h, mandate_digest payment = Ok h /\ get_or_none "payment_mandate_digest" p = PStr h) /\
  (exists h, listing_digest l = Ok h /\ get_or_none "listing_digest" p = PStr h) /\
  get_or_none "buyer_did" p = PStr buyer /\ get_or_none "seller_did" p = PStr seller /\ l.(seller_did) = PStr seller.
Proof.
  unfold check_bindings. intros H Hi Hc.
  do 3 (apply res_bind_Ok in H as (? & _ & H)). do 2 (apply res_bind_Ok in H as (? & _ & H)).
  apply res_bind_Ok in H as (hp & Hp & H). do 2 (apply res_bind_Ok in H as (? & _ & H)).
  apply res_bind_Ok in H as (? & M1 & H). apply matches_str in M1. apply res_bind_Ok in H as (hl & Hl & H).
  apply res_bind_Ok in H as (? & _ & H). apply res_bind_Ok in H as (? & M2 & H). apply matches_str in M2.
  apply res_bind_Ok in H as (? & _ & H). apply res_bind_Ok in H as (? & M3 & H). rewrite Hi in M3. apply matches_str in M3.
  apply res_bind_Ok in H as (? & _ & H). apply res_bind_Ok in H as (? & M4 & H). rewrite Hc in M4. apply matches_str in M4.
  do 3 (apply res_bind_Ok in H as (? & _ & H)). check_as H C. rewrite M4 in C. apply py_eqb_PStr_r in C.
  split_and!; eauto.
Qed.

Lemma amount_or_reject_Ok v c n : amount_or_reject v c = Ok n -> to_minor v c = Ok n.
Proof. unfold amount_or_reject. destruct (to_minor v c) as [|e]; [done|]. by destruct (is_ValueError e). Qed.

(** The price on the listing is the total of the cart is the amount. *)
Lemma check_listing_terms_inv created l p cs currency u :
  check_listing_terms created l p cs = Ok u -> get_or_none "currency" p = PStr currency ->
  exists published not_after total amount, l.(published_at_ms) = PInt published /\ l.(not_after_ms) = PInt not_after /\
    published <= created < not_after /\ get_or_none "total" cs = PDict total /\
    to_minor (get_or_none "value" total) (PStr currency) = Ok amount /\
    to_minor l.(price_value) l.(price_currency) = Ok amount /\ l.(price_currency) = PStr currency /\
    get_or_none "currency" total = PStr currency /\ py_eqb (get_or_none "amount_minor" p) (PInt amount) = true.
Proof.
  unfold check_listing_terms. intros H Hc. apply res_bind_Ok in H as (v & Hw & H).
  destruct (published_at_ms l) as [| |pub| | | | |]; try done. destruct (not_after_ms l) as [| |na| | | | |]; try done.
  apply check_iff in Hw. destruct (get_or_none "total" cs) as [| | | | | |total|]; try done.
  apply res_bind_Ok in H as (a & Ha%amount_or_reject_Ok & H). apply res_bind_Ok in H as (b & Hb%amount_or_reject_Ok & H).
  check_as H C. bool_to_prop. subst b. rewrite Hc in *.
  repeat match goal with E : py_eqb (PStr _) _ = true |- _ => apply py_eqb_PStr_l in E end.
  match goal with E : get_or_none "currency" total = _ |- _ => rewrite E in Ha end.
  exists pub, na, total, a. by split_and!.
Qed.

Lemma triad_verdict now i c p w :
  complete_triad_chain now (PDict i) (PDict c) (PDict p) = Ok (true, w) -> w = "ok".
Proof.
  cbn [complete_triad_chain]. rewrite run_body_ok. intros H.
  do 11 (apply res_bind_Ok in H as (? & _ & H)). by apply Ok_inj in H as [= <-].
Qed.

Lemma verify_listing_signed l w seller : verify_listing l = Ok (true, w) -> l.(seller_did) = PStr seller ->
  signs seller l.(seller_sig) (listing_signing_body l).
Proof.
  intros H Es. unfold verify_listing in H. apply res_bind_Ok in H as ([ok r] & _ & H). destruct ok; [|done].
  cbn [negb] in H. destruct (negb nacl_available); [done|]. destruct (detached_signature _ _ _) eqn:Hd; [|done].
  apply detached_signs in Hd. by rewrite Es in Hd.
Qed.

(** What [_validate_authorization_snapshot] establishes. *)
Lemma snapshot_inv created p u :
  nacl_available = true -> validate_authorization_snapshot created p = Ok u ->
  exists snapshot l intent cart payment at_ buyer seller cs,
    get_or_none "authorization_snapshot" p = PDict snapshot /\
    fromtimestamp_ms created = Ok at_ /\ authorised at_ buyer seller intent cart payment /\
    signs seller l.(seller_sig) (listing_signing_body l) /\
    check_bindings l p intent cart payment = Ok tt /\
    get_or_none "credentialSubject" cart = PDict cs /\ check_listing_terms created l p cs = Ok tt /\
    (exists listing, get_or_none "listing" snapshot = PDict listing /\ listing_from_dict (PDict listing) = Ok l) /\
    get_or_none "intent" snapshot = PDict intent /\ get_or_none "cart" snapshot = PDict cart /\
    get_or_none "payment" snapshot = PDict payment.
Proof.
  intros Hn H. unfold validate_authorization_snapshot in H.
  destruct (get_or_none "authorization_snapshot" p) as [| | | | | |snapshot|]; try done. check_as H C.
  destruct (get_or_none "listing" snapshot) as [| | | | | |listing|] eqn:Elisting; try done.
  destruct (get_or_none "intent" snapshot) as [| | | | | |intent|] eqn:Eintent; try done.
  destruct (get_or_none "cart" snapshot) as [| | | | | |cart|] eqn:Ecart; try done.
  destruct (get_or_none "payment" snapshot) as [| | | | | |payment|] eqn:Epayment; try done.
  destruct (listing_from_dict _) as [l|] eqn:El; [|done].
  apply res_bind_Ok in H as ([ok w] & Hl & H). check_as H C1. subst ok.
  apply res_bind_Ok in H as (at_ & Hat & H). apply res_bind_Ok in H as ([ok w'] & Ht & H). check_as H C2. subst ok.
  pose proof (triad_verdict _ _ _ _ _ Ht) as ->.
  apply triad_accepted in Ht as (buyer & seller & Ha); [|done].
  apply res_bind_Ok in H as ([] & Hb & H). apply res_bind_Ok in H as (cs & Hcs%subject_of_inv & H). destruct u.
  pose proof (ps_issuer _ _ _ (au_intent _ _ _ _ _ _ Ha)) as Ei. pose proof (ps_issuer _ _ _ (au_cart _ _ _ _ _ _ Ha)) as Ec.
  destruct (check_bindings_inv _ _ _ _ _ _ _ _ Hb Ei Ec) as (_ & _ & _ & _ & Es).
  exists snapshot, l, intent, cart, payment, at_, buyer, seller, cs. split_and!; try done.
  - by apply (verify_listing_signed l w).
  - by exists listing.
Qed.

(** What [verify_order] establishes. *)
Lemma verify_order_inv events w :
  verify_order events = Ok (true, w) ->
  exists d p buyer seller currency amount l intent cart payment,
    events = PList [PDict d] /\ same_keys ORDER_EVENT_FIELDS d = true /\
    order_evidence (from_dict d) p buyer seller currency amount l intent cart payment.
Proof.
  unfold verify_order. intros H%run_body_true.
  destruct events as [| | | | |[|[| | | | | |d|] []]| |]; try done. check_as H Hkeys.
  apply res_bind_Ok in H as (? & _ & H). check_as H _S. check_as H _T.
  destruct (created_at_ms (from_dict d)) as [| |created| | | | |] eqn:Et; try done. check_as H _C.
  apply res_bind_Ok in H as ([] & Hp & H). apply Ok_inj in H.
  unfold verify_order_event in H. destruct (py_eqb (kind _) _); [|done]. cbn [negb] in H.
  destruct (is_did_key _); [|done]. cbn [negb] in H. destruct nacl_available eqn:Hn; [|done]. cbn [negb] in H.
  destruct (detached_signature _ _ _) eqn:Hsig; [|done]. apply detached_signs in Hsig.
  unfold validate_created_payload in Hp. destruct (payload (from_dict d)) as [| | | | | |p|] eqn:Ep; try done.
  check_as Hp C1. check_as Hp C2. check_as Hp C3. check_as Hp Cactor. check_as Hp C5. check_as Hp C6. check_as Hp C7.
  check_as Hp C8. check_as Hp Ccur. check_as Hp C10. apply res_bind_Ok in Hp as (id & Hid & Hp).
  check_as Hp Coid. check_as Hp Cam.
  destruct (single_item _) as [item|]; [|done]. check_as Hp C11. apply res_bind_Ok in Hp as ([] & _ & Hp).
  apply py_eqb_PStr_r in Coid.
  assert (exists currency, get_or_none "currency" p = PStr currency) as [currency Hcur].
  { destruct (get_or_none "currency" p); try done. eauto. }
  destruct (snapshot_inv _ _ _ Hn Hp) as (snapshot & l & intent & cart & payment & at_ & buyer & seller & cs &
    Hsn & Hat & Ha & Hls & Hb & Hcs & Hterms & (listing & Hl & Hl') & Hi & Hc & Hpay).
  pose proof (ps_issuer _ _ _ (au_intent _ _ _ _ _ _ Ha)) as Ei. pose proof (ps_issuer _ _ _ (au_cart _ _ _ _ _ _ Ha)) as Ec.
  destruct (check_bindings_inv _ _ _ _ _ _ _ _ Hb Ei Ec) as ((h & Hh & Ehp) & (hl & Hhl & Ehl) & Ebuyer & Eseller & Esl).
  destruct (check_listing_terms_inv _ _ _ _ _ _ Hterms Hcur)
    as (pub & na & total & amount & Epub & Ena & Hwin & Etot & Hcart & Hprice & Epc & Etc & Eam).
  destruct (get_or_none "amount_minor" p) as [| |n| | | | |] eqn:Ean; try done. cbn in Eam. apply Z.eqb_eq in Eam as ->.
  bool_to_prop. rewrite Ebuyer in Cactor. apply py_eqb_PStr_r in Cactor. rewrite Cactor in Hsig.
  rewrite Ehp in Hid. unfold order_id_for_payment in Hid. destruct (hex_digest 64 h); [|done]. apply Ok_inj in Hid as <-.
  exists d, p, buyer, seller, currency, amount, l, intent, cart, payment. split_and!; try done.
  constructor; try done.
  - by exists snapshot, listing.
  - by exists h.
  - by exists created, at_, pub, na.
  - split_and!; try done. by exists hl.
  - by exists cs, total.
Qed.

(** The amount lies within the limit that the intent sets in its currency. *)
Definition within_limit (intent : mandate) (currency : string) (amount : Z) : Prop :=
  exists subject constraints max_amount limit decimals,
    get_or_none "credentialSubject" intent = PDict subject /\ get_or_none "constraints" subject = PDict constraints /\
    get_or_none "max_amount" constraints = PDict max_amount /\ get_or_none "currency" max_amount = PStr currency /\
    ASSET_DECIMALS currency = Some decimals /\ Decimal (get_or_none "value" max_amount) = Ok limit /\
    dec_le (DFinite amount (- Z.of_nat decimals)) limit.

Lemma to_minor_text value currency n : to_minor value (PStr currency) = Ok n ->
  exists text decimals, value = PStr text /\ ASSET_DECIMALS currency = Some decimals /\
    decimal_to_minor (AValue (PStr text)) currency true = Ok n.
Proof.
  unfold to_minor. intros H. destruct (decimal_to_minor_exact _ _ _ _ H) as (k & w & f & Hk & Hp & _).
  destruct value as [| | | |s| | |]; try done. by exists s, k.
Qed.

Lemma get_default_currency d (currency : string) decimals :
  py_eqb (PStr currency) (get_default "currency" (PStr "") d) = true -> ASSET_DECIMALS currency = Some decimals ->
  get_or_none "currency" d = PStr currency.
Proof. intros E%py_eqb_PStr_l Hd. apply get_default_str; [done|]. by intros ->. Qed.

Lemma get_default_value d w : Decimal (get_default "value" (PStr "") d) = Ok w -> Decimal (get_or_none "value" d) = Ok w.
Proof. rewrite get_default_present. unfold get_or_none. by destruct (dict_get "value" d). Qed.

(** The amount of an authorised order is within the limit. *)
Lemma evidence_within_limit e p buyer seller currency amount l intent cart payment :
  order_evidence e p buyer seller currency amount l intent cart payment -> within_limit intent currency amount.
Proof.
  intros H. destruct (oe_time _ _ _ _ _ _ _ _ _ _ H) as (_ & at_ & _ & _ & _ & _ & Ha & _).
  destruct (of_terms _ _ _ (au_fits _ _ _ _ _ _ Ha)) as (is_ & cons & cs & total & mx & Hi & Hcons & Hcs & Htot & Hmx & Hb & _).
  destruct (oe_cart _ _ _ _ _ _ _ _ _ _ H) as (cs' & total' & Hcs' & Htot' & Hcur & Hm).
  rewrite Hcs in Hcs'. injection Hcs' as <-. rewrite Htot in Htot'. injection Htot' as <-.
  destruct (to_minor_text _ _ _ Hm) as (text & decimals & Ev & Hd & Hn).
  destruct Hb as (v & w & Hv & Hw & _ & _ & _ & Hle & Hc).
  rewrite (get_default_of _ _ _ _ Hcur) in Hc by done. rewrite (get_default_of _ _ _ _ Ev) in Hv by done.
  destruct (amounts_agree _ _ _ _ _ Hn Hd) as (d & Hd' & _ & Hsame). rewrite Hv in Hd'. apply Ok_inj in Hd' as <-.
  exists is_, cons, mx, w, decimals. split_and!; try done.
  - by eapply get_default_currency.
  - by apply get_default_value.
  - by eapply dec_le_trans.
Qed.

(** ** The store *)

Lemma order_path_known s : hex_digest 64 s = true -> order_path (PStr (ORDER_ID_PREFIX ++ s)) = Ok (s ++ ".json").
Proof. intros H. unfold order_path. by rewrite prefix_app, str_drop_app, H. Qed.

Lemma get_events_read fs id path : order_path id = Ok path ->
  get_events fs id = Ok (match safe_load_json fs path with
    | None => None
    | Some (PDict d) => match dict_get "events" d with Some (PList l) => Some (PList l) | _ => Some (PList []) end
    | Some _ => Some (PList [])
    end).
Proof. intros H. unfold get_events. by rewrite H. Qed.

Lemma get_events_stored fs id path e : order_path id = Ok path ->
  get_events (atomic_write_json fs path (order_file id e)) id = Ok (Some (PList [PDict (to_dict e)])).
Proof. intros H. by rewrite (get_events_read _ _ _ H), safe_load_written. Qed.

Lemma order_event_round_trip e : from_dict (to_dict e) = e.
Proof. by destruct e. Qed.

(** One operation on the store of orders. *)
Inductive order_step : files -> files -> Prop :=
| step_create authority digest p created fs fs' e :
    create_order fs authority digest p created = Ok (fs', e) -> order_step fs fs'
| step_import fs fs' e e' : import_verified fs e = Ok (fs', e') -> order_step fs fs'.

(** Every operation adds a file where there was none, or nothing. *)
Definition adds_only (fs fs' : files) : Prop :=
  fs' = fs \/ exists path v, safe_load_json fs path = None /\ fs' = atomic_write_json fs path v.

Lemma adds_only_keeps fs fs' id v : adds_only fs fs' -> get_events fs id = Ok (Some v) -> get_events fs' id = Ok (Some v).
Proof.
  intros [->|(path & x & Hnone & ->)] H; [done|]. unfold get_events in *. destruct (order_path id) as [q|]; [|done].
  cbn [res_bind] in *. destruct (decide (q = path)) as [->|Hne]; [by rewrite Hnone in H|].
  by rewrite safe_load_other.
Qed.

(** What a successful creation returns: the order that is stored, or a new one
    that verifies. *)
Lemma create_order_inv fs authority digest p created fs' e :
  create_order fs authority digest p created = Ok (fs', e) ->
  exists h v w, digest = PStr h /\ hex_digest 64 h = true /\ get_or_none "payment_mandate_digest" p = PStr h /\
    verify_order v = Ok (true, w) /\ first_event v = e /\
    get_events fs' (PStr (ORDER_ID_PREFIX ++ h)) = Ok (Some v) /\ adds_only fs fs' /\
    ((fs' = fs /\ py_eqb e.(payload) (PDict p) = true) \/ v = PList [PDict (to_dict e)] /\ e.(payload) = PDict p).
Proof.
  unfold create_order. intros H. apply res_bind_Ok in H as (id & Hid & H).
  unfold order_id_for_payment in Hid. destruct digest as [| | | |h| | |]; try done.
  destruct (hex_digest 64 h) eqn:Hh; [|done]. apply Ok_inj in Hid as <-.
  destruct (py_eqb (get_or_none "payment_mandate_digest" p) (PStr h)) eqn:Edg; [|done]. apply py_eqb_PStr_r in Edg.
  cbn [negb] in H. apply res_bind_Ok in H as (did & _ & H). destruct (negb (py_eqb (PStr did) _)); [done|].
  rewrite (order_path_known h Hh) in H. cbn [res_bind] in H. apply res_bind_Ok in H as (existing & Hex & H).
  exists h. destruct existing as [v|].
  - apply res_bind_Ok in H as ([ok w] & Hv & H). destruct ok; [|done]. cbn [negb] in H.
    destruct (py_eqb (payload (first_event v)) (PDict p)) eqn:Ep; [|done]. cbn [negb] in H.
    apply Ok_inj in H. injection H as <- <-. exists v, w. split_and!; try done; by left.
  - destruct (file_exists fs (h ++ ".json")) eqn:Ef; [done|]. apply res_bind_Ok in H as (ev & Hs & H).
    apply res_bind_Ok in H as ([ok w] & Hv & H). destruct ok; [|done]. cbn [negb] in H.
    apply Ok_inj in H. injection H as <- <-. exists (PList [PDict (to_dict ev)]), w. split_and!; try done.
    + cbn [first_event]. apply order_event_round_trip.
    + apply get_events_stored. by apply order_path_known.
    + right. eexists _, _. split; [|done]. rewrite (get_events_read _ _ _ (order_path_known h Hh)) in Hex.
      apply Ok_inj in Hex. destruct (safe_load_json fs (h ++ ".json")) as [[| | | | | |d|]|]; try done.
      destruct (dict_get "events" d) as [[]|]; done.
    + right. split; [done|]. unfold sign_order_event in Hs. apply res_bind_Ok in Hs as (? & _ & Hs).
      destruct (negb _); [done|]. apply res_bind_Ok in Hs as (? & _ & Hs). apply res_bind_Ok in Hs as (? & _ & Hs).
      by apply Ok_inj in Hs as <-.
Qed.

Lemma order_step_adds fs fs' : order_step fs fs' -> adds_only fs fs'.
Proof.
  intros [? ? ? ? ? ? ? (h & v & w & _ & _ & _ & _ & _ & _ & Ha & _)%create_order_inv|fs0 fs1 e e' H]; [done|].
  unfold import_verified in H. apply res_bind_Ok in H as (path & Hp & H). apply res_bind_Ok in H as (r & Hr & H).
  destruct r as [st|]; apply Ok_inj in H; injection H as <- <-; [by left|]. right. eexists path, _. split; [|done].
  unfold validate_import in Hr. rewrite Hp in Hr. cbn [res_bind] in Hr. apply res_bind_Ok in Hr as ([ok w] & _ & Hr).
  destruct ok; [|done]. cbn [negb] in Hr. rewrite (get_events_read _ _ _ Hp) in Hr. cbn [res_bind] in Hr.
  destruct (safe_load_json fs0 path) as [[| | | | | |d|]|] eqn:El; [..|done];
    try destruct (dict_get "events" d) as [[| | | | |ls| |]|];
    apply res_bind_Ok in Hr as ([ok' w'] & _ & Hr); destruct ok'; try done; cbn [negb] in Hr;
    by destruct (negb _).
Qed.

Lemma order_steps_keep fs fs' id v :
  rtc order_step fs fs' -> get_events fs id = Ok (Some v) -> get_events fs' id = Ok (Some v).
Proof.
  induction 1 as [|x y z Hxy _ IH]; [done|]. intros H. apply IH. eapply adds_only_keeps; [|exact H].
  by apply order_step_adds.
Qed.

Lemma verified_get fs id v w :
  get_events fs id = Ok (Some v) -> verify_order v = Ok (true, w) -> get_order fs id = Ok (Some (first_event v)).
Proof.
  intros Hv Ho. unfold get_order. rewrite Hv. cbn [res_bind].
  destruct (verify_order_inv _ _ Ho) as (d & p & b & s & cu & am & l & i & c & pay & Ev & _).
  rewrite Ho. by rewrite Ev.
Qed.

Lemma checkout_creates `{PyRepr} fs authority i c p l override now later fs' e :
  create_order_from_mandates fs authority i c p l override now later = Ok (fs', e) ->
  exists h pl created, mandate_digest p = Ok h /\ create_order fs authority (PStr h) pl created = Ok (fs', e).
Proof.
  unfold create_order_from_mandates. destruct override as [| |o| | | | |]; try done. intros H0.
  apply res_bind_Ok in H0 as (? & _ & H0). apply res_bind_Ok in H0 as (at_ & _ & H0).
  apply res_bind_Ok in H0 as ([ok w] & _ & H0). apply res_bind_Ok in H0 as (? & _ & H0).
  apply res_bind_Ok in H0 as ([ok' w'] & _ & H0). do 2 (apply res_bind_Ok in H0 as (? & _ & H0)).
  do 3 (apply res_bind_Ok in H0 as (? & _ & H0)). apply res_bind_Ok in H0 as (did & _ & H0).
  do 2 (apply res_bind_Ok in H0 as (? & _ & H0)). destruct (single_item _); [|done].
  apply res_bind_Ok in H0 as (dg & _ & H0). do 2 (apply res_bind_Ok in H0 as (? & _ & H0)).
  destruct (get_or_none "total" _); try done. do 2 (apply res_bind_Ok in H0 as (? & _ & H0)).
  apply res_bind_Ok in H0 as (? & _ & H0). apply res_bind_Ok in H0 as (? & _ & H0).
  apply res_bind_Ok in H0 as (? & _ & H0). apply res_bind_Ok in H0 as (? & _ & H0).
  apply res_bind_Ok in H0 as (? & _ & H0). apply res_bind_Ok in H0 as (h & Hh & H0).
  eexists h, _, _. split; [done|exact H0].
Qed.

Lemma created_once fs0 a digest pl t fs1 e fs2 : 
  create_order fs0 a (PStr digest) pl t = Ok (fs1, e) -> rtc order_step fs1 fs2 ->
  get_order fs2 (PStr (ORDER_ID_PREFIX ++ digest)) = Ok (Some e) /\
  forall a' pl' t' fs3 e', create_order fs2 a' (PStr digest) pl' t' = Ok (fs3, e') -> fs3 = fs2 /\ e' = e.
Proof.
  intros (h & v & w & [= <-] & Hh & _ & Hv & He & Hg & _)%create_order_inv Hs.
  apply (order_steps_keep _ _ _ _ Hs) in Hg. split.
  - rewrite (verified_get _ _ _ _ Hg Hv). by rewrite He.
  - intros a' pl' t' fs3 e' H. unfold create_order in H. cbn [order_id_for_payment] in H. rewrite Hh in H.
    cbn [res_bind] in H. destruct (negb _); [done|]. apply res_bind_Ok in H as (did & _ & H).
    destruct (negb _); [done|]. rewrite (order_path_known digest Hh), Hg in H. cbn [res_bind] in H.
    rewrite Hv in H. cbn [res_bind negb] in H. destruct (negb _); [done|]. apply Ok_inj in H. injection H as <- <-.
    by rewrite He.
Qed.

(** ** Stores that operations made *)

Lemma order_path_inv id path : order_path id = Ok path ->
  exists s, id = PStr (ORDER_ID_PREFIX ++ s) /\ path = s ++ ".json".
Proof.
  unfold order_path. destruct id as [| | | |s| | |]; try done.
  destruct (startswith ORDER_ID_PREFIX s) eqn:Hp; [|done]. apply prefix_true_iff in Hp as [t ->].
  rewrite str_drop_app. destruct (hex_digest 64 t); [|done]. intros [= <-]. by exists t.
Qed.

Lemma str_app_inj_r (s t u : string) : s ++ u = t ++ u -> s = t.
Proof.
  intros H%(f_equal chars). rewrite !chars_app in H. apply app_inv_tail in H. by apply chars_inj.
Qed.

Lemma order_path_inj id id' path : order_path id = Ok path -> order_path id' = Ok path -> id = id'.
Proof.
  intros (s & -> & ->)%order_path_inv (t & -> & E)%order_path_inv. by apply str_app_inj_r in E as ->.
Qed.

(** Every order that can be read verifies, and is filed under its own name. *)
Definition orders_filed (fs : files) : Prop :=
  forall id v, get_events fs id = Ok (Some v) ->
    (exists w, verify_order v = Ok (true, w)) /\ (first_event v).(order_id) = id.

Lemma orders_filed_add fs id path e w :
  orders_filed fs -> order_path id = Ok path -> verify_order (PList [PDict (to_dict e)]) = Ok (true, w) ->
  e.(order_id) = id -> orders_filed (atomic_write_json fs path (order_file id e)).
Proof.
  intros Hf Hp Hv He id' v Hg. destruct (order_path id') as [path'|x] eqn:Hp'.
  - destruct (decide (path' = path)) as [->|Hne].
    + pose proof (order_path_inj _ _ _ Hp Hp') as <-. rewrite (get_events_stored _ _ _ _ Hp) in Hg.
      apply Ok_inj in Hg. injection Hg as <-. cbn [first_event]. rewrite order_event_round_trip. eauto.
    + apply Hf. rewrite (get_events_read _ _ _ Hp'), safe_load_other in Hg by done.
      by rewrite (get_events_read _ _ _ Hp').
  - unfold get_events in Hg. by rewrite Hp' in Hg.
Qed.

Lemma signed_order_id authority e e' : sign_order_event authority e = Ok e' -> e'.(order_id) = e.(order_id).
Proof.
  unfold sign_order_event. intros H. apply res_bind_Ok in H as (did & _ & H). destruct (negb _); [done|].
  apply res_bind_Ok in H as (? & _ & H). apply res_bind_Ok in H as (? & _ & H). by apply Ok_inj in H as <-.
Qed.

Lemma create_order_new fs authority digest p created fs' e :
  create_order fs authority digest p created = Ok (fs', e) ->
  fs' = fs \/ exists id path w, order_path id = Ok path /\ fs' = atomic_write_json fs path (order_file id e) /\
    verify_order (PList [PDict (to_dict e)]) = Ok (true, w) /\ e.(order_id) = id.
Proof.
  unfold create_order. intros H. apply res_bind_Ok in H as (id & _ & H). destruct (negb _); [done|].
  apply res_bind_Ok in H as (did & _ & H). destruct (negb _); [done|]. apply res_bind_Ok in H as (path & Hp & H).
  apply res_bind_Ok in H as (existing & _ & H). destruct existing as [v|].
  - apply res_bind_Ok in H as ([ok w] & _ & H). destruct (negb ok); [done|]. destruct (negb _); [done|].
    apply Ok_inj in H. injection H as <- _. by left.
  - destruct (file_exists fs path); [done|]. apply res_bind_Ok in H as (ev & Hs & H).
    apply res_bind_Ok in H as ([ok w] & Hv & H). destruct ok; [|done]. cbn [negb] in H. apply Ok_inj in H.
    injection H as <- <-. right. exists (PStr id), path, w. split_and!; try done. by apply signed_order_id in Hs.
Qed.

Lemma import_new fs e fs' e' :
  import_verified fs e = Ok (fs', e') ->
  fs' = fs \/ exists path w, order_path e.(order_id) = Ok path /\ fs' = atomic_write_json fs path (order_file e.(order_id) e) /\
    verify_order (PList [PDict (to_dict e)]) = Ok (true, w).
Proof.
  unfold import_verified. intros H. apply res_bind_Ok in H as (path & Hp & H). apply res_bind_Ok in H as (r & Hr & H).
  destruct r as [st|]; apply Ok_inj in H; injection H as <- <-; [by left|]. right.
  unfold validate_import in Hr. rewrite Hp in Hr. cbn [res_bind] in Hr. apply res_bind_Ok in Hr as ([ok w] & Hv & Hr).
  destruct ok; [|done]. by exists path, w.
Qed.

Lemma order_steps_filed fs fs' : rtc order_step fs fs' -> orders_filed fs -> orders_filed fs'.
Proof.
  induction 1 as [|x y z Hxy _ IH]; [done|]. intros Hf. apply IH. destruct Hxy as [a d p t fs fs' e H|fs fs' e e' H].
  - destruct (create_order_new _ _ _ _ _ _ _ H) as [->|(id & path & w & Hp & -> & Hv & He)]; [done|].
    by eapply orders_filed_add.
  - destruct (import_new _ _ _ _ H) as [->|(path & w & Hp & -> & Hv)]; [done|]. by eapply orders_filed_add.
Qed.

Lemma empty_filed : orders_filed ∅.
Proof. intros id v H. unfold get_events in H. by destruct (order_path id). Qed.
End Evidence.

(** ** Properties *)

Section Properties.
Context `{Ed : Ed25519} `{D : IsoDates} `{U : UnicodeDigits}.

(** C3. An order charges what its buyer allowed and its seller asked.  When
    [verify_order] accepts a record, the evidence inside it shows that the buyer
    signed it, that at the time it gives the three mandates authorised the
    purchase and the listing was active, that the seller signed the listing and
    the cart at exactly the amount charged, and that this integer of minor units
    is within the decimal limit the buyer's principal signed. *)
Theorem verified_order_is_authorised events w :
  verify_order events = Ok (true, w) ->
  exists d p buyer seller currency amount l intent cart payment,
    events = PList [PDict d] /\
    order_evidence (from_dict d) p buyer seller currency amount l intent cart payment /\
    within_limit intent currency amount.
Proof.
  intros (d & p & buyer & seller & currency & amount & l & intent & cart & payment & -> & _ & He)%verify_order_inv.
  exists d, p, buyer, seller, currency, amount, l, intent, cart, payment. split_and!; try done.
  by eapply evidence_within_limit.
Qed.

(** C4. A payment buys once.  After a checkout succeeds, and after any further
    operations on the store of orders, the order can be read under the digest of
    its payment mandate, and every other checkout of a payment with that digest
    returns the same order without a change to the store, or fails. *)
Theorem payment_buys_once `{PyRepr} fs0 authority intent cart payment l override now later fs1 e h fs2 :
  create_order_from_mandates fs0 authority intent cart payment l override now later = Ok (fs1, e) ->
  mandate_digest payment = Ok h -> rtc order_step fs1 fs2 ->
  get_order fs2 (PStr (ORDER_ID_PREFIX ++ h)) = Ok (Some e) /\
  forall authority' intent' cart' payment' l' override' now' later' fs3 e',
    mandate_digest payment' = Ok h ->
    create_order_from_mandates fs2 authority' intent' cart' payment' l' override' now' later' = Ok (fs3, e') ->
    fs3 = fs2 /\ e' = e.
Proof.
  intros (h' & pl & created & Hh & Hc)%checkout_creates Hh' Hs. rewrite Hh in Hh'. apply Ok_inj in Hh' as ->.
  destruct (created_once _ _ _ _ _ _ _ _ Hc Hs) as [Hg Hone]. split; [done|].
  intros a' i' c' p' l' o' n' n2 fs3 e' Hp' (h2 & pl' & t' & Hh2 & Hc2)%checkout_creates.
  rewrite Hp' in Hh2. apply Ok_inj in Hh2 as <-. by eapply Hone.
Qed.
End Properties.

(** ** Examples *)

#[local] Existing Instance toy_ed25519.
#[local] Existing Instance toy_laws.
#[local] Existing Instance iso_grammar.
#[local] Existing Instance no_wide_digits.
#[local] Instance toy_repr : PyRepr := fun _ => "".
#[local] Instance toy_unicode : UnicodeDB := fun _ => false.

(** A review, offered for 12.50. *)
Definition demo_unsigned : SignedListing := {|
  listing_id := PStr "l1"; listing_type := PStr "service"; seller_did := PStr (toy_did "s"); title := PStr "review";
  description := PStr ""; price_value := PStr "12.50"; price_currency := PStr "USDC";
  settlement_methods := PList [PStr "manual:usdc"]; details := PDict []; published_at_ms := PInt 1;
  not_after_ms := PInt 1900000000000; listing_kind := PStr NTH_COMMERCE_LISTING_KIND; seller_sig := PStr "" |}.
Definition demo_signed : res SignedListing := Eval vm_compute in sign_listing (toy_identity "s") demo_unsigned.
Definition demo_listing : SignedListing := match demo_signed with Ok l => l | Err _ => demo_unsigned end.
Definition demo_digest : string := Eval vm_compute in match listing_digest demo_listing with Ok d => d | Err _ => "" end.
Definition order_item : pyval :=
  PDict [("description", PStr "review"); ("listing_id", PStr "l1"); ("listing_digest", PStr demo_digest); ("quantity", PInt 1)].

Definition order_purchase : res (mandate * mandate * mandate) := Eval vm_compute in
  purchase (toy_identity "b") (toy_identity "s") (toy_did "b") (toy_did "s") "100.00" "12.50" "USDC"
    [PStr (toy_did "s")] [PStr "manual:usdc"] [PStr "manual:usdc"] "manual:usdc"
    (PStr (toy_did "a")) (PStr "buy a review") (PList [order_item]) (PStr (toy_did "a")) PNone "id"
    (demo_time 1) (demo_time 1) (demo_time 1) (demo_time 1) (demo_time 1) (demo_time 1)
    (isoformat (demo_time 9)) (isoformat (demo_time 5)) (isoformat (demo_time 7)).
Definition order_mandates : mandate * mandate * mandate :=
  match order_purchase with Ok m => m | Err _ => ([], [], []) end.
Definition order_intent : mandate := order_mandates.1.1.
Definition order_cart : mandate := order_mandates.1.2.
Definition order_payment : mandate := order_mandates.2.

(** 2026-06-03, 12:00 *)
Definition demo_now : Z := 1780488000000.
Abbreviation demo_checkout fs :=
  (create_order_from_mandates fs (toy_identity "b") order_intent order_cart order_payment demo_listing (PInt 0) demo_now demo_now).
Definition demo_order_result : res (files * OrderEvent) := Eval vm_compute in demo_checkout ∅.
Definition demo_order : OrderEvent :=
  match demo_order_result with Ok (_, e) => e | Err _ => from_dict [] end.
Definition demo_orders : files := match demo_order_result with Ok (fs, _) => fs | Err _ => ∅ end.
Definition order_events : pyval := PList [PDict (to_dict demo_order)].

Lemma demo_checked_out : demo_checkout ∅ = Ok (demo_orders, demo_order).
Proof. vm_compute. reflexivity. Qed.

Lemma demo_order_verified : verify_order order_events = Ok (true, "ok").
Proof. vm_compute. reflexivity. Qed.

Lemma verified_order_is_authorised_witness :
  exists d p buyer seller currency amount l intent cart payment,
    order_events = PList [PDict d] /\
    order_evidence (from_dict d) p buyer seller currency amount l intent cart payment /\
    within_limit intent currency amount.
Proof. exact (verified_order_is_authorised order_events "ok" demo_order_verified). Defined.

Definition demo_payment_digest : string :=
  Eval vm_compute in match mandate_digest order_payment with Ok h => h | Err _ => "" end.

Lemma payment_buys_once_witness :
  get_order demo_orders (PStr (ORDER_ID_PREFIX ++ demo_payment_digest)) = Ok (Some demo_order).
Proof.
  refine (proj1 (payment_buys_once ∅ (toy_identity "b") order_intent order_cart order_payment demo_listing (PInt 0)
    demo_now demo_now demo_orders demo_order demo_payment_digest demo_orders demo_checked_out _ (rtc_refl _ _))).
  vm_compute. reflexivity.
Defined.
