(* ===== verification/OrderTrade.v ===== *)
(** * From an order to a trade ([nth_dao/commerce/order_trade.py])

    A service order opens at most one trade, whose identifier is that of the
    order and whose roles and terms are copied from it;
    [verify_order_trade_binding] checks that offline. *)

From Stdlib Require Import ZArith Lia Ascii String.
From stdpp Require Import base list strings gmap.
From S2P Require Import Prelude PyStr PyValue PyDecimal PyDate CanonicalJson DidKey Identity Store PyOps Projection Mandate Listing Settlement Order Trade.

Local Open Scope string_scope.
Local Open Scope Z_scope.

(** The payload of an order; that of a verified order is a dictionary. *)
Definition payload_of (e : OrderEvent) : list (string * pyval) :=
  match e.(Order.payload) with PDict p => p | _ => [] end.

Definition TRADE_REQUIRED_FIELDS : list string :=
  ["trade_id"; "seq"; "type"; "actor_did"; "prev_state"; "new_state"].

(** [TradeEvent.from_dict] of a value that nothing has checked: the constructor
    misses an argument, or takes the default of a field. *)
Definition trade_event_of (raw : pyval) : res TradeEvent :=
  match raw with
  | PDict d =>
    if forallb (fun f => dict_mem f d) TRADE_REQUIRED_FIELDS then
      Ok {| trade_id := get_or_none "trade_id" d; seq := get_or_none "seq" d; type := get_or_none "type" d;
            actor_did := get_or_none "actor_did" d; prev_state := get_or_none "prev_state" d;
            new_state := get_or_none "new_state" d; payload := get_default "payload" (PDict []) d;
            created_at_ms := get_default "created_at_ms" (PInt 0) d;
            kind := get_default "kind" (PStr NTH_TRADE_EVENT_KIND) d;
            event_sig := get_default "event_sig" (PStr "") d |}
    else Err TypeError
  | _ => Err AttributeError
  end.

(** The terms of the trade: the amount and currency of the order, paid to its
    seller. *)
Definition order_terms (op : list (string * pyval)) : pyval :=
  PDict [("amount_minor", get_or_none "amount_minor" op); ("currency", get_or_none "currency" op);
         ("payee_did", get_or_none "seller_did" op)].

(** [a or b] of values *)
Definition value_or (a b : pyval) : pyval := if truthy a then a else b.

(** [_trade_open_payload] *)
Definition trade_open_payload (order : OrderEvent) (verifier_did resolver_did : pyval) : list (string * pyval) :=
  let op := payload_of order in
  let buyer := get_or_none "buyer_did" op in
  let seller := get_or_none "seller_did" op in
  [("source", PStr "commerce_order"); ("order_id", order.(Order.order_id));
   ("listing_id", get_or_none "listing_id" op); ("listing_digest", get_or_none "listing_digest" op);
   ("payment_mandate_digest", get_or_none "payment_mandate_digest" op);
   ("claimant_did", seller); ("publisher_did", buyer); ("verifier_did", value_or verifier_did buyer);
   ("settler_did", buyer); ("resolver_did", value_or resolver_did (value_or verifier_did buyer));
   ("claim_receipt_id", PStr ""); ("terms", order_terms op)].

(** What the opening event of the trade must say, the two roles left to the
    buyer apart. *)
Definition expected_binding (id : string) (op : list (string * pyval)) : list (string * pyval) :=
  [("source", PStr "commerce_order"); ("order_id", PStr id);
   ("listing_id", get_or_none "listing_id" op); ("listing_digest", get_or_none "listing_digest" op);
   ("payment_mandate_digest", get_or_none "payment_mandate_digest" op);
   ("claimant_did", get_or_none "seller_did" op); ("publisher_did", get_or_none "buyer_did" op);
   ("settler_did", get_or_none "buyer_did" op); ("claim_receipt_id", PStr ""); ("terms", order_terms op)].
Definition BUYER_ROLES : list string := ["verifier_did"; "resolver_did"].

Section OrderTrade.
Context `{Ed : Ed25519} `{D : IsoDates} `{U : UnicodeDigits} `{Rp : PyRepr} `{Ud : UnicodeDB}.

(** [_verified_order] *)
Definition verified_order (orders : files) (id : string) : res OrderEvent :=
  let* events := Order.get_events orders (PStr id) in
  match events with
  | None => Err OrderTradeRejected
  | Some events =>
    if negb (truthy events) then Err OrderTradeRejected else
    let* (ok, _) := verify_order events in
    if ok then Ok (first_event events) else Err OrderTradeRejected
  end.

(** [opened.payload == payload and verify_trade(...)] of the trade found in the
    place of a new one *)
Definition same_trade (now : Z) (fs : files) (id : string) (opened : TradeEvent) (pl : list (string * pyval)) : res bool :=
  if py_eqb opened.(payload) (PDict pl) then let* (ok, _) := verify_trade now fs id in Ok ok else Ok false.

(** [open_commerce_trade].  [seen] is the trade store as the first, unlocked
    read finds it, [fs] as the lock of [_append_event] does: another process may
    have opened the trade in between. *)
Definition open_commerce_trade (now override : Z) (orders seen fs : files) (id : string) (authority : AgentIdentity)
  : res (files * TradeEvent) :=
  let* order := verified_order orders id in
  let op := payload_of order in
  if negb (py_eqb (get_or_none "listing_type" op) (PStr "service")) then Err OrderTradeRejected else
  let* did := as_did authority in
  if negb (py_eqb (PStr did) (get_or_none "buyer_did" op)) then Err OrderTradeRejected else
  let pl := trade_open_payload order (get_or_none "buyer_did" op) (get_or_none "buyer_did" op) in
  match events_or_nil seen id with
  | first :: _ =>
    let* opened := trade_event_of first in
    if py_eqb opened.(type) (PStr EVENT_TRADE_OPENED) then
      let* same := same_trade now seen id opened pl in
      if same then Ok (fs, opened) else Err OrderTradeRejected
    else Err OrderTradeRejected
  | [] =>
    match append_event now (clock override now) fs id authority EVENT_TRADE_OPENED STATE_EXECUTING pl true None with
    | Ok r => Ok r
    | Err e =>
      if negb (bool_decide (e = TradeRejected "trade-already-exists")) then Err e else
      match events_or_nil fs id with
      | first :: _ =>
        let* opened := trade_event_of first in
        let* same := same_trade now fs id opened pl in
        if same then Ok (fs, opened) else Err OrderTradeRejected
      | [] => Err OrderTradeRejected
      end
    end
  end.

(** [verify_order_trade_binding] *)
Definition verify_order_trade_binding (now : Z) (orders trades : files) (id : string) : res verdict :=
  match verified_order orders id with
  | Err OrderTradeRejected => Ok (false, "order not found or failed verification")
  | Err e => Err e
  | Ok order =>
    run_body (
      let op := payload_of order in
      let* _ := check (py_eqb (get_or_none "listing_type" op) (PStr "service")) "order is not a service order" in
      match events_or_nil trades id with
      | [] => reject "trade not found"
      | first :: _ =>
        let* (ok, _) := verify_trade now trades id in
        let* _ := check ok "trade verification failed" in
        let* opened := trade_event_of first in
        match opened.(payload) with
        | PDict pl =>
          let expected := expected_binding id op in
          let* _ := check (same_keys (dict_keys expected ++ BUYER_ROLES) pl) "binding mismatch: payload fields" in
          let* _ := check (forallb (fun kv => py_eqb (get_or_none kv.1 pl) kv.2) expected) "binding mismatch" in
          let* _ := check (py_eqb opened.(actor_did) (get_or_none "buyer_did" op)) "trade opener is not order buyer" in
          let* _ := check (forallb (fun role => py_eqb (get_or_none role pl) (get_or_none "buyer_did" op)) BUYER_ROLES)
                      "binding mismatch: role" in
          Ok (true, "ok")
        | _ => Err TypeError
        end
      end)
  end.
End OrderTrade.
