(* ===== verification/OrderTradeSpec.v ===== *)
(** * What the bridge from orders to trades promises

    A trade that is bound to an order can only pay what the order charges, from
    its buyer to its seller; opening a trade from an order produces one that is
    bound, whatever another process does in between, or finds one with the same
    terms that somebody else opened, which the binding refuses. *)

From Stdlib Require Import ZArith Lia Ascii String.
From stdpp Require Import base list strings gmap.
From S2P Require Import Prelude Digits PyStr PyValue PyDecimal PyDate CanonicalJson B64u DidKey Sha256 Money Identity Store PyOps Projection Mandate MandateSpec AmountSpec Listing Order OrderSpec Settlement Trade TradeSpec OrderTrade.

Local Open Scope string_scope.
Local Open Scope Z_scope.

#[local] Arguments verify_settlement : simpl never.
#[local] Arguments verify_order : simpl never.
#[local] Arguments verify_trade : simpl never.

Section Binding.
Context `{Ed : Ed25519} `{D : IsoDates} `{U : UnicodeDigits} `{Rp : PyRepr} `{Ud : UnicodeDB}.

Lemma verified_order_inv orders id e :
  verified_order orders id = Ok e ->
  get_order orders (PStr id) = Ok (Some e) /\
  exists p buyer seller currency amount l intent cart payment,
    order_evidence e p buyer seller currency amount l intent cart payment /\ within_limit intent currency amount.
Proof.
  unfold verified_order, get_order. intros H. apply res_bind_Ok in H as (events & Hg & H).
  destruct events as [v|]; [|done]. rewrite Hg. cbn [res_bind]. destruct (truthy v); [|done]. cbn [negb] in *.
  apply res_bind_Ok in H as ([ok w] & Hv & H). destruct ok; [|done]. apply Ok_inj in H as <-. rewrite Hv.
  split; [done|]. destruct (verify_order_inv _ _ Hv) as (d & p & b & s & c & a & l & i & ca & pay & -> & _ & He).
  exists p, b, s, c, a, l, i, ca, pay. split; [exact He|]. by eapply evidence_within_limit.
Qed.

(** The opening event says what the order says. *)
Record bound (id : string) (op pl : list (string * pyval)) (opened : TradeEvent) (buyer seller : string) : Prop := {
  bo_payload : opened.(payload) = PDict pl;
  bo_actor : opened.(actor_did) = PStr buyer;
  bo_roles : get_or_none "claimant_did" pl = PStr seller /\ get_or_none "publisher_did" pl = PStr buyer /\
    get_or_none "settler_did" pl = PStr buyer /\ get_or_none "verifier_did" pl = PStr buyer /\
    get_or_none "resolver_did" pl = PStr buyer;
  bo_terms : py_eqb (get_or_none "terms" pl) (order_terms op) = true
}.

Lemma binding_inv now orders trades id w :
  verify_order_trade_binding now orders trades id = Ok (true, w) ->
  exists e p buyer seller currency amount l intent cart payment first rest opened pl r,
    get_order orders (PStr id) = Ok (Some e) /\
    order_evidence e p buyer seller currency amount l intent cart payment /\ within_limit intent currency amount /\
    events_or_nil trades id = first :: rest /\ verify_trade now trades id = Ok (true, r) /\
    trade_event_of first = Ok opened /\ bound id p pl opened buyer seller.
Proof.
  unfold verify_order_trade_binding. destruct (verified_order orders id) as [e|x] eqn:Ho; [|by destruct x].
  apply verified_order_inv in Ho as (Hg & p & b & s & c & a & l & i & ca & pay & He & Hl).
  intros H%run_body_true. check_as H C1. destruct (events_or_nil trades id) as [|first rest] eqn:Ee; [done|].
  apply res_bind_Ok in H as ([ok r] & Hv & H). check_as H C2. subst ok.
  apply res_bind_Ok in H as (opened & Hop & H). destruct (payload opened) as [| | | | | |pl|] eqn:Epl; try done.
  check_as H C3. check_as H C4. check_as H C5. check_as H C6.
  exists e, p, b, s, c, a, l, i, ca, pay, first, rest, opened, pl, r. split_and!; try done.
  assert (payload_of e = p) as Ep by (unfold payload_of; by rewrite (oe_payload _ _ _ _ _ _ _ _ _ _ He)).
  rewrite Ep in *. rewrite (oe_buyer _ _ _ _ _ _ _ _ _ _ He) in *. apply py_eqb_PStr_r in C5.
  unfold expected_binding in C4. rewrite (oe_buyer _ _ _ _ _ _ _ _ _ _ He), (oe_seller _ _ _ _ _ _ _ _ _ _ He) in C4.
  cbn [forallb fst snd BUYER_ROLES] in C4, C6. bool_to_prop.
  repeat match goal with E : py_eqb (get_or_none _ pl) (PStr _) = true |- _ => apply py_eqb_PStr_r in E end.
  by constructor.
Qed.

Lemma trade_event_of_payload first opened pl : trade_event_of first = Ok opened -> opened.(payload) = PDict pl -> pl <> [] ->
  opening_payload [first] = Ok pl.
Proof.
  unfold trade_event_of. destruct first as [| | | | | |d|]; try done. destruct (forallb _ _); [|done].
  intros [= <-]. cbn [payload opening_payload]. rewrite get_default_present.
  destruct (dict_get "payload" d) as [v|]; [by intros ->|]. by intros [= <-].
Qed.

(** The entries of terms that are equal to those of the order. *)
Lemma terms_entry op t k :
  py_eqb (PDict t) (order_terms op) = true ->
  dict_get k t = None \/ exists v x, dict_get k t = Some v /\ dict_get k (match order_terms op with PDict x => x | _ => [] end) = Some x /\
    py_eqb v x = true.
Proof.
  unfold order_terms. cbn [py_eqb]. intros [_ H]%andb_true_iff. destruct (dict_get k t) as [v|] eqn:E; [|by left].
  right. apply dict_get_In in E. rewrite forallb_forall in H. specialize (H _ E). cbn [fst snd] in H.
  destruct (dict_get k _) as [x|] eqn:Ex; [|done]. by exists v, x.
Qed.

(** The terms of a bound trade, where a settlement met them. *)
Lemma bound_terms op t s now payer seller currency amount :
  py_eqb (PDict t) (order_terms op) = true -> get_or_none "amount_minor" op = PInt amount ->
  get_or_none "currency" op = PStr currency -> get_or_none "seller_did" op = PStr seller ->
  settlement_ok now s (match get_or_none "amount_minor" t with PInt z => z | _ => -1 end)
      (str_get "currency" t) (str_get "payee_did" t) payer ->
  settlement_ok now s amount currency seller payer.
Proof.
  intros Ht Ha Hc Hs Hok. destruct Hok as [H1 [H2 Hpos] [H3 Hcur] [H4 Hdid] H5 H6 H7].
  assert ((match get_or_none "amount_minor" t with PInt z => z | _ => -1 end) = amount) as Ea.
  { unfold get_or_none in *. destruct (terms_entry _ _ "amount_minor" Ht) as [E|(v & x & E & Ex & Eq)]; rewrite E in *; [lia|].
    destruct v; try lia. unfold order_terms in Ex. cbn in Ex. injection Ex as <-. unfold get_or_none in Eq. rewrite Ha in Eq.
    cbn in Eq. lia. }
  assert (str_get "currency" t = currency) as Ecur.
  { unfold str_get in *. destruct (terms_entry _ _ "currency" Ht) as [E|(v & x & E & Ex & Eq)]; rewrite E in *.
    - unfold SUPPORTED_CURRENCIES in Hcur. cbn in Hcur. intuition discriminate.
    - unfold order_terms in Ex. cbn in Ex. injection Ex as <-. rewrite Hc in Eq. by apply py_eqb_PStr_r in Eq as ->. }
  assert (str_get "payee_did" t = seller) as Ep.
  { unfold str_get in *. destruct (terms_entry _ _ "payee_did" Ht) as [E|(v & x & E & Ex & Eq)]; rewrite E in *; [done|].
    unfold order_terms in Ex. cbn in Ex. injection Ex as <-. rewrite Hs in Eq. by apply py_eqb_PStr_r in Eq as ->. }
  rewrite Ea in *. rewrite Ecur in *. rewrite Ep in *. by constructor.
Qed.

(** ** Opening *)

Lemma keys_In k (d : list (string * pyval)) : In k (dict_keys d) <-> exists v, dict_get k d = Some v.
Proof.
  split.
  - intros H. destruct (dict_get k d) as [v|] eqn:E; [eauto|]. by apply dict_get_None in E.
  - intros [v H%dict_get_In]. unfold dict_keys. apply list_elem_of_In, list_elem_of_fmap. exists (k, v).
    split; [done|]. by apply list_elem_of_In.
Qed.

(** Equal dictionaries with distinct keys have the same keys and equal values. *)
Lemma py_eqb_dict d e : NoDup (dict_keys d) -> py_eqb (PDict d) (PDict e) = true ->
  List.length (dict_keys d) = List.length (dict_keys e) /\
  forall k y, dict_get k e = Some y -> exists v, dict_get k d = Some v /\ py_eqb v y = true.
Proof.
  cbn [py_eqb]. intros Hn [Hl%Nat.eqb_eq Hf]%andb_true_iff.
  assert (List.length (dict_keys d) = List.length (dict_keys e)) as Hlen by (unfold dict_keys; by rewrite !length_fmap).
  rewrite forallb_forall in Hf.
  assert (forall k v, dict_get k d = Some v -> exists y, dict_get k e = Some y /\ py_eqb v y = true) as Hto.
  { intros k v H%dict_get_In. specialize (Hf _ H). cbn [fst snd] in Hf. destruct (dict_get k e); [eauto|done]. }
  split; [done|]. intros k y Hk. assert (In k (dict_keys d)) as Hin.
  { apply (NoDup_length_incl (l := dict_keys d) (l' := dict_keys e)); [by apply NoDup_ListNoDup|lia| |apply keys_In; eauto].
    intros x (v & Hv)%keys_In. apply keys_In. destruct (Hto _ _ Hv) as (z & Hz & _). eauto. }
  apply keys_In in Hin as [v Hv]. destruct (Hto _ _ Hv) as (z & Hz & E). rewrite Hk in Hz. injection Hz as <-. eauto.
Qed.

(** The payload that opens the trade of an order, spelled out. *)
Lemma open_payload_eq e p buyer seller currency amount l intent cart payment id :
  order_evidence e p buyer seller currency amount l intent cart payment -> e.(Order.order_id) = PStr id ->
  buyer <> "" -> exists listing digest mandate,
  trade_open_payload e (PStr buyer) (PStr buyer) =
    [("source", PStr "commerce_order"); ("order_id", PStr id); ("listing_id", PStr listing);
     ("listing_digest", PStr digest); ("payment_mandate_digest", PStr mandate);
     ("claimant_did", PStr seller); ("publisher_did", PStr buyer); ("verifier_did", PStr buyer);
     ("settler_did", PStr buyer); ("resolver_did", PStr buyer); ("claim_receipt_id", PStr "");
     ("terms", PDict [("amount_minor", PInt amount); ("currency", PStr currency); ("payee_did", PStr seller)])].
Proof.
  intros He Hid Hne. assert (payload_of e = p) as Ep by (unfold payload_of; by rewrite (oe_payload _ _ _ _ _ _ _ _ _ _ He)).
  assert (forall f, In f REQUIRED_STRINGS -> exists s, get_or_none f p = PStr s) as Hs.
  { intros f Hf. pose proof (oe_texts _ _ _ _ _ _ _ _ _ _ He) as H. unfold texts_present in H.
    rewrite forallb_forall in H. specialize (H _ Hf). destruct (get_or_none f p); try done. eauto. }
  destruct (Hs "listing_id") as [li Eli]; [cbn; tauto|]. destruct (Hs "listing_digest") as [ld Eld]; [cbn; tauto|].
  destruct (Hs "payment_mandate_digest") as [pd Epd]; [cbn; tauto|]. exists li, ld, pd.
  unfold trade_open_payload, order_terms. rewrite Ep, Hid, Eli, Eld, Epd, (oe_buyer _ _ _ _ _ _ _ _ _ _ He),
    (oe_seller _ _ _ _ _ _ _ _ _ _ He), (oe_currency _ _ _ _ _ _ _ _ _ _ He), (oe_amount _ _ _ _ _ _ _ _ _ _ He).
  unfold value_or. cbn [truthy]. by rewrite (proj2 (String.eqb_neq _ _) Hne).
Qed.

Lemma evidence_buyer e p buyer seller currency amount l intent cart payment :
  order_evidence e p buyer seller currency amount l intent cart payment -> buyer <> "".
Proof.
  intros He ->. pose proof (oe_texts _ _ _ _ _ _ _ _ _ _ He) as H. pose proof (oe_buyer _ _ _ _ _ _ _ _ _ _ He) as Hb.
  unfold texts_present in H. rewrite forallb_forall in H. specialize (H "buyer_did" ltac:(cbn; tauto)).
  by rewrite Hb in H.
Qed.

(** The verdict on a trade whose opening payload is the one of the order depends
    on who opened it. *)
Lemma binding_intro now orders trades id e p buyer seller currency amount l intent cart payment first rest opened pl r :
  verified_order orders id = Ok e -> order_evidence e p buyer seller currency amount l intent cart payment ->
  e.(Order.order_id) = PStr id -> py_eqb (get_or_none "listing_type" p) (PStr "service") = true ->
  events_or_nil trades id = first :: rest -> verify_trade now trades id = Ok (true, r) ->
  trade_event_of first = Ok opened -> opened.(payload) = PDict pl -> NoDup (dict_keys pl) ->
  py_eqb (PDict pl) (PDict (trade_open_payload e (PStr buyer) (PStr buyer))) = true ->
  verify_order_trade_binding now orders trades id =
    Ok (if py_eqb opened.(actor_did) (PStr buyer) then (true, "ok") else (false, "trade opener is not order buyer")).
Proof.
  intros Ho He Hid Hsvc Hev Hv Hop Hpl Hn Heq. pose proof (evidence_buyer _ _ _ _ _ _ _ _ _ _ He) as Hne.
  destruct (open_payload_eq _ _ _ _ _ _ _ _ _ _ _ He Hid Hne) as (li & ld & pd & Epl).
  unfold verify_order_trade_binding. rewrite Ho.
  assert (payload_of e = p) as Ep by (unfold payload_of; by rewrite (oe_payload _ _ _ _ _ _ _ _ _ _ He)).
  cbn zeta. rewrite Ep, Hsvc, Hev, Hv. cbn [check res_bind]. rewrite Hop. cbn [res_bind]. rewrite Hpl.
  destruct (py_eqb_dict _ _ Hn Heq) as [Hlen Hget]. rewrite Epl in Hlen.
  assert (forall k y, dict_get k (trade_open_payload e (PStr buyer) (PStr buyer)) = Some y ->
    py_eqb (get_or_none k pl) y = true) as Hval.
  { intros k y Hk. destruct (Hget _ _ Hk) as (v & Hv' & E). unfold get_or_none. by rewrite Hv'. }
  assert (forall k y, dict_get k (trade_open_payload e (PStr buyer) (PStr buyer)) = Some y -> dict_mem k pl = true) as Hmem.
  { intros k y Hk. destruct (Hget _ _ Hk) as (v & Hv' & E). unfold dict_mem. by rewrite Hv'. }
  pose proof (oe_buyer _ _ _ _ _ _ _ _ _ _ He) as Hb.
  assert (same_keys (dict_keys (expected_binding id p) ++ BUYER_ROLES) pl = true) as ->.
  { unfold same_keys. rewrite Hlen. apply andb_true_iff. split; [done|].
    apply forallb_forall. intros f Hf. rewrite Epl in Hmem. cbn in Hf.
    repeat (destruct Hf as [<-|Hf]; [by eapply Hmem|]). done. }
  assert (forallb (fun kv => py_eqb (get_or_none kv.1 pl) kv.2) (expected_binding id p) = true) as ->.
  { apply forallb_forall. intros [k x] Hin. cbn [fst snd]. apply Hval.
    unfold trade_open_payload, expected_binding in *. rewrite Ep, Hid, Hb in *. cbn in Hin.
    repeat (destruct Hin as [[= <- <-]|Hin]; [reflexivity|]). done. }
  cbn [check res_bind]. rewrite Hb. destruct (py_eqb (actor_did opened) _); [|done]. cbn [check res_bind].
  unfold BUYER_ROLES. cbn [forallb]. rewrite Epl in Hval. by rewrite !(fun k => Hval k (PStr buyer)).
Qed.

Lemma append_open_inv now created fs id actor did t ns pl allowed fs' ev `{L : !Ed25519Laws Ed} :
  signer actor did -> t = EVENT_TRADE_OPENED -> ns = STATE_EXECUTING ->
  append_event now created fs id actor t ns pl true allowed = Ok (fs', ev) ->
  events_or_nil fs' id = [PDict (to_dict ev)] /\ verify_trade now fs' id = Ok (true, "") /\
  ev.(payload) = PDict pl /\ ev.(actor_did) = PStr did.
Proof.
  intros Hs -> -> H.
  destruct (append_event_verified _ _ _ _ _ _ _ _ _ _ _ _ _ Hs H eq_refl ltac:(by left)) as [Hfs Hv].
  destruct (append_event_inv _ _ _ _ _ _ _ _ _ _ _ _ H) as (did' & prev & Hd & _ & _ & Hg & Hsig & _).
  apply append_guards_open in Hg as [Hnil _]. rewrite Hnil in *. cbn [app] in *.
  assert (did' = did) as -> by (destruct Hs as (? & _ & _ & _ & Hd2); congruence).
  assert (events_or_nil fs' id = [PDict (to_dict ev)]) as He.
  { unfold events_or_nil. by rewrite Hfs, get_events_written. }
  split_and!; [done|unfold verify_trade; by rewrite He| |];
    unfold sign_trade_event in Hsig; apply res_bind_Ok in Hsig as (? & _ & Hsig);
    apply res_bind_Ok in Hsig as (? & _ & Hsig); by apply Ok_inj in Hsig as <-.
Qed.

Lemma same_trade_inv now fs id opened pl :
  same_trade now fs id opened pl = Ok true ->
  py_eqb opened.(payload) (PDict pl) = true /\ exists r, verify_trade now fs id = Ok (true, r).
Proof.
  unfold same_trade. destruct (py_eqb _ _); [|done]. intros H. apply res_bind_Ok in H as ([ok r] & Hv & H).
  apply Ok_inj in H as ->. eauto.
Qed.

Lemma trade_event_keys first opened pl : wf first -> trade_event_of first = Ok opened -> opened.(payload) = PDict pl ->
  NoDup (dict_keys pl).
Proof.
  unfold trade_event_of. destruct first as [| | | | | |d|]; try done. intros [_ Hw]%wf_PDict. destruct (forallb _ _); [|done].
  intros [= <-]. cbn [payload]. rewrite get_default_present. destruct (dict_get "payload" d) as [v|] eqn:E.
  - intros ->. apply dict_get_In in E. rewrite Forall_forall in Hw. apply list_elem_of_In in E.
    specialize (Hw _ E). by apply wf_PDict in Hw as [? _].
  - intros [= <-]. constructor.
Qed.

(** A trade found in the place of a new one. *)
Lemma found_trade_verdict now orders fs id e p buyer seller currency amount l intent cart payment first rest opened :
  verified_order orders id = Ok e -> order_evidence e p buyer seller currency amount l intent cart payment ->
  e.(Order.order_id) = PStr id -> py_eqb (get_or_none "listing_type" p) (PStr "service") = true ->
  events_or_nil fs id = first :: rest -> Forall wf (events_or_nil fs id) -> trade_event_of first = Ok opened ->
  same_trade now fs id opened (trade_open_payload e (PStr buyer) (PStr buyer)) = Ok true ->
  verify_order_trade_binding now orders fs id =
    Ok (if py_eqb opened.(actor_did) (PStr buyer) then (true, "ok") else (false, "trade opener is not order buyer")).
Proof.
  intros Ho He Hid Hsvc Hev Hw Hop (Heq & r & Hv)%same_trade_inv.
  destruct (payload opened) as [| | | | | |pl|] eqn:Hpl; try done.
  rewrite Hev in Hw. apply Forall_cons in Hw as [Hw _]. eapply binding_intro; eauto using trade_event_keys.
Qed.

Lemma open_payload_refl e p buyer seller currency amount l intent cart payment id :
  order_evidence e p buyer seller currency amount l intent cart payment -> e.(Order.order_id) = PStr id ->
  let pl := trade_open_payload e (PStr buyer) (PStr buyer) in
  NoDup (dict_keys pl) /\ py_eqb (PDict pl) (PDict pl) = true.
Proof.
  intros He Hid. pose proof (evidence_buyer _ _ _ _ _ _ _ _ _ _ He) as Hne. cbn zeta.
  destruct (open_payload_eq _ _ _ _ _ _ _ _ _ _ _ He Hid Hne) as (li & ld & pd & ->). split.
  - match goal with |- NoDup ?l => assert (bool_decide (NoDup l) = true) as H by reflexivity end. by apply bool_decide_eq_true_1 in H.
  - cbn. by rewrite !String.eqb_refl, Z.eqb_refl.
Qed.
End Binding.

(** ** Properties *)

Section Properties.
Context `{Ed : Ed25519} `{D : IsoDates} `{U : UnicodeDigits} `{Rp : PyRepr} `{Ud : UnicodeDB}.

(** C2. Money that moves was authorised, end to end.  When a trade is bound to
    an order, every settlement recorded in the trade was signed by the buyer and
    pays exactly the amount and currency of the order, from its buyer to its
    seller; that amount is the price the seller signed, and within the limit the
    buyer's principal signed. *)
Theorem bound_settlement_pays_order now orders trades id w d pl :
  verify_order_trade_binding now orders trades id = Ok (true, w) ->
  In (PDict d) (events_or_nil trades id) -> (from_dict d).(type) = PStr EVENT_SETTLEMENT_RECORDED ->
  (from_dict d).(payload) = PDict pl ->
  exists e p buyer seller currency amount l intent cart payment s,
    get_order orders (PStr id) = Ok (Some e) /\
    order_evidence e p buyer seller currency amount l intent cart payment /\ within_limit intent currency amount /\
    (from_dict d).(actor_did) = PStr buyer /\ dict_get "settlement" pl = Some (PDict s) /\
    settlement_ok now s amount currency seller buyer.
Proof.
  intros (e & p & b & sl & c & a & l & i & ca & pay & first & rest & opened & pl0 & r &
    Hg & He & Hl & Hev & Hv & Hop & [Hpl0 Hact (R1 & R2 & R3 & R4 & R5) Hterms])%binding_inv Hin Ht Hpl.
  assert (pl0 <> []) as Hne0 by (by intros ->).
  pose proof (trade_event_of_payload _ _ _ Hop Hpl0 Hne0) as Hopen.
  assert (parties (events_or_nil trades id) = Ok (parties_of pl0)) as Hp.
  { rewrite Hev. unfold parties, opening_payload in *. destruct first; try done; by rewrite Hopen. }
  destruct (get_or_none "terms" pl0) as [| | | | | |t|] eqn:Et; try done.
  assert (trade_terms (events_or_nil trades id) = Ok (Some t)) as Htt.
  { rewrite Hev. unfold trade_terms, opening_payload in *. destruct first; try done; rewrite Hopen; cbn [res_bind];
      unfold get_or_none in Et; destruct (dict_get "terms" pl0); simplify_eq/=; done. }
  assert (t <> []) as Hne by (by intros ->).
  destruct (recorded_settlement _ _ _ _ _ _ _ _ Hv Hp Htt Hne Hin Ht Hpl) as (Ha & s & Hs & Hok).
  assert (forall k v, get_or_none k pl0 = PStr v -> str_get k pl0 = v) as Hstr.
  { intros k v. unfold get_or_none, str_get. destruct (dict_get k pl0); [by intros ->|done]. }
  cbn [parties_of settler_did publisher_did] in *. rewrite (Hstr _ _ R2) in Hok. rewrite (Hstr _ _ R3) in Ha.
  exists e, p, b, sl, c, a, l, i, ca, pay, s. split_and!; try done.
  eapply bound_terms; eauto using oe_amount, oe_currency, oe_seller.
Qed.

(** [ev] opens a valid trade on the terms of the order [id]. *)
Definition opens_order (now : Z) (orders fs : files) (id buyer : string) (ev : TradeEvent) : Prop :=
  (exists order, verified_order orders id = Ok order /\
     py_eqb ev.(payload) (PDict (trade_open_payload order (PStr buyer) (PStr buyer))) = true) /\
  (exists first rest, events_or_nil fs id = first :: rest /\ trade_event_of first = Ok ev) /\
  exists r, verify_trade now fs id = Ok (true, r).

(** The buyer opened it, and the binding check accepts it. *)
Definition opened_by_buyer (now : Z) (orders fs : files) (id buyer : string) (ev : TradeEvent) : Prop :=
  opens_order now orders fs id buyer ev /\ ev.(actor_did) = PStr buyer /\
  verify_order_trade_binding now orders fs id = Ok (true, "ok").

(** Somebody else did, and the binding check refuses it. *)
Definition opened_by_another (now : Z) (orders fs : files) (id buyer : string) (ev : TradeEvent) : Prop :=
  opens_order now orders fs id buyer ev /\ ev.(actor_did) <> PStr buyer /\
  verify_order_trade_binding now orders fs id = Ok (false, "trade opener is not order buyer").

Lemma found_trade now orders fs id e p buyer seller currency amount l intent cart payment first rest opened :
  verified_order orders id = Ok e -> order_evidence e p buyer seller currency amount l intent cart payment ->
  e.(Order.order_id) = PStr id -> py_eqb (get_or_none "listing_type" p) (PStr "service") = true ->
  events_or_nil fs id = first :: rest -> Forall wf (events_or_nil fs id) -> trade_event_of first = Ok opened ->
  same_trade now fs id opened (trade_open_payload e (PStr buyer) (PStr buyer)) = Ok true ->
  opened_by_buyer now orders fs id buyer opened \/ opened_by_another now orders fs id buyer opened.
Proof.
  intros Ho He Hid Hsvc Hev Hw Hop Hsame.
  pose proof (found_trade_verdict _ _ _ _ _ _ _ _ _ _ _ _ _ _ _ _ _ Ho He Hid Hsvc Hev Hw Hop Hsame) as Hb.
  apply same_trade_inv in Hsame as [Heq Hv].
  assert (opens_order now orders fs id buyer opened) as Hopen.
  { split_and!; [by exists e|by exists first, rest|done]. }
  destruct (py_eqb (actor_did opened) (PStr buyer)) eqn:Ea; [left|right]; (split_and!; [done| |done]).
  - by apply py_eqb_PStr_r.
  - intros E. by rewrite E, (proj2 (py_eqb_PStr_r _ _) eq_refl) in Ea.
Qed.

(** C7. Opening a trade from an order binds it, or finds it taken by a
    stranger.  Over a store of orders that its operations made, a successful
    [open_commerce_trade] returns the opening of the one trade of the order,
    which is valid and has the terms of the order.  Either the buyer opened it
    and the trade is bound to the order, even when another process opens it
    between the first read and the lock; or the store is left alone, somebody
    other than the buyer had opened it, and the binding check refuses it for
    that reason. *)
Theorem opened_trade_is_bound `{L : !Ed25519Laws Ed} now override orders seen fs id authority did fs' ev :
  signer authority did -> rtc order_step ∅ orders -> Forall wf (events_or_nil fs id) ->
  seen = fs \/ events_or_nil seen id = [] ->
  open_commerce_trade now override orders seen fs id authority = Ok (fs', ev) ->
  opened_by_buyer now orders fs' id did ev \/ (fs' = fs /\ opened_by_another now orders fs id did ev).
Proof.
  intros Hs Hsteps Hw Hseen H. unfold open_commerce_trade in H. apply res_bind_Ok in H as (e & Ho & H).
  pose proof Ho as Ho'. apply verified_order_inv in Ho' as (Hg & p & b & sl & c & a & l & i & ca & pay & He & _).
  assert (payload_of e = p) as Ep by (unfold payload_of; by rewrite (oe_payload _ _ _ _ _ _ _ _ _ _ He)).
  assert (e.(Order.order_id) = PStr id) as Hid.
  { unfold verified_order in Ho. apply res_bind_Ok in Ho as (events & Hge & Ho). destruct events as [v|]; [|done].
    destruct (negb _); [done|]. apply res_bind_Ok in Ho as ([ok w] & _ & Ho). destruct ok; [|done]. apply Ok_inj in Ho as <-.
    by destruct (order_steps_filed _ _ Hsteps empty_filed _ _ Hge). }
  rewrite Ep, (oe_buyer _ _ _ _ _ _ _ _ _ _ He) in H.
  destruct (py_eqb (get_or_none "listing_type" p) _) eqn:Hsvc; [|done]. cbn [negb] in H.
  apply res_bind_Ok in H as (did' & Hd & H). assert (did' = did) as -> by (destruct Hs as (? & _ & _ & _ & Hd2); congruence).
  destruct (py_eqb (PStr did) (PStr b)) eqn:Eb; [|done]. cbn [negb] in H. apply py_eqb_PStr_r in Eb. injection Eb as <-.
  destruct (events_or_nil seen id) as [|first rest] eqn:Esn.
  - destruct (append_event _ _ _ _ _ _ _ _ _ _) as [[fs1 ev1]|x] eqn:Happ.
    + apply Ok_inj in H. injection H as <- <-. left.
      destruct (append_open_inv _ _ _ _ _ _ _ _ _ _ _ _ Hs eq_refl eq_refl Happ) as (Hev & Hv & Hpl & Ha).
      destruct (open_payload_refl _ _ _ _ _ _ _ _ _ _ _ He Hid) as [Hn Hr].
      assert (trade_event_of (PDict (to_dict ev1)) = Ok ev1) as Hto by (by destruct ev1).
      pose proof (binding_intro _ _ _ _ _ _ _ _ _ _ _ _ _ _ _ _ _ _ _ Ho He Hid Hsvc Hev Hv Hto Hpl Hn Hr) as Hb.
      rewrite Ha, (proj2 (py_eqb_PStr_r _ _) eq_refl) in Hb. split_and!; [|done|done].
      split_and!; [exists e; by rewrite Hpl|by exists (PDict (to_dict ev1)), []|by exists ""].
    + destruct (bool_decide _); [|done]. cbn [negb] in H. destruct (events_or_nil fs id) as [|first rest] eqn:Ef; [done|].
      apply res_bind_Ok in H as (opened & Hop & H). apply res_bind_Ok in H as (same & Hsame & H). destruct same; [|done].
      apply Ok_inj in H. injection H as <- <-. rewrite <- Ef in Hw.
      destruct (found_trade _ _ _ _ _ _ _ _ _ _ _ _ _ _ _ _ _ Ho He Hid Hsvc Ef Hw Hop Hsame); [by left|by right].
  - destruct Hseen as [->|]; [|done]. apply res_bind_Ok in H as (opened & Hop & H). destruct (py_eqb (type opened) _); [|done].
    apply res_bind_Ok in H as (same & Hsame & H). destruct same; [|done].
    apply Ok_inj in H. injection H as <- <-.
    destruct (found_trade _ _ _ _ _ _ _ _ _ _ _ _ _ _ _ _ _ Ho He Hid Hsvc Esn Hw Hop Hsame); [by left|by right].
Qed.
End Properties.

(** ** Examples *)

#[local] Existing Instance toy_ed25519.
#[local] Existing Instance toy_laws.
#[local] Existing Instance iso_grammar.
#[local] Existing Instance no_wide_digits.
#[local] Instance toy_repr : PyRepr := fun _ => "".
#[local] Instance toy_unicode : UnicodeDB := fun _ => false.

Definition demo_id : string := Eval vm_compute in match demo_order.(Order.order_id) with PStr s => s | _ => "" end.

Lemma demo_verified_order : verified_order demo_orders demo_id = Ok demo_order.
Proof.
  unfold verified_order. assert (Order.get_events demo_orders (PStr demo_id) = Ok (Some order_events)) as -> by (vm_compute; reflexivity).
  cbn [res_bind]. change (truthy order_events) with true. cbn [negb].
  match goal with |- context [verify_order ?v] => assert (verify_order v = Ok (true, "ok")) as -> by exact demo_order_verified end.
  cbn [res_bind order_events first_event]. by rewrite order_event_round_trip.
Qed.

(** The trade of the order, from its opening to its settlement. *)
Definition demo_settlement : pyval := PDict (to_payload {|
  r_adapter_id := ADAPTER_MANUAL; r_amount_minor := PInt 12500000; r_currency := PStr "USDC"; r_payee_did := PStr (toy_did "s");
  r_payer_did := PStr (toy_did "b"); r_tx_ref := ""; r_network := ""; r_proof := []; r_settled_at_ms := 50 |}).

Definition demo_opened : res (files * TradeEvent) := Eval vm_compute in
  append_event 100 100 ∅ demo_id (toy_identity "b") EVENT_TRADE_OPENED STATE_EXECUTING
    (trade_open_payload demo_order (PStr (toy_did "b")) (PStr (toy_did "b"))) true None.
Definition opened_files : files := match demo_opened with Ok (fs, _) => fs | Err _ => ∅ end.
Definition opened_event : TradeEvent := match demo_opened with Ok (_, e) => e | Err _ => from_dict [] end.

Definition demo_settled : res (files * TradeEvent) := Eval vm_compute in
  let* (fs, _) := submit_delivery 100 0 opened_files demo_id (toy_identity "s") (PDict [("uri", PStr "x")]) in
  let* (fs, _) := record_verification 100 0 fs demo_id (toy_identity "b") "pass" (PDict []) in
  record_settlement 100 0 fs demo_id (toy_identity "b") demo_settlement.
Definition settled_files : files := match demo_settled with Ok (fs, _) => fs | Err _ => ∅ end.
Definition settled_event : TradeEvent := match demo_settled with Ok (_, e) => e | Err _ => from_dict [] end.

Lemma demo_bound : verify_order_trade_binding 100 demo_orders settled_files demo_id = Ok (true, "ok").
Proof. unfold verify_order_trade_binding. rewrite demo_verified_order. vm_compute. reflexivity. Qed.

Lemma bound_settlement_pays_order_witness :
  exists e p buyer seller currency amount l intent cart payment s,
    get_order demo_orders (PStr demo_id) = Ok (Some e) /\
    order_evidence e p buyer seller currency amount l intent cart payment /\ within_limit intent currency amount /\
    (from_dict (to_dict settled_event)).(actor_did) = PStr buyer /\
    dict_get "settlement" [("settlement", demo_settlement)] = Some (PDict s) /\
    settlement_ok 100 s amount currency seller buyer.
Proof.
  apply (bound_settlement_pays_order 100 demo_orders settled_files demo_id "ok" (to_dict settled_event) _ demo_bound).
  - match goal with |- In ?x ?l => assert (nth 3 l PNone = x) as <- by (vm_compute; reflexivity) end.
    apply nth_In. apply Nat.ltb_lt. vm_compute. reflexivity.
  - vm_compute. reflexivity.
  - vm_compute. reflexivity.
Defined.

Lemma demo_orders_made : rtc order_step ∅ demo_orders.
Proof.
  destruct (checkout_creates _ _ _ _ _ _ _ _ _ _ _ demo_checked_out) as (h & pl & created & _ & Hc).
  by eapply rtc_once, step_create.
Qed.

Lemma demo_opening :
  open_commerce_trade 100 0 demo_orders ∅ ∅ demo_id (toy_identity "b") = Ok (opened_files, opened_event).
Proof. unfold open_commerce_trade. rewrite demo_verified_order. vm_compute. reflexivity. Qed.

Lemma opened_trade_is_bound_witness :
  opened_by_buyer 100 demo_orders opened_files demo_id (toy_did "b") opened_event.
Proof.
  assert (Forall wf (events_or_nil ∅ demo_id)) as Hw by (vm_compute; constructor).
  destruct (opened_trade_is_bound (L := toy_laws) 100 0 demo_orders ∅ ∅ demo_id (toy_identity "b") (toy_did "b")
    opened_files opened_event (toy_signer_of "b" eq_refl) demo_orders_made Hw (or_introl eq_refl) demo_opening)
    as [H|(H & _)]; [exact H|].
  apply (f_equal (fun fs : files => fs !! trade_path demo_id)) in H. vm_compute in H. discriminate H.
Defined.
