(* ===== verification/OrderView.v ===== *)
(** * Buyer and seller views ([nth_dao/commerce/projection.py])

    What a party sees of an order and its trade, built from the signed records
    after both have been verified. *)

From Stdlib Require Import ZArith Lia Ascii String.
From stdpp Require Import base list strings gmap.
From S2P Require Import Prelude PyStr PyValue PyDecimal PyDate CanonicalJson DidKey Sha256 Identity Store PyOps Projection Mandate Listing Settlement Order Trade OrderTrade.

Local Open Scope string_scope.
Local Open Scope Z_scope.

(** [_event_receipt] *)
Definition event_receipt (event : pyval) : res string := digest_of event.

(** The fields of a payload that a view shows. *)
Definition shown_fields (event_type : string) : list string :=
  if String.eqb event_type "delivery_submitted" then ["delivery"]
  else if String.eqb event_type "verification_recorded" then ["verdict"; "result"]
  else if String.eqb event_type "settlement_recorded" then ["settlement"]
  else if String.eqb event_type "dispute_opened" then ["reason"; "disputant_role"; "evidence"]
  else if String.eqb event_type "dispute_resolved" then ["resolution"; "rationale"; "settlement"]
  else [].

(** [_event_details] *)
Definition event_details (event : list (string * pyval)) : res pyval :=
  match get_or_none "payload" event with
  | PDict payload =>
    if negb (hashable (get_or_none "type" event)) then Err TypeError else
    Ok (PDict (omap (fun k => option_map (pair k) (dict_get k payload)) (shown_fields (text_value (get_or_none "type" event)))))
  | _ => Ok (PDict [])
  end.

(** [raw[key]] *)
Definition field (key : string) (raw : list (string * pyval)) : res pyval :=
  match dict_get key raw with Some v => Ok v | None => Err KeyError end.

(** The row of the order itself. *)
Definition order_row (e : OrderEvent) : res pyval :=
  let* receipt := event_receipt (PDict (Order.to_dict e)) in
  Ok (PDict [("seq", PInt 0); ("type", e.(Order.type)); ("actor_did", e.(Order.actor_did)); ("state", e.(Order.new_state));
             ("created_at_ms", e.(Order.created_at_ms)); ("receipt_id", PStr receipt)]).

Section OrderView.
Context `{Ed : Ed25519} `{D : IsoDates} `{U : UnicodeDigits} `{Rp : PyRepr} `{Ud : UnicodeDB}.

(** The row of an event of the trade. *)
Definition trade_row (raw : pyval) : res pyval :=
  match raw with
  | PDict d =>
    let* seq := field "seq" d in
    let* seq := py_int seq in
    let* type := field "type" d in
    let* actor := field "actor_did" d in
    let* state := field "new_state" d in
    let* created := field "created_at_ms" d in
    let* created := py_int created in
    let* receipt := event_receipt raw in
    let* details := event_details d in
    Ok (PDict [("seq", PInt (seq + 1)); ("type", PStr (py_str type)); ("actor_did", PStr (py_str actor));
               ("state", PStr (py_str state)); ("created_at_ms", PInt created); ("receipt_id", PStr receipt);
               ("details", details)])
  | _ => Err TypeError
  end.

(** The role of a viewer; [""] is nobody in particular. *)
Definition view_role (viewer_did : string) (buyer seller : pyval) : string :=
  if py_eqb (PStr viewer_did) buyer then "buyer" else if py_eqb (PStr viewer_did) seller then "seller" else "observer".

(** The dictionary that [project_order] returns. *)
Record OrderView := {
  v_order_id : string;
  v_role : string;
  v_state : string;
  v_buyer_did : pyval;
  v_seller_did : pyval;
  v_listing_id : pyval;
  v_listing_digest : pyval;
  v_listing_type : pyval;
  v_title : pyval;
  v_amount_minor : pyval;
  v_currency : pyval;
  v_settlement_method : pyval;
  v_created_at_ms : pyval;
  v_binding : string;
  v_events : list pyval
}.

(** The state, binding and rows of the trade, if it has been opened. *)
Definition project_trade (now : Z) (orders trades : files) (id : string) : res (string * string * list pyval) :=
  match events_or_nil trades id with
  | [] => Ok ("created", "not-opened", [])
  | events =>
    let* (ok, _) := verify_trade now trades id in
    if negb ok then Err CommerceProjectionRejected else
    let* (ok, _) := verify_order_trade_binding now orders trades id in
    if negb ok then Err CommerceProjectionRejected else
    let* state := trade_state trades id in
    let* rows := res_mapM trade_row events in
    Ok (match state with Some s => or_else s "created" | None => "created" end, "verified", rows)
  end.

(** [payload["authorization_snapshot"]["listing"]["title"]] of a verified order *)
Definition order_title (p : list (string * pyval)) : pyval :=
  match get_or_none "authorization_snapshot" p with
  | PDict snapshot => match get_or_none "listing" snapshot with PDict l => get_or_none "title" l | _ => PNone end
  | _ => PNone
  end.

(** [project_order] *)
Definition project_order (now : Z) (orders trades : files) (id viewer_did : string) : res OrderView :=
  let* order := get_order orders (PStr id) in
  match order with
  | None => Err CommerceProjectionRejected
  | Some order =>
    let p := payload_of order in
    let buyer := get_or_none "buyer_did" p in
    let seller := get_or_none "seller_did" p in
    if negb (String.eqb viewer_did "") && negb (py_eqb (PStr viewer_did) buyer || py_eqb (PStr viewer_did) seller)
    then Err CommerceProjectionRejected else
    let* first := order_row order in
    let* (sb, rows) := project_trade now orders trades id in
    Ok {| v_order_id := id; v_role := view_role viewer_did buyer seller; v_state := sb.1;
          v_buyer_did := buyer; v_seller_did := seller; v_listing_id := get_or_none "listing_id" p;
          v_listing_digest := get_or_none "listing_digest" p; v_listing_type := get_or_none "listing_type" p;
          v_title := order_title p; v_amount_minor := get_or_none "amount_minor" p;
          v_currency := get_or_none "currency" p; v_settlement_method := get_or_none "settlement_method" p;
          v_created_at_ms := order.(Order.created_at_ms); v_binding := sb.2; v_events := first :: rows |}
  end.

(** One iteration of the loop of [list_order_views]: [None] skips the order. *)
Definition list_view (now : Z) (orders trades : files) (viewer_did : string) (role : option string) (order : OrderEvent)
  : res (option OrderView) :=
  let p := payload_of order in
  let buyer := get_or_none "buyer_did" p in
  let seller := get_or_none "seller_did" p in
  let expected := match role with
                  | Some r => if String.eqb r "buyer" then buyer else if String.eqb r "seller" then seller else PStr ""
                  | None => PStr ""
                  end in
  if truthy expected && negb (py_eqb expected (PStr viewer_did)) then Ok None else
  if negb (py_eqb (PStr viewer_did) buyer || py_eqb (PStr viewer_did) seller) then Ok None else
  let* row := project_order now orders trades (text_value order.(Order.order_id)) viewer_did in Ok (Some row).

(** [list_order_views]; [stems] are the file names of the store, latest first *)
Definition list_order_views (now : Z) (orders trades : files) (viewer_did : string) (role : option string)
    (limit : pyval) (stems : list string) : res (list OrderView) :=
  if match role with Some r => negb (String.eqb r "buyer" || String.eqb r "seller") | None => false end
  then Err CommerceProjectionRejected else
  let* listed := list_verified orders limit stems in
  let* rows := res_mapM (list_view now orders trades viewer_did role) listed in
  Ok (omap id rows).
End OrderView.
