(* ===== verification/OrderViewSpec.v ===== *)
(** * What a view of an order promises

    A view is true: its amount is authorised, its role is the one its reader has
    in the order, and its rows are the stored trades bound to the order, each at
    the state its events lead to from the opening. *)

From Stdlib Require Import ZArith Lia Ascii String.
From stdpp Require Import base list strings gmap.
From S2P Require Import Prelude Digits PyStr PyValue PyDecimal PyDate CanonicalJson B64u DidKey Sha256 Money Identity Store PyOps Projection Mandate MandateSpec AmountSpec Listing Order OrderSpec Settlement Trade TradeSpec OrderTrade OrderTradeSpec OrderView.

Local Open Scope string_scope.
Local Open Scope Z_scope.

#[local] Arguments verify_order : simpl never.
#[local] Arguments verify_trade : simpl never.

(** The roles of a trade bound to an order: the seller delivers, everything else
    is up to the buyer. *)
Definition order_parties (buyer seller : string) : Parties := {|
  claimant_did := seller; publisher_did := buyer; verifier_did := buyer; settler_did := buyer; resolver_did := buyer |}.

(** A number equal to an [int] is read as it. *)
Lemma float_trunc_eq f z : float_eq_int f z = true -> float_trunc f = Some z.
Proof.
  unfold float_eq_int, float_trunc. destruct f as [s|s| |s m e]; try done; [by intros ->%Z.eqb_eq|].
  destruct (Z.leb_spec 0 e) as [He|He]; intros H%Z.eqb_eq; f_equal; [destruct s; lia|].
  pose proof (Z.pow_pos_nonneg 2 (- e) ltac:(lia) ltac:(lia)) as Hp.
  assert (Z.pos m = (if s then - z else z) * 2 ^ (- e)) as -> by (destruct s; lia).
  rewrite Z.div_mul by lia. destruct s; lia.
Qed.

Lemma py_int_eq v z : py_eqb v (PInt z) = true -> py_int v = Ok z.
Proof.
  destruct v as [|b|y|f|?|?|?|?]; cbn [py_eqb num_eqb int_of_num]; try done.
  - intros H%Z.eqb_eq. cbn [py_int]. by rewrite <- H.
  - intros H%Z.eqb_eq. cbn [py_int]. by rewrite H.
  - intros H%float_trunc_eq. cbn [py_int]. destruct f; try discriminate H; by rewrite H.
Qed.

Section View.
Context `{Ed : Ed25519} `{D : IsoDates} `{U : UnicodeDigits} `{Rp : PyRepr} `{Ud : UnicodeDB}.

Lemma or_else_name s d : or_else (state_name s) d = state_name s.
Proof. unfold or_else. by destruct s. Qed.

Lemma get_order_inv orders id e : get_order orders id = Ok (Some e) ->
  exists p buyer seller currency amount l intent cart payment,
    order_evidence e p buyer seller currency amount l intent cart payment /\ within_limit intent currency amount.
Proof.
  unfold get_order. intros H. apply res_bind_Ok in H as (events & Hg & H). destruct events as [v|]; [|done].
  destruct (negb _); [done|]. apply res_bind_Ok in H as ([ok w] & Hv & H). destruct ok; [|done].
  apply Ok_inj in H. injection H as <-. destruct (verify_order_inv _ _ Hv) as (d & p & b & s & c & a & l & i & ca & pay & -> & _ & He).
  exists p, b, s, c, a, l, i, ca, pay. split; [exact He|]. by eapply evidence_within_limit.
Qed.

(** The row of event number [n] of a trade, which records the move [m]: the
    event's own number, type, signer, state, time and digest, and the details
    of its payload that views show. *)
Definition row_of (id : string) (n : Z) (raw : pyval) (m : string * tstate) (row : pyval) : Prop :=
  signed_move id raw m /\
  exists d t created h details, raw = PDict d /\ (from_dict d).(type) = PStr t /\
    py_int (from_dict d).(created_at_ms) = Ok created /\ digest_of raw = Ok h /\ event_details d = Ok details /\
    row = PDict [("seq", PInt (n + 1)); ("type", PStr t); ("actor_did", PStr m.1); ("state", PStr (state_name m.2));
                 ("created_at_ms", PInt created); ("receipt_id", PStr h); ("details", details)].

(** The rows of consecutive events. *)
Inductive rows_of (id : string) : Z -> list pyval -> list (string * tstate) -> list pyval -> Prop :=
| rows_nil n : rows_of id n [] [] []
| rows_cons n raw m row events moves rows :
    row_of id n raw m row -> rows_of id (n + 1) events moves rows ->
    rows_of id n (raw :: events) (m :: moves) (row :: rows).

Lemma field_Ok k d v : field k d = Ok v -> get_or_none k d = v.
Proof. unfold field, get_or_none. destruct (dict_get k d); [by intros [= ->]|done]. Qed.

Lemma trade_row_of now id events n raw acc acc' m row :
  check_event now id events n raw acc = Ok acc' -> signed_move id raw m -> trade_row raw = Ok row ->
  row_of id n raw m row.
Proof.
  destruct acc as [p st], acc' as [p' st'].
  intros (d & pl & t & a & -> & Hk & Ei & Ep & _ & Hn & _ & _ & Et & _)%check_event_inv Hm H.
  split; [done|]. destruct Hm as (d' & r & [= <-] & _ & Ha & Hs & _). cbn [trade_row] in H.
  apply res_bind_Ok in H as (seq' & F1%field_Ok & H). apply res_bind_Ok in H as (z & Hz & H).
  apply res_bind_Ok in H as (ty & F2%field_Ok & H). apply res_bind_Ok in H as (ac & F3%field_Ok & H).
  apply res_bind_Ok in H as (ns & F4%field_Ok & H). apply res_bind_Ok in H as (cr & F5%field_Ok & H).
  apply res_bind_Ok in H as (created & Hc & H). apply res_bind_Ok in H as (h & Hh & H).
  apply res_bind_Ok in H as (details & Hd & H). apply Ok_inj in H as <-.
  cbn [from_dict seq type actor_did new_state created_at_ms] in *.
  rewrite F1 in Hn. apply py_int_eq in Hn. rewrite Hn in Hz. apply Ok_inj in Hz as <-.
  rewrite F2 in Et. rewrite F3 in Ha. rewrite F4 in Hs. subst ty ac ns.
  exists d, t, created, h, details. cbn [from_dict type created_at_ms]. rewrite F5, F2. done.
Qed.

Lemma trade_rows_of now id events : forall rest n acc acc' moves rows,
  check_events now id events n rest acc = Ok acc' -> Forall2 (signed_move id) rest moves ->
  res_mapM trade_row rest = Ok rows -> rows_of id n rest moves rows.
Proof.
  induction rest as [|raw rest IH]; intros n acc acc' moves rows H Hf Hr; inversion Hf; subst.
  - apply Ok_inj in Hr as <-. constructor.
  - cbn [check_events] in H. apply res_bind_Ok in H as (acc1 & C1 & C2). cbn [res_mapM] in Hr.
    apply res_bind_Ok in Hr as (row & Hrow & Hr). apply res_bind_Ok in Hr as (rows' & Hr & E).
    apply Ok_inj in E as <-. constructor; [by eapply trade_row_of|by eapply IH].
Qed.

(** The trade part of a view of an order between [buyer] and [seller]: the
    stored events are the signed records of the moves of a run that ends in
    the state shown, and the rows are theirs. *)
Definition shows_trade (now : Z) (orders trades : files) (id buyer seller state : string) (rows : list pyval) : Prop :=
  exists author tr s w, verify_order_trade_binding now orders trades id = Ok (true, w) /\
    trun (order_parties buyer seller) Executing tr s /\ state = state_name s /\
    rows_of id 0 (events_or_nil trades id) ((author, Executing) :: tr) rows.

Lemma project_trade_inv now orders trades id state binding rows :
  project_trade now orders trades id = Ok (state, binding, rows) ->
  (events_or_nil trades id = [] /\ state = "created" /\ binding = "not-opened" /\ rows = []) \/
  (binding = "verified" /\
   exists buyer seller e p currency amount l intent cart payment,
     get_order orders (PStr id) = Ok (Some e) /\
     order_evidence e p buyer seller currency amount l intent cart payment /\
     shows_trade now orders trades id buyer seller state rows).
Proof.
  unfold project_trade. destruct (events_or_nil trades id) as [|first rest] eqn:Ev; [intros [= <- <- <-]; by left|].
  intros H. right. apply res_bind_Ok in H as ([ok r] & Hv & H). destruct ok; [|done]. cbn [negb] in H.
  apply res_bind_Ok in H as ([ok w] & Hb & H). destruct ok; [|done]. cbn [negb] in H.
  apply res_bind_Ok in H as (st & Hst & H). apply res_bind_Ok in H as (rows' & Hrows & H). apply Ok_inj in H.
  injection H as <- <- <-. split; [done|]. pose proof Hb as Hb0.
  apply binding_inv in Hb as (e & p & b & sl & c & a & l & i & ca & pay & f & rs & opened & pl & r' &
    Hg & He & _ & Hev' & _ & Hop & [Hpl Hact (R1 & R2 & R3 & R4 & R5) _]).
  rewrite Ev in Hev'. injection Hev' as <- <-.
  destruct (verify_events_run _ _ _ _ Hv) as (op & rest' & ppl & au & tr & s & Ee & Hppl & Hmv & Hrun & Hf & Hcs & Hck).
  rewrite Ev in Ee. injection Ee as -> <-.
  assert (ppl = pl) as ->.
  { assert (pl <> []) as Hne by (by intros ->). pose proof (trade_event_of_payload _ _ _ Hop Hpl Hne) as H1.
    apply get_or_none_dict in Hppl; [|done]. unfold opening_payload in H1. rewrite Hppl in H1. by apply Ok_inj in H1. }
  assert (parties_of pl = order_parties b sl) as Ep.
  { assert (forall k v, get_or_none k pl = PStr v -> str_get k pl = v) as Hstr.
    { intros k v. unfold get_or_none, str_get. destruct (dict_get k pl); [by intros ->|done]. }
    unfold parties_of, order_parties. by rewrite (Hstr _ _ R1), (Hstr _ _ R2), (Hstr _ _ R3), (Hstr _ _ R4), (Hstr _ _ R5). }
  rewrite Ep in Hrun. exists b, sl, e, p, c, a, l, i, ca, pay. split_and!; [done..|].
  exists au, tr, s, w. split_and!; try done.
  - unfold trade_state in Hst. unfold events_or_nil in Ev, Hcs. destruct (get_events trades id) as [evs|]; [|done].
    rewrite Hcs in Hst. cbn in Hst. apply Ok_inj in Hst as <-. apply or_else_name.
  - rewrite Ev in Hck. rewrite Ev. eapply trade_rows_of; [exact Hck|by constructor|exact Hrows].
Qed.

Lemma evidence_seller e p buyer seller currency amount l intent cart payment :
  order_evidence e p buyer seller currency amount l intent cart payment -> seller <> "".
Proof.
  intros He ->. pose proof (oe_texts _ _ _ _ _ _ _ _ _ _ He) as H. pose proof (oe_seller _ _ _ _ _ _ _ _ _ _ He) as Hb.
  unfold texts_present in H. rewrite forallb_forall in H. specialize (H "seller_did" ltac:(cbn; tauto)).
  by rewrite Hb in H.
Qed.

(** The role of an admitted viewer. *)
Definition plays (viewer buyer seller role : string) : Prop :=
  (viewer = buyer /\ role = "buyer") \/ (viewer = seller /\ viewer <> buyer /\ role = "seller") \/
  (viewer = "" /\ role = "observer").

Lemma view_role_plays viewer buyer seller :
  buyer <> "" -> seller <> "" -> viewer = "" \/ viewer = buyer \/ viewer = seller ->
  plays viewer buyer seller (view_role viewer (PStr buyer) (PStr seller)).
Proof.
  intros Hb Hs Hv. unfold plays, view_role. cbn [py_eqb].
  destruct (String.eqb_spec viewer buyer) as [E|Hnb]; [by left|].
  destruct (String.eqb_spec viewer seller) as [E|Hns]; [by right; left|]. right. right. naive_solver.
Qed.
End View.

(** ** Properties *)

Section Properties.
Context `{Ed : Ed25519} `{D : IsoDates} `{U : UnicodeDigits} `{Rp : PyRepr} `{Ud : UnicodeDB}.

(** C8. What a party sees is true.  A view that [project_order] returns to a
    viewer is of a verified, authorised order to which the viewer is a party
    (or an unnamed observer), and names the role the viewer plays; its buyer,
    seller, amount, currency, listing and settlement method are those of the
    order, whose own row comes first. Either no trade has been opened, the state
    is "created" and there is no other row; or the trade is bound to the order,
    its stored events are the signed records of the moves of a run in which the
    seller delivers and the buyer accepts, settles or rules, the state shown is
    where that very run has arrived, and each event has its row, in order, with
    its number, type, signer, state, time, digest and public details. *)
Theorem view_is_true now orders trades id viewer v :
  project_order now orders trades id viewer = Ok v ->
  exists e p buyer seller currency amount l intent cart payment first rows,
    get_order orders (PStr id) = Ok (Some e) /\
    order_evidence e p buyer seller currency amount l intent cart payment /\ within_limit intent currency amount /\
    plays viewer buyer seller v.(v_role) /\ v.(v_order_id) = id /\
    v.(v_buyer_did) = PStr buyer /\ v.(v_seller_did) = PStr seller /\
    v.(v_amount_minor) = PInt amount /\ v.(v_currency) = PStr currency /\
    v.(v_listing_id) = get_or_none "listing_id" p /\ v.(v_listing_digest) = get_or_none "listing_digest" p /\
    v.(v_settlement_method) = get_or_none "settlement_method" p /\
    order_row e = Ok first /\ v.(v_events) = first :: rows /\
    ((events_or_nil trades id = [] /\ v.(v_state) = "created" /\ v.(v_binding) = "not-opened" /\ rows = []) \/
     (v.(v_binding) = "verified" /\ shows_trade now orders trades id buyer seller v.(v_state) rows)).
Proof.
  unfold project_order. intros H. apply res_bind_Ok in H as (order & Hg & H). destruct order as [e|]; [|done].
  destruct (get_order_inv _ _ _ Hg) as (p & b & sl & c & a & l & i & ca & pay & He & Hl).
  assert (payload_of e = p) as Ep by (unfold payload_of; by rewrite (oe_payload _ _ _ _ _ _ _ _ _ _ He)).
  rewrite Ep, (oe_buyer _ _ _ _ _ _ _ _ _ _ He), (oe_seller _ _ _ _ _ _ _ _ _ _ He) in H.
  destruct (_ && _) eqn:Eview; [done|]. apply res_bind_Ok in H as (row & Hrow & H).
  apply res_bind_Ok in H as ([[state binding] rows] & Ht & H). apply Ok_inj in H. subst v.
  cbn [v_role v_order_id v_buyer_did v_seller_did v_amount_minor v_currency v_listing_id v_listing_digest
       v_settlement_method v_events v_state v_binding fst snd].
  exists e, p, b, sl, c, a, l, i, ca, pay, row, rows. split_and!; try done.
  - apply view_role_plays; [by eapply evidence_buyer|by eapply evidence_seller|].
    apply andb_false_iff in Eview as [E|E]; bool_to_prop; [by left|]. right.
    apply orb_true_iff in E as [E|E]; cbn in E; apply String.eqb_eq in E; auto.
  - by apply (oe_amount _ _ _ _ _ _ _ _ _ _ He).
  - by apply (oe_currency _ _ _ _ _ _ _ _ _ _ He).
  - destruct (project_trade_inv _ _ _ _ _ _ _ Ht) as [(H1 & H2 & H3 & ->)|(H2 & b' & sl' & e' & p' & c' & a' & l' & i' & ca' & pay' & Hg' & He' & Hsh)].
    + by left.
    + right. rewrite Hg in Hg'. apply Ok_inj in Hg'. injection Hg' as <-.
      pose proof (oe_payload _ _ _ _ _ _ _ _ _ _ He) as E1. rewrite (oe_payload _ _ _ _ _ _ _ _ _ _ He') in E1. injection E1 as ->.
      pose proof (oe_buyer _ _ _ _ _ _ _ _ _ _ He) as E1. rewrite (oe_buyer _ _ _ _ _ _ _ _ _ _ He') in E1. injection E1 as ->.
      pose proof (oe_seller _ _ _ _ _ _ _ _ _ _ He) as E1. rewrite (oe_seller _ _ _ _ _ _ _ _ _ _ He') in E1. injection E1 as ->.
      done.
Qed.
End Properties.

(** ** Examples *)

#[local] Existing Instance toy_ed25519.
#[local] Existing Instance toy_laws.
#[local] Existing Instance iso_grammar.
#[local] Existing Instance no_wide_digits.
#[local] Existing Instance OrderTradeSpec.toy_repr.
#[local] Existing Instance OrderTradeSpec.toy_unicode.

Lemma demo_get_order : get_order demo_orders (PStr demo_id) = Ok (Some demo_order).
Proof. by apply verified_order_inv, demo_verified_order. Qed.

Definition demo_rows : list pyval := Eval vm_compute in
  match order_row demo_order, res_mapM trade_row (events_or_nil settled_files demo_id) with
  | Ok row, Ok rows => row :: rows | _, _ => [] end.
Definition demo_view : OrderView :=
  let p := payload_of demo_order in
  {| v_order_id := demo_id; v_role := "seller"; v_state := "settled"; v_buyer_did := get_or_none "buyer_did" p;
     v_seller_did := get_or_none "seller_did" p; v_listing_id := get_or_none "listing_id" p;
     v_listing_digest := get_or_none "listing_digest" p; v_listing_type := get_or_none "listing_type" p;
     v_title := order_title p; v_amount_minor := get_or_none "amount_minor" p; v_currency := get_or_none "currency" p;
     v_settlement_method := get_or_none "settlement_method" p; v_created_at_ms := demo_order.(Order.created_at_ms);
     v_binding := "verified"; v_events := demo_rows |}.

Lemma demo_viewed : project_order 100 demo_orders settled_files demo_id (toy_did "s") = Ok demo_view.
Proof.
  unfold project_order, project_trade. rewrite demo_get_order, demo_bound. vm_compute. reflexivity.
Qed.

Lemma view_is_true_witness :
  exists e p buyer seller currency amount l intent cart payment first rows,
    get_order demo_orders (PStr demo_id) = Ok (Some e) /\
    order_evidence e p buyer seller currency amount l intent cart payment /\ within_limit intent currency amount /\
    plays (toy_did "s") buyer seller demo_view.(v_role) /\ demo_view.(v_order_id) = demo_id /\
    demo_view.(v_buyer_did) = PStr buyer /\ demo_view.(v_seller_did) = PStr seller /\
    demo_view.(v_amount_minor) = PInt amount /\ demo_view.(v_currency) = PStr currency /\
    demo_view.(v_listing_id) = get_or_none "listing_id" p /\ demo_view.(v_listing_digest) = get_or_none "listing_digest" p /\
    demo_view.(v_settlement_method) = get_or_none "settlement_method" p /\
    order_row e = Ok first /\ demo_view.(v_events) = first :: rows /\
    ((events_or_nil settled_files demo_id = [] /\ demo_view.(v_state) = "created" /\ demo_view.(v_binding) = "not-opened" /\
      rows = []) \/
     (demo_view.(v_binding) = "verified" /\
      shows_trade 100 demo_orders settled_files demo_id buyer seller demo_view.(v_state) rows)).
Proof. exact (view_is_true 100 demo_orders settled_files demo_id (toy_did "s") demo_view demo_viewed). Defined.

(** The time of an event is read, as an [int], by the views only: a delivery
    without one, validly signed by the seller, passes every verifier and makes
    the views of the order raise. *)
Definition timeless_delivery : TradeEvent := {|
  trade_id := PStr demo_id; seq := PInt 1; type := PStr EVENT_DELIVERY_SUBMITTED; actor_did := PStr (toy_did "s");
  prev_state := PStr STATE_EXECUTING; new_state := PStr STATE_DELIVERED; payload := PDict [("delivery", PDict [])];
  created_at_ms := PNone; kind := PStr NTH_TRADE_EVENT_KIND; event_sig := PStr "" |}.
Definition timeless_chain : list pyval := Eval vm_compute in
  match sign_trade_event (toy_identity "s") timeless_delivery with
  | Ok e => [PDict (to_dict opened_event); PDict (to_dict e)]
  | Err _ => []
  end.
Definition timeless_files : files := Eval vm_compute in
  match import_verified_events 100 opened_files demo_id (PList timeless_chain) with Ok (fs, _) => fs | Err _ => ∅ end.

Theorem timeless_event_hides_views :
  verify_trade 100 timeless_files demo_id = Ok (true, "") /\
  verify_order_trade_binding 100 demo_orders timeless_files demo_id = Ok (true, "ok") /\
  project_order 100 demo_orders timeless_files demo_id (toy_did "b") = Err TypeError.
Proof.
  assert (verify_order_trade_binding 100 demo_orders timeless_files demo_id = Ok (true, "ok")) as Hb.
  { unfold verify_order_trade_binding. rewrite demo_verified_order. vm_compute. reflexivity. }
  split_and!; [vm_compute; reflexivity|exact Hb|].
  unfold project_order, project_trade. rewrite demo_get_order, Hb. vm_compute. reflexivity.
Qed.
