(* ===== verification/SettleTrade.v ===== *)
(** * Settling a trade ([settle_trade] of [nth_dao/commerce/settlement.py])

    The one operation that crosses the trade store and a payment rail: it
    audits the signed chain, compares the payment intent with the signed terms,
    and only then lets the adapter touch the rail. *)

From Stdlib Require Import ZArith Lia Ascii String.
From stdpp Require Import base list strings gmap.
From S2P Require Import Prelude Digits PyStr PyValue Json CanonicalJson B64u DidKey Sha256 Identity Store Settlement Trade TradeSpec.

Local Open Scope string_scope.
Local Open Scope Z_scope.

(** The [SettlementAdapter] protocol over a rail state [St]. *)
Record SettlementAdapter (St : Type) := {
  adapter_id : pyval;
  adapter_settle : Z -> SettlementIntent -> St -> St * res SettlementResult
}.
Arguments adapter_id {St}.
Arguments adapter_settle {St}.

Definition ManualSettlementAdapter (St : Type) : SettlementAdapter St := {|
  adapter_id := PStr ADAPTER_MANUAL;
  adapter_settle now i s := (s, manual_settle now i) |}.

Definition X402SettlementAdapter {St} (R : PaymentRail St) : SettlementAdapter St := {|
  adapter_id := PStr ADAPTER_X402_TESTNET;
  adapter_settle := x402_settle R |}.

Section SettleTrade.
Context `{Ed : Ed25519} `{Rp : PyRepr} `{U : UnicodeDB}.
Context {St : Type}.

(** x402 pays from the publisher bound by the trade. *)
Definition payer_bound (p : Parties) (i : SettlementIntent) : bool :=
  negb (String.eqb p.(publisher_did) "") && py_eqb i.(payer_did) (PStr p.(publisher_did)).

(** The stored settlement of a trade that is already settled, when it is the
    settlement of this very intent. *)
Definition matching_retry (events : list pyval) (adapter_id : string) (i : SettlementIntent) : res bool :=
  match last events with
  | Some (PDict raw) =>
    match get_or_none "payload" raw with
    | PDict payload =>
      match get_or_none "settlement" payload with
      | PDict settlement =>
        match get_or_none "proof" settlement with
        | PDict proof =>
          let* key := settlement_idempotency_key i in
          Ok (py_eqb (get_or_none "type" raw) (PStr EVENT_SETTLEMENT_RECORDED) &&
              py_eqb (get_or_none "idempotency_key" proof) (PStr key) &&
              py_eqb (get_or_none "adapter_id" settlement) (PStr adapter_id) &&
              py_eqb (get_or_none "amount_minor" settlement) i.(amount_minor) &&
              py_eqb (get_or_none "currency" settlement) i.(currency) &&
              py_eqb (get_or_none "payee_did" settlement) i.(payee_did) &&
              py_eqb (get_or_none "payer_did" settlement) i.(payer_did))
        | _ => let* _ := settlement_idempotency_key i in Ok false
        end
      | _ => let* _ := settlement_idempotency_key i in Ok false
      end
    | _ => let* _ := settlement_idempotency_key i in Ok false
    end
  | _ => let* _ := settlement_idempotency_key i in Ok false
  end.

(** The comparison of the intent with the signed terms. *)
Definition terms_match (terms : option (list (string * pyval))) (i : SettlementIntent) : res unit :=
  match terms with
  | None => Ok tt
  | Some t =>
    let amount_ok := match safe_int (get_or_none "amount_minor" t) with
                     | Some z => py_eqb (PInt z) i.(amount_minor)
                     | None => py_eqb PNone i.(amount_minor)
                     end in
    if negb amount_ok then settlement_failed "settlement-amount-mismatch" else
    if negb (py_eqb (PStr (safe_str (get_or_none "currency" t))) i.(currency)) then
      settlement_failed "settlement-currency-mismatch" else
    if negb (py_eqb (PStr (safe_str (get_or_none "payee_did" t))) i.(payee_did)) then
      settlement_failed "settlement-payee-mismatch" else
    Ok tt
  end.

Inductive preflight_result :=
| AlreadySettled (e : TradeEvent)
| Proceed.

(** Everything [settle_trade] does before the adapter runs. *)
Definition preflight (now : Z) (fs : files) (id : string) (settler : AgentIdentity)
    (declared_adapter : pyval) (i : SettlementIntent) : res preflight_result :=
  let* _ := validate i in
  if negb (py_eqb i.(Settlement.trade_id) (PStr id)) then settlement_failed "settlement-trade-mismatch" else
  let events := events_or_nil fs id in
  match events with
  | [] => settlement_failed "settlement-trade-not-found"
  | _ =>
    let* (ok, reason) := verify_trade now fs id in
    if negb ok then settlement_failed reason else
    let* p := parties events in
    let* did := as_did settler in
    if negb (String.eqb did p.(settler_did)) then settlement_failed "settlement-wrong-settler" else
    let* state := trade_state fs id in
    let adapter_id := safe_str declared_adapter in
    if bool_decide (state = Some STATE_SETTLED) && String.eqb adapter_id ADAPTER_X402_TESTNET then
      if negb (payer_bound p i) then settlement_failed "settlement-payer-mismatch" else
      let* matches := matching_retry events adapter_id i in
      if matches then
        let* (ok, reason) := verify_trade now fs id in
        if negb ok then settlement_failed reason else
        match last events with
        | Some (PDict raw) => Ok (AlreadySettled (from_dict raw))
        | _ => settlement_failed "settlement-bad-state"
        end
      else settlement_failed "settlement-bad-state"
    else
    if negb (bool_decide (state = Some STATE_VERIFIED)) then settlement_failed "settlement-bad-state" else
    let* terms := trade_terms events in
    let* _ := terms_match terms i in
    if String.eqb adapter_id ADAPTER_X402_TESTNET && negb (payer_bound p i) then
      settlement_failed "settlement-payer-mismatch" else
    Ok Proceed
  end.

(** [settle_trade]: the new store and rail state, and the recorded event *)
Definition settle_trade (now override : Z) (fs : files) (id : string) (settler : AgentIdentity)
    (adapter : SettlementAdapter St) (i : SettlementIntent) (s : St)
  : files * St * res TradeEvent :=
  match preflight now fs id settler adapter.(adapter_id) i with
  | Err e => (fs, s, Err e)
  | Ok (AlreadySettled e) => (fs, s, Ok e)
  | Ok Proceed =>
    match adapter.(adapter_settle) now i s with
    | (s, Err e) => (fs, s, Err e)
    | (s, Ok r) =>
      match record_settlement now override fs id settler (PDict (to_payload r)) with
      | Err e => (fs, s, Err e)
      | Ok (fs, ev) => (fs, s, Ok ev)
      end
    end
  end.
End SettleTrade.

(** ** Lemmas *)

#[local] Opaque verify_settlement.

Section Lemmas.
Context `{Ed : Ed25519} `{Rp : PyRepr} `{U : UnicodeDB}.

(** The intent agrees with the signed terms. *)
Definition agrees (t : list (string * pyval)) (i : SettlementIntent) : Prop :=
  exists amt cur payee, i.(amount_minor) = PInt amt /\ i.(currency) = PStr cur /\
    i.(payee_did) = PStr payee /\ get_or_none "amount_minor" t = PInt amt /\
    str_get "currency" t = cur /\ str_get "payee_did" t = payee.

Lemma safe_str_str_get k t s : PStr (safe_str (get_or_none k t)) = PStr s -> s <> "" -> str_get k t = s.
Proof.
  unfold get_or_none, str_get. intros [= <-] Hne.
  destruct (dict_get k t) as [[]|]; simpl in *; done.
Qed.

Lemma settlement_did_nonempty s : settlement_did s = true -> s <> "".
Proof. by intros H ->. Qed.

Lemma terms_match_agrees t i u v :
  validate i = Ok u -> terms_match (Some t) i = Ok v -> t <> [] /\ agrees t i.
Proof.
  intros (tid & c & pe & pr & m & n & -> & Hn & Hc & Hpe & Hpr)%validate_fields H.
  unfold terms_match in H. cbn [amount_minor currency payee_did] in H.
  destruct (safe_int (get_or_none "amount_minor" t)) as [z|] eqn:Ez; [|done].
  destruct (py_eqb (PInt z) (PInt n)) eqn:E1; [|done]. cbn [negb] in H.
  destruct (py_eqb (PStr _) (PStr c)) eqn:E2; [|done]. cbn [negb] in H.
  destruct (py_eqb (PStr _) (PStr pe)) eqn:E3; [|done].
  apply py_eqb_PStr_r in E2, E3. simpl in E1. apply Z.eqb_eq in E1 as ->.
  unfold safe_int, as_int in Ez.
  destruct (get_or_none "amount_minor" t) as [| |z| | | | |] eqn:Ea; try done. injection Ez as ->.
  split; [by intros ->|]. exists n, c, pe. split_and!; try done.
  - apply safe_str_str_get; [done|]. intros ->. apply str_in_In in Hc. simpl in Hc. intuition discriminate.
  - apply safe_str_str_get; [done|by apply settlement_did_nonempty].
Qed.

Lemma preflight_facts now fs id settler declared i :
  preflight now fs id settler declared i = Ok Proceed ->
  exists p terms, verify_trade now fs id = Ok (true, "") /\ parties (events_or_nil fs id) = Ok p /\
    as_did settler = Ok p.(settler_did) /\ trade_state fs id = Ok (Some STATE_VERIFIED) /\
    validate i = Ok tt /\ i.(Settlement.trade_id) = PStr id /\
    trade_terms (events_or_nil fs id) = Ok terms /\ terms_match terms i = Ok tt /\
    (declared = PStr ADAPTER_X402_TESTNET ->
     p.(publisher_did) <> "" /\ i.(payer_did) = PStr p.(publisher_did)).
Proof.
  unfold preflight. intros H. apply res_bind_Ok in H as ([] & Hv & H).
  destruct (py_eqb _ (PStr id)) eqn:Eid; [|done]. cbn [negb] in H. apply py_eqb_PStr_r in Eid.
  destruct (events_or_nil fs id) as [|x l] eqn:Ee; [done|].
  apply res_bind_Ok in H as ([ok r] & Hver & H). destruct ok; [|done]. cbn [negb] in H.
  apply res_bind_Ok in H as (p & Hp & H). apply res_bind_Ok in H as (did & Hd & H).
  destruct (String.eqb_spec did (settler_did p)) as [->|]; [|done]. cbn [negb] in H.
  apply res_bind_Ok in H as (state & Hst & H).
  destruct (bool_decide (state = Some STATE_SETTLED) && _) eqn:Ebr.
  { destruct (negb (payer_bound p i)); [done|]. apply res_bind_Ok in H as (m & _ & H).
    destruct m; [|done]. apply res_bind_Ok in H as ([ok' r'] & _ & H). destruct ok'; [|done].
    cbn [negb] in H. by destruct (last (x :: l)) as [[]|]. }
  destruct (bool_decide (state = Some STATE_VERIFIED)) eqn:Es; [|done]. cbn [negb] in H.
  apply bool_decide_eq_true_1 in Es as ->.
  apply res_bind_Ok in H as (terms & Ht & H). apply res_bind_Ok in H as ([] & Hm & H).
  destruct (_ && negb (payer_bound p i)) eqn:Eb; [done|].
  exists p, terms. split_and!; try done.
  - unfold verify_trade in *. by eapply (verify_events_later now now); [lia|].
  - intros ->. simpl in Eb. apply negb_false_iff in Eb. unfold payer_bound in Eb.
    apply andb_true_iff in Eb as [Eb1 Eb2%py_eqb_PStr_r]. by apply negb_true_iff, String.eqb_neq in Eb1.
Qed.

Lemma check_of_settlement_ok now s terms p amt cur payee :
  get_or_none "amount_minor" terms = PInt amt -> str_get "currency" terms = cur ->
  str_get "payee_did" terms = payee -> settlement_ok now s amt cur payee p.(publisher_did) ->
  check_settlement now terms p [("settlement", PDict s)] = Ok tt.
Proof.
  intros Ha Hc Hp Hok. unfold check_settlement.
  change (dict_get "settlement" [("settlement", PDict s)]) with (Some (PDict s)). cbv iota.
  rewrite Ha, Hc, Hp. by rewrite (verify_settlement_complete _ _ _ _ _ _ Hok).
Qed.

Lemma state_of_settled now fs id actor did fs' ev p settlement ov `{L : !Ed25519Laws Ed} :
  signer actor did -> record_settlement now ov fs id actor settlement = Ok (fs', ev) ->
  parties (events_or_nil fs id) = Ok p ->
  check_terms now (events_or_nil fs id) EVENT_SETTLEMENT_RECORDED [("settlement", settlement)] p = Ok tt ->
  verify_trade now fs' id = Ok (true, "") /\ trade_state fs' id = Ok (Some STATE_SETTLED).
Proof.
  intros Hs H Hp Hc. pose proof H as H'. unfold record_settlement in H'. rewrite Hp in H'. cbn [res_bind] in H'.
  destruct (append_event_inv _ _ _ _ _ _ _ _ _ _ _ _ H') as (did' & prev & _ & _ & _ & _ & Hsig & _ & Hfs).
  cbn zeta in *.
  assert (ev.(new_state) = PStr STATE_SETTLED) as En.
  { unfold sign_trade_event in Hsig. apply res_bind_Ok in Hsig as (? & _ & Hsig).
    apply res_bind_Ok in Hsig as (? & _ & Hsig). by apply Ok_inj in Hsig as <-. }
  destruct (later_op now (clock ov now) fs id actor did EVENT_SETTLEMENT_RECORDED STATE_SETTLED
    [("settlement", settlement)] p [p.(settler_did)] fs' ev) as [_ Hv]; try done.
  unfold verify_trade, trade_state, events_or_nil at 1. rewrite Hfs, get_events_written.
  split; [done|]. rewrite current_state_snoc. unfold current_state, str_get. simpl. by rewrite En.
Qed.

(** A successful recording of a result that agrees with the intent. *)
Lemma record_result now ov fs id settler did fs' ev i r p terms amt cur payee payer `{L : !Ed25519Laws Ed} :
  signer settler did -> parties (events_or_nil fs id) = Ok p ->
  trade_terms (events_or_nil fs id) = Ok terms -> validate i = Ok tt -> terms_match terms i = Ok tt ->
  i.(amount_minor) = PInt amt -> i.(currency) = PStr cur -> i.(payee_did) = PStr payee ->
  payer = p.(publisher_did) ->
  settlement_ok now (to_payload r) amt cur payee payer ->
  record_settlement now ov fs id settler (PDict (to_payload r)) = Ok (fs', ev) ->
  verify_trade now fs' id = Ok (true, "") /\ trade_state fs' id = Ok (Some STATE_SETTLED).
Proof.
  intros Hs Hp Ht Hv Hm Ha Hc He -> Hok H. eapply state_of_settled; eauto.
  unfold check_terms. rewrite Ht.
  change (EVENT_SETTLEMENT_RECORDED =? EVENT_SETTLEMENT_RECORDED)%string with true. cbn [res_bind].
  destruct terms as [[|x t]|]; try done.
  destruct (terms_match_agrees _ _ _ _ Hv Hm) as (_ & a' & c' & e' & Ea & Ec & Ee & Ga & Gc & Ge).
  rewrite Ha in Ea. rewrite Hc in Ec. rewrite He in Ee. simplify_eq.
  eapply check_of_settlement_ok; eauto.
Qed.
End Lemmas.

(** ** Properties *)

Section Properties.
Context `{Ed : Ed25519} `{Rp : PyRepr} `{U : UnicodeDB}.
Context {St : Type}.

(** C26.  Nothing is paid or recorded unless the whole preflight holds: if a call
    changes the store or the rail in any way, then the stored chain verified,
    the caller is the bound settler, the trade was in state [verified], the
    intent is for this trade and agrees with the signed terms, and for x402
    the payer is the publisher. *)
Theorem settle_trade_checks_first now ov fs id settler (adapter : SettlementAdapter St) i s fs' s' r :
  settle_trade now ov fs id settler adapter i s = (fs', s', r) ->
  (fs' = fs /\ s' = s) \/
  exists p, verify_trade now fs id = Ok (true, "") /\ parties (events_or_nil fs id) = Ok p /\
    as_did settler = Ok p.(settler_did) /\ trade_state fs id = Ok (Some STATE_VERIFIED) /\
    i.(Settlement.trade_id) = PStr id /\
    (forall t, trade_terms (events_or_nil fs id) = Ok (Some t) -> agrees t i) /\
    (adapter.(adapter_id) = PStr ADAPTER_X402_TESTNET ->
     p.(publisher_did) <> "" /\ i.(payer_did) = PStr p.(publisher_did)).
Proof.
  unfold settle_trade.
  destruct (preflight now fs id settler (adapter_id adapter) i) as [[e|]|e] eqn:Epre.
  - intros H. injection H as <- <- _. by left.
  - intros _. right.
    destruct (preflight_facts _ _ _ _ _ _ Epre) as (p & terms & Hv & Hp & Hd & Hs & Hval & Hid & Ht & Hm & Hx).
    exists p. split_and!; try done. intros t Ht'. rewrite Ht in Ht'. apply Ok_inj in Ht' as ->.
    by apply (terms_match_agrees _ _ _ _ Hval Hm).
  - intros H. injection H as <- <- _. by left.
Qed.

Context `{L : !Ed25519Laws Ed}.

(** Settling works: over a rail that keeps its promises, a successful x402
    settlement of a verified trade by its settler leaves the trade settled
    with a chain that verifies, and the payment committed under the intent's
    key, provided the rail's proof with the key added fits the proof limits. *)
Theorem settle_trade_settles (R : PaymentRail St) committed now ov fs id settler did i s fs' s' ev :
  RailLaws R committed -> signer settler did -> 0 < now ->
  settle_trade now ov fs id settler (X402SettlementAdapter R) i s = (fs', s', Ok ev) ->
  trade_state fs id = Ok (Some STATE_VERIFIED) ->
  (forall r, (x402_settle R now i s).2 = Ok r ->
     exists n, proof_encoded_size (PDict r.(r_proof)) = Ok n) ->
  verify_trade now fs' id = Ok (true, "") /\ trade_state fs' id = Ok (Some STATE_SETTLED) /\
  exists key v, settlement_idempotency_key i = Ok key /\ dict_get key (committed s') = Some v.
Proof.
  intros LR Hs Hnow H Hst Hfit. unfold settle_trade in H.
  destruct (preflight now fs id settler _ i) as [[e|]|e] eqn:Epre; [|clear Hst|done].
  { exfalso. revert Epre. unfold preflight. intros Hp. apply res_bind_Ok in Hp as (? & _ & Hp).
    destruct (negb _); [done|]. destruct (events_or_nil fs id) as [|ev0 l]; [done|].
    apply res_bind_Ok in Hp as ([ok r] & _ & Hp). destruct ok; [|done]. cbn [negb] in Hp.
    apply res_bind_Ok in Hp as (p & _ & Hp). apply res_bind_Ok in Hp as (d & _ & Hp).
    destruct (negb _); [done|]. rewrite Hst in Hp. cbn [res_bind] in Hp.
    change (bool_decide (Some STATE_VERIFIED = Some STATE_SETTLED)) with false in Hp.
    cbn [andb] in Hp. inv_guards Hp. }
  destruct (preflight_facts _ _ _ _ _ _ Epre) as (p & terms & Hv & Hp & Hd & _ & Hval & Hid & Ht & Hm & Hx).
  destruct (Hx eq_refl) as [Hne Hpay]. cbn [X402SettlementAdapter adapter_settle] in H.
  pose proof (settle_Ok_committed R committed now i s) as Hcom.
  destruct (x402_settle R now i s) as [s1 [r|e]] eqn:Ex; [|done]. simpl in Hcom, Hfit.
  destruct (Hcom r eq_refl) as (key & v & net & Hkey & Hnet & Hget & Hres).
  destruct (Hfit r eq_refl) as [n Hn].
  destruct (record_settlement now ov fs id settler (PDict (to_payload r))) as [[fs1 ev1]|] eqn:Er; [|done].
  injection H as <- <- <-.
  pose proof Hval as Hval'. apply validate_fields in Hval'
    as (tid & c & pe & pr & m & a & -> & Ha & _). cbn [payer_did] in Hpay. injection Hpay as ->.
  assert (settlement_ok now (to_payload r) a c pe (publisher_did p)) as Hok.
  { eapply (x402_result_ok now now); eauto using x402_network_Ok. split; [done|].
    pose proof (eq_refl : MAX_SETTLEMENT_FUTURE_SKEW_MS = 5 * 60 * 1000). lia. }
  destruct (record_result now ov fs id settler did fs1 ev1 _ r p terms a c pe _ Hs Hp Ht Hval Hm
              eq_refl eq_refl eq_refl eq_refl Hok Er) as [H1 H2].
  split_and!; try done. by exists key, v.
Qed.
End Properties.

(** ** Examples *)

#[local] Existing Instance toy_ed25519.
#[local] Existing Instance toy_laws.
#[local] Existing Instance toy_repr.
#[local] Existing Instance toy_unicode.

Definition demo_intent (payer : string) : SettlementIntent := {|
  Settlement.trade_id := PStr "t1"; amount_minor := PInt 5; currency := PStr "USDC";
  payee_did := PStr (toy_did "c"); payer_did := PStr payer; memo := PStr "" |}.

Definition demo_x402 (payer : string) : files * FakeState * res TradeEvent :=
  settle_trade 100 0 (files_of demo_verified) "t1" (toy_identity "p")
    (X402SettlementAdapter (FakePaymentRail working_config)) (demo_intent payer) sample_state.

Definition ok_event (m : res TradeEvent) : TradeEvent :=
  match m with Ok e => e | Err _ => from_dict [] end.

Lemma settle_trade_checks_first_witness :
  (demo_x402 (toy_did "p")).1.2 <> sample_state /\
  (((demo_x402 (toy_did "p")).1.1 = files_of demo_verified /\ (demo_x402 (toy_did "p")).1.2 = sample_state) \/
   exists p, verify_trade 100 (files_of demo_verified) "t1" = Ok (true, "") /\
    parties (events_or_nil (files_of demo_verified) "t1") = Ok p /\
    as_did (toy_identity "p") = Ok p.(settler_did) /\
    trade_state (files_of demo_verified) "t1" = Ok (Some STATE_VERIFIED) /\
    (demo_intent (toy_did "p")).(Settlement.trade_id) = PStr "t1" /\
    (forall t, trade_terms (events_or_nil (files_of demo_verified) "t1") = Ok (Some t) ->
       agrees t (demo_intent (toy_did "p"))) /\
    (PStr ADAPTER_X402_TESTNET = PStr ADAPTER_X402_TESTNET -> p.(publisher_did) <> "" /\
       (demo_intent (toy_did "p")).(payer_did) = PStr p.(publisher_did))).
Proof.
  split.
  - assert (List.length (demo_x402 (toy_did "p")).1.2.(calls) = 1%nat) as H1 by (vm_compute; reflexivity).
    intros H. rewrite H in H1. discriminate H1.
  - apply (settle_trade_checks_first 100 0 (files_of demo_verified) "t1" (toy_identity "p")
      (X402SettlementAdapter (FakePaymentRail working_config)) (demo_intent (toy_did "p")) sample_state
      _ _ (demo_x402 (toy_did "p")).2).
    unfold demo_x402. by destruct (settle_trade _ _ _ _ _ _ _ _) as [[? ?] ?].
Defined.

Lemma settle_trade_settles_witness :
  let fs' := (demo_x402 (toy_did "p")).1.1 in
  verify_trade 100 fs' "t1" = Ok (true, "") /\ trade_state fs' "t1" = Ok (Some STATE_SETTLED) /\
  exists key v, settlement_idempotency_key (demo_intent (toy_did "p")) = Ok key /\
    dict_get key (fake_committed (demo_x402 (toy_did "p")).1.2) = Some v.
Proof.
  cbn zeta.
  apply (settle_trade_settles (FakePaymentRail working_config) fake_committed 100 0
    (files_of demo_verified) "t1" (toy_identity "p") (toy_did "p") (demo_intent (toy_did "p")) sample_state
    _ _ (ok_event (demo_x402 (toy_did "p")).2)).
  - by apply fake_rail_laws.
  - apply toy_signer_of. vm_compute. reflexivity.
  - lia.
  - vm_compute. reflexivity.
  - vm_compute. reflexivity.
  - intros r Hr. exists 157.
    assert (match (x402_settle (FakePaymentRail working_config) 100 (demo_intent (toy_did "p")) sample_state).2
            with Ok r => proof_encoded_size (PDict (r_proof r)) | Err e => Err e end = Ok 157) as H
      by (vm_compute; reflexivity).
    rewrite Hr in H. exact H.
Defined.

(** The preflight does not check the payer of a manual settlement: with the
    default empty payer, [settle_trade] records a settlement that
    [verify_trade] refuses for good. *)
Theorem manual_settlement_can_lock_trade :
  exists fs ev, settle_trade 100 0 (files_of demo_verified) "t1" (toy_identity "p")
      (ManualSettlementAdapter unit) (demo_intent "") tt = (fs, tt, Ok ev) /\
    verify_trade 100 fs "t1" = Ok (false, "settlement-payer-mismatch").
Proof. eexists _, _. split; [vm_compute; reflexivity|]. vm_compute. reflexivity. Qed.
