(* ===== verification/DocFile.v ===== *)
(** * JSON documents as bytes on disk

    The stores whose readers limit the size of a file keep it as a [docfile]:
    its size and the value it decodes to.  [atomic_write_json] ([util/io.py])
    writes the indented text of [json.dumps(v, indent=2, ensure_ascii=False)]. *)

From Stdlib Require Import ZArith Lia Ascii String SpecFloat.
From stdpp Require Import base list strings.
From S2P Require Import Prelude PyStr PyValue Json JsonAscii CanonicalJson.

Local Open Scope string_scope.
Local Open Scope Z_scope.

(** [float.__repr__], or [NaN] and [Infinity], as [json.dumps] writes floats *)
Class FloatText := float_text : spec_float -> string.

Definition indentation (depth : nat) : list ascii := newline :: repeat " "%char (2 * depth).

Fixpoint join_with (sep : list ascii) (parts : list (list ascii)) : list ascii :=
  match parts with
  | [] => []
  | [p] => p
  | p :: ps => (p ++ sep ++ join_with sep ps)%list
  end.

(** A file: its size, and the value it decodes to ([None] when it does not). *)
Record docfile := { df_size : Z; df_value : option pyval }.

Section DocFile.
Context `{Ft : FloatText}.

(** [json.dumps(v, indent=2, ensure_ascii=False)] *)
Fixpoint pretty (depth : nat) (v : pyval) : list ascii :=
  let inner := indentation (S depth) in
  let outer := indentation depth in
  let block (first last : ascii) parts :=
    (first :: inner ++ join_with (","%char :: inner) parts ++ outer ++ [last])%list in
  match v with
  | PNone => chars "null"
  | PBool true => chars "true"
  | PBool false => chars "false"
  | PInt z => chars (int_str z)
  | PFloat f => chars (float_text f)
  | PStr s => json_quote s
  | PList [] => chars "[]"
  | PList l => block "["%char "]"%char (map (pretty (S depth)) l)
  | PDict [] => chars "{}"
  | PDict d =>
    block "{"%char "}"%char
      (map (fun kv => (json_quote kv.1 ++ chars ": " ++ pretty (S depth) kv.2)%list) d)
  | POther _ => []
  end.

(** The file that holds [v]. *)
Definition written (v : pyval) : docfile :=
  {| df_size := Z.of_nat (List.length (pretty 0 v)); df_value := Some v |}.

(** A value without objects that [json.dumps] refuses. *)
Fixpoint serializable (v : pyval) : bool :=
  match v with
  | PList l => forallb serializable l
  | PDict d => forallb (fun kv => serializable kv.2) d
  | POther _ => false
  | _ => true
  end.

(** A value whose strings have no lone surrogate, so that its text encodes as
    UTF-8. *)
Fixpoint encodes (v : pyval) : bool :=
  match v with
  | PStr s => text_ok s
  | PList l => forallb encodes l
  | PDict d => forallb (fun kv => text_ok kv.1 && encodes kv.2) d
  | _ => true
  end.

(** [atomic_write_json(path, v)]: the text is made and encoded before the file
    is replaced. *)
Definition write_document (v : pyval) : res docfile :=
  if negb (serializable v) then Err TypeError else
  if negb (encodes v) then Err UnicodeEncodeError else Ok (written v).
End DocFile.

(** [now_ms_override or time.time_ns() // 1_000_000] *)
Definition clock_ms (now override : Z) : Z := if override =? 0 then now else override.

Lemma write_document_Ok `{FloatText} v f :
  write_document v = Ok f -> serializable v = true /\ encodes v = true /\ f = written v.
Proof.
  unfold write_document. destruct (serializable v), (encodes v); try done.
  by intros [= <-].
Qed.
