(* ===== verification/PaymentEvent.v ===== *)
(** * Payment attempt events ([nth_dao/commerce/payment_attempt.py])

    A payment attempt is a hash-chained list of signed events around one
    external payment.  This file has the events, their signatures, the offline
    verifier [verify_payment_attempt] and the projection to the current view. *)

From Stdlib Require Import ZArith Lia Ascii String.
From stdpp Require Import base list strings gmap.
From S2P Require Import Prelude Digits PyStr PyValue Json JsonAscii CanonicalJson B64u DidKey Sha256 Identity Store Settlement.

Local Open Scope string_scope.
Local Open Scope Z_scope.

Definition PAYMENT_ATTEMPT_KIND : string := "nth-payment-attempt-event-v1".
Definition EVENT_CREATED : string := "payment_attempt_created".
Definition EVENT_CLAIMED : string := "payment_attempt_claimed".
Definition EVENT_RETRY_SCHEDULED : string := "payment_attempt_retry_scheduled".
Definition EVENT_SETTLED : string := "payment_attempt_settled".
Definition EVENT_BLOCKED : string := "payment_attempt_blocked".
Definition EVENT_ORPHANED : string := "payment_attempt_orphaned".
Definition EVENT_ORPHAN_RECONCILED : string := "payment_attempt_orphan_reconciled".

Definition STATE_PENDING : string := "pending".
Definition STATE_INFLIGHT : string := "inflight".
Definition STATE_SETTLED : string := "settled".
Definition STATE_BLOCKED : string := "blocked".
Definition STATE_ORPHANED : string := "orphaned".

Definition MAX_EVENT_BYTES : Z := 192 * 1024.
Definition MAX_CHAIN_BYTES : Z := 768 * 1024.
Definition MAX_JSON_DEPTH : Z := 32.
Definition MAX_JSON_NODES : Z := 65536.

Definition ATTEMPT_PREFIX : string := "nth-settlement:v1:sha256:".

(** [_ATTEMPT_ID.fullmatch] on a string *)
Definition ATTEMPT_ID (s : string) : bool :=
  startswith ATTEMPT_PREFIX s && hex_digest 64 (str_drop (String.length ATTEMPT_PREFIX) s).

(** [_LEASE_ID] *)
Definition LEASE_ID (s : string) : bool := hex_digest 32 s.

(** [_EVENT_HASH] *)
Definition EVENT_HASH (s : string) : bool :=
  startswith "sha256:" s && hex_digest 64 (str_drop 7 s).

Definition error_first (c : ascii) : bool := is_lower c || is_dec c.
Definition error_rest (c : ascii) : bool := error_first c || is_char "-" c.

(** [_ERROR_CODE] *)
Definition ERROR_CODE (s : string) : bool := match_head_tail error_first error_rest 127 s.

Definition EVENT_FIELDS : list string :=
  ["attempt_id"; "seq"; "type"; "actor_did"; "prev_state"; "new_state"; "payload";
   "prev_event_hash"; "created_at_ms"; "kind"; "signature"].
Definition CREATE_FIELDS : list string := ["schema_version"; "adapter_id"; "intent"].
Definition INTENT_FIELDS : list string :=
  ["trade_id"; "amount_minor"; "currency"; "payee_did"; "payer_did"; "memo"].

(** [_PERMANENT_SETTLEMENT_FAILURES] *)
Definition PERMANENT_SETTLEMENT_FAILURES : list string :=
  ["rail-declined"; "settlement-amount-invalid"; "settlement-amount-mismatch";
   "settlement-currency-mismatch"; "settlement-currency-unsupported";
   "settlement-idempotency-key-mismatch"; "settlement-intent-invalid"; "settlement-network-missing";
   "settlement-network-not-testnet"; "settlement-payee-mismatch"; "settlement-payer-mismatch";
   "settlement-proof-missing"; "settlement-trade-mismatch"; "settlement-tx-ref-missing";
   "settlement-unknown-adapter"; "settlement-wrong-settler"].

(** ** The resource bound on a chain *)

(** The number of nodes of a value: it bounds the walk's iterations. *)
Fixpoint node_count (v : pyval) : nat :=
  match v with
  | PList l => S (list_sum (map node_count l))
  | PDict d => S (list_sum (map (fun kv => node_count kv.2) d))
  | _ => 1
  end.

(** The loop of [_preflight_attempt_json].  Values of the model are trees, so
    the test for a container met twice never fires. *)
Fixpoint preflight_walk (fuel : nat) (nodes characters : Z) (stack : list (pyval * Z)) : bool :=
  match stack with
  | [] => true
  | (item, depth) :: stack =>
    let nodes := nodes + 1 in
    if MAX_JSON_NODES <? nodes then false else
    match fuel with
    | O => false
    | S fuel =>
      match item with
      | PNone | PBool _ => preflight_walk fuel nodes characters stack
      | PInt z =>
        if MAX_CHAIN_BYTES * 4 <? bit_length (Z.abs z) then false
        else preflight_walk fuel nodes characters stack
      | PStr s =>
        let characters := characters + py_len s in
        if MAX_CHAIN_BYTES <? characters then false
        else preflight_walk fuel nodes characters stack
      | PFloat _ | POther _ => false
      | PList l =>
        if (MAX_JSON_DEPTH <=? depth) && truthy item then false else
        if MAX_JSON_NODES <? Z.of_nat (List.length l) then false else
        preflight_walk fuel nodes characters (rev (map (fun x => (x, depth + 1)) l) ++ stack)%list
      | PDict d =>
        if (MAX_JSON_DEPTH <=? depth) && truthy item then false else
        if MAX_JSON_NODES <? Z.of_nat (List.length d) then false else
        let characters := fold_left (fun n kv => n + py_len kv.1) d characters in
        if MAX_CHAIN_BYTES <? characters then false else
        preflight_walk fuel nodes characters (rev (map (fun kv => (kv.2, depth + 1)) d) ++ stack)%list
      end
    end
  end.

(** [_preflight_attempt_json] *)
Definition preflight_attempt_json (v : pyval) : bool := preflight_walk (node_count v) 0 0 [(v, 0)].

(** ** Events *)

Record PaymentAttemptEvent := {
  attempt_id : pyval;
  seq : pyval;
  type : pyval;
  actor_did : pyval;
  prev_state : pyval;
  new_state : pyval;
  payload : pyval;
  prev_event_hash : pyval;
  created_at_ms : pyval;
  kind : pyval;
  signature : pyval
}.

(** [PaymentAttemptEvent.to_dict] *)
Definition to_dict (e : PaymentAttemptEvent) : list (string * pyval) :=
  [("attempt_id", e.(attempt_id)); ("seq", e.(seq)); ("type", e.(type));
   ("actor_did", e.(actor_did)); ("prev_state", e.(prev_state)); ("new_state", e.(new_state));
   ("payload", e.(payload)); ("prev_event_hash", e.(prev_event_hash));
   ("created_at_ms", e.(created_at_ms)); ("kind", e.(kind)); ("signature", e.(signature))].

(** [PaymentAttemptEvent.from_dict], on a dictionary with all eleven fields *)
Definition from_dict (d : list (string * pyval)) : PaymentAttemptEvent := {|
  attempt_id := get_or_none "attempt_id" d; seq := get_or_none "seq" d; type := get_or_none "type" d;
  actor_did := get_or_none "actor_did" d; prev_state := get_or_none "prev_state" d;
  new_state := get_or_none "new_state" d; payload := get_or_none "payload" d;
  prev_event_hash := get_or_none "prev_event_hash" d;
  created_at_ms := get_or_none "created_at_ms" d; kind := get_or_none "kind" d;
  signature := get_or_none "signature" d |}.

Definition event_signing_body (e : PaymentAttemptEvent) : pyval := signing_body "signature" (to_dict e).

(** [payment_attempt_event_hash] *)
Definition payment_attempt_event_hash (document : pyval) : res string := digest_of document.

(** [_intent_dict] *)
Definition intent_dict (i : SettlementIntent) : res (list (string * pyval)) :=
  let* _ := validate i in
  Ok [("trade_id", i.(trade_id)); ("amount_minor", i.(amount_minor)); ("currency", i.(currency));
      ("payee_did", i.(payee_did)); ("payer_did", i.(payer_did)); ("memo", i.(memo))].

(** [isinstance(e, (SettlementFailed, TypeError, ValueError))] *)
Definition is_intent_error (e : exn) : bool :=
  match e with SettlementFailed _ _ _ _ => true | _ => is_TypeOrValueError e end.

(** [_intent_from_dict]; the detail of the inner exception is left out of the
    message. *)
Definition intent_from_dict (v : pyval) : res SettlementIntent :=
  match v with
  | PDict d =>
    if negb (same_keys INTENT_FIELDS d) then
      Err (PaymentAttemptRejected "payment intent has missing or unknown fields") else
    let intent := {|
      trade_id := get_or_none "trade_id" d; amount_minor := get_or_none "amount_minor" d;
      currency := get_or_none "currency" d; payee_did := get_or_none "payee_did" d;
      payer_did := get_or_none "payer_did" d; memo := get_or_none "memo" d |} in
    let* _ := try_except (validate intent) is_intent_error
                (fun _ => Err (PaymentAttemptRejected "payment intent is invalid")) in
    Ok intent
  | _ => Err (PaymentAttemptRejected "payment intent has missing or unknown fields")
  end.

(** ** Verification *)

(** The integer and text fields of a validated intent. *)
Definition intent_amount (i : SettlementIntent) : Z := match i.(amount_minor) with PInt z => z | _ => -1 end.

(** The loop variables of [verify_payment_attempt]. *)
Record vstate := {
  v_state : string;
  v_actor : string;
  v_attempt : string;
  v_intent : option SettlementIntent;
  v_lease : string;
  v_lease_expires : Z;
  v_next_attempt : Z;
  v_orphan_digest : string;
  v_last_created : Z
}.

Definition v_init : vstate := {|
  v_state := ""; v_actor := ""; v_attempt := ""; v_intent := None; v_lease := "";
  v_lease_expires := 0; v_next_attempt := 0; v_orphan_digest := ""; v_last_created := 0 |}.

(** The common fields of an event whose metadata and signature were checked. *)
Record checked_event := {
  c_attempt : string;
  c_actor : string;
  c_type : pyval;
  c_prev_state : pyval;
  c_new_state : pyval;
  c_payload : list (string * pyval);
  c_created : Z
}.

(** [regex.fullmatch(v)] raises [TypeError] on a value that is not a string. *)
Definition fullmatch (re : string -> bool) (v : pyval) : res bool :=
  match v with PStr s => Ok (re s) | _ => Err TypeError end.

Section Verify.
Context `{Ed : Ed25519}.

(** [_sign_event] *)
Definition sign_event (actor : AgentIdentity) (e : PaymentAttemptEvent) : res PaymentAttemptEvent :=
  let* did := as_did actor in
  if negb (py_eqb (PStr did) e.(actor_did)) then
    Err (PaymentAttemptRejected "payment attempt signer does not match actor") else
  let* body := canonical_json (event_signing_body e) in
  let* sig := sign actor body in
  Ok {| attempt_id := e.(attempt_id); seq := e.(seq); type := e.(type); actor_did := e.(actor_did);
        prev_state := e.(prev_state); new_state := e.(new_state); payload := e.(payload);
        prev_event_hash := e.(prev_event_hash); created_at_ms := e.(created_at_ms);
        kind := e.(kind); signature := PStr (b64u_encode sig) |}.

(** The signature test shared by [_verify_signature] and
    [_verify_legacy_signature]: [body] is the document without its
    signature. *)
Definition verify_signed (actor signature body : pyval) (bad_did bad_signature : string) : verdict :=
  if negb nacl_available then (false, "crypto unavailable") else
  match actor with
  | PStr did =>
    if negb (is_did_key (PStr did)) then (false, bad_did) else
    match signature with
    | PStr s =>
      if negb ((1 <=? py_len s) && (py_len s <=? 128)) then (false, bad_signature) else
      match decode_ed25519_did_key did, b64u_decode s, canonical_json body with
      | Ok pk, Ok sig, Ok bytes =>
        if negb (bytes_len sig =? 64) || negb (String.eqb (b64u_encode sig) s) then (false, bad_signature)
        else if ed_verify pk bytes sig then (true, "ok") else (false, bad_signature)
      | _, _, _ => (false, bad_signature)
      end
    | _ => (false, bad_signature)
    end
  | _ => (false, bad_did)
  end.

(** [_verify_signature] *)
Definition verify_signature (e : PaymentAttemptEvent) : verdict :=
  verify_signed e.(actor_did) e.(signature) (event_signing_body e)
    "invalid payment attempt actor DID" "payment attempt signature invalid".

(** [_verify_legacy_signature] *)
Definition verify_legacy_signature (raw : list (string * pyval)) : verdict :=
  verify_signed (get_or_none "actor_did" raw) (get_or_none "signature" raw)
    (signing_body "signature" raw)
    "invalid legacy payment attempt actor DID" "legacy payment attempt signature invalid".

(** The shape, metadata and signature checks on event [index]; [previous] is
    the event before it. *)
Definition check_metadata (index : Z) (previous : option pyval) (last_created : Z) (raw : pyval)
  : res checked_event :=
  match raw with
  | PDict d =>
    let* _ := check (same_keys EVENT_FIELDS d) "payment attempt event has missing or unknown fields" in
    let* _ := match canonical_json raw with
              | Ok b => check (bytes_len b <=? MAX_EVENT_BYTES) "payment attempt event is too large"
              | Err e => if is_TypeOrValueError e then reject "payment attempt event is malformed"
                         else Err e
              end in
    let e := from_dict d in
    let invalid {A} : res A := reject "payment attempt event metadata is invalid" in
    let* id_ok := fullmatch ATTEMPT_ID e.(attempt_id) in
    if negb id_ok then invalid else
    if negb (py_eqb e.(seq) (PInt index)) then invalid else
    if negb (py_eqb e.(kind) (PStr PAYMENT_ATTEMPT_KIND)) then invalid else
    let* expected_prev := match previous with
                          | None => Ok ""
                          | Some p => payment_attempt_event_hash p
                          end in
    if negb (py_eqb e.(prev_event_hash) (PStr expected_prev)) then invalid else
    match e.(payload), e.(created_at_ms), e.(attempt_id) with
    | PDict payload, PInt created, PStr id =>
      if (created <=? 0) || (created <? last_created) then invalid else
      let '(ok, reason) := verify_signature e in
      let* _ := check ok reason in
      match e.(actor_did) with
      | PStr actor =>
        Ok {| c_attempt := id; c_actor := actor; c_type := e.(type); c_prev_state := e.(prev_state);
              c_new_state := e.(new_state); c_payload := payload; c_created := created |}
      | _ => invalid
      end
    | _, _, _ => invalid
    end
  | _ => reject "payment attempt event has missing or unknown fields"
  end.

(** The creation event: it binds actor, intent and attempt id. *)
Definition check_created (e : checked_event) : res vstate :=
  let pl := e.(c_payload) in
  let* _ := check (py_eqb e.(c_type) (PStr EVENT_CREATED) && py_eqb e.(c_prev_state) (PStr "") &&
                   py_eqb e.(c_new_state) (PStr STATE_PENDING) && same_keys CREATE_FIELDS pl &&
                   py_eqb (get_or_none "schema_version" pl) (PInt 1) &&
                   py_eqb (get_or_none "adapter_id" pl) (PStr ADAPTER_X402_TESTNET))
              "payment attempt creation event is invalid" in
  let* intent := try_except (intent_from_dict (get_or_none "intent" pl))
                   (fun e => match e with PaymentAttemptRejected _ => true | _ => false end)
                   (fun e => match e with PaymentAttemptRejected d => reject d | _ => Err e end) in
  let* key := (if truthy intent.(payer_did) && py_eqb intent.(payer_did) (PStr e.(c_actor))
               then settlement_idempotency_key intent
               else reject "payment attempt creation binding is invalid") in
  let* _ := check (String.eqb key e.(c_attempt)) "payment attempt creation binding is invalid" in
  Ok {| v_state := STATE_PENDING; v_actor := e.(c_actor); v_attempt := e.(c_attempt);
        v_intent := Some intent; v_lease := ""; v_lease_expires := 0; v_next_attempt := 0;
        v_orphan_digest := ""; v_last_created := e.(c_created) |}.

(** The state after an event: the bindings stay, the rest is given. *)
Definition advance (v : vstate) (e : checked_event) (state lease : string) (expires next : Z)
    (orphan : string) : vstate := {|
  v_state := state; v_actor := v.(v_actor); v_attempt := v.(v_attempt); v_intent := v.(v_intent);
  v_lease := lease; v_lease_expires := expires; v_next_attempt := next;
  v_orphan_digest := orphan; v_last_created := e.(c_created) |}.

Definition check_claimed (v : vstate) (e : checked_event) : res vstate :=
  let* _ := check (str_in v.(v_state) [STATE_PENDING; STATE_INFLIGHT])
              "payment attempt claim transition is invalid" in
  let* _ := check (negb (String.eqb v.(v_state) STATE_PENDING && (e.(c_created) <? v.(v_next_attempt))))
              "payment attempt was claimed before retry became due" in
  let* _ := check (negb (String.eqb v.(v_state) STATE_INFLIGHT && (e.(c_created) <? v.(v_lease_expires))))
              "payment attempt lease was stolen before expiry" in
  let pl := e.(c_payload) in
  let* _ := check (same_keys ["lease_id"; "lease_expires_at_ms"] pl)
              "payment attempt claim payload is invalid" in
  match get_or_none "lease_id" pl, get_or_none "lease_expires_at_ms" pl with
  | PStr new_lease, PInt expiry =>
    let* _ := check (LEASE_ID new_lease && (e.(c_created) + 1000 <=? expiry) &&
                     (expiry <=? e.(c_created) + 300000) && py_eqb e.(c_new_state) (PStr STATE_INFLIGHT))
                "payment attempt lease is invalid" in
    Ok (advance v e STATE_INFLIGHT new_lease expiry 0 v.(v_orphan_digest))
  | _, _ => reject "payment attempt lease is invalid"
  end.

Definition check_retry (v : vstate) (e : checked_event) : res vstate :=
  let* _ := check (String.eqb v.(v_state) STATE_INFLIGHT && py_eqb e.(c_new_state) (PStr STATE_PENDING))
              "payment retry transition is invalid" in
  let pl := e.(c_payload) in
  let* _ := check (same_keys ["lease_id"; "error_code"; "next_attempt_at_ms"] pl)
              "payment retry payload is invalid" in
  match get_or_none "error_code" pl, get_or_none "next_attempt_at_ms" pl with
  | PStr error_code, PInt retry_at =>
    let* _ := check (py_eqb (get_or_none "lease_id" pl) (PStr v.(v_lease)) && ERROR_CODE error_code &&
                     (e.(c_created) <=? retry_at))
                "payment retry binding is invalid" in
    Ok (advance v e STATE_PENDING "" 0 retry_at v.(v_orphan_digest))
  | _, _ => reject "payment retry binding is invalid"
  end.

(** The settlement record pays the attempt's intent under the attempt's key. *)
Definition check_payment (now : Z) (v : vstate) (settlement : list (string * pyval))
    (invalid unbound : string) : res unit :=
  match v.(v_intent) with
  | None => Err AssertionError
  | Some i =>
    let '(ok, reason) := verify_settlement now (PDict settlement) (intent_amount i)
                           (safe_str i.(currency)) (safe_str i.(payee_did)) (safe_str i.(payer_did)) in
    let* _ := check ok (invalid ++ reason) in
    match get_or_none "proof" settlement with
    | PDict proof => check (py_eqb (get_or_none "idempotency_key" proof) (PStr v.(v_attempt))) unbound
    | _ => reject unbound
    end
  end.

Definition check_settled (now : Z) (v : vstate) (e : checked_event) : res vstate :=
  let* _ := check (String.eqb v.(v_state) STATE_INFLIGHT && py_eqb e.(c_new_state) (PStr STATE_SETTLED))
              "payment settlement transition is invalid" in
  let pl := e.(c_payload) in
  let* _ := check (same_keys ["lease_id"; "settlement"] pl) "payment settlement payload is invalid" in
  match get_or_none "settlement" pl with
  | PDict settlement =>
    let* _ := check (py_eqb (get_or_none "lease_id" pl) (PStr v.(v_lease)))
                "payment settlement lease is invalid" in
    let* _ := check_payment now v settlement "payment settlement is invalid: "
                "payment settlement idempotency binding is invalid" in
    Ok (advance v e STATE_SETTLED "" 0 v.(v_next_attempt) v.(v_orphan_digest))
  | _ => reject "payment settlement lease is invalid"
  end.

Definition check_blocked (v : vstate) (e : checked_event) : res vstate :=
  let* _ := check (String.eqb v.(v_state) STATE_INFLIGHT && py_eqb e.(c_new_state) (PStr STATE_BLOCKED))
              "payment block transition is invalid" in
  let pl := e.(c_payload) in
  let* _ := check (same_keys ["lease_id"; "error_code"] pl) "payment block payload is invalid" in
  match get_or_none "error_code" pl with
  | PStr error_code =>
    let* _ := check (py_eqb (get_or_none "lease_id" pl) (PStr v.(v_lease)) && ERROR_CODE error_code)
                "payment block binding is invalid" in
    Ok (advance v e STATE_BLOCKED "" 0 v.(v_next_attempt) v.(v_orphan_digest))
  | _ => reject "payment block binding is invalid"
  end.

Definition check_orphaned (v : vstate) (e : checked_event) : res vstate :=
  let* _ := check (String.eqb v.(v_state) STATE_INFLIGHT && py_eqb e.(c_new_state) (PStr STATE_ORPHANED))
              "payment orphan transition is invalid" in
  let pl := e.(c_payload) in
  let* _ := check (same_keys ["lease_id"; "error_code"; "provider_reference"; "evidence_digest"] pl)
              "payment orphan payload is invalid" in
  match get_or_none "error_code" pl, get_or_none "provider_reference" pl, get_or_none "evidence_digest" pl with
  | PStr error_code, PStr provider_reference, PStr evidence_digest =>
    let* _ := check (py_eqb (get_or_none "lease_id" pl) (PStr v.(v_lease)) && ERROR_CODE error_code &&
                     (py_len provider_reference <=? 256) && EVENT_HASH evidence_digest)
                "payment orphan binding is invalid" in
    Ok (advance v e STATE_ORPHANED "" 0 v.(v_next_attempt) evidence_digest)
  | _, _, _ => reject "payment orphan binding is invalid"
  end.

Definition check_reconciled (now : Z) (v : vstate) (e : checked_event) : res vstate :=
  let* _ := check (String.eqb v.(v_state) STATE_ORPHANED && py_eqb e.(c_new_state) (PStr STATE_SETTLED))
              "payment orphan reconciliation transition is invalid" in
  let pl := e.(c_payload) in
  let* _ := check (same_keys ["settlement"; "orphan_evidence_digest"] pl)
              "payment orphan reconciliation payload is invalid" in
  match get_or_none "settlement" pl with
  | PDict settlement =>
    let* _ := check (py_eqb (get_or_none "orphan_evidence_digest" pl) (PStr v.(v_orphan_digest)))
                "payment orphan reconciliation binding is invalid" in
    let* _ := check_payment now v settlement "reconciled payment settlement is invalid: "
                "reconciled settlement idempotency binding is invalid" in
    Ok (advance v e STATE_SETTLED v.(v_lease) v.(v_lease_expires) v.(v_next_attempt) "")
  | _ => reject "payment orphan reconciliation binding is invalid"
  end.

(** An event after the creation, by type. *)
Definition check_later (now : Z) (v : vstate) (e : checked_event) : res vstate :=
  let* _ := check (String.eqb e.(c_actor) v.(v_actor) && String.eqb e.(c_attempt) v.(v_attempt))
              "payment attempt actor or id changed" in
  let* _ := check (py_eqb e.(c_prev_state) (PStr v.(v_state)))
              "payment attempt previous state is invalid" in
  let is_type t := py_eqb e.(c_type) (PStr t) in
  if is_type EVENT_CLAIMED then check_claimed v e
  else if is_type EVENT_RETRY_SCHEDULED then check_retry v e
  else if is_type EVENT_SETTLED then check_settled now v e
  else if is_type EVENT_BLOCKED then check_blocked v e
  else if is_type EVENT_ORPHANED then check_orphaned v e
  else if is_type EVENT_ORPHAN_RECONCILED then check_reconciled now v e
  else reject "unknown payment attempt event type".

Fixpoint check_attempt (now index : Z) (previous : option pyval) (rest : list pyval) (v : vstate)
  : res vstate :=
  match rest with
  | [] => Ok v
  | raw :: rest' =>
    let* e := check_metadata index previous v.(v_last_created) raw in
    let* v := (if index =? 0 then check_created e else check_later now v e) in
    check_attempt now (index + 1) (Some raw) rest' v
  end.

(** [verify_payment_attempt] *)
Definition verify_payment_attempt (now : Z) (events : list pyval) : res verdict :=
  run_body
    (match events with
     | [] => reject "payment attempt is empty"
     | _ =>
       let* _ := check (preflight_attempt_json (PList events))
                   "payment attempt exceeds JSON resource limits" in
       let* _ := match canonical_json (PDict [("events", PList events)]) with
                 | Ok b => check (bytes_len b <=? MAX_CHAIN_BYTES) "payment attempt chain is too large"
                 | Err e => if is_TypeOrValueError e
                            then reject "payment attempt chain is not canonical JSON" else Err e
                 end in
       let* _ := check_attempt now 0 None events v_init in
       Ok (true, "ok")
     end).
End Verify.

(** ** The view *)

Record PaymentAttemptView := {
  w_attempt_id : string;
  w_actor_did : string;
  w_adapter_id : pyval;
  w_intent : list (string * pyval);
  w_state : string;
  w_lease_id : string;
  w_lease_expires_at_ms : Z;
  w_next_attempt_at_ms : Z;
  w_attempts : Z;
  w_last_error : string;
  w_settlement : list (string * pyval);
  w_provider_reference : string;
  w_evidence_digest : string
}.

(** Fields the verifier has checked to be integers or dictionaries; the
    defaults are never used on a verified chain. *)
Definition int_of (v : pyval) : Z := match v with PInt z => z | _ => 0 end.
Definition dict_of (v : pyval) : list (string * pyval) := match v with PDict d => d | _ => [] end.

(** One iteration of the loop of [_project_verified]. *)
Definition project_event (w : PaymentAttemptView) (raw : pyval) : PaymentAttemptView :=
  let e := from_dict (dict_of raw) in
  let pl := dict_of e.(payload) in
  let is_type t := py_eqb e.(type) (PStr t) in
  let state := safe_str e.(new_state) in
  let error := safe_str (get_or_none "error_code" pl) in
  let base lease expires next attempts err settlement reference digest := {|
    w_attempt_id := w.(w_attempt_id); w_actor_did := w.(w_actor_did);
    w_adapter_id := w.(w_adapter_id); w_intent := w.(w_intent); w_state := state;
    w_lease_id := lease; w_lease_expires_at_ms := expires; w_next_attempt_at_ms := next;
    w_attempts := attempts; w_last_error := err; w_settlement := settlement;
    w_provider_reference := reference; w_evidence_digest := digest |} in
  if is_type EVENT_CLAIMED then
    base (safe_str (get_or_none "lease_id" pl)) (int_of (get_or_none "lease_expires_at_ms" pl)) 0
      (w.(w_attempts) + 1) w.(w_last_error) w.(w_settlement) w.(w_provider_reference) w.(w_evidence_digest)
  else if is_type EVENT_RETRY_SCHEDULED then
    base "" 0 (int_of (get_or_none "next_attempt_at_ms" pl)) w.(w_attempts) error
      w.(w_settlement) w.(w_provider_reference) w.(w_evidence_digest)
  else if is_type EVENT_SETTLED then
    base "" 0 w.(w_next_attempt_at_ms) w.(w_attempts) "" (dict_of (get_or_none "settlement" pl))
      w.(w_provider_reference) w.(w_evidence_digest)
  else if is_type EVENT_BLOCKED then
    base "" 0 w.(w_next_attempt_at_ms) w.(w_attempts) error w.(w_settlement)
      w.(w_provider_reference) w.(w_evidence_digest)
  else if is_type EVENT_ORPHANED then
    base "" 0 w.(w_next_attempt_at_ms) w.(w_attempts) error w.(w_settlement)
      (safe_str (get_or_none "provider_reference" pl)) (safe_str (get_or_none "evidence_digest" pl))
  else if is_type EVENT_ORPHAN_RECONCILED then
    base w.(w_lease_id) w.(w_lease_expires_at_ms) w.(w_next_attempt_at_ms) w.(w_attempts) ""
      (dict_of (get_or_none "settlement" pl)) "" ""
  else
    base w.(w_lease_id) w.(w_lease_expires_at_ms) w.(w_next_attempt_at_ms) w.(w_attempts)
      w.(w_last_error) w.(w_settlement) w.(w_provider_reference) w.(w_evidence_digest).

(** The view right after the creation event. *)
Definition project_created (raw : pyval) : PaymentAttemptView :=
  let e := from_dict (dict_of raw) in
  let pl := dict_of e.(payload) in {|
    w_attempt_id := safe_str e.(attempt_id); w_actor_did := safe_str e.(actor_did);
    w_adapter_id := get_or_none "adapter_id" pl; w_intent := dict_of (get_or_none "intent" pl);
    w_state := STATE_PENDING; w_lease_id := ""; w_lease_expires_at_ms := 0;
    w_next_attempt_at_ms := 0; w_attempts := 0; w_last_error := ""; w_settlement := [];
    w_provider_reference := ""; w_evidence_digest := "" |}.

(** [_project_verified] *)
Definition project_verified (events : list pyval) : PaymentAttemptView :=
  match events with
  | [] => project_created PNone
  | created :: rest => fold_left project_event rest (project_created created)
  end.
