(* ===== verification/PaymentSpec.v ===== *)
(** * What payment attempts promise

    The abstract life cycle of a payment attempt, the refinement theorem for
    [verify_payment_attempt], lease exclusivity, finality, payment binding and
    tamper evidence of the hash chain. *)

From Stdlib Require Import ZArith Lia Ascii String.
From stdpp Require Import base list strings gmap.
From S2P Require Import Prelude Digits PyStr PyValue Json JsonAscii CanonicalJson B64u DidKey Sha256 Identity Store Settlement PaymentEvent.

Local Open Scope string_scope.
Local Open Scope Z_scope.

#[local] Opaque MAX_EVENT_BYTES MAX_CHAIN_BYTES verify_settlement preflight_attempt_json.
#[local] Arguments digest_of : simpl never.
#[local] Arguments verify_signature : simpl never.
#[local] Arguments settlement_idempotency_key : simpl never.

(** ** The abstract life cycle *)

Inductive pstate :=
| Pending (due : Z)
| Inflight (lease : string) (expires : Z)
| PaidOut
| Stopped
| Orphaned (evidence : string).

(** What an event does, with the lease, the time or the evidence it names. *)
Inductive action :=
| Claim (lease : string) (expires : Z)
| Retry (lease : string) (due : Z)
| Pay (lease : string)
| Stop (lease : string)
| Orphan (lease evidence : string)
| Reconcile (evidence : string).

(** One action at time [t].  A lease runs between one second and five minutes;
    a pending attempt is claimed only once its retry is due, a lease is taken
    over only once it has expired; every other outcome names the current
    lease, and a reconciliation the recorded evidence. *)
Inductive pstep (t : Z) : pstate -> action -> pstate -> Prop :=
| p_claim due lease expires :
    due <= t -> t + 1000 <= expires <= t + 300000 ->
    pstep t (Pending due) (Claim lease expires) (Inflight lease expires)
| p_takeover lease expires lease' expires' :
    expires <= t -> t + 1000 <= expires' <= t + 300000 ->
    pstep t (Inflight lease expires) (Claim lease' expires') (Inflight lease' expires')
| p_retry lease expires due : t <= due -> pstep t (Inflight lease expires) (Retry lease due) (Pending due)
| p_pay lease expires : pstep t (Inflight lease expires) (Pay lease) PaidOut
| p_stop lease expires : pstep t (Inflight lease expires) (Stop lease) Stopped
| p_orphan lease expires evidence :
    pstep t (Inflight lease expires) (Orphan lease evidence) (Orphaned evidence)
| p_reconcile evidence : pstep t (Orphaned evidence) (Reconcile evidence) PaidOut.

(** One move of a run: when, what, and the state it reaches. *)
Record move := { m_time : Z; m_action : action; m_state : pstate }.

(** A run: times never go back. *)
Inductive prun : Z -> pstate -> list move -> Z -> pstate -> Prop :=
| prun_nil t s : prun t s [] t s
| prun_cons t s m tr t'' s'' :
    t <= m.(m_time) -> pstep m.(m_time) s m.(m_action) m.(m_state) ->
    prun m.(m_time) m.(m_state) tr t'' s'' -> prun t s (m :: tr) t'' s''.

(** The action an event states, read off its type and payload alone. *)
Definition event_action (raw : pyval) : option action :=
  let e := from_dict (dict_of raw) in
  let field k := get_or_none k (dict_of e.(payload)) in
  let is_type t := py_eqb e.(type) (PStr t) in
  if is_type EVENT_ORPHAN_RECONCILED then
    match field "orphan_evidence_digest" with PStr d => Some (Reconcile d) | _ => None end
  else match field "lease_id" with
  | PStr lease =>
    if is_type EVENT_CLAIMED then
      match field "lease_expires_at_ms" with PInt x => Some (Claim lease x) | _ => None end
    else if is_type EVENT_RETRY_SCHEDULED then
      match field "next_attempt_at_ms" with PInt due => Some (Retry lease due) | _ => None end
    else if is_type EVENT_SETTLED then Some (Pay lease)
    else if is_type EVENT_BLOCKED then Some (Stop lease)
    else if is_type EVENT_ORPHANED then
      match field "evidence_digest" with PStr d => Some (Orphan lease d) | _ => None end
    else None
  | _ => None
  end.

(** The abstract state a view stands for. *)
Definition abstract_view (w : PaymentAttemptView) : option pstate :=
  if String.eqb w.(w_state) STATE_PENDING then Some (Pending w.(w_next_attempt_at_ms))
  else if String.eqb w.(w_state) STATE_INFLIGHT then
    Some (Inflight w.(w_lease_id) w.(w_lease_expires_at_ms))
  else if String.eqb w.(w_state) STATE_SETTLED then Some PaidOut
  else if String.eqb w.(w_state) STATE_BLOCKED then Some Stopped
  else if String.eqb w.(w_state) STATE_ORPHANED then Some (Orphaned w.(w_evidence_digest))
  else None.

(** The views after each event of [rest]. *)
Fixpoint views (w : PaymentAttemptView) (rest : list pyval) : list PaymentAttemptView :=
  match rest with
  | [] => []
  | raw :: rest' => project_event w raw :: views (project_event w raw) rest'
  end.

(** When an event says it was created. *)
Definition event_time (raw : pyval) : Z := int_of (from_dict (dict_of raw)).(created_at_ms).

(** What the verifier's loop variables say about the abstract state. *)
Definition models (v : vstate) (s : pstate) : Prop :=
  match s with
  | Pending due => v.(v_state) = STATE_PENDING /\ v.(v_next_attempt) = due
  | Inflight lease expires =>
      v.(v_state) = STATE_INFLIGHT /\ v.(v_lease) = lease /\ v.(v_lease_expires) = expires
  | PaidOut => v.(v_state) = STATE_SETTLED
  | Stopped => v.(v_state) = STATE_BLOCKED
  | Orphaned evidence => v.(v_state) = STATE_ORPHANED /\ v.(v_orphan_digest) = evidence
  end.

(** The bindings made at creation. *)
Definition same_binding (v v' : vstate) : Prop :=
  v'.(v_actor) = v.(v_actor) /\ v'.(v_attempt) = v.(v_attempt) /\ v'.(v_intent) = v.(v_intent).

(** Peel one [check] off a verifier's body. *)
Ltac peel H :=
  match type of H with
  | res_bind (check ?c _) _ = Ok _ =>
    let E := fresh "C" in destruct c eqn:E; [cbn [check res_bind] in H|discriminate H]
  | res_bind (check_payment ?n ?v ?s ?a ?b) _ = Ok _ =>
    let E := fresh "P" in
    destruct (check_payment n v s a b) as [[]|] eqn:E; [cbn [res_bind] in H|discriminate H]
  end.

Section Steps.
Context `{Ed : Ed25519}.

(** The six kinds of accepted events, with what each establishes. *)
Inductive later_ok (now : Z) (v : vstate) (e : checked_event) : vstate -> Prop :=
| lo_claimed lease expiry :
    e.(c_type) = PStr EVENT_CLAIMED -> e.(c_new_state) = PStr STATE_INFLIGHT ->
    get_or_none "lease_id" e.(c_payload) = PStr lease ->
    get_or_none "lease_expires_at_ms" e.(c_payload) = PInt expiry ->
    LEASE_ID lease = true -> e.(c_created) + 1000 <= expiry <= e.(c_created) + 300000 ->
    (v.(v_state) = STATE_PENDING /\ v.(v_next_attempt) <= e.(c_created)) \/
    (v.(v_state) = STATE_INFLIGHT /\ v.(v_lease_expires) <= e.(c_created)) ->
    later_ok now v e (advance v e STATE_INFLIGHT lease expiry 0 v.(v_orphan_digest))
| lo_retry code due :
    e.(c_type) = PStr EVENT_RETRY_SCHEDULED -> e.(c_new_state) = PStr STATE_PENDING ->
    v.(v_state) = STATE_INFLIGHT -> get_or_none "lease_id" e.(c_payload) = PStr v.(v_lease) ->
    get_or_none "error_code" e.(c_payload) = PStr code -> ERROR_CODE code = true ->
    get_or_none "next_attempt_at_ms" e.(c_payload) = PInt due -> e.(c_created) <= due ->
    later_ok now v e (advance v e STATE_PENDING "" 0 due v.(v_orphan_digest))
| lo_settled settlement u :
    e.(c_type) = PStr EVENT_SETTLED -> e.(c_new_state) = PStr STATE_SETTLED ->
    v.(v_state) = STATE_INFLIGHT -> get_or_none "lease_id" e.(c_payload) = PStr v.(v_lease) ->
    get_or_none "settlement" e.(c_payload) = PDict settlement ->
    check_payment now v settlement "payment settlement is invalid: "
      "payment settlement idempotency binding is invalid" = Ok u ->
    later_ok now v e (advance v e STATE_SETTLED "" 0 v.(v_next_attempt) v.(v_orphan_digest))
| lo_blocked code :
    e.(c_type) = PStr EVENT_BLOCKED -> e.(c_new_state) = PStr STATE_BLOCKED ->
    v.(v_state) = STATE_INFLIGHT -> get_or_none "lease_id" e.(c_payload) = PStr v.(v_lease) ->
    get_or_none "error_code" e.(c_payload) = PStr code -> ERROR_CODE code = true ->
    later_ok now v e (advance v e STATE_BLOCKED "" 0 v.(v_next_attempt) v.(v_orphan_digest))
| lo_orphaned code reference digest :
    e.(c_type) = PStr EVENT_ORPHANED -> e.(c_new_state) = PStr STATE_ORPHANED ->
    v.(v_state) = STATE_INFLIGHT -> get_or_none "lease_id" e.(c_payload) = PStr v.(v_lease) ->
    get_or_none "error_code" e.(c_payload) = PStr code -> ERROR_CODE code = true ->
    get_or_none "provider_reference" e.(c_payload) = PStr reference ->
    get_or_none "evidence_digest" e.(c_payload) = PStr digest -> EVENT_HASH digest = true ->
    later_ok now v e (advance v e STATE_ORPHANED "" 0 v.(v_next_attempt) digest)
| lo_reconciled settlement u :
    e.(c_type) = PStr EVENT_ORPHAN_RECONCILED -> e.(c_new_state) = PStr STATE_SETTLED ->
    v.(v_state) = STATE_ORPHANED ->
    get_or_none "orphan_evidence_digest" e.(c_payload) = PStr v.(v_orphan_digest) ->
    get_or_none "settlement" e.(c_payload) = PDict settlement ->
    check_payment now v settlement "reconciled payment settlement is invalid: "
      "reconciled settlement idempotency binding is invalid" = Ok u ->
    later_ok now v e (advance v e STATE_SETTLED v.(v_lease) v.(v_lease_expires) v.(v_next_attempt) "").

(** Turn the boolean facts collected by [peel] into equations. *)
Ltac facts :=
  repeat match goal with
  | H : _ && _ = true |- _ => apply andb_true_iff in H as [? ?]
  | H : py_eqb _ (PStr _) = true |- _ => apply py_eqb_PStr_r in H
  | H : String.eqb _ _ = true |- _ => apply String.eqb_eq in H
  | H : Z.leb _ _ = true |- _ => apply Z.leb_le in H
  end.

Lemma check_claimed_ok now v e v' :
  e.(c_type) = PStr EVENT_CLAIMED -> check_claimed v e = Ok v' -> later_ok now v e v'.
Proof.
  intros Ht H. unfold check_claimed in H. peel H. peel H. peel H. peel H.
  destruct (get_or_none "lease_id" (c_payload e)) as [| | | |lease| | |] eqn:El; try done.
  destruct (get_or_none "lease_expires_at_ms" (c_payload e)) as [| |x| | | | |] eqn:Ex; try done.
  peel H. facts. apply Ok_inj in H as <-. eapply lo_claimed; eauto.
      apply negb_true_iff in C0, C1. apply str_in_In in C as [Es|[Es|[]]]; [left|right];
    rewrite <- Es in *; simpl in *; bool_to_prop; done.
Qed.

Lemma check_retry_ok now v e v' :
  e.(c_type) = PStr EVENT_RETRY_SCHEDULED -> check_retry v e = Ok v' -> later_ok now v e v'.
Proof.
  intros Ht H. unfold check_retry in H. peel H. peel H.
  destruct (get_or_none "error_code" (c_payload e)) as [| | | |code| | |] eqn:El; try done.
  destruct (get_or_none "next_attempt_at_ms" (c_payload e)) as [| |x| | | | |] eqn:Ex; try done.
  peel H. facts. apply Ok_inj in H as <-. eapply lo_retry; eauto.
Qed.

Lemma check_settled_ok now v e v' :
  e.(c_type) = PStr EVENT_SETTLED -> check_settled now v e = Ok v' -> later_ok now v e v'.
Proof.
  intros Ht H. unfold check_settled in H. peel H. peel H.
  destruct (get_or_none "settlement" (c_payload e)) as [| | | | | |s|] eqn:El; try done.
  peel H. peel H. facts. apply Ok_inj in H as <-. eapply lo_settled; eauto.
Qed.

Lemma check_blocked_ok now v e v' :
  e.(c_type) = PStr EVENT_BLOCKED -> check_blocked v e = Ok v' -> later_ok now v e v'.
Proof.
  intros Ht H. unfold check_blocked in H. peel H. peel H.
  destruct (get_or_none "error_code" (c_payload e)) as [| | | |code| | |] eqn:El; try done.
  peel H. facts. apply Ok_inj in H as <-. eapply lo_blocked; eauto.
Qed.

Lemma check_orphaned_ok now v e v' :
  e.(c_type) = PStr EVENT_ORPHANED -> check_orphaned v e = Ok v' -> later_ok now v e v'.
Proof.
  intros Ht H. unfold check_orphaned in H. peel H. peel H.
  destruct (get_or_none "error_code" (c_payload e)) as [| | | |code| | |] eqn:E1; try done.
  destruct (get_or_none "provider_reference" (c_payload e)) as [| | | |r| | |] eqn:E2; try done.
  destruct (get_or_none "evidence_digest" (c_payload e)) as [| | | |d| | |] eqn:E3; try done.
  peel H. facts. apply Ok_inj in H as <-. eapply lo_orphaned; eauto.
Qed.

Lemma check_reconciled_ok now v e v' :
  e.(c_type) = PStr EVENT_ORPHAN_RECONCILED -> check_reconciled now v e = Ok v' -> later_ok now v e v'.
Proof.
  intros Ht H. unfold check_reconciled in H. peel H. peel H.
  destruct (get_or_none "settlement" (c_payload e)) as [| | | | | |s|] eqn:El; try done.
  peel H. peel H. facts. apply Ok_inj in H as <-. eapply lo_reconciled; eauto.
Qed.

Lemma check_later_ok now v e v' :
  check_later now v e = Ok v' ->
  e.(c_actor) = v.(v_actor) /\ e.(c_attempt) = v.(v_attempt) /\ e.(c_prev_state) = PStr v.(v_state) /\
  later_ok now v e v'.
Proof.
  unfold check_later. intros H. peel H. peel H. facts. split_and!; try done.
  repeat match type of H with
  | (if py_eqb ?t ?k then _ else _) = _ =>
    let E := fresh "T" in destruct (py_eqb t k) eqn:E; [apply py_eqb_PStr_r in E|]
  end; eauto using check_claimed_ok, check_retry_ok, check_settled_ok, check_blocked_ok,
    check_orphaned_ok, check_reconciled_ok.
  discriminate H.
Qed.

(** ** Events are steps *)

Ltac state_of s Hm :=
  destruct s; simpl in Hm;
  repeat match goal with
  | H : _ /\ _ |- _ => destruct H
  | H : v_state ?v = ?a, H' : v_state ?v = ?b |- _ =>
    first [rewrite H in H'; discriminate H' | clear H']
  end.

Lemma later_binding now v e v' :
  later_ok now v e v' -> same_binding v v' /\ v'.(v_last_created) = e.(c_created) /\
  e.(c_new_state) = PStr v'.(v_state).
Proof. by intros []. Qed.

(** ** What the metadata checks establish *)

Record event_is (index : Z) (previous : option pyval) (last_created : Z) (raw : pyval)
    (e : checked_event) : Prop := {
  is_dict_ : exists d, raw = PDict d /\ same_keys EVENT_FIELDS d = true;
  is_attempt : (from_dict (dict_of raw)).(attempt_id) = PStr e.(c_attempt);
  is_actor : (from_dict (dict_of raw)).(actor_did) = PStr e.(c_actor);
  is_type : (from_dict (dict_of raw)).(type) = e.(c_type);
  is_prev_state : (from_dict (dict_of raw)).(prev_state) = e.(c_prev_state);
  is_new_state : (from_dict (dict_of raw)).(new_state) = e.(c_new_state);
  is_payload : (from_dict (dict_of raw)).(payload) = PDict e.(c_payload);
  is_created : (from_dict (dict_of raw)).(created_at_ms) = PInt e.(c_created);
  is_id : ATTEMPT_ID e.(c_attempt) = true;
  is_order : 0 < e.(c_created) /\ last_created <= e.(c_created);
  is_signed : verify_signature (from_dict (dict_of raw)) = (true, "ok");
  is_encoded : exists b, canonical_json raw = Ok b;
  is_chained : match previous with
               | None => (from_dict (dict_of raw)).(prev_event_hash) = PStr ""
               | Some p => exists h, payment_attempt_event_hash p = Ok h /\
                             (from_dict (dict_of raw)).(prev_event_hash) = PStr h
               end
}.

(** An accepted event does what it says. *)
Lemma attempt_later_step now index previous last raw v e v' s :
  event_is index previous last raw e -> later_ok now v e v' -> models v s ->
  exists a s', event_action raw = Some a /\ pstep e.(c_created) s a s' /\ models v' s'.
Proof.
  intros [_ _ _ Hty _ _ Hpl _ _ _ _ _ _] H Hm. unfold event_action. rewrite Hty, Hpl. cbn [dict_of].
  destruct H as [lease expiry Ht Hn Hl Hx HL Hr Hor|code due Ht Hn Hs Hl Hc HC Hd Hle
    |st u Ht Hn Hs Hl Hst Hp|code Ht Hn Hs Hl Hc HC|code ref d Ht Hn Hs Hl Hc HC Href Hd HD
    |st u Ht Hn Hs Ho Hst Hp]; rewrite Ht; cbn -[get_or_none]; rewrite ?Hl, ?Hx, ?Hd, ?Ho.
  - destruct Hor as [[Hs Hle]|[Hs Hle]]; state_of s Hm; subst;
      (exists (Claim lease expiry), (Inflight lease expiry); split_and!; [done|by constructor|done]).
  - state_of s Hm. subst. exists (Retry (v_lease v) due), (Pending due). split_and!; [done|by constructor|done].
  - state_of s Hm. subst. eexists _, PaidOut. split_and!; [done|constructor|done].
  - state_of s Hm. subst. eexists _, Stopped. split_and!; [done|constructor|done].
  - state_of s Hm. subst. eexists _, (Orphaned d). split_and!; [done|constructor|done].
  - state_of s Hm. subst. eexists _, PaidOut. split_and!; [done|constructor|done].
Qed.

Lemma verify_signed_true actor sig body a b r :
  verify_signed actor sig body a b = (true, r) -> r = "ok".
Proof. unfold verify_signed. intros H. inv_guards H. congruence. Qed.

Lemma check_metadata_ok index previous last_created raw e :
  check_metadata index previous last_created raw = Ok e -> event_is index previous last_created raw e.
Proof.
  unfold check_metadata. intros H. destruct raw as [| | | | | |d|]; try discriminate H. peel H.
  destruct (canonical_json (PDict d)) as [b|x] eqn:Eb; [|by destruct (is_TypeOrValueError x)].
  peel H. unfold fullmatch in H. cbv zeta in H.
  destruct (attempt_id (from_dict d)) as [| | | |id| | |] eqn:Ei; try discriminate H.
  cbn [res_bind] in H. destruct (ATTEMPT_ID id) eqn:Eid; [|discriminate H]. cbn [negb] in H.
  destruct (py_eqb (seq (from_dict d)) (PInt index)) eqn:Es; [|discriminate H]. cbn [negb] in H.
  destruct (py_eqb (kind (from_dict d)) _) eqn:Ek; [|discriminate H]. cbn [negb] in H.
  apply res_bind_Ok in H as (h & Hh & H).
  destruct (py_eqb (prev_event_hash (from_dict d)) (PStr h)) eqn:Ep; [|discriminate H].
  cbn [negb] in H. apply py_eqb_PStr_r in Ep.
  destruct (payload (from_dict d)) as [| | | | | |pl|] eqn:Epl; try discriminate H.
  destruct (created_at_ms (from_dict d)) as [| |t| | | | |] eqn:Et; try discriminate H.
  destruct (_ || _) eqn:Eo; [discriminate H|]. bool_to_prop.
  destruct (verify_signature (from_dict d)) as [ok r] eqn:Ev. peel H. subst ok.
  destruct (actor_did (from_dict d)) as [| | | |actor| | |] eqn:Ea; try discriminate H.
  apply Ok_inj in H as <-. pose proof (verify_signed_true _ _ _ _ _ _ Ev) as ->.
  constructor; try done; eauto.
  destruct previous; [eauto|]. by apply Ok_inj in Hh as <-.
Qed.

(** The creation event. *)
Definition creation_ok (e : checked_event) (i : SettlementIntent) : Prop :=
  e.(c_type) = PStr EVENT_CREATED /\
  get_or_none "adapter_id" e.(c_payload) = PStr ADAPTER_X402_TESTNET /\
  intent_from_dict (get_or_none "intent" e.(c_payload)) = Ok i /\
  i.(payer_did) = PStr e.(c_actor) /\ settlement_idempotency_key i = Ok e.(c_attempt).

Definition created_vstate (e : checked_event) (i : SettlementIntent) : vstate := {|
  v_state := STATE_PENDING; v_actor := e.(c_actor); v_attempt := e.(c_attempt);
  v_intent := Some i; v_lease := ""; v_lease_expires := 0; v_next_attempt := 0;
  v_orphan_digest := ""; v_last_created := e.(c_created) |}.

Lemma check_created_ok e v :
  check_created e = Ok v -> exists i, creation_ok e i /\ v = created_vstate e i.
Proof.
  unfold check_created. intros H. peel H. facts.
  apply res_bind_Ok in H as (i & Hi & H). apply res_bind_Ok in H as (key & Hk & H).
  destruct (truthy (payer_did i) && _) eqn:E; [|discriminate Hk]. facts.
  peel H. facts. subst key. apply Ok_inj in H as <-. exists i. split; [|done].
  split_and!; try done.
  apply try_except_Ok in Hi as [Hi|(x & _ & _ & Hi)]; [done|]. by destruct x.
Qed.

(** ** The view follows the verifier *)

(** The verifier's variables and the projected view, field by field. *)
Record agree (v : vstate) (w : PaymentAttemptView) : Prop := {
  ag_attempt : w.(w_attempt_id) = v.(v_attempt);
  ag_actor : w.(w_actor_did) = v.(v_actor);
  ag_state : w.(w_state) = v.(v_state);
  ag_lease : w.(w_lease_id) = v.(v_lease);
  ag_expires : w.(w_lease_expires_at_ms) = v.(v_lease_expires);
  ag_next : w.(w_next_attempt_at_ms) = v.(v_next_attempt);
  ag_orphan : w.(w_evidence_digest) = v.(v_orphan_digest);
  ag_intent : exists i, v.(v_intent) = Some i /\ intent_from_dict (PDict w.(w_intent)) = Ok i;
  ag_actor_pays : exists i, v.(v_intent) = Some i /\ i.(payer_did) = PStr v.(v_actor) /\
                    settlement_idempotency_key i = Ok v.(v_attempt)
}.

(** A settled view holds a settlement the verifier has accepted. *)
Definition paid (now : Z) (v : vstate) (w : PaymentAttemptView) : Prop :=
  v.(v_state) = STATE_SETTLED ->
  exists a b, check_payment now v w.(w_settlement) a b = Ok tt.

Lemma created_agree index previous last raw e i :
  event_is index previous last raw e -> creation_ok e i ->
  agree (created_vstate e i) (project_created raw).
Proof.
  intros [_ Ha Hb _ _ _ Hp _ _ _ _ _ _] (Ht & _ & Hi & Hpay & Hkey).
  constructor; unfold project_created; cbn -[from_dict get_or_none]; rewrite ?Ha, ?Hb, ?Hp; try done.
  - exists i. split; [done|]. cbn [dict_of]. by destruct (get_or_none "intent" (c_payload e)).
  - by exists i.
Qed.

Lemma check_payment_binding now v v' st a b :
  same_binding v v' -> check_payment now v' st a b = check_payment now v st a b.
Proof. intros (_ & Ha & Hi). unfold check_payment. by rewrite Ha, Hi. Qed.

Lemma later_agree now index previous last raw e v v' w :
  event_is index previous last raw e -> later_ok now v e v' -> agree v w ->
  agree v' (project_event w raw) /\ paid now v' (project_event w raw).
Proof.
  intros [_ _ _ Hty _ Hns Hp _ _ _ _ _ _] H [A1 A2 A3 A4 A5 A6 A7 A8 A9].
  assert (w.(w_intent) = (project_event w raw).(w_intent)) as Hwi.
  { unfold project_event. cbv zeta. repeat case_match; done. }
  split.
  - destruct H as [lease expiry Ht Hn Hl Hx _ _ _|code due Ht Hn _ _ Hc _ Hd _
      |st u Ht Hn _ _ Hst _|code Ht Hn _ _ Hc _|code ref d Ht Hn _ _ Hc _ Href Hd _
      |st u Ht Hn _ _ Hst _]; constructor; cbn [advance v_attempt v_actor v_state v_lease
        v_lease_expires v_next_attempt v_orphan_digest v_intent]; rewrite <- ?Hwi; try done;
      unfold project_event; rewrite Hty, Hns, Hp, Ht, Hn; cbn -[get_or_none]; try done;
      rewrite ?Hl, ?Hx, ?Hd; done.
  - intros Hs.
    destruct H as [lease expiry Ht Hn Hl Hx _ _ _|code due Ht Hn _ _ Hc _ Hd _
      |st u Ht Hn _ _ Hst Hpay|code Ht Hn _ _ Hc _|code ref d Ht Hn _ _ Hc _ Href Hd _
      |st u Ht Hn _ _ Hst Hpay]; try discriminate Hs; destruct u;
      (eexists _, _; rewrite (check_payment_binding _ v) by done; etrans; [|exact Hpay]);
      unfold project_event; rewrite Hty, Hns, Hp, Ht, Hn; cbn -[get_or_none check_payment];
      rewrite Hst; done.
Qed.

(** ** Whole chains *)

Lemma event_is_time index previous last raw e :
  event_is index previous last raw e -> event_time raw = e.(c_created).
Proof. intros H. unfold event_time. by rewrite (is_created _ _ _ _ _ H). Qed.

(** The verifier's variables, the abstract state and the view, together. *)
Definition tracks (now : Z) (v : vstate) (s : pstate) (w : PaymentAttemptView) : Prop :=
  models v s /\ agree v w /\ paid now v w.

Lemma tracks_abstract now v s w : tracks now v s w -> abstract_view w = Some s.
Proof.
  intros (Hm & [_ _ A3 A4 A5 A6 A7 _ _] & _). unfold abstract_view. rewrite A3, A4, A5, A6, A7.
  destruct s; simpl in Hm; repeat match goal with H : _ /\ _ |- _ => destruct H end; subst;
    match goal with H : v_state v = _ |- _ => rewrite H end; done.
Qed.

(** An event of the attempt [id], signed by [actor]. *)
Definition signed_by (actor id : string) (raw : pyval) : Prop :=
  let e := from_dict (dict_of raw) in
  e.(attempt_id) = PStr id /\ e.(actor_did) = PStr actor /\ verify_signature e = (true, "ok").

(** The run of a chain: every event is signed by the actor, its move is the
    action it states, and reaches the state of the view after it. *)
Definition run_of (w : PaymentAttemptView) (rest : list pyval) (tr : list move) : Prop :=
  map m_time tr = map event_time rest /\
  map (fun m => Some m.(m_action)) tr = map event_action rest /\
  map (fun m => Some m.(m_state)) tr = map abstract_view (views w rest).

Lemma check_later_tracks now index previous raw rest v v' s w :
  0 < index -> check_attempt now index previous (raw :: rest) v = Ok v' -> tracks now v s w ->
  exists e v1 m, event_is index previous v.(v_last_created) raw e /\ check_later now v e = Ok v1 /\
    v1.(v_last_created) = m.(m_time) /\ event_time raw = m.(m_time) /\ v.(v_last_created) <= m.(m_time) /\
    event_action raw = Some m.(m_action) /\ pstep m.(m_time) s m.(m_action) m.(m_state) /\
    tracks now v1 m.(m_state) (project_event w raw) /\
    check_attempt now (index + 1) (Some raw) rest v1 = Ok v'.
Proof.
  intros Hi H (Hm & Ha & Hp). cbn [check_attempt] in H.
  apply res_bind_Ok in H as (e & He & H). apply res_bind_Ok in H as (v1 & Hv & H).
  destruct (Z.eqb_spec index 0); [lia|]. pose proof (check_later_ok _ _ _ _ Hv) as (_ & _ & _ & Hl).
  apply check_metadata_ok in He.
  destruct (attempt_later_step _ _ _ _ _ _ _ _ _ He Hl Hm) as (a & s1 & Hact & Hs1 & Hm1).
  destruct (later_agree _ _ _ _ _ _ _ _ _ He Hl Ha) as [Ha1 Hp1].
  destruct (later_binding _ _ _ _ Hl) as (_ & Ht & _).
  exists e, v1, {| m_time := c_created e; m_action := a; m_state := s1 |}.
  unfold tracks. split_and!; try done; [by eapply event_is_time|apply (is_order _ _ _ _ _ He)].
Qed.

Lemma later_signed now index previous last raw v e v1 w s :
  event_is index previous last raw e -> check_later now v e = Ok v1 -> tracks now v s w ->
  signed_by w.(w_actor_did) w.(w_attempt_id) raw.
Proof.
  intros [_ H1 H2 _ _ _ _ _ _ _ H3 _ _] (Ha & Hi & _)%check_later_ok (_ & [A1 A2 _ _ _ _ _ _ _] & _).
  unfold signed_by. rewrite A1, A2, <- Ha, <- Hi. done.
Qed.

Lemma project_event_binding w raw :
  (project_event w raw).(w_actor_did) = w.(w_actor_did) /\
  (project_event w raw).(w_attempt_id) = w.(w_attempt_id).
Proof. unfold project_event. cbv zeta. repeat case_match; done. Qed.

Lemma project_binding rest : forall w,
  (fold_left project_event rest w).(w_actor_did) = w.(w_actor_did) /\
  (fold_left project_event rest w).(w_attempt_id) = w.(w_attempt_id).
Proof.
  induction rest as [|raw rest IH]; intros w; [done|]. cbn [fold_left].
  destruct (IH (project_event w raw)) as [-> ->]. apply project_event_binding.
Qed.

Lemma check_attempt_tracks now index previous rest v v' s w :
  0 < index -> check_attempt now index previous rest v = Ok v' -> tracks now v s w ->
  exists tr s', prun v.(v_last_created) s tr v'.(v_last_created) s' /\ run_of w rest tr /\
    Forall (signed_by w.(w_actor_did) w.(w_attempt_id)) rest /\
    tracks now v' s' (fold_left project_event rest w).
Proof.
  revert index previous v s w. induction rest as [|raw rest IH]; intros index previous v s w Hi H Ht.
  { apply Ok_inj in H as <-. exists [], s. split_and!; [constructor|done|done|exact Ht]. }
  destruct (check_later_tracks _ _ _ _ _ _ _ _ _ Hi H Ht)
    as (e & v1 & m & He & Hv & Hc & Htm & Hle & Hact & Hs & Ht1 & H1).
  destruct (IH (index + 1) (Some raw) v1 _ _ ltac:(lia) H1 Ht1) as (tr & s' & Hrun & (R1 & R2 & R3) & Hsg & Ht').
  exists (m :: tr), s'. destruct (project_event_binding w raw) as [B1 B2]. rewrite B1, B2 in Hsg.
  split_and!; [| |constructor; [by eapply later_signed|exact Hsg]|exact Ht'].
  - rewrite Hc in Hrun. by econstructor.
  - unfold run_of. cbn [map views]. by rewrite R1, R2, R3, Htm, Hact, (tracks_abstract _ _ _ _ Ht1).
Qed.

Lemma first_tracks now raw rest v' :
  check_attempt now 0 None (raw :: rest) v_init = Ok v' ->
  exists e v, event_is 0 None 0 raw e /\ v.(v_last_created) = e.(c_created) /\
    tracks now v (Pending 0) (project_created raw) /\
    check_attempt now 1 (Some raw) rest v = Ok v'.
Proof.
  cbn [check_attempt]. intros H. apply res_bind_Ok in H as (e & He & H).
  apply res_bind_Ok in H as (v & Hv & H). cbn [Z.eqb] in Hv.
  apply check_metadata_ok in He. destruct (check_created_ok _ _ Hv) as (i & Hi & ->).
  exists e, (created_vstate e i). unfold tracks. split_and!; try done. by eapply created_agree.
Qed.

Lemma verified_checks now events r :
  verify_payment_attempt now events = Ok (true, r) ->
  events <> [] /\ exists v, check_attempt now 0 None events v_init = Ok v.
Proof.
  unfold verify_payment_attempt. intros H%run_body_true. destruct events as [|raw rest]; [done|].
  split; [done|]. peel H. destruct (canonical_json _) as [b|x]; [|by destruct (is_TypeOrValueError x)].
  peel H. apply res_bind_Ok in H as (v & Hv & _). eauto.
Qed.

Lemma first_signed raw e :
  event_is 0 None 0 raw e ->
  signed_by (project_created raw).(w_actor_did) (project_created raw).(w_attempt_id) raw.
Proof.
  intros [_ H1 H2 _ _ _ _ _ _ _ H3 _ _]. unfold signed_by, project_created. cbn [w_actor_did w_attempt_id].
  by rewrite H1, H2.
Qed.

Lemma verified_tracks now created rest v :
  check_attempt now 0 None (created :: rest) v_init = Ok v ->
  let w := project_verified (created :: rest) in
  exists tr s, prun (event_time created) (Pending 0) tr v.(v_last_created) s /\
    run_of (project_created created) rest tr /\
    Forall (signed_by w.(w_actor_did) w.(w_attempt_id)) (created :: rest) /\ tracks now v s w.
Proof.
  intros H w. destruct (first_tracks _ _ _ _ H) as (e & v0 & He & Hc & Ht & H0).
  destruct (check_attempt_tracks now 1 (Some created) _ _ _ _ _ ltac:(lia) H0 Ht) as (tr & s & Hr & Htr & Hsg & Hs).
  exists tr, s. unfold w. cbn [project_verified]. destruct (project_binding rest (project_created created)) as [-> ->].
  rewrite Hc, <- (event_is_time _ _ _ _ _ He) in Hr. split_and!; [done..|constructor; [by eapply first_signed|done]|done].
Qed.

Lemma attempt_signed now events r :
  verify_payment_attempt now events = Ok (true, r) ->
  Forall (signed_by (project_verified events).(w_actor_did) (project_verified events).(w_attempt_id)) events.
Proof.
  intros (Hne & v & H)%verified_checks. destruct events as [|created rest]; [done|].
  by destruct (verified_tracks _ _ _ _ H) as (tr & s & _ & _ & Hsg & _).
Qed.

(** The verifier's variables follow the view of any verified chain. *)
Lemma verified_follows now events v :
  events <> [] -> check_attempt now 0 None events v_init = Ok v ->
  exists s, tracks now v s (project_verified events).
Proof.
  destruct events as [|created rest]; [done|]. intros _ (tr & s & _ & _ & _ & Ht)%verified_tracks. by exists s.
Qed.

Lemma check_attempt_snoc now index previous events raw v v' :
  check_attempt now index previous (events ++ [raw]) v = Ok v' ->
  exists v1, check_attempt now index previous events v = Ok v1 /\
    exists index' previous', index <= index' /\ (events <> [] -> index < index') /\
      check_attempt now index' previous' [raw] v1 = Ok v'.
Proof.
  revert index previous v. induction events as [|x events IH]; intros index previous v H.
  { exists v. split; [done|]. exists index, previous. split_and!; [lia|done|done]. }
  cbn [app check_attempt] in H |- *. apply res_bind_Ok in H as (e & He & H).
  apply res_bind_Ok in H as (v1 & Hv & H).
  destruct (IH _ _ _ H) as (v2 & H2 & index' & previous' & Hle & _ & H').
  exists v2. split; [by rewrite He; cbn [res_bind]; rewrite Hv|].
  exists index', previous'. split_and!; [lia|lia|done].
Qed.

(** The last event of a verified chain, against the view of the ones before. *)
Lemma snoc_step now events raw r :
  events <> [] -> verify_payment_attempt now (events ++ [raw]) = Ok (true, r) ->
  exists e v s v' index previous, tracks now v s (project_verified events) /\
    event_is index previous v.(v_last_created) raw e /\ later_ok now v e v'.
Proof.
  intros Hne (_ & v' & H)%verified_checks.
  destruct (check_attempt_snoc _ _ _ _ _ _ _ H) as (v & Hv & index & previous & _ & Hi & H').
  specialize (Hi Hne). destruct (verified_follows _ _ _ Hne Hv) as (s & Ht).
  destruct (check_later_tracks _ _ _ _ _ _ _ _ _ Hi H' Ht) as (e & v1 & m & He & Hl & _).
  exists e, v, s, v1, index, previous. split_and!; try done. by apply check_later_ok in Hl as (_ & _ & _ & ?).
Qed.

(** ** Time *)

Lemma check_payment_later now now' v st a b u :
  now <= now' -> check_payment now v st a b = Ok u -> check_payment now' v st a b = Ok u.
Proof.
  intros Hn. unfold check_payment. destruct (v_intent v) as [i|]; [|done].
  destruct (verify_settlement now _ _ _ _ _) as [[] r] eqn:E; [|done].
  by rewrite (verify_settlement_later _ _ _ _ _ _ _ _ Hn E).
Qed.

Lemma check_later_later now now' v e v' :
  now <= now' -> check_later now v e = Ok v' -> check_later now' v e = Ok v'.
Proof.
  intros Hn. unfold check_later. intros (u & -> & H)%res_bind_Ok. apply res_bind_Ok in H as (u' & -> & H).
  cbn [res_bind]. destruct (py_eqb (c_type e) (PStr EVENT_CLAIMED)); [done|].
  destruct (py_eqb (c_type e) (PStr EVENT_RETRY_SCHEDULED)); [done|].
  destruct (py_eqb (c_type e) (PStr EVENT_SETTLED)).
  { unfold check_settled in *. peel H. cbn [check res_bind]. peel H. cbn [check res_bind].
    destruct (get_or_none "settlement" _); try done. peel H. cbn [check res_bind].
    apply res_bind_Ok in H as (w & Hw & H). by rewrite (check_payment_later _ _ _ _ _ _ _ Hn Hw). }
  destruct (py_eqb (c_type e) (PStr EVENT_BLOCKED)); [done|].
  destruct (py_eqb (c_type e) (PStr EVENT_ORPHANED)); [done|].
  destruct (py_eqb (c_type e) (PStr EVENT_ORPHAN_RECONCILED)); [|done].
  unfold check_reconciled in *. peel H. cbn [check res_bind]. peel H. cbn [check res_bind].
  destruct (get_or_none "settlement" _); try done. peel H. cbn [check res_bind].
  apply res_bind_Ok in H as (w & Hw & H). by rewrite (check_payment_later _ _ _ _ _ _ _ Hn Hw).
Qed.

Lemma check_attempt_later now now' index previous l v v' :
  now <= now' -> check_attempt now index previous l v = Ok v' ->
  check_attempt now' index previous l v = Ok v'.
Proof.
  intros Hn. revert index previous v. induction l as [|x l IH]; intros index previous v H; [done|].
  cbn [check_attempt] in *. apply res_bind_Ok in H as (e & He & H). rewrite He. cbn [res_bind].
  apply res_bind_Ok in H as (v1 & Hv & H).
  assert ((if index =? 0 then check_created e else check_later now' v e) = Ok v1) as ->.
  { destruct (index =? 0); [done|]. by eapply check_later_later. }
  by apply IH.
Qed.

(** A chain that verifies keeps verifying as time passes. *)
Lemma verify_attempt_later now now' events r :
  now <= now' -> verify_payment_attempt now events = Ok (true, r) ->
  verify_payment_attempt now' events = Ok (true, r).
Proof.
  intros Hn. unfold verify_payment_attempt. intros H%run_body_true. destruct events as [|x l]; [done|].
  apply res_bind_Ok in H as (u & -> & H). apply res_bind_Ok in H as (u' & Hu & H). rewrite Hu. cbn [res_bind].
  apply res_bind_Ok in H as (v & Hv & H). rewrite (check_attempt_later _ _ _ _ _ _ _ Hn Hv). cbn [res_bind run_body].
  exact H.
Qed.

(** ** The hash chain *)

(** [x] encodes and names the digest of the event before it. *)
Definition linked (previous : option pyval) (x : pyval) : Prop :=
  exists d b, x = PDict d /\ canonical_json x = Ok b /\
    match previous with
    | None => get_or_none "prev_event_hash" d = PStr ""
    | Some p => exists h, payment_attempt_event_hash p = Ok h /\ get_or_none "prev_event_hash" d = PStr h
    end.

Fixpoint chain (previous : option pyval) (l : list pyval) : Prop :=
  match l with
  | [] => True
  | x :: l' => linked previous x /\ chain (Some x) l'
  end.

Lemma check_attempt_chain now index previous l v v' :
  check_attempt now index previous l v = Ok v' -> chain previous l.
Proof.
  revert index previous v. induction l as [|x l IH]; intros index previous v H; [done|].
  cbn [check_attempt] in H. apply res_bind_Ok in H as (e & He & H).
  apply res_bind_Ok in H as (v1 & _ & H). split; [|by eapply IH].
  apply check_metadata_ok in He. destruct He as [(d & -> & _) _ _ _ _ _ _ _ _ _ _ (b & Hb) Hp].
  exists d, b. split_and!; try done.
Qed.

Lemma chain_snoc previous l x :
  chain previous (l ++ [x]) ->
  chain previous l /\ linked (match last l with Some y => Some y | None => previous end) x.
Proof.
  revert previous. induction l as [|y l IH]; intros previous; [simpl; tauto|].
  intros [Hy H]. destruct (IH _ H) as [Hl Hx]. split; [by split|].
  destruct l as [|z l]; [done|]. change (last (y :: z :: l)) with (last (z :: l)).
  destruct (last (z :: l)) eqn:E; [done|]. by apply last_None in E.
Qed.

Lemma digest_nonempty x : payment_attempt_event_hash x <> Ok "".
Proof. unfold payment_attempt_event_hash, digest_of. by destruct (canonical_json x). Qed.

Lemma digest_binds x y h d e :
  x = PDict d -> y = PDict e -> wf x -> wf y ->
  payment_attempt_event_hash x = Ok h -> payment_attempt_event_hash y = Ok h ->
  json_eqb x y = true \/
  exists a b, canonical_json x = Ok a /\ canonical_json y = Ok b /\ sha256_collision a b.
Proof.
  intros -> -> Hx Hy (a & Ea & Ha)%res_bind_Ok (b & Eb & Hb)%res_bind_Ok.
  apply Ok_inj in Ha, Hb. rewrite <- Hb in Ha. apply str_app_inj_prefix in Ha.
  apply sha256_hex_inj in Ha as [->|Hc]; [left; by eapply canonical_json_wf_inj|right; eauto].
Qed.

Lemma json_eqb_text k d e s :
  json_eqb (PDict d) (PDict e) = true -> get_or_none k d = PStr s -> get_or_none k e = PStr s.
Proof.
  cbn [json_eqb]. intros [_ H]%andb_true_iff Hs. rewrite forallb_forall in H.
  unfold get_or_none in *. destruct (dict_get k d) as [v|] eqn:E; [|done]. simpl in Hs. subst v.
  specialize (H _ (dict_get_In _ _ _ E)). simpl in H.
  destruct (dict_get k e) as [[]|]; try done. bool_to_prop. by subst.
Qed.

Lemma chain_binds l : forall k x y h,
  chain None (l ++ [x]) -> chain None (k ++ [y]) -> Forall wf (l ++ [x]) -> Forall wf (k ++ [y]) ->
  payment_attempt_event_hash x = Ok h -> payment_attempt_event_hash y = Ok h ->
  Forall2 (fun a b => json_eqb a b = true) (l ++ [x]) (k ++ [y]) \/
  exists u v a b, In u (l ++ [x]) /\ In v (k ++ [y]) /\
    canonical_json u = Ok a /\ canonical_json v = Ok b /\ sha256_collision a b.
Proof.
  induction l as [|x' l IH] using rev_ind; intros k x y h Hl Hk Wl Wk Hx Hy;
    apply chain_snoc in Hl as [Hl (d & b & -> & Hb & Hd)], Hk as [Hk (e & b' & -> & Hb' & He)];
    apply Forall_app in Wl as [Wl Wx], Wk as [Wk Wy];
    apply Forall_inv in Wx; apply Forall_inv in Wy;
    (destruct (digest_binds _ _ h d e eq_refl eq_refl Wx Wy Hx Hy) as [E|(a & a' & Ea & Eb & Hc)];
     [|right; exists (PDict d), (PDict e), a, a'; rewrite !in_app_iff; simpl; tauto]);
    pose proof (fun s => json_eqb_text "prev_event_hash" _ _ s E) as Hsame.
  - destruct k as [|y' k _] using rev_ind; [left; by repeat constructor|].
    exfalso. rewrite last_snoc in He. destruct He as (h' & Hh' & He).
    rewrite (Hsame _ Hd) in He. injection He as <-. by apply digest_nonempty in Hh'.
  - rewrite last_snoc in Hd. destruct Hd as (h1 & Hh1 & Hd). rewrite (Hsame _ Hd) in He.
    destruct k as [|y' k _] using rev_ind.
    { injection He as ->. by apply digest_nonempty in Hh1. }
    rewrite last_snoc in He. destruct He as (h2 & Hh2 & [= <-]).
    destruct (IH k x' y' h1 Hl Hk Wl Wk Hh1 Hh2) as [Hf|(u & v & a & a' & Hu & Hv & Hrest)].
    + left. apply Forall2_app; [done|]. by repeat constructor.
    + right. exists u, v, a, a'. rewrite (in_app_iff (l ++ [x'])), (in_app_iff (k ++ [y'])). tauto.
Qed.

Lemma check_payment_ok now v st a b :
  check_payment now v st a b = Ok tt ->
  exists i p, v.(v_intent) = Some i /\
    settlement_ok now st (intent_amount i) (safe_str i.(currency)) (safe_str i.(payee_did))
      (safe_str i.(payer_did)) /\
    get_or_none "proof" st = PDict p /\ get_or_none "idempotency_key" p = PStr v.(v_attempt).
Proof.
  unfold check_payment. intros H. destruct (v_intent v) as [i|]; [|done].
  destruct (verify_settlement _ _ _ _ _ _) as [ok r] eqn:E. peel H. subst ok.
  destruct (get_or_none "proof" st) as [| | | | | |p|] eqn:Ep; try done.
  apply check_Ok, py_eqb_PStr_r in H. exists i, p. split_and!; try done.
  apply verify_settlement_sound in E as (d & [= <-] & Hd). exact Hd.
Qed.

(** A verified attempt is bound to one obligation. *)
Lemma verified_binds now events r :
  verify_payment_attempt now events = Ok (true, r) ->
  let w := project_verified events in
  exists i, intent_from_dict (PDict w.(w_intent)) = Ok i /\ i.(payer_did) = PStr w.(w_actor_did) /\
    settlement_idempotency_key i = Ok w.(w_attempt_id).
Proof.
  intros (Hne & v & H)%verified_checks w.
  destruct (verified_follows _ _ _ Hne H) as (s & Ht).
  destruct Ht as (_ & [Aid Aac _ _ _ _ _ (i & Hi & Hd) (j & Hj & Hp & Hk)] & _).
  exists i. unfold w. rewrite Aid, Aac. assert (i = j) as -> by congruence. done.
Qed.

(** ** Properties *)

(** C12.  Verified payment attempts refine the abstract life cycle.  Every event
    is signed by the single actor for the one attempt.  The events after the
    creation are a run of the abstract machine from [Pending]: each of them
    performs, at its own time, the action its type and payload state, from the
    state of the view before it to the state of the view after it (a pending
    attempt is claimed only once its retry is due, a running lease is taken
    over only once it has expired, every outcome names the current lease, a
    reconciliation the recorded evidence), and times never go back. The attempt
    is bound to one obligation: the view's intent decodes, the attempt id is
    its idempotency key and the actor is its payer. *)
Theorem verified_attempt_is_a_run now events r :
  verify_payment_attempt now events = Ok (true, r) ->
  let w := project_verified events in
  (exists created rest tr t s, events = created :: rest /\
     prun (event_time created) (Pending 0) tr t s /\ run_of (project_created created) rest tr /\
     abstract_view w = Some s) /\
  Forall (signed_by w.(w_actor_did) w.(w_attempt_id)) events /\
  exists i, intent_from_dict (PDict w.(w_intent)) = Ok i /\ i.(payer_did) = PStr w.(w_actor_did) /\
    settlement_idempotency_key i = Ok w.(w_attempt_id).
Proof.
  intros Hv w. pose proof (verified_binds _ _ _ Hv) as Hb. apply verified_checks in Hv as (Hne & v & H).
  destruct events as [|created rest]; [done|].
  destruct (verified_tracks _ _ _ _ H) as (tr & s & Hr & Htr & Hsg & Ht).
  split_and!; [|exact Hsg|exact Hb]. exists created, rest, tr, (v_last_created v), s.
  split_and!; try done. by eapply tracks_abstract.
Qed.

(** A lease is exclusive: while the view is in flight, the next event of
    a verified chain either comes from a holder of the current lease or is a
    claim made once that lease has expired. *)
Theorem lease_is_exclusive now events raw r :
  events <> [] -> verify_payment_attempt now (events ++ [raw]) = Ok (true, r) ->
  let w := project_verified events in
  w.(w_state) = STATE_INFLIGHT ->
  let e := from_dict (dict_of raw) in
  (e.(type) = PStr EVENT_CLAIMED /\ w.(w_lease_expires_at_ms) <= event_time raw) \/
  get_or_none "lease_id" (dict_of e.(payload)) = PStr w.(w_lease_id).
Proof.
  intros Hne H w Hs e. destruct (snoc_step _ _ _ _ Hne H)
    as (c & v & s & v' & idx & pv & (_ & [_ _ A3 A4 A5 _ _ _ _] & _) & He & Hl).
  unfold w, e in *. rewrite (event_is_time _ _ _ _ _ He), (is_type _ _ _ _ _ He),
    (is_payload _ _ _ _ _ He), A4, A5. cbn [dict_of]. rewrite A3 in Hs.
  destruct Hl as [lease expiry Ht _ _ _ _ _ [[Hs' _]|[_ Hx]]|code due Ht _ _ Hl _ _ _ _
    |st u Ht _ _ Hl _ _|code Ht _ _ Hl _ _|code ref d Ht _ _ Hl _ _ _ _ _
    |st u Ht _ Hs' _ _ _]; auto; rewrite Hs in Hs'; discriminate Hs'.
Qed.

(** Outcomes are final: no verified chain goes on after a settled or a
    blocked attempt, and an orphaned attempt continues only with its
    reconciliation against the recorded evidence. *)
Theorem outcomes_are_final now events raw r :
  events <> [] -> verify_payment_attempt now (events ++ [raw]) = Ok (true, r) ->
  let w := project_verified events in
  w.(w_state) <> STATE_SETTLED /\ w.(w_state) <> STATE_BLOCKED /\
  (w.(w_state) = STATE_ORPHANED ->
   let e := from_dict (dict_of raw) in
   e.(type) = PStr EVENT_ORPHAN_RECONCILED /\ e.(new_state) = PStr STATE_SETTLED /\
   get_or_none "orphan_evidence_digest" (dict_of e.(payload)) = PStr w.(w_evidence_digest)).
Proof.
  intros Hne H w. destruct (snoc_step _ _ _ _ Hne H)
    as (c & v & s & v' & idx & pv & (_ & [_ _ A3 _ _ _ A7 _ _] & _) & He & Hl).
  unfold w. rewrite (is_type _ _ _ _ _ He), (is_payload _ _ _ _ _ He), (is_new_state _ _ _ _ _ He), A3, A7.
  cbn [dict_of]. clear -Hl.
  destruct Hl as [lease expiry Ht _ _ _ _ _ [[Hs _]|[Hs _]]|code due Ht _ Hs _ _ _ _ _
    |st u Ht _ Hs _ _ _|code Ht _ Hs _ _ _|code ref d Ht _ Hs _ _ _ _ _ _
    |st u Ht Hn Hs Ho _ _]; rewrite Hs; split_and!; done.
Qed.

(** C16.  A settled attempt has paid its obligation: the settlement in the view
    meets the intent's amount, currency, payee and payer, and its proof
    carries the attempt id, which is the intent's idempotency key. *)
Theorem settled_attempt_pays_intent now events r :
  verify_payment_attempt now events = Ok (true, r) ->
  let w := project_verified events in
  w.(w_state) = STATE_SETTLED ->
  exists i p, intent_from_dict (PDict w.(w_intent)) = Ok i /\
    settlement_idempotency_key i = Ok w.(w_attempt_id) /\
    settlement_ok now w.(w_settlement) (intent_amount i) (safe_str i.(currency))
      (safe_str i.(payee_did)) w.(w_actor_did) /\
    get_or_none "proof" w.(w_settlement) = PDict p /\
    get_or_none "idempotency_key" p = PStr w.(w_attempt_id).
Proof.
  intros (Hne & v & H)%verified_checks w Hs.
  destruct (verified_follows _ _ _ Hne H) as (s & _ & Ha & Hpaid).
  destruct Ha as [Aid Aac Ast _ _ _ _ (i & Hi & Hd) (j & Hj & Hp & Hk)].
  unfold w in Hs. rewrite Ast in Hs. destruct (Hpaid Hs) as (a & b & Hc).
  destruct (check_payment_ok _ _ _ _ _ Hc) as (k & p & Hk' & Hok & Hpr & Hkey).
  assert (i = j) as -> by congruence. assert (k = j) as -> by congruence.
  exists j, p. unfold w. rewrite Aid, Aac. rewrite Hp in Hok. done.
Qed.

(** The head hash commits to the whole history: two verified attempts
    whose last events have the same hash hold the same events, entry for
    entry, unless two of their events exhibit a SHA-256 collision. *)
Theorem head_hash_binds_history now now' l k x y h r r' :
  verify_payment_attempt now (l ++ [x]) = Ok (true, r) ->
  verify_payment_attempt now' (k ++ [y]) = Ok (true, r') ->
  Forall wf (l ++ [x]) -> Forall wf (k ++ [y]) ->
  payment_attempt_event_hash x = Ok h -> payment_attempt_event_hash y = Ok h ->
  Forall2 (fun a b => json_eqb a b = true) (l ++ [x]) (k ++ [y]) \/
  exists u v a b, In u (l ++ [x]) /\ In v (k ++ [y]) /\
    canonical_json u = Ok a /\ canonical_json v = Ok b /\ sha256_collision a b.
Proof.
  intros (_ & v & Hl)%verified_checks (_ & v' & Hk)%verified_checks Wl Wk Hx Hy.
  eapply chain_binds; eauto using check_attempt_chain.
Qed.
End Steps.

(** ** Witnesses *)

#[local] Existing Instance toy_ed25519.

Definition pay_intent : SettlementIntent := {|
  trade_id := PStr "t1"; amount_minor := PInt 5; currency := PStr "USDC";
  payee_did := PStr (toy_did "c"); payer_did := PStr (toy_did "p"); memo := PStr "" |}.

Definition pay_key : string := Eval vm_compute in match settlement_idempotency_key pay_intent with Ok k => k | Err _ => "" end.
Definition pay_lease : string := str_repeat "a" 32.

Definition hash_or_empty (previous : option pyval) : string :=
  match previous with
  | Some p => match payment_attempt_event_hash p with Ok h => h | Err _ => "" end
  | None => ""
  end.

(** The next signed event of a chain. *)
Definition pay_event (events : list pyval) (t : string) (prev new : string) (pl : list (string * pyval))
    (time : Z) : list pyval :=
  match sign_event (toy_identity "p") {|
      attempt_id := PStr pay_key; seq := PInt (Z.of_nat (List.length events)); type := PStr t;
      actor_did := PStr (toy_did "p"); prev_state := PStr prev; new_state := PStr new;
      payload := PDict pl; prev_event_hash := PStr (hash_or_empty (last events));
      created_at_ms := PInt time; kind := PStr PAYMENT_ATTEMPT_KIND; signature := PStr "" |} with
  | Ok e => events ++ [PDict (to_dict e)]
  | Err _ => []
  end.

Definition pay_record : list (string * pyval) :=
  [("adapter_id", PStr ADAPTER_X402_TESTNET); ("amount_minor", PInt 5); ("currency", PStr "USDC");
   ("payee_did", PStr (toy_did "c")); ("payer_did", PStr (toy_did "p")); ("tx_ref", PStr "tx1");
   ("network", PStr "eip155:84532"); ("proof", PDict [("idempotency_key", PStr pay_key)]);
   ("settled_at_ms", PInt 20)].

Definition chain_created : list pyval :=
  Eval vm_compute in pay_event [] EVENT_CREATED "" STATE_PENDING
    [("schema_version", PInt 1); ("adapter_id", PStr ADAPTER_X402_TESTNET);
     ("intent", match intent_dict pay_intent with Ok d => PDict d | Err _ => PNone end)] 10.
Definition chain_claimed : list pyval :=
  Eval vm_compute in pay_event chain_created EVENT_CLAIMED STATE_PENDING STATE_INFLIGHT
    [("lease_id", PStr pay_lease); ("lease_expires_at_ms", PInt 2000)] 10.
Definition chain_settled : list pyval :=
  Eval vm_compute in pay_event chain_claimed EVENT_SETTLED STATE_INFLIGHT STATE_SETTLED
    [("lease_id", PStr pay_lease); ("settlement", PDict pay_record)] 20.

Lemma verified_attempt_is_a_run_witness :
  let w := project_verified chain_settled in
  (exists created rest tr t s, chain_settled = created :: rest /\
     prun (event_time created) (Pending 0) tr t s /\ run_of (project_created created) rest tr /\
     abstract_view w = Some s) /\
  Forall (signed_by w.(w_actor_did) w.(w_attempt_id)) chain_settled /\
  exists i, intent_from_dict (PDict w.(w_intent)) = Ok i /\ i.(payer_did) = PStr w.(w_actor_did) /\
    settlement_idempotency_key i = Ok w.(w_attempt_id).
Proof. apply (verified_attempt_is_a_run 20 chain_settled "ok"). vm_compute. reflexivity. Defined.

Lemma lease_is_exclusive_witness :
  let e := from_dict (dict_of (nth 2 chain_settled PNone)) in
  (e.(type) = PStr EVENT_CLAIMED /\
   (project_verified chain_claimed).(w_lease_expires_at_ms) <= event_time (nth 2 chain_settled PNone)) \/
  get_or_none "lease_id" (dict_of e.(payload)) = PStr (project_verified chain_claimed).(w_lease_id).
Proof.
  apply (lease_is_exclusive 20 chain_claimed (nth 2 chain_settled PNone) "ok").
  - vm_compute. discriminate.
  - vm_compute. reflexivity.
  - vm_compute. reflexivity.
Defined.

Lemma outcomes_are_final_witness :
  (project_verified chain_claimed).(w_state) <> STATE_SETTLED.
Proof.
  apply (outcomes_are_final 20 chain_claimed (nth 2 chain_settled PNone) "ok").
  - vm_compute. discriminate.
  - vm_compute. reflexivity.
Defined.

Lemma settled_attempt_pays_intent_witness :
  let w := project_verified chain_settled in
  exists i p, intent_from_dict (PDict w.(w_intent)) = Ok i /\
    settlement_idempotency_key i = Ok w.(w_attempt_id) /\
    settlement_ok 20 w.(w_settlement) (intent_amount i) (safe_str i.(currency))
      (safe_str i.(payee_did)) w.(w_actor_did) /\
    get_or_none "proof" w.(w_settlement) = PDict p /\
    get_or_none "idempotency_key" p = PStr w.(w_attempt_id).
Proof.
  apply (settled_attempt_pays_intent 20 chain_settled "ok"); vm_compute; reflexivity.
Defined.

Lemma head_hash_binds_history_witness :
  exists h, payment_attempt_event_hash (nth 1 chain_claimed PNone) = Ok h /\
  let l := (chain_created ++ [nth 1 chain_claimed PNone])%list in
  (Forall2 (fun a b => json_eqb a b = true) l l \/
   exists u v a b, In u l /\ In v l /\
     canonical_json u = Ok a /\ canonical_json v = Ok b /\ sha256_collision a b).
Proof.
  exists (hash_or_empty (Some (nth 1 chain_claimed PNone))). split; [vm_compute; reflexivity|].
  apply (head_hash_binds_history 20 20 chain_created chain_created _ _
           (hash_or_empty (Some (nth 1 chain_claimed PNone))) "ok" "ok");
    try (vm_compute; reflexivity); apply wf_PList, wfb_wf; vm_compute; reflexivity.
Defined.

(** [verify_payment_attempt] is meant to return a verdict on untrusted
    events, but an event whose attempt id is not a string makes it raise: the
    regular expression is applied before the type is checked. *)
Theorem verify_attempt_can_raise :
  verify_payment_attempt 20 [PDict (map (fun f => (f, PNone)) EVENT_FIELDS)] = Err TypeError.
Proof. vm_compute. reflexivity. Qed.
