(* ===== verification/PaymentAnchor.v ===== *)
(** * Head anchors ([nth_dao/commerce/payment_attempt.py], [payment_witness.py])

    Beside each payment attempt the store keeps an append-only journal of signed
    head anchors, one canonical JSON object per line: a [prepared] anchor is
    durable before the document is replaced and a [committed] one after.  This
    file has the anchors, the journal's bytes, the order the anchors must have,
    the heads they accept, and the external witness that holds a second copy. *)

From Stdlib Require Import ZArith Lia Ascii String.
From stdpp Require Import base list strings gmap.
From S2P Require Import Prelude Digits PyStr PyValue Json JsonAscii CanonicalJson B64u DidKey Sha256 Identity Store Settlement PaymentEvent.

Local Open Scope string_scope.
Local Open Scope Z_scope.

Definition PHASE_PREPARED : string := "prepared".
Definition PHASE_COMMITTED : string := "committed".
Definition ANCHOR_PHASES : list string := [PHASE_PREPARED; PHASE_COMMITTED].
Definition ANCHOR_FIELDS : list string :=
  ["operation_id"; "phase"; "attempt_id"; "seq"; "head_hash"; "actor_did"; "created_at_ms"; "signature"].
Definition MAX_ANCHOR_FILE_BYTES : Z := 512 * 1024.
Definition MAX_RECORD_BYTES : Z := 16 * 1024.
Definition MAX_WITNESS_BYTES : Z := 1024 * 1024.

Record HeadAnchor := {
  a_operation_id : pyval;
  a_phase : pyval;
  a_attempt_id : pyval;
  a_seq : pyval;
  a_head_hash : pyval;
  a_actor_did : pyval;
  a_created_at_ms : pyval;
  a_signature : pyval
}.

(** [PaymentAttemptHeadAnchor.to_dict] *)
Definition anchor_dict (a : HeadAnchor) : list (string * pyval) :=
  [("operation_id", a.(a_operation_id)); ("phase", a.(a_phase)); ("attempt_id", a.(a_attempt_id));
   ("seq", a.(a_seq)); ("head_hash", a.(a_head_hash)); ("actor_did", a.(a_actor_did));
   ("created_at_ms", a.(a_created_at_ms)); ("signature", a.(a_signature))].

(** [PaymentAttemptHeadAnchor( **value )], on a dictionary with the eight fields *)
Definition anchor_of_dict (d : list (string * pyval)) : HeadAnchor := {|
  a_operation_id := get_or_none "operation_id" d; a_phase := get_or_none "phase" d;
  a_attempt_id := get_or_none "attempt_id" d; a_seq := get_or_none "seq" d;
  a_head_hash := get_or_none "head_hash" d; a_actor_did := get_or_none "actor_did" d;
  a_created_at_ms := get_or_none "created_at_ms" d; a_signature := get_or_none "signature" d |}.

(** [PaymentAttemptHeadAnchor.signing_body] *)
Definition anchor_body (a : HeadAnchor) : pyval := signing_body "signature" (anchor_dict a).

(** [x not in _ANCHOR_PHASES] raises on an unhashable [x]. *)
Definition in_phases (v : pyval) : res bool :=
  match v with
  | PStr s => Ok (str_in s ANCHOR_PHASES)
  | PList _ | PDict _ => Err TypeError
  | _ => Ok false
  end.

Section Anchors.
Context `{Ed : Ed25519}.

(** [_sign_anchor] *)
Definition sign_anchor (actor : AgentIdentity) (a : HeadAnchor) : res HeadAnchor :=
  let* did := as_did actor in
  if negb (py_eqb (PStr did) a.(a_actor_did)) then
    Err (PaymentAttemptRejected "payment attempt anchor actor mismatch") else
  let* body := canonical_json (anchor_body a) in
  let* sig := sign actor body in
  Ok {| a_operation_id := a.(a_operation_id); a_phase := a.(a_phase); a_attempt_id := a.(a_attempt_id);
        a_seq := a.(a_seq); a_head_hash := a.(a_head_hash); a_actor_did := a.(a_actor_did);
        a_created_at_ms := a.(a_created_at_ms); a_signature := PStr (b64u_encode sig) |}.

(** The signature part of [_verify_anchor]. *)
Definition verify_anchor_signature (a : HeadAnchor) : verdict :=
  if negb nacl_available then (false, "crypto unavailable") else
  match a.(a_actor_did), a.(a_signature) with
  | PStr did, PStr s =>
    match b64u_decode s, decode_ed25519_did_key did, canonical_json (anchor_body a) with
    | Ok sig, Ok pk, Ok bytes =>
      if negb (bytes_len sig =? 64) || negb (String.eqb (b64u_encode sig) s)
      then (false, "payment attempt anchor signature invalid")
      else if ed_verify pk bytes sig then (true, "ok")
      else (false, "payment attempt anchor signature invalid")
    | _, _, _ => (false, "payment attempt anchor signature invalid")
    end
  | _, _ => (false, "payment attempt anchor signature invalid")
  end.

(** [_verify_anchor] *)
Definition verify_anchor (a : HeadAnchor) : res verdict :=
  let invalid : res verdict := Ok (false, "payment attempt anchor metadata is invalid") in
  let* op_ok := fullmatch LEASE_ID a.(a_operation_id) in
  if negb op_ok then invalid else
  let* phase_ok := in_phases a.(a_phase) in
  if negb phase_ok then invalid else
  let* id_ok := fullmatch ATTEMPT_ID a.(a_attempt_id) in
  if negb id_ok then invalid else
  match a.(a_seq) with
  | PInt seq =>
    if seq <? 0 then invalid else
    let* head_ok := fullmatch EVENT_HASH a.(a_head_hash) in
    if negb head_ok then invalid else
    if negb (is_did_key a.(a_actor_did)) then invalid else
    match a.(a_created_at_ms) with
    | PInt created => if created <=? 0 then invalid else Ok (verify_anchor_signature a)
    | _ => invalid
    end
  | _ => invalid
  end.

(** ** The order of anchors *)

(** The loop variables of [_validate_anchor_sequence]. *)
Record seq_state := {
  phases_by_operation : list (string * list string);
  prepared_by_operation : list (string * HeadAnchor);
  last_created_at_ms : Z
}.

Definition seq_init : seq_state :=
  {| phases_by_operation := []; prepared_by_operation := []; last_created_at_ms := 0 |}.

(** One iteration: anchor [a] after the ones summarised by [st]. *)
Definition check_anchor (id actor source : string) (st : seq_state) (a : HeadAnchor) : res seq_state :=
  let* (ok, reason) := verify_anchor a in
  if negb ok then Err (PaymentAttemptRejected (source ++ " witness: " ++ reason)) else
  let created := int_of a.(a_created_at_ms) in
  let op := safe_str a.(a_operation_id) in
  let phase := safe_str a.(a_phase) in
  if negb (py_eqb a.(a_attempt_id) (PStr id)) || negb (py_eqb a.(a_actor_did) (PStr actor))
     || (created <? st.(last_created_at_ms)) then
    Err (PaymentAttemptRejected "payment attempt head anchor binding is invalid") else
  let phases := default [] (dict_get op st.(phases_by_operation)) in
  if str_in phase phases then
    Err (PaymentAttemptRejected "payment attempt head anchor phase is duplicated") else
  let next prepared := Ok {|
    phases_by_operation := dict_set op (phase :: phases) st.(phases_by_operation);
    prepared_by_operation := prepared; last_created_at_ms := created |} in
  if String.eqb phase PHASE_PREPARED then next (dict_set op a st.(prepared_by_operation)) else
  match dict_get op st.(prepared_by_operation) with
  | Some p =>
    if py_eqb p.(a_attempt_id) a.(a_attempt_id) && py_eqb p.(a_seq) a.(a_seq) &&
       py_eqb p.(a_head_hash) a.(a_head_hash) && py_eqb p.(a_actor_did) a.(a_actor_did)
    then next st.(prepared_by_operation)
    else Err (PaymentAttemptRejected "payment attempt committed anchor has no matching prepare")
  | None => Err (PaymentAttemptRejected "payment attempt committed anchor has no matching prepare")
  end.

Fixpoint check_anchors (id actor source : string) (st : seq_state) (l : list HeadAnchor) : res seq_state :=
  match l with
  | [] => Ok st
  | a :: l' => let* st := check_anchor id actor source st a in check_anchors id actor source st l'
  end.

(** [_validate_anchor_sequence] *)
Definition validate_anchor_sequence (id actor source : string) (l : list HeadAnchor)
  : res (list HeadAnchor) :=
  let* _ := check_anchors id actor source seq_init l in Ok l.

(** ** The heads a journal accepts *)

Definition is_committed (a : HeadAnchor) : bool := py_eqb a.(a_phase) (PStr PHASE_COMMITTED).
Definition head_of (a : HeadAnchor) : Z * string := (int_of a.(a_seq), safe_str a.(a_head_hash)).

(** The anchors after the last committed one, and that one. *)
Fixpoint after_commit (l : list HeadAnchor) (latest : option HeadAnchor) (tail : list HeadAnchor)
  : option HeadAnchor * list HeadAnchor :=
  match l with
  | [] => (latest, tail)
  | a :: l' => if is_committed a then after_commit l' (Some a) []
               else after_commit l' latest (tail ++ [a])
  end.

(** [_accepted_anchor_heads]: the latest committed head and the heads prepared
    since *)
Definition accepted_anchor_heads (l : list HeadAnchor) : list (Z * string) :=
  let '(latest, tail) := after_commit l None [] in
  match latest with Some a => [head_of a] | None => [] end
  ++ map head_of (filter (fun a => py_eqb a.(a_phase) (PStr PHASE_PREPARED) = true) tail).
End Anchors.

(** ** Journal bytes *)

(** [raw.split(b"\n")] *)
Fixpoint split_lines (l : list ascii) : list (list ascii) :=
  match l with
  | [] => [[]]
  | c :: l' =>
    if Ascii.eqb c newline then [] :: split_lines l' else
    match split_lines l' with
    | line :: rest => (c :: line) :: rest
    | [] => [[c]]
    end
  end.

(** [lines = raw.split(b"\n")], without the empty last element *)
Definition journal_lines (raw : string) : list string :=
  let lines := split_lines (chars raw) in
  map of_chars
    (match last lines with Some [] => removelast lines | _ => lines end).

(** One line of [_read_anchors]. *)
Definition parse_anchor (line : string) : res HeadAnchor :=
  if String.eqb line "" then
    Err (PaymentAttemptRejected "payment attempt head journal contains an empty record") else
  match loads_bytes line with
  | Ok (PDict d) =>
    if same_keys ANCHOR_FIELDS d then Ok (anchor_of_dict d)
    else Err (PaymentAttemptRejected "payment attempt head anchor has invalid shape")
  | Ok _ => Err (PaymentAttemptRejected "payment attempt head anchor has invalid shape")
  | Err _ => Err (PaymentAttemptRejected "payment attempt head anchor is malformed")
  end.

(** The anchors of a journal, before their order is checked. *)
Definition parse_journal (raw : string) : res (list HeadAnchor) :=
  if MAX_ANCHOR_FILE_BYTES <? bytes_len raw then
    Err (PaymentAttemptRejected "payment attempt head journal exceeds size limit") else
  res_mapM parse_anchor (journal_lines raw).

Definition nl : string := String newline "".

(** [raw.endswith(b"\n")] *)
Definition ends_line (raw : string) : bool := endswith nl raw.

(** [raw.rsplit(b"\n", 1)[-1]] *)
Definition last_line (raw : string) : string := of_chars (default [] (last (split_lines (chars raw)))).

(** [_append_anchor] on the journal's bytes ([None] when there is no file) *)
Definition append_line (file : option string) (a : HeadAnchor) : res string :=
  let* encoded := canonical_json (PDict (anchor_dict a)) in
  let line := encoded ++ nl in
  let raw := default "" file in
  if MAX_ANCHOR_FILE_BYTES <? bytes_len raw then
    Err (PaymentAttemptRejected "payment attempt head journal exceeds size limit") else
  let unterminated := negb (String.eqb raw "") && negb (ends_line raw) in
  let* _ := (if unterminated then
               match loads_bytes (last_line raw) with
               | Ok (PDict d) =>
                 if same_keys ANCHOR_FIELDS d then Ok tt
                 else Err (PaymentAttemptRejected "payment attempt head journal has an invalid tail")
               | Ok _ => Err (PaymentAttemptRejected "payment attempt head journal has an invalid tail")
               | Err _ => Err (PaymentAttemptRejected "payment attempt head journal has a torn tail")
               end
             else Ok tt) in
  let separator := if unterminated then nl else "" in
  if MAX_ANCHOR_FILE_BYTES <? bytes_len raw + bytes_len separator + bytes_len line then
    Err (PaymentAttemptRejected "payment attempt head journal exceeds size limit") else
  Ok (raw ++ separator ++ line).

(** ** The external witness *)

(** The protocol [PaymentAttemptHeadWitness], over a state [W]. *)
Record HeadWitness (W : Type) := {
  hw_read : string -> W -> res pyval;
  hw_append : string -> list (string * pyval) -> W -> W * res unit
}.
Arguments hw_read {W}.
Arguments hw_append {W}.

(** [FilePaymentAttemptHeadWitness]: one JSONL file per attempt, by digest. *)
Abbreviation witness_files := (gmap string string).

(** [attempt_id.rsplit(":", 1)[-1]] of a valid id *)
Definition id_digest (id : string) : string := str_drop (String.length ATTEMPT_PREFIX) id.

(** [FilePaymentAttemptHeadWitness._decode] *)
Definition decode_record (line : string) : res pyval :=
  if String.eqb line "" || (MAX_RECORD_BYTES <? bytes_len line) then
    Err (PaymentWitnessRejected "payment witness contains an invalid record") else
  match loads_bytes line with
  | Ok (PDict d) => Ok (PDict d)
  | Ok _ => Err (PaymentWitnessRejected "payment witness record must be an object")
  | Err _ => Err (PaymentWitnessRejected "payment witness contains a torn or malformed record")
  end.

Definition decode_records (raw : string) : res (list pyval) :=
  if MAX_WITNESS_BYTES <? bytes_len raw then
    Err (PaymentWitnessRejected "payment witness exceeds size limit") else
  if String.eqb raw "" then Ok [] else res_mapM decode_record (journal_lines raw).

Definition file_witness_read (id : string) (w : witness_files) : res pyval :=
  if negb (ATTEMPT_ID id) then Err (PaymentWitnessRejected "invalid payment attempt id") else
  match w !! id_digest id with
  | None => Ok (PList [])
  | Some raw => res_map PList (decode_records raw)
  end.

Definition file_witness_append (id : string) (anchor : list (string * pyval)) (w : witness_files)
  : witness_files * res unit :=
  let fail (m : string) : witness_files * res unit := (w, Err (PaymentWitnessRejected m)) in
  if negb (ATTEMPT_ID id) then fail "invalid payment attempt id" else
  match canonical_json (PDict anchor) with
  | Err e => if is_TypeOrValueError e then fail "payment witness anchor is not canonical JSON" else (w, Err e)
  | Ok encoded =>
    if MAX_RECORD_BYTES <? bytes_len encoded then fail "payment witness anchor exceeds size limit" else
    let raw := default "" (w !! id_digest id) in
    match decode_records raw with
    | Err e => (w, Err e)
    | Ok records =>
      if match last records with Some r => py_eqb r (PDict anchor) | None => false end then (w, Ok tt) else
      if MAX_WITNESS_BYTES <? bytes_len raw + bytes_len encoded + 1 then
        fail "payment witness exceeds size limit" else
      let separator := if negb (String.eqb raw "") && negb (ends_line raw) then nl else "" in
      (<[id_digest id := raw ++ separator ++ encoded ++ nl]> w, Ok tt)
    end
  end.

Definition FilePaymentAttemptHeadWitness : HeadWitness witness_files :=
  {| hw_read := file_witness_read; hw_append := file_witness_append |}.
