(* ===== verification/PaymentStore.v ===== *)
(** * The payment attempt store ([PaymentAttemptStore])

    One document per attempt, replaced as a whole, and its head journal, both
    named by the digest in the attempt id; optionally an external witness.  The
    locks of the source make each operation atomic with respect to the others;
    a crash can still stop [_persist] between two of its writes. *)

From Stdlib Require Import ZArith Lia Ascii String.
From stdpp Require Import base list strings gmap.
From S2P Require Import Prelude Digits PyStr PyValue Json JsonAscii CanonicalJson B64u DidKey Sha256 Identity Store Settlement DocFile PaymentEvent PaymentAnchor.

Local Open Scope string_scope.
Local Open Scope Z_scope.

Definition MAX_FILE_BYTES : Z := 1024 * 1024.
Definition LEGACY_EVENT_FIELDS : list string :=
  ["attempt_id"; "seq"; "type"; "actor_did"; "prev_state"; "new_state"; "payload";
   "created_at_ms"; "kind"; "signature"].
Definition DOCUMENT_FIELDS : list string := ["attempt_id"; "events"; "head_hash"].

(** ** Documents on disk *)

(** A verified document has a canonical encoding, so it holds no floats. *)
#[export] Instance no_floats : FloatText := fun _ => "".

(** [json.loads(_read_bounded(path, _MAX_FILE_BYTES).decode("utf-8"))] *)
Definition read_document (f : docfile) (unreadable : string) : res pyval :=
  if MAX_FILE_BYTES <? f.(df_size) then
    Err (PaymentAttemptRejected "stored payment attempt exceeds size limit") else
  match f.(df_value) with
  | Some v => Ok v
  | None => Err (PaymentAttemptRejected unreadable)
  end.

Record pstore (W : Type) := {
  docs : gmap string docfile;
  journals : gmap string string;
  wit : W
}.
Arguments docs {W}.
Arguments journals {W}.
Arguments wit {W}.

Definition head_in (h : Z * string) (l : list (Z * string)) : bool :=
  existsb (fun x => (x.1 =? h.1) && String.eqb x.2 h.2) l.

(** [self._path(attempt_id)]: the file's stem *)
Definition attempt_path (id : string) : res string :=
  if ATTEMPT_ID id then Ok (id_digest id) else Err (PaymentAttemptRejected "invalid payment attempt id").

(** [_legacy_payload] *)
Definition legacy_payload (event_type payload : pyval) : res (list (string * pyval)) :=
  match payload with
  | PDict d =>
    let is_type t := py_eqb event_type (PStr t) in
    let* coded := match event_type with
                  | PList _ | PDict _ => Err TypeError
                  | _ => Ok (is_type EVENT_RETRY_SCHEDULED || is_type EVENT_BLOCKED)
                  end in
    if coded then
      let error := match dict_get "error" d with
                   | Some v => v
                   | None => default (PStr "") (dict_get "error_code" d)
                   end in
      let code := match error with
                  | PStr s => if ERROR_CODE s then s
                              else if is_type EVENT_RETRY_SCHEDULED then "legacy-retry-error"
                              else "legacy-block-error"
                  | _ => if is_type EVENT_RETRY_SCHEDULED then "legacy-retry-error"
                         else "legacy-block-error"
                  end in
      Ok (dict_set "error_code" (PStr code) (dict_without "error" d))
    else Ok d
  | _ => Err (PaymentAttemptRejected "legacy payment attempt payload is invalid")
  end.

Section Store.
Context `{Ed : Ed25519} {W : Type} (witness : option (HeadWitness W)).

(** A state-passing computation that may raise. *)
Definition io (A : Type) : Type := pstore W -> pstore W * res A.
Definition io_ret {A} (r : res A) : io A := fun st => (st, r).
Definition io_bind {A B} (m : io A) (k : A -> io B) : io B :=
  fun st => match m st with (st, Ok a) => k a st | (st, Err e) => (st, Err e) end.

(** ** Loading *)

(** [_read_anchors] *)
Definition read_anchors (st : pstore W) (id actor : string) : res (list HeadAnchor) :=
  let* path := attempt_path id in
  match st.(journals) !! path with
  | None => Ok []
  | Some raw => let* l := parse_journal raw in validate_anchor_sequence id actor "local" l
  end.

(** The anchor in one record of the external witness. *)
Definition witness_anchor (v : pyval) : res HeadAnchor :=
  match v with
  | PDict d =>
    if same_keys ANCHOR_FIELDS d then Ok (anchor_of_dict d)
    else Err (PaymentAttemptRejected "external payment witness anchor has invalid shape")
  | _ => Err (PaymentAttemptRejected "external payment witness anchor has invalid shape")
  end.

(** The exceptions a call to the witness is translated to. *)
Definition witness_error {A} (e : exn) : res A :=
  match e with
  | PaymentWitnessRejected d => Err (PaymentAttemptRejected d)
  | _ => if is_OSOrRuntimeError e then Err (PaymentAttemptRejected "external payment witness is unavailable")
         else Err e
  end.

(** [_read_witness_anchors] *)
Definition read_witness_anchors (st : pstore W) (id actor : string) : res (list HeadAnchor) :=
  match witness with
  | None => Ok []
  | Some w =>
    match w.(hw_read) id st.(wit) with
    | Err e => witness_error e
    | Ok (PList records) =>
      let* l := res_mapM witness_anchor records in
      validate_anchor_sequence id actor "external" l
    | Ok _ => Err (PaymentAttemptRejected "external payment witness returned an invalid response")
    end
  end.

(** [_validate_anchor] *)
Definition validate_anchor (st : pstore W) (id : string) (events : list pyval) (head_hash : string)
  : res unit :=
  let* actor := match events with
                | [] => Ok (PStr "")
                | PDict d :: _ => Ok (get_or_none "actor_did" d)
                | _ :: _ => Err AttributeError
                end in
  match actor with
  | PStr actor =>
    if String.eqb actor "" then Err (PaymentAttemptRejected "stored payment attempt actor is invalid") else
    let* anchors := read_anchors st id actor in
    let current := (Z.of_nat (List.length events) - 1, head_hash) in
    match anchors with
    | [] => Err (PaymentAttemptRejected "stored payment attempt has no signed head journal")
    | _ =>
      if negb (head_in current (accepted_anchor_heads anchors)) then
        Err (PaymentAttemptRejected "stored payment attempt was rolled back or lacks a durable prepare") else
      match witness with
      | None => Ok tt
      | Some _ =>
        let* witnessed := read_witness_anchors st id actor in
        match witnessed with
        | [] => Err (PaymentAttemptRejected "stored payment attempt has no external witness")
        | _ =>
          if head_in current (accepted_anchor_heads witnessed) then Ok tt
          else Err (PaymentAttemptRejected "stored payment attempt conflicts with its external witness")
        end
      end
    end
  | _ => Err (PaymentAttemptRejected "stored payment attempt actor is invalid")
  end.

(** The shape test of [_load] on the decoded document. *)
Definition document_events (expected_id : string) (value : pyval) : res (list pyval * string) :=
  let invalid : res (list pyval * string) :=
    Err (PaymentAttemptRejected "stored payment attempt has invalid shape") in
  match value with
  | PDict d =>
    if negb (same_keys DOCUMENT_FIELDS d) then invalid else
    if negb (py_eqb (get_or_none "attempt_id" d) (PStr expected_id)) then invalid else
    match get_or_none "events" d, get_or_none "head_hash" d with
    | PList events, PStr head_hash =>
      match last events with
      | None => invalid
      | Some head =>
        if negb (EVENT_HASH head_hash) then invalid else
        let* h := payment_attempt_event_hash head in
        if String.eqb head_hash h then Ok (events, head_hash) else invalid
      end
    | _, _ => invalid
    end
  | _ => invalid
  end.

(** [_load] *)
Definition load (st : pstore W) (path : string) : res (option (list pyval)) :=
  match st.(docs) !! path with
  | None => Ok None
  | Some f =>
    let* value := read_document f "stored payment attempt is unreadable" in
    let id := ATTEMPT_PREFIX ++ path in
    let* (events, head_hash) := document_events id value in
    let* _ := validate_anchor st id events head_hash in
    Ok (Some events)
  end.

(** [get_events] *)
Definition get_events (st : pstore W) (id : string) : res (option (list pyval)) :=
  let* path := attempt_path id in load st path.

(** [get] *)
Definition get (now : Z) (st : pstore W) (id : string) : res (option PaymentAttemptView) :=
  let* found := get_events st id in
  match found with
  | None => Ok None
  | Some events =>
    let* (ok, reason) := verify_payment_attempt now events in
    if ok then Ok (Some (project_verified events))
    else Err (PaymentAttemptRejected ("stored payment attempt is invalid: " ++ reason))
  end.

(** ** Persisting *)

(** [_document] *)
Definition document (id : string) (events : list pyval) : res (list (string * pyval)) :=
  match last events with
  | None => Err (PaymentAttemptRejected "cannot persist an empty payment attempt")
  | Some head =>
    let* h := payment_attempt_event_hash head in
    Ok [("attempt_id", PStr id); ("events", PList events); ("head_hash", PStr h)]
  end.

(** [_append_anchor] *)
Definition append_anchor (a : HeadAnchor) : io unit := fun st =>
  match (let* path := (match a.(a_attempt_id) with PStr id => attempt_path id | _ =>
                         Err (PaymentAttemptRejected "invalid payment attempt id") end) in
         let* raw := append_line (st.(journals) !! path) a in Ok (path, raw)) with
  | Err e => (st, Err e)
  | Ok (path, raw) =>
    ({| docs := st.(docs); journals := <[path := raw]> st.(journals); wit := st.(wit) |}, Ok tt)
  end.

(** [_append_witness] *)
Definition append_witness (a : HeadAnchor) : io unit := fun st =>
  match witness with
  | None => (st, Ok tt)
  | Some w =>
    match w.(hw_append) (safe_str a.(a_attempt_id)) (anchor_dict a) st.(wit) with
    | (s, r) =>
      ({| docs := st.(docs); journals := st.(journals); wit := s |},
       match r with Ok _ => Ok tt | Err e => witness_error e end)
    end
  end.

(** [atomic_write_json(path, document)] *)
Definition write_document (path : string) (d : list (string * pyval)) : io unit := fun st =>
  ({| docs := <[path := written (PDict d)]> st.(docs); journals := st.(journals); wit := st.(wit) |}, Ok tt).

(** The anchor of one phase of an operation. *)
Definition anchor_for (op phase id did head_hash : string) (seq created : Z) : HeadAnchor := {|
  a_operation_id := PStr op; a_phase := PStr phase; a_attempt_id := PStr id; a_seq := PInt seq;
  a_head_hash := PStr head_hash; a_actor_did := PStr did; a_created_at_ms := PInt created;
  a_signature := PStr "" |}.

(** The durable writes of [_persist], in order; [op] is the fresh operation
    id. *)
Definition persist_writes (path id : string) (d : list (string * pyval)) (actor : AgentIdentity)
    (did op head_hash : string) (seq created : Z) (prepared : HeadAnchor) : list (io unit) :=
  [append_anchor prepared;
   append_witness prepared;
   write_document path d;
   fun st => match sign_anchor actor (anchor_for op PHASE_COMMITTED id did head_hash seq created) with
             | Err e => (st, Err e)
             | Ok committed => append_anchor committed st
             end;
   fun st => match sign_anchor actor (anchor_for op PHASE_COMMITTED id did head_hash seq created) with
             | Err e => (st, Err e)
             | Ok committed => append_witness committed st
             end].

Fixpoint run_writes (ws : list (io unit)) : io unit := fun st =>
  match ws with
  | [] => (st, Ok tt)
  | w :: ws' => match w st with (st, Ok _) => run_writes ws' st | (st, Err e) => (st, Err e) end
  end.

(** [_persist], stopped after [budget] durable writes *)
Definition persist_crash (budget : nat) (path id : string) (events : list pyval) (actor : AgentIdentity)
    (op : string) (created : Z) : io unit := fun st =>
  match (let* d := document id events in
         let* did := as_did actor in
         let head_hash := safe_str (get_or_none "head_hash" d) in
         let seq := Z.of_nat (List.length events) - 1 in
         let* prepared := sign_anchor actor (anchor_for op PHASE_PREPARED id did head_hash seq created) in
         Ok (persist_writes path id d actor did op head_hash seq created prepared)) with
  | Err e => (st, Err e)
  | Ok ws => run_writes (take budget ws) st
  end.

(** [_persist] *)
Definition persist (path id : string) (events : list pyval) (actor : AgentIdentity) (op : string)
    (created : Z) : io unit :=
  persist_crash 5 path id events actor op created.

(** ** Operations *)

(** An event under construction, unsigned. *)
Definition new_event (id : string) (seq : Z) (event_type did prev new : string)
    (payload : list (string * pyval)) (prev_hash : string) (created : Z) : PaymentAttemptEvent := {|
  attempt_id := PStr id; PaymentEvent.seq := PInt seq; type := PStr event_type; actor_did := PStr did;
  prev_state := PStr prev; new_state := PStr new; PaymentEvent.payload := PDict payload;
  prev_event_hash := PStr prev_hash; created_at_ms := PInt created; kind := PStr PAYMENT_ATTEMPT_KIND;
  signature := PStr "" |}.

(** Persist a chain and return its view. *)
Definition persist_view (path id : string) (events : list pyval) (actor : AgentIdentity) (op : string)
    (created : Z) : io PaymentAttemptView :=
  io_bind (persist path id events actor op created) (fun _ => io_ret (Ok (project_verified events))).

(** [create]; [Some] holds the events to persist, [None] an existing view *)
Definition create_plan (now : Z) (st : pstore W) (actor : AgentIdentity) (i : SettlementIntent)
    (adapter_id : string) (override : Z)
  : res (string * string * Z * (PaymentAttemptView + list pyval)) :=
  if negb (String.eqb adapter_id ADAPTER_X402_TESTNET) then
    Err (PaymentAttemptRejected "only external x402 attempts are persisted") else
  let* intent_payload := intent_dict i in
  if negb (truthy i.(payer_did)) then
    Err (PaymentAttemptRejected "payment attempt actor must be the payer DID") else
  let* did := as_did actor in
  if negb (py_eqb (PStr did) i.(payer_did)) then
    Err (PaymentAttemptRejected "payment attempt actor must be the payer DID") else
  let* id := settlement_idempotency_key i in
  let* path := attempt_path id in
  let created := clock_ms now override in
  if created <=? 0 then Err (PaymentAttemptRejected "invalid payment attempt timestamp") else
  let payload := [("schema_version", PInt 1); ("adapter_id", PStr adapter_id); ("intent", PDict intent_payload)] in
  let* existing := load st path in
  match existing with
  | Some events =>
    let* (ok, reason) := verify_payment_attempt now events in
    if negb ok then Err (PaymentAttemptConflict ("stored payment attempt is invalid: " ++ reason)) else
    let view := project_verified events in
    if negb (String.eqb view.(w_actor_did) did) || negb (py_eqb (PDict view.(w_intent)) (PDict intent_payload))
    then Err (PaymentAttemptConflict "payment attempt id contains different intent")
    else Ok (path, id, created, inl view)
  | None =>
    let* e := sign_event actor (new_event id 0 EVENT_CREATED did "" STATE_PENDING payload "" created) in
    Ok (path, id, created, inr [PDict (to_dict e)])
  end.

Definition create (now : Z) (actor : AgentIdentity) (i : SettlementIntent) (adapter_id : string)
    (override : Z) (op : string) : io PaymentAttemptView := fun st =>
  match create_plan now st actor i adapter_id override with
  | Err e => (st, Err e)
  | Ok (_, _, _, inl view) => (st, Ok view)
  | Ok (path, id, created, inr events) => persist_view path id events actor op created st
  end.

(** What [_append] and [claim] do once the current view is known: sign the
    next event and verify the whole candidate chain. *)
Definition candidate (now : Z) (id : string) (events : list pyval) (current : PaymentAttemptView)
    (actor : AgentIdentity) (event_type new : string) (payload : list (string * pyval)) (created : Z)
  : res (list pyval) :=
  let* prev_hash := match last events with
                    | Some p => payment_attempt_event_hash p
                    | None => Err IndexError
                    end in
  let* e := sign_event actor (new_event id (Z.of_nat (List.length events)) event_type current.(w_actor_did)
                                current.(w_state) new payload prev_hash created) in
  let chain := (events ++ [PDict (to_dict e)])%list in
  let* (ok, reason) := verify_payment_attempt now chain in
  if ok then Ok chain else Err (PaymentAttemptRejected reason).

(** The stored chain, verified and owned by [actor]; [None] when there is none. *)
Definition load_owned (now : Z) (st : pstore W) (path : string) (actor : AgentIdentity)
  : res (option (list pyval)) :=
  let* found := load st path in
  match found with
  | None | Some [] => Ok None
  | Some events =>
    let* (ok, reason) := verify_payment_attempt now events in
    if negb ok then Err (PaymentAttemptConflict ("stored payment attempt is invalid: " ++ reason)) else
    let* did := as_did actor in
    if negb (String.eqb did (project_verified events).(w_actor_did)) then
      Err (PaymentAttemptRejected "payment attempt actor mismatch") else
    Ok (Some events)
  end.

(** [_append] *)
Definition append_plan (now : Z) (st : pstore W) (id : string) (actor : AgentIdentity)
    (event_type new : string) (payload : list (string * pyval)) (override : Z)
  : res (string * Z * list pyval) :=
  let* path := attempt_path id in
  let created := clock_ms now override in
  let* found := load_owned now st path actor in
  match found with
  | None => Err (PaymentAttemptRejected "payment attempt not found")
  | Some events =>
    let* chain := candidate now id events (project_verified events) actor event_type new payload created in
    Ok (path, created, chain)
  end.

Definition append (now : Z) (id : string) (actor : AgentIdentity) (event_type new : string)
    (payload : list (string * pyval)) (override : Z) (op : string) : io PaymentAttemptView := fun st =>
  match append_plan now st id actor event_type new payload override with
  | Err e => (st, Err e)
  | Ok (path, created, chain) => persist_view path id chain actor op created st
  end.

(** [claim]; [lease] is the fresh lease id *)
Definition claim_plan (now : Z) (st : pstore W) (id : string) (actor : AgentIdentity) (lease_ms : Z)
    (override : Z) (lease : string) : res (option (string * Z * list pyval)) :=
  if negb ((1000 <=? lease_ms) && (lease_ms <=? 300000)) then
    Err (PaymentAttemptRejected "lease_ms must be between 1000 and 300000") else
  let* path := attempt_path id in
  let current_ms := clock_ms now override in
  let* found := load_owned now st path actor in
  match found with
  | None => Ok None
  | Some events =>
    let current := project_verified events in
    if str_in current.(w_state) [STATE_SETTLED; STATE_BLOCKED; STATE_ORPHANED] then Ok None else
    if String.eqb current.(w_state) STATE_PENDING && (current_ms <? current.(w_next_attempt_at_ms))
    then Ok None else
    if String.eqb current.(w_state) STATE_INFLIGHT && (current_ms <? current.(w_lease_expires_at_ms))
    then Ok None else
    let* chain := candidate now id events current actor EVENT_CLAIMED STATE_INFLIGHT
                    [("lease_id", PStr lease); ("lease_expires_at_ms", PInt (current_ms + lease_ms))]
                    current_ms in
    Ok (Some (path, current_ms, chain))
  end.

Definition claim (now : Z) (id : string) (actor : AgentIdentity) (lease_ms override : Z)
    (lease op : string) : io (option PaymentAttemptView) := fun st =>
  match claim_plan now st id actor lease_ms override lease with
  | Err e => (st, Err e)
  | Ok None => (st, Ok None)
  | Ok (Some (path, created, chain)) =>
    io_bind (persist_view path id chain actor op created) (fun w => io_ret (Ok (Some w))) st
  end.

(** [schedule_retry] *)
Definition schedule_retry (now : Z) (id : string) (actor : AgentIdentity) (lease_id error_code : string)
    (retry_after_ms override : Z) (op : string) : io PaymentAttemptView :=
  if retry_after_ms <? 0 then io_ret (Err (PaymentAttemptRejected "retry_after_ms must be non-negative")) else
  let current_ms := clock_ms now override in
  append now id actor EVENT_RETRY_SCHEDULED STATE_PENDING
    [("lease_id", PStr lease_id); ("error_code", PStr error_code);
     ("next_attempt_at_ms", PInt (current_ms + retry_after_ms))] current_ms op.

(** [record_settled] *)
Definition record_settled (now : Z) (id : string) (actor : AgentIdentity) (lease_id : string)
    (settlement : list (string * pyval)) (override : Z) (op : string) : io PaymentAttemptView :=
  append now id actor EVENT_SETTLED STATE_SETTLED
    [("lease_id", PStr lease_id); ("settlement", PDict settlement)] override op.

(** [block] *)
Definition block (now : Z) (id : string) (actor : AgentIdentity) (lease_id error_code : string)
    (override : Z) (op : string) : io PaymentAttemptView :=
  append now id actor EVENT_BLOCKED STATE_BLOCKED
    [("lease_id", PStr lease_id); ("error_code", PStr error_code)] override op.

(** [record_orphaned] *)
Definition record_orphaned (now : Z) (id : string) (actor : AgentIdentity)
    (lease_id error_code provider_reference evidence_digest : string) (override : Z) (op : string)
  : io PaymentAttemptView :=
  append now id actor EVENT_ORPHANED STATE_ORPHANED
    [("lease_id", PStr lease_id); ("error_code", PStr error_code);
     ("provider_reference", PStr provider_reference); ("evidence_digest", PStr evidence_digest)]
    override op.

(** [record_reconciled] *)
Definition record_reconciled (now : Z) (id : string) (actor : AgentIdentity)
    (settlement : list (string * pyval)) (orphan_evidence_digest : string) (override : Z) (op : string)
  : io PaymentAttemptView :=
  append now id actor EVENT_ORPHAN_RECONCILED STATE_SETTLED
    [("settlement", PDict settlement); ("orphan_evidence_digest", PStr orphan_evidence_digest)]
    override op.

(** The file stems of the store, as [sorted(self.root.glob("*.json"))]. *)
Definition sorted_stems (st : pstore W) : list string :=
  map fst (sort_items (map_to_list st.(docs))).

Definition is_attempt_error (e : exn) : bool :=
  match e with PaymentAttemptRejected _ | PaymentAttemptConflict _ => true | _ => false end.

Fixpoint pending_loop (now : Z) (st : pstore W) (limit : nat) (stems : list string)
  : res (list PaymentAttemptView) :=
  match stems, limit with
  | [], _ | _, O => Ok []
  | stem :: stems', S limit' =>
    let* found := try_except (get now st (ATTEMPT_PREFIX ++ stem)) is_attempt_error (fun _ => Ok None) in
    match found with
    | Some view =>
      if str_in view.(w_state) [STATE_PENDING; STATE_INFLIGHT]
      then let* rows := pending_loop now st limit' stems' in Ok (view :: rows)
      else pending_loop now st limit stems'
    | None => pending_loop now st limit stems'
    end
  end.

(** [pending] *)
Definition pending (now : Z) (st : pstore W) (limit : Z) : res (list PaymentAttemptView) :=
  if negb ((1 <=? limit) && (limit <=? 1000)) then
    Err (PaymentAttemptRejected "limit must be between 1 and 1000")
  else pending_loop now st (Z.to_nat limit) (sorted_stems st).

(** ** Migration of the format without hashes *)

(** One event of [migrate_legacy]; [migrated] are the ones before it. *)
Definition migrate_event (id did : string) (actor : AgentIdentity) (index : Z) (migrated : list pyval)
    (raw : pyval) : res pyval :=
  match raw with
  | PDict d =>
    if negb (same_keys LEGACY_EVENT_FIELDS d) then
      Err (PaymentAttemptRejected "legacy payment attempt event has invalid fields") else
    let* encoded := try_except (canonical_json raw) is_TypeOrValueError
                      (fun _ => Err (PaymentAttemptRejected
                                       "legacy payment attempt event is not canonical JSON")) in
    if MAX_EVENT_BYTES <? bytes_len encoded then
      Err (PaymentAttemptRejected "legacy payment attempt event is not canonical JSON") else
    let '(ok, reason) := verify_legacy_signature d in
    if negb ok then Err (PaymentAttemptRejected reason) else
    if negb (py_eqb (get_or_none "attempt_id" d) (PStr id)) || negb (py_eqb (get_or_none "actor_did" d) (PStr did))
       || negb (py_eqb (get_or_none "seq" d) (PInt index)) then
      Err (PaymentAttemptRejected "legacy payment attempt actor, id, or sequence is invalid") else
    let* payload := legacy_payload (get_or_none "type" d) (get_or_none "payload" d) in
    let* prev_hash := match last migrated with
                      | None => Ok ""
                      | Some p => payment_attempt_event_hash p
                      end in
    let* e := sign_event actor {|
      attempt_id := PStr id; PaymentEvent.seq := PInt index; type := get_or_none "type" d;
      actor_did := PStr did; prev_state := get_or_none "prev_state" d;
      new_state := get_or_none "new_state" d; PaymentEvent.payload := PDict payload;
      prev_event_hash := PStr prev_hash; created_at_ms := get_or_none "created_at_ms" d;
      kind := get_or_none "kind" d; signature := PStr "" |} in
    Ok (PDict (to_dict e))
  | _ => Err (PaymentAttemptRejected "legacy payment attempt event has invalid fields")
  end.

Fixpoint migrate_events (id did : string) (actor : AgentIdentity) (index : Z) (migrated rest : list pyval)
  : res (list pyval) :=
  match rest with
  | [] => Ok migrated
  | raw :: rest' =>
    let* e := migrate_event id did actor index migrated raw in
    migrate_events id did actor (index + 1) (migrated ++ [e]) rest'
  end.

(** [migrate_legacy], up to [_persist] *)
Definition migrate_plan (now : Z) (st : pstore W) (id : string) (actor : AgentIdentity)
  : res (string * (PaymentAttemptView + list pyval)) :=
  let* path := attempt_path id in
  if negb (can_sign actor) then
    Err (PaymentAttemptRejected "legacy payment attempt migration requires a signing identity") else
  match st.(docs) !! path with
  | None => Err (PaymentAttemptRejected "payment attempt not found")
  | Some f =>
    let* value := read_document f "legacy payment attempt is unreadable" in
    let rejected : res (string * (PaymentAttemptView + list pyval)) :=
      Err (PaymentAttemptRejected "payment attempt is not an accepted legacy format") in
    match value with
    | PDict d =>
      if same_keys DOCUMENT_FIELDS d then
        let* found := load st path in
        match found with
        | None => Err (PaymentAttemptRejected "payment attempt not found")
        | Some events =>
          let* (ok, reason) := verify_payment_attempt now events in
          if ok then Ok (path, inl (project_verified events))
          else Err (PaymentAttemptRejected ("stored payment attempt is invalid: " ++ reason))
        end
      else if negb (same_keys ["attempt_id"; "events"] d) then rejected
      else if negb (py_eqb (get_or_none "attempt_id" d) (PStr id)) then rejected
      else match get_or_none "events" d with
      | PList [] => rejected
      | PList legacy =>
        let* did := as_did actor in
        let* events := migrate_events id did actor 0 [] legacy in
        let* (ok, reason) := verify_payment_attempt now events in
        if negb ok then
          Err (PaymentAttemptRejected ("legacy payment attempt is semantically invalid: " ++ reason)) else
        let* head_hash := match last events with
                          | Some p => payment_attempt_event_hash p
                          | None => Err IndexError
                          end in
        let* anchors := read_anchors st id did in
        if existsb (fun a => negb (py_eqb a.(a_phase) (PStr PHASE_PREPARED))
                             || negb (py_eqb a.(a_seq) (PInt (Z.of_nat (List.length events) - 1)))
                             || negb (py_eqb a.(a_head_hash) (PStr head_hash))) anchors then
          Err (PaymentAttemptRejected "legacy payment attempt has conflicting head anchors")
        else Ok (path, inr events)
      | _ => rejected
      end
    | _ => rejected
    end
  end.

(** [migrate_legacy] *)
Definition migrate_legacy (now : Z) (id : string) (actor : AgentIdentity) (op : string)
  : io PaymentAttemptView := fun st =>
  match migrate_plan now st id actor with
  | Err e => (st, Err e)
  | Ok (_, inl view) => (st, Ok view)
  | Ok (path, inr events) =>
    let created := match last events with
                   | Some (PDict d) => int_of (get_or_none "created_at_ms" d)
                   | _ => 0
                   end in
    persist_view path id events actor op created st
  end.
End Store.
