(* ===== verification/JournalSpec.v ===== *)
(** * The head journal and its witness are faithful logs

    A line appended to a journal is read back, whatever the bytes before it
    were, and the anchors already there stay; the file witness has the same
    contract, which is what the store needs of any witness. *)

From Stdlib Require Import ZArith Lia Ascii String Permutation.
From stdpp Require Import base list strings gmap.
From S2P Require Import Prelude Digits PyStr PyValue Json JsonAscii CanonicalJson B64u DidKey Sha256 Identity Store Settlement PaymentEvent PaymentAnchor.

Local Open Scope string_scope.
Local Open Scope Z_scope.

(** ** Printable encodings *)

(** A field of an anchor: ASCII text or an integer. *)
Definition atom (v : pyval) : bool :=
  match v with PStr s => char_all ascii7 s | PInt _ => true | _ => false end.

Definition flat (d : list (string * pyval)) : bool :=
  forallb (fun kv => char_all ascii7 kv.1 && atom kv.2) d.

Lemma quote_printable s : char_all ascii7 s = true -> forallb printable (json_quote s) = true.
Proof.
  intros H. unfold json_quote. cbn [forallb]. rewrite forallb_app. apply andb_true_iff; split; [done|].
  apply andb_true_iff; split; [|done]. unfold char_all in H. revert H.
  generalize (chars s). clear s. intros l. induction l as [|c l IH]; [done|]. cbn [forallb mbind list_bind].
  intros [Hc Hl]%andb_true_iff. rewrite forallb_app, (esc_printable c Hc). exact (IH Hl).
Qed.

Lemma atom_printable v : atom v = true -> forallb printable (enc v) = true.
Proof. destruct v; try done; intros H; [apply int_printable|by apply quote_printable]. Qed.

Lemma flat_printable d : flat d = true -> char_all printable (dumps (PDict d)) = true.
Proof.
  intros H. unfold char_all, dumps. rewrite chars_of_chars. cbn [enc forallb].
  rewrite forallb_app. apply andb_true_iff; split; [done|]. apply andb_true_iff; split; [|done].
  apply join_printable; [done|]. apply Forall_map, Forall_forall. intros [k l] Hin.
  rewrite (sort_items_Permutation (map_snd enc d)) in Hin. apply list_elem_of_In, map_snd_In in Hin as (v & Hv & <-).
  unfold flat in H. rewrite forallb_forall in H. specialize (H _ Hv). simpl in H.
  apply andb_true_iff in H as [Hk Ha]. unfold member. cbn [fst snd].
  rewrite forallb_app, quote_printable by done. cbn [forallb andb]. by rewrite atom_printable.
Qed.

(** ** A flat record survives the round trip *)

Lemma flat_encodes d :
  flat d = true -> jsonlike (PDict d) = true.
Proof.
  intros H. cbn [jsonlike]. unfold flat in H. rewrite forallb_forall in *. intros [k v] Hin.
  specialize (H _ Hin). apply andb_true_iff in H as [_ H]. by destruct v.
Qed.

Lemma ascii7_text_ok s : char_all ascii7 s = true -> text_ok s = true.
Proof.
  intros H. apply text_ok_ascii. unfold char_all in H. apply forallb_Forall in H.
  unfold bytes_of. apply Forall_fmap. eapply Forall_impl; [exact H|]. intros ch Hc.
  unfold ascii7 in Hc. apply Z.ltb_lt in Hc. simpl. pose proof (byte_of_range ch). lia.
Qed.

Lemma flat_encodable d : flat d = true -> encodable (PDict d) = true.
Proof.
  intros H. cbn [encodable]. unfold flat in H. rewrite forallb_forall in *. intros [k v] Hin.
  specialize (H _ Hin). apply andb_true_iff in H as [Hk H]. cbn [fst snd] in *.
  rewrite (ascii7_text_ok k Hk). destruct v; try done. cbn [atom] in H. cbn [encodable andb]. by apply ascii7_text_ok.
Qed.

Lemma flat_wf d : NoDup (dict_keys d) -> flat d = true -> wf (PDict d).
Proof.
  intros Hn H. apply wf_PDict. split; [done|]. unfold flat in H. apply forallb_Forall in H.
  eapply Forall_impl; [exact H|]. intros [k v] [_ Hv]%andb_true_iff. by destruct v.
Qed.

Lemma flat_norm d : flat d = true -> norm (PDict d) = PDict (sort_items d).
Proof.
  intros H. cbn [norm]. f_equal. f_equal. unfold map_snd. unfold flat in H.
  induction d as [|[k v] d IH]; [done|]. cbn [forallb map] in *. apply andb_true_iff in H as [Hv Hd].
  rewrite (IH Hd). apply andb_true_iff in Hv as [_ Hv]. by destruct v.
Qed.

(** Reading an encoded flat record yields its entries, in some order. *)
Lemma loads_flat d s :
  NoDup (dict_keys d) -> flat d = true -> canonical_json (PDict d) = Ok s ->
  char_all printable s = true /\ s <> "" /\
  exists e, Permutation d e /\ loads_bytes s = Ok (PDict e).
Proof.
  intros Hn Hf [_ ->]%canonical_json_encodable. pose proof (flat_printable d Hf) as Hp.
  split_and!; [done|by destruct d|]. exists (sort_items d).
  split; [symmetry; apply sort_items_Permutation|].
  unfold loads_bytes. rewrite printable_utf8 by done.
  rewrite loads_dumps by eauto using flat_encodes, flat_wf. by rewrite flat_norm.
Qed.

(** ** Lines *)

Lemma split_lines_nonempty l : split_lines l <> [].
Proof. destruct l as [|c l]; [done|]. cbn. repeat case_match; done. Qed.

Lemma split_lines_app l k : split_lines (l ++ newline :: k) = (split_lines l ++ split_lines k)%list.
Proof.
  induction l as [|c l IH]; [done|]. cbn [app split_lines]. rewrite IH.
  destruct (Ascii.eqb c newline); [done|].
  destruct (split_lines l) eqn:E; [by apply split_lines_nonempty in E|done].
Qed.

Lemma split_lines_plain l : Forall (fun c => c <> newline) l -> split_lines l = [l].
Proof.
  induction 1 as [|c l Hc _ IH]; [done|]. cbn [split_lines]. rewrite IH.
  by destruct (Ascii.eqb_spec c newline).
Qed.

Lemma last_split_empty l :
  last (split_lines l) = Some [] <-> l = [] \/ exists k, l = (k ++ [newline])%list.
Proof.
  induction l as [|c l IH] using rev_ind; [naive_solver|]. split.
  - intros H. right. exists l. f_equal. f_equal.
    destruct (decide (c = newline)) as [->|Hne]; [done|].
    exfalso. clear IH. induction l as [|x l IH]; cbn in H.
    + by destruct (Ascii.eqb_spec c newline).
    + destruct (Ascii.eqb x newline).
      * destruct (split_lines (l ++ [c])) eqn:E; [by apply split_lines_nonempty in E|].
        apply IH. by rewrite <- H.
      * destruct (split_lines (l ++ [c])) as [|y ys] eqn:E; [by apply split_lines_nonempty in E|].
        apply IH. destruct ys; [done|exact H].
  - intros [H|(k & [-> ->]%app_inj_tail)]; [by destruct l|].
    rewrite split_lines_app, last_app. done.
Qed.

Lemma journal_lines_ends raw :
  raw = "" \/ ends_line raw = true -> exists lines, split_lines (chars raw) = (lines ++ [[]])%list /\
    journal_lines raw = map of_chars lines.
Proof.
  intros H. assert (last (split_lines (chars raw)) = Some []) as E.
  { apply last_split_empty. destruct H as [->|H]; [by left|right].
    unfold ends_line in H. apply endswith_true_iff in H as (t & ->).
    exists (chars t). by rewrite chars_app. }
  unfold journal_lines. rewrite E. apply last_snoc_inv in E as (lines & ->).
  exists lines. by rewrite removelast_last.
Qed.

Lemma journal_lines_open raw :
  raw <> "" -> ends_line raw = false -> journal_lines raw = map of_chars (split_lines (chars raw)).
Proof.
  intros Hne Hend. unfold journal_lines. destruct (last (split_lines (chars raw))) as [[|c l]|] eqn:E; try done.
  apply last_split_empty in E as [E|(k & E)].
  - destruct Hne. by destruct raw.
  - exfalso. assert (raw = of_chars k ++ nl) as ->.
    { rewrite <- (of_chars_chars raw), E, of_chars_app. done. }
    unfold ends_line in Hend. assert (endswith nl (of_chars k ++ nl) = true) as Ht; [|congruence].
    apply endswith_true_iff. eauto.
Qed.

(** The bytes both logs write: a separator when the last line is open. *)
Definition appended (raw line : string) : string :=
  raw ++ (if negb (String.eqb raw "") && negb (ends_line raw) then nl else "") ++ line ++ nl.

Lemma journal_lines_appended raw line :
  char_all printable line = true ->
  journal_lines (appended raw line) = (journal_lines raw ++ [line])%list.
Proof.
  intros Hp%printable_no_newline. unfold appended.
  destruct (negb (raw =? "")%string && negb (ends_line raw)) eqn:E.
  - apply andb_true_iff in E as [E1 E2]. bool_to_prop. rewrite (journal_lines_open raw) by done.
    destruct (journal_lines_ends (raw ++ nl ++ line ++ nl)) as (lines & Hs & ->).
    { right. unfold ends_line. apply endswith_true_iff. exists (raw ++ nl ++ line).
      by rewrite !str_app_assoc. }
    rewrite !chars_app in Hs. change (chars nl) with [newline] in Hs. cbn [app] in Hs.
    rewrite split_lines_app, split_lines_app, (split_lines_plain (chars line)) in Hs by done.
    change (split_lines []) with [@nil ascii] in Hs. rewrite app_assoc in Hs.
    apply app_inj_tail in Hs as [<- _]. by rewrite map_app, map_cons, of_chars_chars.
  - assert (raw = "" \/ ends_line raw = true) as Hr.
    { apply andb_false_iff in E as [E|E]; bool_to_prop; auto. }
    destruct (journal_lines_ends raw Hr) as (lines & Hs & ->).
    destruct (journal_lines_ends (raw ++ "" ++ line ++ nl)) as (lines' & Hs' & ->).
    { right. unfold ends_line. apply endswith_true_iff. exists (raw ++ line).
      by rewrite str_app_assoc. }
    assert (split_lines (chars (raw ++ line ++ nl)) = (lines ++ [chars line] ++ [[]])%list) as Hs2.
    { rewrite !chars_app. change (chars nl) with [newline].
      destruct Hr as [->|Hr].
      - change (split_lines (chars "")) with [@nil ascii] in Hs.
        destruct lines as [|x lines]; [|by destruct lines]. cbn [app chars].
        change (chars "") with (@nil ascii). cbn [app].
        by rewrite split_lines_app, split_lines_plain.
      - unfold ends_line in Hr. apply endswith_true_iff in Hr as (t & ->).
        rewrite chars_app in Hs |- *. change (chars nl) with [newline] in *.
        rewrite split_lines_app in Hs. change (split_lines []) with [@nil ascii] in Hs.
        apply app_inj_tail in Hs as [<- _]. rewrite <- app_assoc. cbn [app].
        by rewrite split_lines_app, split_lines_app, (split_lines_plain (chars line)). }
    change ("" ++ line ++ nl) with (line ++ nl) in Hs'. rewrite Hs', app_assoc in Hs2.
    apply app_inj_tail in Hs2 as [-> _]. by rewrite map_app, map_cons, of_chars_chars.
Qed.

Lemma res_mapM_snoc {A B} (f : A -> res B) l x ys y :
  res_mapM f l = Ok ys -> f x = Ok y -> res_mapM f (l ++ [x])%list = Ok (ys ++ [y])%list.
Proof.
  revert ys. induction l as [|a l IH]; intros ys H Hx.
  - apply Ok_inj in H as <-. cbn. by rewrite Hx.
  - cbn [res_mapM app] in *. apply res_bind_Ok in H as (b & Hb & H).
    apply res_bind_Ok in H as (bs & Hbs & H). apply Ok_inj in H as <-.
    rewrite Hb. cbn [res_bind]. by rewrite (IH _ Hbs Hx).
Qed.

(** ** Anchors *)

Lemma anchor_keys a : NoDup (dict_keys (anchor_dict a)).
Proof. apply (bool_decide_unpack _). by vm_compute. Qed.

Lemma anchor_same_keys a : same_keys ANCHOR_FIELDS (anchor_dict a) = true.
Proof. done. Qed.

Lemma anchor_of_perm a e : Permutation (anchor_dict a) e -> anchor_of_dict e = a.
Proof.
  intros Hp. unfold anchor_of_dict, get_or_none.
  rewrite !(dict_get_perm _ _ _ (anchor_keys a) Hp). by destruct a.
Qed.

(** An appended anchor is read back after the ones already in the journal. *)
Lemma append_line_parse file a raw l :
  flat (anchor_dict a) = true -> append_line file a = Ok raw ->
  parse_journal (default "" file) = Ok l -> parse_journal raw = Ok (l ++ [a])%list.
Proof.
  intros Hf H Hl. unfold append_line in H. apply res_bind_Ok in H as (line & Hline & H).
  destruct (Z.ltb_spec MAX_ANCHOR_FILE_BYTES (bytes_len (default "" file))) as [|_]; [done|].
  apply res_bind_Ok in H as ([] & _ & H).
  destruct (Z.ltb_spec MAX_ANCHOR_FILE_BYTES (bytes_len (default "" file) +
    bytes_len (if negb (default "" file =? "")%string && negb (ends_line (default "" file)) then nl else "") +
    bytes_len (line ++ nl))) as [|Hsz]; [done|]. apply Ok_inj in H as <-.
  destruct (loads_flat _ _ (anchor_keys a) Hf Hline) as (Hp & Hne & e & Hperm & Hloads).
  unfold parse_journal in *.
  destruct (Z.ltb_spec MAX_ANCHOR_FILE_BYTES (bytes_len (default "" file))) as [|_]; [done|].
  destruct (Z.ltb_spec MAX_ANCHOR_FILE_BYTES (bytes_len (default "" file ++
    (if negb (default "" file =? "")%string && negb (ends_line (default "" file)) then nl else "")
    ++ line ++ nl))) as [Hbad|_].
  { exfalso. unfold bytes_len in *. rewrite !str_length_app in *. lia. }
  fold (appended (default "" file) line). rewrite journal_lines_appended by done.
  apply res_mapM_snoc; [done|]. unfold parse_anchor.
  destruct (String.eqb_spec line ""); [done|]. rewrite Hloads.
  rewrite (same_keys_perm _ _ _ (anchor_keys a) Hperm), anchor_same_keys.
  by rewrite (anchor_of_perm _ _ Hperm).
Qed.

(** ** What the store needs of a witness *)

(** In the states [inv] describes, appending a flat record to the log of [id]
    leaves it as it was or extends it by that record, with its entries in some
    order.  A successful append that does not extend the log means the record
    was already its last. *)
Class WitnessLaws {W} (w : HeadWitness W) (inv : W -> Prop) : Prop := {
  witness_inv : forall id d s s' r, inv s -> w.(hw_append) id d s = (s', r) -> inv s';
  witness_append_read : forall id d s s' r l,
    inv s -> NoDup (dict_keys d) -> flat d = true -> w.(hw_append) id d s = (s', r) ->
    w.(hw_read) id s = Ok (PList l) ->
    (exists e, Permutation d e /\ w.(hw_read) id s' = Ok (PList (l ++ [PDict e]))) \/
    (w.(hw_read) id s' = Ok (PList l) /\
     (r = Ok tt -> exists x, last l = Some x /\ py_eqb x (PDict d) = true))
}.

Lemma res_map_Ok {A B} (f : A -> B) m b : res_map f m = Ok b -> exists a, m = Ok a /\ b = f a.
Proof. destruct m; [|done]. intros [= <-]. eauto. Qed.

Lemma file_witness_records id s l :
  file_witness_read id s = Ok (PList l) -> decode_records (default "" (s !! id_digest id)) = Ok l.
Proof.
  unfold file_witness_read. intros H. destruct (negb (ATTEMPT_ID id)); [done|].
  destruct (s !! id_digest id) as [raw|]; cbn [default].
  - apply res_map_Ok in H as (k & Hk & [= ->]). done.
  - by injection H as <-.
Qed.

Lemma decode_appended raw line l d e :
  decode_records raw = Ok l -> char_all printable line = true -> line <> "" ->
  bytes_len line <= MAX_RECORD_BYTES -> loads_bytes line = Ok (PDict e) -> Permutation d e ->
  bytes_len (appended raw line) <= MAX_WITNESS_BYTES ->
  decode_records (appended raw line) = Ok (l ++ [PDict e])%list.
Proof.
  intros Hraw Hp Hne Hlen Hloads Hperm Hsz. unfold decode_records in *.
  destruct (Z.ltb_spec MAX_WITNESS_BYTES (bytes_len raw)); [done|].
  destruct (Z.ltb_spec MAX_WITNESS_BYTES (bytes_len (appended raw line))); [lia|].
  destruct (String.eqb_spec (appended raw line) "") as [E|_].
  { exfalso. unfold appended in E. apply (f_equal String.length) in E. rewrite !str_length_app in E.
    simpl in E. lia. }
  rewrite journal_lines_appended by done. apply res_mapM_snoc.
  - destruct (String.eqb_spec raw "") as [->|]; [by injection Hraw as <-|done].
  - unfold decode_record. destruct (String.eqb_spec line ""); [done|].
    destruct (Z.ltb_spec MAX_RECORD_BYTES (bytes_len line)); [lia|]. cbn [orb]. by rewrite Hloads.
Qed.

(** Every file is empty or ends with a newline, as [append] leaves it: an open
    last line would make the separator overrun the size limit. *)
Definition files_closed (s : witness_files) : Prop :=
  forall k raw, s !! k = Some raw -> raw = "" \/ ends_line raw = true.

Lemma ends_appended raw line : ends_line (appended raw line) = true.
Proof.
  unfold ends_line, appended. apply endswith_true_iff. eexists. by rewrite <- !str_app_assoc.
Qed.

Lemma file_append_cases id d s s' r :
  file_witness_append id d s = (s', r) ->
  (s' = s /\ (r = Ok tt -> exists l x, decode_records (default "" (s !! id_digest id)) = Ok l /\
                         last l = Some x /\ py_eqb x (PDict d) = true)) \/
  exists encoded, r = Ok tt /\ ATTEMPT_ID id = true /\ canonical_json (PDict d) = Ok encoded /\
    bytes_len encoded <= MAX_RECORD_BYTES /\
    bytes_len (default "" (s !! id_digest id)) + bytes_len encoded + 1 <= MAX_WITNESS_BYTES /\
    s' = <[id_digest id := appended (default "" (s !! id_digest id)) encoded]> s.
Proof.
  unfold file_witness_append. destruct (ATTEMPT_ID id) eqn:Hid; [|intros [= <- <-]; by left]. cbn [negb].
  destruct (canonical_json (PDict d)) as [encoded|x];
    [|destruct (is_TypeOrValueError x); intros [= <- <-]; by left].
  destruct (Z.ltb_spec MAX_RECORD_BYTES (bytes_len encoded)) as [|Hlen]; [intros [= <- <-]; by left|].
  destruct (decode_records _) as [l|x] eqn:Hl; [|intros [= <- <-]; by left].
  destruct (match last l with Some _ => _ | None => _ end) eqn:Hlast.
  - intros [= <- <-]. left. split; [done|]. intros _. destruct (last l) as [x|] eqn:E; [|done].
    exists l, x. done.
  - destruct (Z.ltb_spec MAX_WITNESS_BYTES
      (bytes_len (default "" (s !! id_digest id)) + bytes_len encoded + 1)) as [|Hsz]; intros [= <- <-];
      [by left|right]. exists encoded. done.
Qed.

Global Instance file_witness_laws : WitnessLaws FilePaymentAttemptHeadWitness files_closed.
Proof.
  split.
  - intros id d s s' r Hinv H. cbn [hw_append FilePaymentAttemptHeadWitness] in H.
    destruct (file_append_cases _ _ _ _ _ H) as [[-> _]|(enc & _ & _ & _ & _ & _ & ->)]; [done|].
    intros k raw. rewrite lookup_insert_Some. intros [[<- <-]|[_ Hk]]; [right; apply ends_appended|by eapply Hinv].
  - intros id d s s' r l Hinv Hn Hf H Hr. cbn [hw_append hw_read FilePaymentAttemptHeadWitness] in *.
    pose proof (file_witness_records _ _ _ Hr) as Hl.
    destruct (file_append_cases _ _ _ _ _ H) as [[-> Hlast]|(line & -> & Hid & Hc & Hlen & Hsz & ->)].
    + right. split; [done|]. intros ->. destruct (Hlast eq_refl) as (l' & x & Hl' & Hx).
      assert (l' = l) as -> by congruence. eauto.
    + left. destruct (loads_flat _ _ Hn Hf Hc) as (Hp & Hne & e & Hperm & Hloads).
      exists e. split; [done|]. unfold file_witness_read. rewrite Hid, lookup_insert_eq. cbn [negb].
      rewrite (decode_appended _ _ l d e); try done.
      assert (negb (default "" (s !! id_digest id) =? "")%string
              && negb (ends_line (default "" (s !! id_digest id))) = false) as E.
      { destruct (s !! id_digest id) as [raw|] eqn:E; [|done].
        change (default "" (Some raw)) with raw. destruct (Hinv _ _ E) as [-> | ->]; [done|apply andb_false_r]. }
      unfold appended. rewrite E. unfold bytes_len in *. rewrite !str_length_app. simpl. lia.
Qed.
