(* ===== verification/PaymentStoreSpec.v ===== *)
(** * What the payment attempt store promises

    Crash safety of [_persist], rollback detection and the contract of the
    operations, with and without an external witness. *)

From Stdlib Require Import ZArith Lia Ascii String Permutation.
From stdpp Require Import base list strings gmap.
From S2P Require Import Prelude Digits PyStr PyValue Json JsonAscii CanonicalJson B64u DidKey Sha256 Identity Store Settlement DocFile PaymentEvent PaymentSpec PaymentAnchor PaymentStore JournalSpec.

Local Open Scope string_scope.
Local Open Scope Z_scope.

#[local] Opaque MAX_EVENT_BYTES MAX_CHAIN_BYTES MAX_FILE_BYTES MAX_ANCHOR_FILE_BYTES.
#[local] Opaque verify_settlement preflight_attempt_json.
#[local] Arguments digest_of : simpl never.
#[local] Arguments pretty : simpl never.

(** ** ASCII fields *)

Lemma prefixed_ascii7 p n s :
  startswith p s && hex_digest n (str_drop (String.length p) s) = true -> char_all ascii7 p = true ->
  char_all ascii7 s = true.
Proof.
  intros [Hp Hd]%andb_true_iff Ha. apply prefix_true_iff in Hp as (t & ->).
  rewrite str_drop_app in Hd. by rewrite char_all_app, Ha, (hex_ascii7 n).
Qed.

Lemma digest_is_hash d h : digest_of d = Ok h -> EVENT_HASH h = true.
Proof.
  unfold digest_of. intros (b & _ & H)%res_bind_Ok. apply Ok_inj in H as <-.
  unfold EVENT_HASH. rewrite prefix_app. change 7%nat with (String.length "sha256:").
  by rewrite str_drop_app, sha256_hex_digest.
Qed.

(** ** Views of extended chains *)

Lemma project_event_actor w raw : (project_event w raw).(w_actor_did) = w.(w_actor_did).
Proof. unfold project_event. cbv zeta. repeat case_match; done. Qed.

Lemma project_actor d rest :
  (project_verified (PDict d :: rest)).(w_actor_did) = safe_str (get_or_none "actor_did" d).
Proof.
  cbn [project_verified]. change (safe_str (get_or_none "actor_did" d)) with (w_actor_did (project_created (PDict d))).
  generalize (project_created (PDict d)). induction rest as [|x rest IH]; intros w; [done|].
  cbn [fold_left]. by rewrite IH, project_event_actor.
Qed.

Lemma project_snoc events raw :
  events <> [] -> project_verified (events ++ [raw]) = project_event (project_verified events) raw.
Proof. destruct events as [|x l]; [done|]. intros _. cbn [app project_verified]. by rewrite fold_left_app. Qed.

(** The view right after a claim. *)
Lemma claimed_view events e lease expires :
  events <> [] -> e.(type) = PStr EVENT_CLAIMED -> e.(new_state) = PStr STATE_INFLIGHT ->
  e.(PaymentEvent.payload) = PDict [("lease_id", PStr lease); ("lease_expires_at_ms", PInt expires)] ->
  let w := project_verified (events ++ [PDict (to_dict e)]) in
  w.(w_state) = STATE_INFLIGHT /\ w.(w_lease_id) = lease /\ w.(w_lease_expires_at_ms) = expires /\
  w.(w_actor_did) = (project_verified events).(w_actor_did).
Proof.
  intros Hne Ht Hn Hp w. unfold w. rewrite project_snoc by done. rewrite project_event_actor.
  unfold project_event. change (from_dict (dict_of (PDict (to_dict e)))) with
    {| attempt_id := attempt_id e; PaymentEvent.seq := PaymentEvent.seq e; type := type e; actor_did := actor_did e;
       prev_state := prev_state e; new_state := new_state e; PaymentEvent.payload := PaymentEvent.payload e;
       prev_event_hash := prev_event_hash e; created_at_ms := created_at_ms e; kind := kind e;
       signature := signature e |}. cbn [type new_state PaymentEvent.payload]. rewrite Ht, Hn, Hp. done.
Qed.

Section Anchors.
Context `{Ed : Ed25519} `{L : !Ed25519Laws Ed}.

(** ** Signed anchors verify *)

(** The anchor with its signature. *)
Definition signed_as (a b : HeadAnchor) : Prop :=
  b.(a_operation_id) = a.(a_operation_id) /\ b.(a_phase) = a.(a_phase) /\
  b.(a_attempt_id) = a.(a_attempt_id) /\ b.(a_seq) = a.(a_seq) /\ b.(a_head_hash) = a.(a_head_hash) /\
  b.(a_actor_did) = a.(a_actor_did) /\ b.(a_created_at_ms) = a.(a_created_at_ms).

(** The parameters of a well-formed anchor. *)
Record anchor_params (op phase id did h : string) (seq created : Z) : Prop := {
  ap_op : LEASE_ID op = true;
  ap_phase : In phase ANCHOR_PHASES;
  ap_id : ATTEMPT_ID id = true;
  ap_seq : 0 <= seq;
  ap_hash : EVENT_HASH h = true;
  ap_created : 0 < created
}.

Lemma sign_anchor_ok actor did op phase id h seq created a :
  signer actor did -> anchor_params op phase id did h seq created ->
  sign_anchor actor (anchor_for op phase id did h seq created) = Ok a ->
  verify_anchor a = Ok (true, "ok") /\ signed_as (anchor_for op phase id did h seq created) a /\
  flat (anchor_dict a) = true.
Proof.
  intros Hs [Hop Hph Hid Hseq Hh Hc] H. unfold sign_anchor in H.
  apply res_bind_Ok in H as (did' & Hd & H). cbn [a_actor_did anchor_for] in H.
  destruct (negb _) eqn:E; [discriminate H|]. clear E.
  apply res_bind_Ok in H as (body & Hb & H). apply res_bind_Ok in H as (sg & Hsg & H).
  apply Ok_inj in H as <-.
  destruct (signer_sign actor did body Hs) as (s & v & pk & Hsign & Hlen & Hpk & Hver & _).
  assert (s = sg) as -> by congruence.
  pose proof (signer_did_ascii _ _ Hs) as Hda. split_and!.
  - unfold verify_anchor. cbn [a_operation_id anchor_for a_phase a_attempt_id a_seq a_head_hash a_actor_did
      a_created_at_ms fullmatch in_phases]. rewrite Hop. cbn [res_bind negb].
    rewrite (str_in_true _ _ Hph), Hid, Hh. cbn [res_bind negb].
    destruct (Z.ltb_spec seq 0); [lia|]. unfold is_did_key.
    assert (startswith DID_KEY_PREFIX did = true) as ->.
    { unfold decode_ed25519_did_key in Hpk. by destruct (startswith DID_KEY_PREFIX did). }
    rewrite Hpk. cbn [negb]. destruct (Z.leb_spec created 0); [lia|].
    unfold verify_anchor_signature. rewrite nacl_present. cbn [negb a_actor_did anchor_for a_signature].
    rewrite b64u_decode_encode, Hpk.
    match goal with |- context [anchor_body ?x] =>
      change (anchor_body x) with (anchor_body (anchor_for op phase id did h seq created)) end.
    rewrite Hb, Hlen, String.eqb_refl. cbn. by rewrite Hver.
  - done.
  - assert (char_all ascii7 phase = true) as Hp by (by destruct Hph as [<-|[<-|[]]]).
    unfold flat, anchor_dict. cbn [forallb anchor_for a_operation_id a_phase a_attempt_id a_seq a_head_hash
      a_actor_did a_created_at_ms a_signature fst snd atom].
    rewrite (hex_ascii7 32 op), Hp, Hda, (prefixed_ascii7 ATTEMPT_PREFIX 64 id), (prefixed_ascii7 "sha256:" 64 h),
      (ascii7_bytes _ (b64u_encode_ascii sg)) by done. done.
Qed.

(** ** Sequences *)

Lemma check_anchors_app id did src st l k :
  check_anchors id did src st (l ++ k) =
  let* st' := check_anchors id did src st l in check_anchors id did src st' k.
Proof.
  revert st. induction l as [|a l IH]; intros st; [done|]. cbn [app check_anchors].
  destruct (check_anchor id did src st a); [apply IH|done].
Qed.

Definition op_of (a : HeadAnchor) : string := safe_str a.(a_operation_id).
Definition created_of (a : HeadAnchor) : Z := int_of a.(a_created_at_ms).

(** What one accepted anchor does to the loop's variables. *)
Lemma check_anchor_effect id did src st a st' :
  check_anchor id did src st a = Ok st' ->
  st'.(last_created_at_ms) = created_of a /\
  forall op, op_of a <> op ->
    dict_get op st'.(phases_by_operation) = dict_get op st.(phases_by_operation) /\
    dict_get op st'.(prepared_by_operation) = dict_get op st.(prepared_by_operation).
Proof.
  unfold check_anchor. intros H. apply res_bind_Ok in H as ([ok r] & _ & H). cbv zeta in H.
  inv_guards H; apply Ok_inj in H as <-; (split; [done|]); intros op Hne;
    unfold op_of in Hne; cbn [phases_by_operation prepared_by_operation];
    rewrite ?dict_get_set_ne by done; done.
Qed.

(** An operation and a time that come after every anchor of [l]. *)
Definition fresh_for (op : string) (t : Z) (l : list HeadAnchor) : Prop :=
  Forall (fun a => op_of a <> op /\ created_of a <= t) l.

Lemma check_anchors_fresh id did src st l st' op t :
  check_anchors id did src st l = Ok st' -> fresh_for op t l ->
  dict_get op st.(phases_by_operation) = None -> dict_get op st.(prepared_by_operation) = None ->
  st.(last_created_at_ms) <= t ->
  dict_get op st'.(phases_by_operation) = None /\ dict_get op st'.(prepared_by_operation) = None /\
  st'.(last_created_at_ms) <= t.
Proof.
  intros H Hf. revert st H. induction Hf as [|a l [Hop Ht] _ IH]; intros st H Hp Hq Hl.
  { apply Ok_inj in H as <-. done. }
  cbn [check_anchors] in H. apply res_bind_Ok in H as (st1 & H1 & H).
  destruct (check_anchor_effect _ _ _ _ _ _ H1) as [Hc Heff]. destruct (Heff op Hop) as [E1 E2].
  apply (IH st1 H); [by rewrite E1|by rewrite E2|by rewrite Hc].
Qed.

(** A prepared anchor, and then its committed one, extend a valid sequence. *)
Lemma extend_sequence id did src l op h seq t p :
  validate_anchor_sequence id did src l = Ok l -> fresh_for op t l ->
  verify_anchor p = Ok (true, "ok") -> signed_as (anchor_for op PHASE_PREPARED id did h seq t) p -> 0 < t ->
  validate_anchor_sequence id did src (l ++ [p]) = Ok (l ++ [p])%list /\
  forall c, verify_anchor c = Ok (true, "ok") -> signed_as (anchor_for op PHASE_COMMITTED id did h seq t) c ->
    validate_anchor_sequence id did src (l ++ [p; c]) = Ok (l ++ [p; c])%list.
Proof.
  intros Hl Hf Hp (Po & Pp & Pi & Ps & Ph & Pa & Pc) Ht. unfold validate_anchor_sequence in *.
  apply res_bind_Ok in Hl as (st & Hst & _).
  destruct (check_anchors_fresh _ _ _ _ _ _ op t Hst Hf) as (F1 & F2 & F3); [done|done|simpl; lia|].
  assert (exists st', check_anchor id did src st p = Ok st' /\
    dict_get op st'.(phases_by_operation) = Some [PHASE_PREPARED] /\
    dict_get op st'.(prepared_by_operation) = Some p /\ st'.(last_created_at_ms) = t)
    as (st' & Hst' & P1 & P2 & P3).
  { unfold check_anchor. rewrite Hp. cbn [res_bind negb]. rewrite Po, Pp, Pi, Pa, Pc.
    cbn [anchor_for a_operation_id a_phase a_attempt_id a_actor_did a_created_at_ms int_of safe_str].
    rewrite !(proj2 (py_eqb_PStr_r _ _) eq_refl). destruct (Z.ltb_spec t (last_created_at_ms st)); [lia|].
    cbn [negb orb]. rewrite F1. cbn. eexists. split; [done|]. cbn. by rewrite !dict_get_set_eq. }
  split; [by rewrite check_anchors_app, Hst; cbn [res_bind check_anchors]; rewrite Hst'|].
  intros c Hc (Co & Cp & Ci & Cs & Ch & Ca & Cc).
  rewrite check_anchors_app, Hst. cbn [res_bind check_anchors]. rewrite Hst'. cbn [res_bind].
  assert (exists st'', check_anchor id did src st' c = Ok st'') as (st'' & ->); [|done].
  unfold check_anchor. rewrite Hc. cbn [res_bind negb]. rewrite Co, Cp, Ci, Ca, Cc.
  cbn [anchor_for a_operation_id a_phase a_attempt_id a_actor_did a_created_at_ms int_of safe_str].
  rewrite !(proj2 (py_eqb_PStr_r _ _) eq_refl). destruct (Z.ltb_spec t (last_created_at_ms st')); [lia|].
  cbn [negb orb]. rewrite P1, P2. cbn. rewrite Pi, Ps, Ph, Pa, Cs, Ch. cbn.
  rewrite !String.eqb_refl, Z.eqb_refl. cbn. eauto.
Qed.

(** ** Accepted heads *)

Lemma after_commit_app l k x y :
  after_commit (l ++ k) x y = let '(c, t) := after_commit l x y in after_commit k c t.
Proof.
  revert x y. induction l as [|a l IH]; intros x y; [done|]. cbn [app after_commit].
  destruct (is_committed a); apply IH.
Qed.

Lemma accepted_prepared l p :
  p.(a_phase) = PStr PHASE_PREPARED ->
  accepted_anchor_heads (l ++ [p]) = (accepted_anchor_heads l ++ [head_of p])%list.
Proof.
  intros Hp. unfold accepted_anchor_heads. rewrite after_commit_app.
  destruct (after_commit l None []) as [c t]. cbn [after_commit]. unfold is_committed. rewrite Hp.
  cbn [py_eqb]. change ((PHASE_PREPARED =? PHASE_COMMITTED)%string) with false. cbn iota.
  rewrite filter_app, map_app, app_assoc. f_equal. rewrite filter_cons, Hp. done.
Qed.

Lemma accepted_committed l c :
  c.(a_phase) = PStr PHASE_COMMITTED -> accepted_anchor_heads (l ++ [c]) = [head_of c].
Proof.
  intros Hc. unfold accepted_anchor_heads. rewrite after_commit_app.
  destruct (after_commit l None []) as [x t]. cbn [after_commit]. unfold is_committed. by rewrite Hc.
Qed.

Lemma head_in_app h l k : head_in h (l ++ k) = head_in h l || head_in h k.
Proof. unfold head_in. apply existsb_app. Qed.

Lemma head_in_self h : head_in h [h] = true.
Proof. unfold head_in. cbn. by rewrite Z.eqb_refl, String.eqb_refl. Qed.
End Anchors.

(** ** The logs of a store *)

Section Crash.
Context `{Ed : Ed25519} `{L : !Ed25519Laws Ed} {W : Type}.
Context (witness : option (HeadWitness W)) (inv : W -> Prop).
Context (laws : match witness with Some w => WitnessLaws w inv | None => True end).

(** The anchors in the journal of [path], and those in the witness for [id]
    when there is one. *)
Definition logs (path id : string) (st : pstore W) (local : list HeadAnchor)
    (ext : option (list HeadAnchor)) : Prop :=
  parse_journal (default "" (st.(journals) !! path)) = Ok local /\
  match witness with
  | None => ext = None
  | Some w => exists records k, ext = Some k /\ w.(hw_read) id st.(wit) = Ok (PList records) /\
                res_mapM witness_anchor records = Ok k
  end.

Definition ext_snoc (ext : option (list HeadAnchor)) (a : HeadAnchor) : option (list HeadAnchor) :=
  (fun k => k ++ [a])%list <$> ext.

Lemma append_anchor_logs path id st l ext a st' r :
  logs path id st l ext -> flat (anchor_dict a) = true -> a.(a_attempt_id) = PStr id ->
  attempt_path id = Ok path -> append_anchor a st = (st', r) ->
  st'.(docs) = st.(docs) /\ st'.(wit) = st.(wit) /\
  (if r then logs path id st' (l ++ [a]) ext else st' = st).
Proof.
  intros [Hl He] Hf Hid Hpath. unfold append_anchor. rewrite Hid, Hpath. cbn [res_bind].
  destruct (append_line (journals st !! path) a) as [raw|x] eqn:Ha; cbn [res_bind]; intros [= <- <-]; [|done].
  split_and!; [done|done|]. split; [|exact He]. cbn [journals]. rewrite lookup_insert_eq.
  by eapply append_line_parse.
Qed.

Lemma py_eqb_entry k d e s :
  py_eqb (PDict d) (PDict e) = true -> dict_get k d <> None -> get_or_none k e = PStr s ->
  get_or_none k d = PStr s.
Proof.
  cbn [py_eqb]. intros [_ H]%andb_true_iff Hk Hs. rewrite forallb_forall in H.
  unfold get_or_none in *. destruct (dict_get k d) as [v|] eqn:E; [|done].
  specialize (H _ (dict_get_In _ _ _ E)). simpl in H.
  destruct (dict_get k e) as [w|]; [|done]. subst w. by apply py_eqb_PStr_r in H.
Qed.

(** The last record of the witness is not the one about to be appended. *)
Definition last_differs (ext : option (list HeadAnchor)) (a : HeadAnchor) : Prop :=
  forall k b, ext = Some k -> last k = Some b ->
    b.(a_operation_id) <> a.(a_operation_id) \/ b.(a_phase) <> a.(a_phase).

Lemma res_mapM_last {A B} (f : A -> res B) l k x :
  res_mapM f l = Ok k -> last l = Some x -> exists y, f x = Ok y /\ last k = Some y.
Proof.
  intros H (l' & ->)%last_snoc_inv. revert k H.
  induction l' as [|a l' IH]; intros k H; cbn [app res_mapM] in H; apply res_bind_Ok in H as (y & Hy & H);
    apply res_bind_Ok in H as (ys & Hys & H); apply Ok_inj in H as <-.
  - apply Ok_inj in Hys as <-. eauto.
  - destruct (IH _ Hys) as (z & Hz & Hl). exists z. split; [done|]. by destruct ys.
Qed.

Lemma not_the_last a records k x op phase :
  a.(a_operation_id) = PStr op -> a.(a_phase) = PStr phase ->
  res_mapM witness_anchor records = Ok k -> last_differs (Some k) a ->
  last records = Some x -> py_eqb x (PDict (anchor_dict a)) = true -> False.
Proof.
  intros Hop Hph Hk Hd Hx Heq. destruct (res_mapM_last _ _ _ _ Hk Hx) as (b & Hb & Hlast).
  unfold witness_anchor in Hb. destruct x as [| | | | | |d|]; try discriminate Hb.
  destruct (same_keys ANCHOR_FIELDS d) eqn:Ek; [|discriminate Hb]. apply Ok_inj in Hb as <-.
  assert (forall f, In f ANCHOR_FIELDS -> dict_get f d <> None) as Hg.
  { intros f Hf. destruct (same_keys_get _ _ _ Ek Hf) as [v ->]. done. }
  destruct (Hd k _ eq_refl Hlast) as [E|E]; apply E; unfold anchor_of_dict; cbn [a_operation_id a_phase].
  - rewrite Hop. apply (py_eqb_entry _ d (anchor_dict a)); [done|apply Hg; simpl; tauto|exact Hop].
  - rewrite Hph. apply (py_eqb_entry _ d (anchor_dict a)); [done|apply Hg; simpl; tauto|exact Hph].
Qed.

Lemma append_witness_logs path id st l ext a st' r op phase :
  logs path id st l ext -> flat (anchor_dict a) = true -> a.(a_attempt_id) = PStr id ->
  a.(a_operation_id) = PStr op -> a.(a_phase) = PStr phase -> last_differs ext a ->
  inv st.(wit) -> append_witness witness a st = (st', r) ->
  st'.(docs) = st.(docs) /\ st'.(journals) = st.(journals) /\ inv st'.(wit) /\
  (logs path id st' l (ext_snoc ext a) \/ (logs path id st' l ext /\ r <> Ok tt)).
Proof.
  intros [Hl He] Hf Hid Hop Hph Hd Hinv. unfold append_witness, logs in *.
  destruct witness as [w|]; [|intros [= <- <-]; subst ext; split_and!; auto].
  rewrite Hid. cbn [safe_str]. destruct (hw_append w id (anchor_dict a) (wit st)) as [s r'] eqn:Ha.
  intros [= <- <-]. cbn [docs journals wit]. destruct He as (records & k & -> & Hread & Hk).
  split_and!; [done|done|by eapply witness_inv|].
  destruct (witness_append_read id _ _ _ _ _ Hinv (anchor_keys a) Hf Ha Hread) as [(e & Hp & Hr)|[Hr Hlast]].
  - left. split; [done|]. exists (records ++ [PDict e])%list, (k ++ [a])%list. split_and!; [done|done|].
    apply res_mapM_snoc; [done|]. cbn [witness_anchor].
    by rewrite (same_keys_perm _ _ _ (anchor_keys a) Hp), anchor_same_keys, (anchor_of_perm _ _ Hp).
  - right. split; [split; [done|]; by exists records, k|]. intros Hok.
    assert (r' = Ok tt) as ->.
    { destruct r' as [[]|e]; [done|]. unfold witness_error in Hok. by repeat case_match. }
    destruct (Hlast eq_refl) as (x & Hx & Heq). by eapply not_the_last.
Qed.

(** ** What [load] accepts *)

Definition accepts (id did : string) (head : Z * string) (l : list HeadAnchor)
    (ext : option (list HeadAnchor)) : Prop :=
  l <> [] /\ validate_anchor_sequence id did "local" l = Ok l /\ head_in head (accepted_anchor_heads l) = true /\
  match ext with
  | None => True
  | Some k => k <> [] /\ validate_anchor_sequence id did "external" k = Ok k /\
              head_in head (accepted_anchor_heads k) = true
  end.

(** The document at [path] holds [events], whose head hash is [h] and whose
    actor is [did]. *)
Definition holds (path id : string) (st : pstore W) (events : list pyval) (did h : string) : Prop :=
  exists f v d rest, st.(docs) !! path = Some f /\
    read_document f "stored payment attempt is unreadable" = Ok v /\
    document_events id v = Ok (events, h) /\ events = PDict d :: rest /\
    get_or_none "actor_did" d = PStr did /\ did <> "".

Definition head_at (events : list pyval) (h : string) : Z * string := (Z.of_nat (List.length events) - 1, h).

Lemma attempt_path_id id path : attempt_path id = Ok path -> ATTEMPT_PREFIX ++ path = id /\ ATTEMPT_ID id = true.
Proof.
  unfold attempt_path. destruct (ATTEMPT_ID id) eqn:E; [|done]. intros [= <-]. split; [|done].
  unfold ATTEMPT_ID in E. apply andb_true_iff in E as [E _]. apply prefix_true_iff in E as (t & ->).
  unfold id_digest. by rewrite str_drop_app.
Qed.

Lemma validate_sequence_Ok id did src l k : validate_anchor_sequence id did src l = Ok k -> k = l.
Proof. unfold validate_anchor_sequence. intros (? & _ & H)%res_bind_Ok. by apply Ok_inj in H. Qed.

Lemma read_anchors_logs path id did st l ext :
  attempt_path id = Ok path -> logs path id st l ext ->
  read_anchors st id did = validate_anchor_sequence id did "local" l.
Proof.
  intros Hpath [Hl _]. unfold read_anchors. rewrite Hpath. cbn [res_bind].
  destruct (journals st !! path) as [raw|].
  - change (default "" (Some raw)) with raw in Hl. by rewrite Hl.
  - change (default "" None) with "" in Hl. apply Ok_inj in Hl as <-. done.
Qed.

Lemma read_witness_logs path id did st l k :
  logs path id st l (Some k) ->
  (exists w, witness = Some w) /\
  read_witness_anchors witness st id did = validate_anchor_sequence id did "external" k.
Proof.
  intros [_ He]. unfold read_witness_anchors. destruct witness as [w|]; [|done].
  destruct He as (records & k' & [= <-] & Hr & Hk). split; [eauto|]. by rewrite Hr, Hk.
Qed.

Lemma load_accepts path id st events did h l ext :
  attempt_path id = Ok path -> holds path id st events did h -> logs path id st l ext ->
  accepts id did (head_at events h) l ext -> load witness st path = Ok (Some events).
Proof.
  intros Hpath (f & v & d & rest & Hf & Hv & Hd & -> & Ha & Hne) Hlogs (Hl & Hval & Hin & Hext).
  unfold load. rewrite Hf, Hv. cbn [res_bind]. rewrite (proj1 (attempt_path_id _ _ Hpath)), Hd. cbn [res_bind].
  unfold validate_anchor. rewrite Ha. cbn [res_bind]. destruct (String.eqb_spec did ""); [done|].
  rewrite (read_anchors_logs _ _ _ _ _ _ Hpath Hlogs), Hval. cbn [res_bind].
  destruct l as [|a l]; [done|]. unfold head_at in Hin. rewrite Hin. cbn [negb].
  destruct ext as [k|].
  - destruct (read_witness_logs _ _ did _ _ _ Hlogs) as [(w & Hw) Hrw]. destruct Hext as (Hk & Hkv & Hkin).
    rewrite Hw in Hrw |- *. rewrite Hrw, Hkv. cbn [res_bind]. destruct k as [|b k]; [done|].
    unfold head_at in Hkin. by rewrite Hkin.
  - destruct Hlogs as [_ Hw]. destruct witness; [by destruct Hw as (? & ? & ? & _)|done].
Qed.

(** A head that the journal does not accept is refused. *)
Lemma load_rejects path id st events did h l ext :
  attempt_path id = Ok path -> holds path id st events did h -> logs path id st l ext ->
  l <> [] -> validate_anchor_sequence id did "local" l = Ok l ->
  head_in (head_at events h) (accepted_anchor_heads l) = false ->
  load witness st path =
  Err (PaymentAttemptRejected "stored payment attempt was rolled back or lacks a durable prepare").
Proof.
  intros Hpath (f & v & d & rest & Hf & Hv & Hd & -> & Ha & Hne) Hlogs Hl Hval Hin.
  unfold load. rewrite Hf, Hv. cbn [res_bind]. rewrite (proj1 (attempt_path_id _ _ Hpath)), Hd. cbn [res_bind].
  unfold validate_anchor. rewrite Ha. cbn [res_bind]. destruct (String.eqb_spec did ""); [done|].
  rewrite (read_anchors_logs _ _ _ _ _ _ Hpath Hlogs), Hval. cbn [res_bind].
  destruct l as [|a l]; [done|]. unfold head_at in Hin. by rewrite Hin.
Qed.

Lemma load_inv path id st events :
  attempt_path id = Ok path -> load witness st path = Ok (Some events) ->
  exists did h l ext, holds path id st events did h /\ logs path id st l ext /\
    accepts id did (head_at events h) l ext.
Proof.
  intros Hpath. unfold load. destruct (docs st !! path) as [f|] eqn:Hf; [|done].
  intros (v & Hv & H)%res_bind_Ok. rewrite (proj1 (attempt_path_id _ _ Hpath)) in H.
  apply res_bind_Ok in H as ([evs h] & Hd & H). apply res_bind_Ok in H as (u & Hva & H).
  injection H as ->. unfold validate_anchor in Hva. apply res_bind_Ok in Hva as (actor & Ha & Hva).
  destruct events as [|x rest]; [by apply Ok_inj in Ha as <-|].
  destruct x as [| | | | | |d|]; try discriminate Ha. apply Ok_inj in Ha as Ha.
  destruct actor as [| | | |did| | |]; try discriminate Hva.
  destruct (String.eqb_spec did "") as [|Hne]; [discriminate Hva|].
  apply res_bind_Ok in Hva as (l & Hl & Hva). destruct l as [|a l]; [discriminate Hva|].
  destruct (negb _) eqn:Hin; [discriminate Hva|]. apply negb_false_iff in Hin.
  assert (parse_journal (default "" (journals st !! path)) = Ok (a :: l) /\
          validate_anchor_sequence id did "local" (a :: l) = Ok (a :: l)) as [Hpj Hval].
  { unfold read_anchors in Hl. rewrite Hpath in Hl. cbn [res_bind] in Hl.
    destruct (journals st !! path) as [raw|]; [|done]. apply res_bind_Ok in Hl as (l' & Hl' & Hl).
    pose proof (validate_sequence_Ok _ _ _ _ _ Hl) as E. subst l'. split; [exact Hl'|exact Hl]. }
  assert (holds path id st (PDict d :: rest) did h) as Hholds by (exists f, v, d, rest; done).
  unfold logs, accepts. destruct witness as [w|] eqn:Hw.
  - apply res_bind_Ok in Hva as (k & Hk & Hva). destruct k as [|b k]; [discriminate Hva|].
    destruct (head_in _ _) eqn:Hkin in Hva; [|discriminate Hva].
    unfold read_witness_anchors in Hk. destruct (hw_read w id (wit st)) as [[| | | | |records| |]|e] eqn:Hr;
      try discriminate Hk; [|unfold witness_error in Hk; by repeat case_match].
    apply res_bind_Ok in Hk as (k' & Hk' & Hk). pose proof (validate_sequence_Ok _ _ _ _ _ Hk) as <-.
    exists did, h, (a :: l), (Some (b :: k)). split_and!; try done. by exists records, (b :: k).
  - exists did, h, (a :: l), None. split_and!; done.
Qed.

(** ** Sequences of durable writes *)

(** [staged Q P ws R]: run from [P], every write of [ws] leaves the store in
    [Q] whether it succeeds or not, and all of them together reach [R]. *)
Inductive staged (Q : pstore W -> Prop) :
  (pstore W -> Prop) -> list (io unit) -> (pstore W -> Prop) -> Prop :=
| staged_nil P : staged Q P [] P
| staged_cons (P P' R : pstore W -> Prop) w ws :
    (forall st st' r, P st -> w st = (st', r) -> Q st' /\ (r = Ok tt -> P' st')) ->
    staged Q P' ws R -> staged Q P (w :: ws) R.

Lemma run_writes_staged (Q P R : pstore W -> Prop) ws n st st' r :
  staged Q P ws R -> P st -> Q st -> run_writes (take n ws) st = (st', r) ->
  Q st' /\ (List.length ws <= n -> r = Ok tt -> R st')%nat.
Proof.
  intros H. revert n st. induction H as [P|P P' R w ws Hw _ IH]; intros n st HP HQ Hrun.
  { rewrite take_nil in Hrun. injection Hrun as <- <-. done. }
  destruct n as [|n]; [injection Hrun as <- <-; split; [done|simpl; lia]|]. cbn [take run_writes] in Hrun.
  destruct (w st) as [st1 [[]|e]] eqn:E; destruct (Hw _ _ _ HP E) as [HQ1 HP1].
  - destruct (IH n st1 (HP1 eq_refl) HQ1 Hrun) as [? HR]. split; [done|]. intros Hn. apply HR. simpl in Hn. lia.
  - injection Hrun as <- <-. done.
Qed.

Section Persist.
Context (path id did op h : string) (t : Z) (st0 : pstore W) (chain : list pyval).
Context (l : list HeadAnchor) (ext : option (list HeadAnchor)) (p c : HeadAnchor) (new_doc : docfile).
Context (Hpath : attempt_path id = Ok path) (Hop : LEASE_ID op = true) (Ht : 0 < t).

Let new_docs : gmap string docfile := <[path := new_doc]> st0.(docs).
Let seq : Z := Z.of_nat (List.length chain) - 1.

Context (Hlogs : logs path id st0 l ext).
Context (Pv : verify_anchor p = Ok (true, "ok"))
        (Ps : signed_as (anchor_for op PHASE_PREPARED id did h seq t) p) (Pf : flat (anchor_dict p) = true)
        (Cv : verify_anchor c = Ok (true, "ok"))
        (Cs : signed_as (anchor_for op PHASE_COMMITTED id did h seq t) c) (Cf : flat (anchor_dict c) = true).
Context (Fl : fresh_for op t l) (Fe : forall k, ext = Some k -> fresh_for op t k).

(** The stores a crash can leave. *)
Definition crash_state (st : pstore W) : Prop :=
  inv st.(wit) /\ exists l' ext', logs path id st l' ext' /\
  ((st.(docs) = st0.(docs) /\ (l' = l \/ l' = l ++ [p])%list /\ (ext' = ext \/ ext' = ext_snoc ext p)) \/
   (st.(docs) = new_docs /\ (l' = l ++ [p] \/ l' = l ++ [p; c])%list /\
    (ext' = ext_snoc ext p \/ ext' = ext_snoc (ext_snoc ext p) c))).

Definition at_stage (d : gmap string docfile) (l' : list HeadAnchor) (ext' : option (list HeadAnchor))
    (st : pstore W) : Prop :=
  inv st.(wit) /\ st.(docs) = d /\ logs path id st l' ext'.

Lemma fresh_last : last_differs ext p.
Proof.
  intros k b Hk Hb. left. destruct Ps as (-> & _). cbn [anchor_for a_operation_id]. intros E.
  pose proof (Fe k Hk) as Hf. apply last_snoc_inv in Hb as (k' & ->).
  apply Forall_app in Hf as [_ Hf]. apply Forall_inv in Hf as [Hf _]. apply Hf.
  unfold op_of. by rewrite E.
Qed.

Lemma prepared_last : last_differs (ext_snoc ext p) c.
Proof.
  intros k b Hk Hb. right. unfold ext_snoc in Hk. destruct ext as [k0|]; [|done]. injection Hk as <-.
  rewrite last_snoc in Hb. injection Hb as <-.
  destruct Ps as (_ & -> & _), Cs as (_ & -> & _). done.
Qed.

Lemma persist_stages actor d :
  written (PDict d) = new_doc ->
  sign_anchor actor (anchor_for op PHASE_COMMITTED id did h seq t) = Ok c ->
  staged crash_state (at_stage st0.(docs) l ext)
    (persist_writes witness path id d actor did op h seq t p)
    (at_stage new_docs (l ++ [p; c]) (ext_snoc (ext_snoc ext p) c)).
Proof.
  intros Hd Hsign. unfold persist_writes. rewrite Hsign.
  destruct Ps as (Po & Pp & Pi & _), Cs as (Co & Cp & Ci & _).
  eapply (staged_cons _ _ (at_stage st0.(docs) (l ++ [p]) ext)).
  { intros st st' r (Hi & Hdoc & Hl) H.
    destruct (append_anchor_logs _ _ _ _ _ _ _ _ Hl Pf Pi Hpath H) as (E1 & E2 & Hr).
    destruct r as [[]|]; [|subst st'; split; [|done]; split; [done|]; eexists _, _; split; [exact Hl|left; auto]].
    split; [split; [by rewrite E2|]; eexists _, _; split; [exact Hr|left; rewrite E1; auto]|].
    intros _. split_and!; [by rewrite E2|by rewrite E1|done]. }
  eapply (staged_cons _ _ (at_stage st0.(docs) (l ++ [p]) (ext_snoc ext p))).
  { intros st st' r (Hi & Hdoc & Hl) H.
    destruct (append_witness_logs _ _ _ _ _ _ _ _ _ _ Hl Pf Pi Po Pp fresh_last Hi H) as (E1 & E2 & Hi' & Hr).
    split; [split; [done|]|].
    - destruct Hr as [Hr|[Hr _]]; eexists _, _; (split; [exact Hr|]); left; rewrite E1; auto.
    - intros Hok. destruct Hr as [Hr|[_ Hr]]; [|by destruct Hr]. split_and!; [done|by rewrite E1|done]. }
  eapply (staged_cons _ _ (at_stage new_docs (l ++ [p]) (ext_snoc ext p))).
  { intros st st' r (Hi & Hdoc & Hl) [= <- <-].
    assert (logs path id {| docs := <[path:=written (PDict d)]> (docs st); journals := journals st; wit := wit st |}
              (l ++ [p]) (ext_snoc ext p)) as Hl' by exact Hl.
    rewrite Hd, Hdoc in *. split; [split; [done|]; eexists _, _; split; [exact Hl'|right; auto]|].
    intros _. done. }
  eapply (staged_cons _ _ (at_stage new_docs (l ++ [p; c]) (ext_snoc ext p))).
  { intros st st' r (Hi & Hdoc & Hl) H.
    destruct (append_anchor_logs _ _ _ _ _ _ _ _ Hl Cf Ci Hpath H) as (E1 & E2 & Hr).
    rewrite <- app_assoc in Hr. cbn [app] in Hr.
    destruct r as [[]|]; [|subst st'; split; [|done]; split; [done|]; eexists _, _; split; [exact Hl|right; auto]].
    split; [split; [by rewrite E2|]; eexists _, _; split; [exact Hr|right; rewrite E1; auto]|].
    intros _. split_and!; [by rewrite E2|by rewrite E1|done]. }
  eapply (staged_cons _ _ (at_stage new_docs (l ++ [p; c]) (ext_snoc (ext_snoc ext p) c))); [|constructor].
  intros st st' r (Hi & Hdoc & Hl) H.
  destruct (append_witness_logs _ _ _ _ _ _ _ _ _ _ Hl Cf Ci Co Cp prepared_last Hi H) as (E1 & E2 & Hi' & Hr).
  split; [split; [done|]|].
  - destruct Hr as [Hr|[Hr _]]; eexists _, _; (split; [exact Hr|]); right; rewrite E1; auto.
  - intros Hok. destruct Hr as [Hr|[_ Hr]]; [|by destruct Hr]. split_and!; [done|by rewrite E1|done].
Qed.
End Persist.

(** ** The heads accepted on the way *)

Definition log_accepts (src id did : string) (head : Z * string) (k : list HeadAnchor) : Prop :=
  k <> [] /\ validate_anchor_sequence id did src k = Ok k /\ head_in head (accepted_anchor_heads k) = true.

Lemma log_accepts_along src id did op h seq t p c k old :
  log_accepts src id did old k -> fresh_for op t k -> 0 < t ->
  verify_anchor p = Ok (true, "ok") -> signed_as (anchor_for op PHASE_PREPARED id did h seq t) p ->
  verify_anchor c = Ok (true, "ok") -> signed_as (anchor_for op PHASE_COMMITTED id did h seq t) c ->
  log_accepts src id did old (k ++ [p]) /\ log_accepts src id did (seq, h) (k ++ [p]) /\
  log_accepts src id did (seq, h) (k ++ [p; c]) /\ accepted_anchor_heads (k ++ [p; c]) = [(seq, h)].
Proof.
  intros (Hne & Hv & Hin) Hf Ht Pv Ps Cv Cs.
  destruct (extend_sequence _ _ _ _ _ _ _ _ _ Hv Hf Pv Ps Ht) as [V1 V2]. specialize (V2 c Cv Cs).
  destruct Ps as (_ & Pp & _ & Pq & Ph & _), Cs as (_ & Cp & _ & Cq & Ch & _).
  assert (head_of p = (seq, h)) as Ep by (unfold head_of; by rewrite Pq, Ph).
  assert (head_of c = (seq, h)) as Ec by (unfold head_of; by rewrite Cq, Ch).
  assert (accepted_anchor_heads (k ++ [p; c]) = [(seq, h)]) as Ea.
  { change [p; c] with ([p] ++ [c])%list. rewrite app_assoc, accepted_committed by done. by rewrite Ec. }
  unfold log_accepts. rewrite Ea, (accepted_prepared k p Pp), !head_in_app, Hin, Ep, head_in_self, orb_true_r.
  split_and!; try done; by destruct k.
Qed.

Lemma accepts_logs id did head k ext :
  accepts id did head k ext <->
  log_accepts "local" id did head k /\ forall e, ext = Some e -> log_accepts "external" id did head e.
Proof.
  unfold accepts, log_accepts. destruct ext; split; try naive_solver.
Qed.

(** Everything recorded so far comes before operation [op] at time [t]. *)
Definition later_than (path id : string) (st : pstore W) (op : string) (t : Z) : Prop :=
  forall k ext, logs path id st k ext ->
    fresh_for op t k /\ forall e, ext = Some e -> fresh_for op t e.

(** The file [_persist] writes for [chain] is one [_load] can read. *)
Definition fits (id : string) (chain : list pyval) : Prop :=
  forall d, document id chain = Ok d -> df_size (written (PDict d)) <= MAX_FILE_BYTES.

Lemma document_holds id path events d did h chain x st :
  attempt_path id = Ok path -> fits id chain -> document id chain = Ok d ->
  chain = (events ++ [x])%list -> holds path id st events did h ->
  exists h', get_or_none "head_hash" d = PStr h' /\ EVENT_HASH h' = true /\
    forall st', st'.(docs) !! path = Some (written (PDict d)) -> holds path id st' chain did h'.
Proof.
  intros Hpath Hfit Hd Hc (f & v & d0 & rest & _ & _ & _ & He & Ha & Hne).
  pose proof (Hfit d Hd) as Hsz. unfold document in Hd.
  rewrite Hc, last_snoc in Hd. apply res_bind_Ok in Hd as (h' & Hh & Hd). apply Ok_inj in Hd as <-.
  pose proof (digest_is_hash _ _ Hh) as Hhash. exists h'. split_and!; [done|done|].
  intros st' Hst'. eexists _, _, d0, (rest ++ [x])%list.
  split_and!; [exact Hst'| | |by rewrite Hc, He|done|done].
  - unfold read_document, written. cbn [df_size df_value].
    destruct (Z.ltb_spec MAX_FILE_BYTES (Z.of_nat (List.length (pretty 0 (PDict
      [("attempt_id", PStr id); ("events", PList (events ++ [x])); ("head_hash", PStr h')])))));
      [|reflexivity]. exfalso. rewrite <- Hc in *. unfold written in Hsz. cbn [df_size] in Hsz. lia.
  - unfold document_events. cbn [same_keys dict_keys]. rewrite Hc.
    change (same_keys DOCUMENT_FIELDS _) with true. cbn [negb].
    change (get_or_none "attempt_id" _) with (PStr id). change (get_or_none "events" _) with (PList (events ++ [x])).
    change (get_or_none "head_hash" _) with (PStr h').
    rewrite (proj2 (py_eqb_PStr_r _ _) eq_refl). cbn [negb]. rewrite last_snoc, Hhash. cbn [negb].
    rewrite Hh. cbn [res_bind]. by rewrite String.eqb_refl.
Qed.

Definition rolled_back : exn :=
  PaymentAttemptRejected "stored payment attempt was rolled back or lacks a durable prepare".

(** The store with an earlier file put back at [path]. *)
Definition restore (path : string) (f : docfile) (st : pstore W) : pstore W :=
  {| docs := <[path := f]> st.(docs); journals := st.(journals); wit := st.(wit) |}.

Lemma crash_state_load path id did op h t st chain l ext p c d events h0 st' :
  attempt_path id = Ok path -> holds path id st events did h0 ->
  (forall s, s.(docs) !! path = Some (written (PDict d)) -> holds path id s chain did h) ->
  accepts id did (head_at events h0) l ext -> fresh_for op t l -> (forall k, ext = Some k -> fresh_for op t k) ->
  0 < t -> verify_anchor p = Ok (true, "ok") ->
  signed_as (anchor_for op PHASE_PREPARED id did h (Z.of_nat (List.length chain) - 1) t) p ->
  verify_anchor c = Ok (true, "ok") ->
  signed_as (anchor_for op PHASE_COMMITTED id did h (Z.of_nat (List.length chain) - 1) t) c ->
  crash_state path id st l ext p c (written (PDict d)) st' ->
  load witness st' path = Ok (Some events) \/ load witness st' path = Ok (Some chain).
Proof.
  intros Hpath Hold Hnew [Hl He]%accepts_logs Fl Fe Ht Pv Ps Cv Cs (_ & l' & ext' & Hlogs & Hcase).
  destruct (log_accepts_along _ _ _ _ _ _ _ _ _ _ _ Hl Fl Ht Pv Ps Cv Cs) as (A1 & A2 & A3 & _).
  assert (forall k, ext = Some k ->
    log_accepts "external" id did (head_at events h0) (k ++ [p]) /\
    log_accepts "external" id did (head_at chain h) (k ++ [p]) /\
    log_accepts "external" id did (head_at chain h) (k ++ [p; c])) as HB.
  { intros k Hk. destruct (log_accepts_along _ _ _ _ _ _ _ _ _ _ _ (He k Hk) (Fe k Hk) Ht Pv Ps Cv Cs)
      as (B1 & B2 & B3 & _). done. }
  destruct Hcase as [(Hd & Hl' & He')|(Hd & Hl' & He')]; [left|right].
  - eapply (load_accepts path id st' events did h0 l' ext'); try done.
    + destruct Hold as (f & v & d0 & rest & Hf & Hrest). exists f, v, d0, rest. by rewrite Hd.
    + apply accepts_logs. split; [by destruct Hl' as [-> | ->]|]. intros e ->.
      destruct He' as [E|E]; [by apply He|]. unfold ext_snoc in E.
      destruct ext as [k|]; [|done]. injection E as ->. by apply HB.
  - eapply (load_accepts path id st' chain did h l' ext'); try done.
    + apply Hnew. rewrite Hd. apply lookup_insert_eq.
    + apply accepts_logs. split; [by destruct Hl' as [-> | ->]|]. intros e ->.
      destruct He' as [E|E]; unfold ext_snoc in E; (destruct ext as [k|]; [|done]); injection E as ->;
        destruct (HB k eq_refl) as (_ & B2 & B3); [done|]. by rewrite <- app_assoc.
Qed.

Lemma persist_crash_inv budget path id chain actor did op t st st' r :
  signer actor did -> persist_crash witness budget path id chain actor op t st = (st', r) ->
  (st' = st /\ exists e, r = Err e) \/
  exists d h p, document id chain = Ok d /\ h = safe_str (get_or_none "head_hash" d) /\
    sign_anchor actor (anchor_for op PHASE_PREPARED id did h (Z.of_nat (List.length chain) - 1) t) = Ok p /\
    run_writes (take budget (persist_writes witness path id d actor did op h
                               (Z.of_nat (List.length chain) - 1) t p)) st = (st', r).
Proof.
  intros (seed & _ & _ & _ & Hdid). unfold persist_crash.
  destruct (document id chain) as [d|e]; cbn [res_bind]; [|intros [= <- <-]; left; eauto].
  rewrite Hdid. cbn [res_bind]. cbv zeta.
  destruct (sign_anchor _ _) as [p|e] eqn:Hp; cbn [res_bind]; [|intros [= <- <-]; left; eauto].
  intros H. right. by exists d, (safe_str (get_or_none "head_hash" d)), p.
Qed.

Lemma sign_anchor_total actor did op phase id h seq t :
  signer actor did -> anchor_params op phase id did h seq t ->
  exists a, sign_anchor actor (anchor_for op phase id did h seq t) = Ok a.
Proof.
  intros Hs [Hop Hph Hid _ Hh _]. unfold sign_anchor. pose proof Hs as (seed & _ & _ & _ & ->). cbn [res_bind].
  cbn [a_actor_did anchor_for]. rewrite (proj2 (py_eqb_PStr_r _ _) eq_refl). cbn [negb].
  assert (char_all ascii7 phase = true) as Hp by (by destruct Hph as [<-|[<-|[]]]).
  destruct (canonical_json (anchor_body (anchor_for op phase id did h seq t))) as [b|x] eqn:Hb.
  - cbn [res_bind]. destruct (signer_sign actor did b Hs) as (s & _ & _ & -> & _). cbn [res_bind]. eauto.
  - exfalso. unfold anchor_body, signing_body in Hb.
    pose proof ascii7_text_ok as Ha.
    assert (encodable (PDict [("operation_id", PStr op); ("phase", PStr phase); ("attempt_id", PStr id);
      ("seq", PInt seq); ("head_hash", PStr h); ("actor_did", PStr did); ("created_at_ms", PInt t)]) = true) as He.
    { cbn [encodable forallb fst snd].
      rewrite (Ha op (hex_ascii7 32 op Hop)), (Ha phase Hp),
        (Ha id (prefixed_ascii7 ATTEMPT_PREFIX 64 id Hid eq_refl)),
        (Ha h (prefixed_ascii7 "sha256:" 64 h Hh eq_refl)), (Ha did (signer_did_ascii _ _ Hs)). done. }
    apply canonical_json_total in He.
    match type of He with _ = ?y => assert (y = Err x) as Hx by (rewrite <- He; exact Hb) end.
    discriminate Hx.
Qed.

Lemma head_in_other n m h h' : n <> m -> head_in (n, h) [(m, h')] = false.
Proof. intros Hne. unfold head_in. cbn. destruct (Z.eqb_spec m n); [congruence|done]. Qed.

(** The file before the operation, put back after it, is refused. *)
Lemma restored_rejected path id did op h t st chain l ext p c events h0 st' f x :
  attempt_path id = Ok path -> holds path id st events did h0 -> chain = (events ++ [x])%list ->
  log_accepts "local" id did (head_at events h0) l -> fresh_for op t l -> 0 < t ->
  verify_anchor p = Ok (true, "ok") ->
  signed_as (anchor_for op PHASE_PREPARED id did h (Z.of_nat (List.length chain) - 1) t) p ->
  verify_anchor c = Ok (true, "ok") ->
  signed_as (anchor_for op PHASE_COMMITTED id did h (Z.of_nat (List.length chain) - 1) t) c ->
  logs path id st' (l ++ [p; c]) ext -> st.(docs) !! path = Some f ->
  load witness (restore path f st') path = Err rolled_back.
Proof.
  intros Hpath Hold -> Hl Fl Ht Pv Ps Cv Cs Hlogs Hf.
  destruct (log_accepts_along _ _ _ _ _ _ _ _ _ _ _ Hl Fl Ht Pv Ps Cv Cs) as (_ & _ & (A1 & A2 & _) & A4).
  apply (load_rejects path id (restore path f st') events did h0 (l ++ [p; c]) ext); try done.
  - destruct Hold as (f' & v & d0 & rest & Hf' & Hrest). exists f', v, d0, rest. split; [|done].
    unfold restore. cbn [docs]. rewrite lookup_insert_eq. congruence.
  - rewrite A4. apply head_in_other. rewrite length_app. simpl. lia.
Qed.

Lemma persist_safe budget path id chain actor did op t st st' r events x :
  signer actor did -> attempt_path id = Ok path -> LEASE_ID op = true -> 0 < t -> inv st.(wit) ->
  load witness st path = Ok (Some events) -> chain = (events ++ [x])%list ->
  (forall did' h, holds path id st events did' h -> did' = did) ->
  later_than path id st op t -> fits id chain ->
  persist_crash witness budget path id chain actor op t st = (st', r) ->
  (load witness st' path = Ok (Some events) \/ load witness st' path = Ok (Some chain)) /\
  ((5 <= budget)%nat -> r = Ok tt ->
   load witness st' path = Ok (Some chain) /\
   forall f, st.(docs) !! path = Some f -> load witness (restore path f st') path = Err rolled_back).
Proof.
  intros Hs Hpath Hop Ht Hinv Hload Hchain Hdid Hlater Hfit Hrun.
  destruct (load_inv _ _ _ _ Hpath Hload) as (did' & h0 & l & ext & Hold & Hlogs & Hacc).
  pose proof (Hdid _ _ Hold) as ->. destruct (Hlater _ _ Hlogs) as [Fl Fe].
  destruct (persist_crash_inv _ _ _ _ _ _ _ _ _ _ _ Hs Hrun) as [[-> (e & ->)]|(d & h & p & Hd & Hh & Hp & Hws)].
  { split; [by left|done]. }
  destruct (document_holds _ _ _ _ _ _ _ _ _ Hpath Hfit Hd Hchain Hold) as (h' & Hh' & Hhash & Hnew).
  rewrite Hh' in Hh. cbn [safe_str] in Hh. subst h'.
  assert (0 <= Z.of_nat (List.length chain) - 1) as Hseq by (rewrite Hchain, length_app; simpl; lia).
  pose proof (proj2 (attempt_path_id _ _ Hpath)) as Hid.
  assert (forall phase, In phase ANCHOR_PHASES ->
    anchor_params op phase id did h (Z.of_nat (List.length chain) - 1) t) as Hap by done.
  destruct (sign_anchor_ok _ _ _ _ _ _ _ _ _ Hs (Hap _ (or_introl eq_refl)) Hp) as (Pv & Ps & Pf).
  destruct (sign_anchor_total _ _ _ _ _ _ _ _ Hs (Hap PHASE_COMMITTED (or_intror (or_introl eq_refl)))) as (c & Hc).
  destruct (sign_anchor_ok _ _ _ _ _ _ _ _ _ Hs (Hap _ (or_intror (or_introl eq_refl))) Hc) as (Cv & Cs & Cf).
  assert (staged (crash_state path id st l ext p c (written (PDict d)))
    (at_stage path id (docs st) l ext)
    (persist_writes witness path id d actor did op h (Z.of_nat (List.length chain) - 1) t p)
    (at_stage path id (<[path := written (PDict d)]> (docs st)) (l ++ [p; c]) (ext_snoc (ext_snoc ext p) c)))
    as Hst by by eapply persist_stages.
  destruct (run_writes_staged _ _ _ _ _ _ _ _ Hst (conj Hinv (conj eq_refl Hlogs))
    (conj Hinv (ex_intro _ l (ex_intro _ ext (conj Hlogs (or_introl (conj eq_refl (conj (or_introl eq_refl) (or_introl eq_refl)))))))) Hws)
    as [Hcrash Hend].
  split; [by eapply (crash_state_load path id did op h t st chain l ext p c d events h0 st')|].
  intros Hb ->. destruct (Hend Hb eq_refl) as (_ & Hdocs & Hlogs'). clear Hend.
  pose proof Hacc as [Hlacc Heacc]%accepts_logs.
  destruct (log_accepts_along _ _ _ _ _ _ _ _ _ _ _ Hlacc Fl Ht Pv Ps Cv Cs) as (_ & _ & A3 & _). split.
  - eapply (load_accepts path id st' chain did h); [done| |exact Hlogs'|].
    + apply Hnew. rewrite Hdocs. apply lookup_insert_eq.
    + apply accepts_logs. split; [exact A3|]. intros e He. destruct ext as [k|]; [|done].
      injection He as <-. rewrite <- app_assoc. cbn [app].
      destruct (log_accepts_along _ _ _ _ _ _ _ _ _ _ _ (Heacc k eq_refl) (Fe k eq_refl) Ht Pv Ps Cv Cs)
        as (_ & _ & B3 & _). exact B3.
  - intros f Hf. eapply (restored_rejected path id did op h t st chain l _ p c events h0 st' f x);
      [exact Hpath|exact Hold|exact Hchain|exact Hlacc|exact Fl|exact Ht|exact Pv|exact Ps|exact Cv|exact Cs|exact Hlogs'|exact Hf].
Qed.

(** ** Planned operations *)

(** [_append] or [claim] is about to persist [chain] at time [t]. *)
Definition planned (now : Z) (st : pstore W) (id : string) (actor : AgentIdentity) (path : string) (t : Z)
    (chain : list pyval) : Prop :=
  (exists event_type new pl override,
     append_plan witness now st id actor event_type new pl override = Ok (path, t, chain)) \/
  (exists lease_ms override lease,
     claim_plan witness now st id actor lease_ms override lease = Ok (Some (path, t, chain))).

(** What [_append] and [claim] know of the chain they persist. *)
Definition extends (now : Z) (st : pstore W) (id : string) (actor : AgentIdentity) (path : string) (t : Z)
    (chain events : list pyval) (e : PaymentAttemptEvent) : Prop :=
  attempt_path id = Ok path /\ load witness st path = Ok (Some events) /\ events <> [] /\
  verify_payment_attempt now events = Ok (true, "ok") /\
  as_did actor = Ok (project_verified events).(w_actor_did) /\
  chain = (events ++ [PDict (to_dict e)])%list /\ e.(created_at_ms) = PInt t /\
  verify_payment_attempt now chain = Ok (true, "ok").

Lemma verified_reason now events r : verify_payment_attempt now events = Ok (true, r) -> r = "ok".
Proof.
  unfold verify_payment_attempt. intros H%run_body_true. destruct events as [|x l]; [done|].
  apply res_bind_Ok in H as (u & _ & H). apply res_bind_Ok in H as (u' & _ & H).
  apply res_bind_Ok in H as (v & _ & H). congruence.
Qed.

Lemma load_owned_inv now st path actor events :
  load_owned witness now st path actor = Ok (Some events) ->
  load witness st path = Ok (Some events) /\ events <> [] /\
  verify_payment_attempt now events = Ok (true, "ok") /\
  as_did actor = Ok (project_verified events).(w_actor_did).
Proof.
  unfold load_owned. intros (found & Hl & H)%res_bind_Ok. destruct found as [[|x l]|]; try done.
  apply res_bind_Ok in H as ([ok r] & Hv & H). destruct ok; [|discriminate H]. cbn [negb] in H.
  apply res_bind_Ok in H as (did & Hd & H).
  destruct (String.eqb_spec did (w_actor_did (project_verified (x :: l)))) as [->|]; [|discriminate H].
  cbn [negb] in H. injection H as <-. rewrite Hv. by rewrite (verified_reason _ _ _ Hv).
Qed.

Lemma candidate_inv now id events current actor event_type new pl t chain :
  candidate now id events current actor event_type new pl t = Ok chain ->
  exists e, chain = (events ++ [PDict (to_dict e)])%list /\ e.(created_at_ms) = PInt t /\
    e.(type) = PStr event_type /\ e.(new_state) = PStr new /\ e.(PaymentEvent.payload) = PDict pl /\
    verify_payment_attempt now chain = Ok (true, "ok").
Proof.
  unfold candidate. intros (h & _ & H)%res_bind_Ok. apply res_bind_Ok in H as (e & He & H).
  apply res_bind_Ok in H as ([ok r] & Hv & H). destruct ok; [|discriminate H]. apply Ok_inj in H as <-.
  pose proof (verified_reason _ _ _ Hv) as ->. exists e.
  unfold sign_event in He. apply res_bind_Ok in He as (did & _ & He).
  destruct (negb _); [discriminate He|]. apply res_bind_Ok in He as (b & _ & He).
  apply res_bind_Ok in He as (sg & _ & He). apply Ok_inj in He as <-. done.
Qed.

Lemma claim_plan_inv now st id actor lease_ms override lease path t chain :
  claim_plan witness now st id actor lease_ms override lease = Ok (Some (path, t, chain)) ->
  exists events e, extends now st id actor path t chain events e /\
    e.(type) = PStr EVENT_CLAIMED /\ e.(new_state) = PStr STATE_INFLIGHT /\
    e.(PaymentEvent.payload) = PDict [("lease_id", PStr lease); ("lease_expires_at_ms", PInt (t + lease_ms))].
Proof.
  unfold claim_plan. destruct (negb _); [done|]. intros (path' & Hp & H)%res_bind_Ok.
  apply res_bind_Ok in H as (found & Hf & H). destruct found as [events|]; [|done]. cbv zeta in H.
  destruct (str_in _ _); [done|]. destruct (_ && _); [done|]. destruct (_ && _); [done|].
  apply res_bind_Ok in H as (chain' & Hc & H). injection H as <- <- <-.
  apply load_owned_inv in Hf as (F1 & F2 & F3 & F4).
  apply candidate_inv in Hc as (e & C1 & C2 & C3 & C4 & C5 & C6). exists events, e. done.
Qed.

Lemma planned_extends now st id actor path t chain :
  planned now st id actor path t chain -> exists events e, extends now st id actor path t chain events e.
Proof.
  intros [(event_type & new & pl & override & H)|(lease_ms & override & lease & H)].
  - unfold append_plan in H. apply res_bind_Ok in H as (path' & Hp & H).
    apply res_bind_Ok in H as (found & Hf & H). destruct found as [events|]; [|done].
    apply res_bind_Ok in H as (chain' & Hc & H). injection H as <- <- <-.
    apply load_owned_inv in Hf as (F1 & F2 & F3 & F4).
    apply candidate_inv in Hc as (e & C1 & C2 & C3 & C4 & C5 & C6). exists events, e. done.
  - apply claim_plan_inv in H as (events & e & H & _). eauto.
Qed.

Lemma extends_time now st id actor path t chain events e :
  extends now st id actor path t chain events e -> 0 < t.
Proof.
  intros (_ & _ & Hne & _ & _ & -> & Hc & Hv).
  destruct (snoc_step _ _ _ _ Hne Hv) as (ce & v & s & v' & idx & pv & _ & He & _).
  pose proof (is_created _ _ _ _ _ He) as H. pose proof (is_order _ _ _ _ _ He) as [H0 _].
  change (created_at_ms (from_dict (dict_of (PDict (to_dict e))))) with (created_at_ms e) in H.
  rewrite Hc in H. injection H as ->. done.
Qed.

Lemma planned_safe now st id actor did op path t chain budget st' r events e :
  signer actor did -> LEASE_ID op = true -> inv st.(wit) ->
  extends now st id actor path t chain events e -> later_than path id st op t -> fits id chain ->
  persist_crash witness budget path id chain actor op t st = (st', r) ->
  (load witness st' path = Ok (Some events) \/ load witness st' path = Ok (Some chain)) /\
  ((5 <= budget)%nat -> r = Ok tt ->
   load witness st' path = Ok (Some chain) /\
   forall f, st.(docs) !! path = Some f -> load witness (restore path f st') path = Err rolled_back).
Proof.
  intros Hs Hop Hinv Hext Hlater Hfit Hrun. pose proof (extends_time _ _ _ _ _ _ _ _ _ Hext) as Ht.
  destruct Hext as (Hpath & Hload & Hne & _ & Hdid & Hc & _ & _).
  eapply (persist_safe budget path id chain actor did op t st); try done.
  intros did' h (f & v & d & rest & _ & _ & _ & -> & Ha & _). rewrite project_actor, Ha in Hdid.
  destruct Hs as (seed & _ & _ & _ & Hd). cbn [safe_str] in Hdid. congruence.
Qed.

Lemma get_events_load id path st : attempt_path id = Ok path -> get_events witness st id = load witness st path.
Proof. intros H. unfold get_events. by rewrite H. Qed.

(** ** Properties *)

(** C10.  Crash safety and rollback detection.  Stop the store after any number
    of the durable writes of an append or a claim, or let any of them fail:
    the attempt still loads, and holds either the chain before the operation
    or the verified chain with the new event.  Once the operation has
    returned, the new chain is the one that loads, and putting the earlier
    document back is refused as a rollback.  This holds with no witness and
    with any witness that keeps an append-only log, provided operation ids
    are fresh, the clock is not behind the anchors already written, and the
    document fits the size limit of the reader. *)
Theorem append_is_crash_safe now st id actor did op path t chain budget st' r :
  signer actor did -> LEASE_ID op = true -> inv st.(wit) ->
  planned now st id actor path t chain -> later_than path id st op t -> fits id chain ->
  persist_crash witness budget path id chain actor op t st = (st', r) ->
  exists events e, get_events witness st id = Ok (Some events) /\ chain = (events ++ [e])%list /\
    verify_payment_attempt now chain = Ok (true, "ok") /\
    (get_events witness st' id = Ok (Some events) \/ get_events witness st' id = Ok (Some chain)) /\
    ((5 <= budget)%nat -> r = Ok tt ->
     get_events witness st' id = Ok (Some chain) /\
     forall f, st.(docs) !! path = Some f -> get_events witness (restore path f st') id = Err rolled_back).
Proof.
  intros Hs Hop Hinv Hplan Hlater Hfit Hrun.
  destruct (planned_extends _ _ _ _ _ _ _ Hplan) as (events & e & Hext).
  destruct (planned_safe _ _ _ _ _ _ _ _ _ _ _ _ _ _ Hs Hop Hinv Hext Hlater Hfit Hrun) as [H1 H2].
  destruct Hext as (Hpath & Hload & _ & _ & _ & Hc & _ & Hv).
  rewrite !(get_events_load _ _ _ Hpath). exists events, (PDict (to_dict e)). split_and!; try done.
  intros Hb Hr. destruct (H2 Hb Hr) as [H3 H4]. split; [done|]. intros f Hf.
  rewrite (get_events_load _ _ _ Hpath). by apply H4.
Qed.

(** A claim that is not due leaves the store alone and returns [None]. *)
Lemma claim_refused now id actor lease_ms override lease op st path events :
  1000 <= lease_ms <= 300000 -> attempt_path id = Ok path -> events <> [] ->
  load witness st path = Ok (Some events) -> verify_payment_attempt now events = Ok (true, "ok") ->
  as_did actor = Ok (project_verified events).(w_actor_did) ->
  (project_verified events).(w_state) = STATE_INFLIGHT ->
  clock_ms now override < (project_verified events).(w_lease_expires_at_ms) ->
  claim witness now id actor lease_ms override lease op st = (st, Ok None).
Proof.
  intros Hm Hpath Hne Hload Hv Hd Hs Hlt. unfold claim, claim_plan.
  rewrite (proj2 (andb_true_iff _ _)) by (split; apply Z.leb_le; lia). cbn [negb]. rewrite Hpath. cbn [res_bind].
  unfold load_owned. rewrite Hload. cbn [res_bind]. destruct events as [|x l]; [done|].
  rewrite Hv. cbn [res_bind negb]. rewrite Hd. cbn [res_bind]. rewrite String.eqb_refl. cbn [negb res_bind].
  cbv zeta. rewrite Hs. cbn [str_in existsb]. rewrite (proj2 (Z.ltb_lt _ _) Hlt). done.
Qed.

(** C11.  Mutual exclusion of workers: after a successful claim, until the
    lease it took has expired, every further claim of the attempt by its actor
    returns nothing and changes nothing. *)
Theorem claim_excludes now st id actor did op lease_ms override lease path t chain st' w :
  signer actor did -> LEASE_ID op = true -> inv st.(wit) ->
  claim_plan witness now st id actor lease_ms override lease = Ok (Some (path, t, chain)) ->
  later_than path id st op t -> fits id chain ->
  claim witness now id actor lease_ms override lease op st = (st', Ok w) ->
  (exists v, w = Some v /\ v.(w_state) = STATE_INFLIGHT /\ v.(w_lease_id) = lease) /\
  forall now' lease_ms' override' lease' op',
    now <= now' -> 1000 <= lease_ms' <= 300000 -> clock_ms now' override' < t + lease_ms ->
    claim witness now' id actor lease_ms' override' lease' op' st' = (st', Ok None).
Proof.
  intros Hs Hop Hinv Hplan Hlater Hfit Hrun.
  destruct (claim_plan_inv _ _ _ _ _ _ _ _ _ _ Hplan) as (events & e & Hext & Ht & Hn & Hpl).
  unfold claim in Hrun. rewrite Hplan in Hrun. unfold io_bind, persist_view, io_bind, io_ret in Hrun.
  destruct (persist witness path id chain actor op t st) as [st1 [[]|x]] eqn:Hp; [|congruence].
  injection Hrun as -> <-. unfold persist in Hp.
  destruct (planned_safe _ _ _ _ _ _ _ _ _ _ _ _ _ _ Hs Hop Hinv Hext Hlater Hfit Hp) as [_ H2].
  destruct (H2 (le_n _) eq_refl) as [Hload _].
  destruct Hext as (Hpath & _ & Hne & _ & Hd & -> & _ & Hv).
  destruct (claimed_view events e lease (t + lease_ms) Hne Ht Hn Hpl) as (V1 & V2 & V3 & V4).
  split; [eauto|]. intros now' lease_ms' override' lease' op' Hnow Hm Hlt.
  apply (claim_refused now' id actor lease_ms' override' lease' op' st' path (events ++ [PDict (to_dict e)]));
    [done|done|by destruct events|exact Hload|by eapply verify_attempt_later|by rewrite V4|exact V1|by rewrite V3].
Qed.
End Crash.

(** ** Executable side conditions *)

Section Decide.
Context {W : Type} (witness : option (HeadWitness W)).

Definition fresh_forb (op : string) (t : Z) (l : list HeadAnchor) : bool :=
  forallb (fun a => negb (String.eqb (op_of a) op) && (created_of a <=? t)) l.

Definition later_thanb (path id : string) (st : pstore W) (op : string) (t : Z) : bool :=
  match parse_journal (default "" (st.(journals) !! path)) with
  | Ok k => fresh_forb op t k
  | Err _ => true
  end &&
  match witness with
  | None => true
  | Some w =>
    match w.(hw_read) id st.(wit) with
    | Ok (PList records) =>
      match res_mapM witness_anchor records with Ok k => fresh_forb op t k | Err _ => true end
    | _ => true
    end
  end.

Lemma fresh_forb_ok op t l : fresh_forb op t l = true -> fresh_for op t l.
Proof.
  unfold fresh_forb, fresh_for. rewrite forallb_Forall. intros H. eapply Forall_impl; [exact H|].
  intros a Ha. cbv beta in Ha. bool_to_prop. done.
Qed.

Lemma later_thanb_ok path id st op t : later_thanb path id st op t = true -> later_than witness path id st op t.
Proof.
  unfold later_thanb. intros [H1 H2]%andb_true_iff k ext [Hk He]. rewrite Hk in H1.
  split; [by apply fresh_forb_ok|]. intros e ->. destruct witness as [w|]; [|done].
  destruct He as (records & k' & [= <-] & Hr & Hk'). rewrite Hr, Hk' in H2. by apply fresh_forb_ok.
Qed.

Definition fitsb (id : string) (chain : list pyval) : bool :=
  match document id chain with Ok d => df_size (written (PDict d)) <=? MAX_FILE_BYTES | Err _ => true end.

Lemma fitsb_ok id chain : fitsb id chain = true -> fits id chain.
Proof. unfold fitsb, fits. intros H d Hd. rewrite Hd in H. by apply Z.leb_le. Qed.
End Decide.

Lemma files_closed_decide s :
  bool_decide (map_Forall (fun _ raw => raw = "" \/ ends_line raw = true) s) = true -> files_closed s.
Proof. intros H%bool_decide_eq_true k raw Hk. by apply (H k raw). Qed.

(** ** Witnesses *)

#[local] Existing Instance toy_ed25519.
#[local] Existing Instance toy_laws.

Definition demo_witness : option (HeadWitness witness_files) := Some FilePaymentAttemptHeadWitness.
Definition op_a : string := str_repeat "a" 32.
Definition op_b : string := str_repeat "b" 32.

(** An attempt created at time 10. *)
Definition demo_created : pstore witness_files := Eval vm_compute in
  (create demo_witness 10 (toy_identity "p") pay_intent ADAPTER_X402_TESTNET 10 op_a
     {| docs := ∅; journals := ∅; wit := ∅ |}).1.

(** Its claim at time 20, with a lease of one second. *)
Definition demo_claim_plan : res (option (string * Z * list pyval)) := Eval vm_compute in
  claim_plan demo_witness 20 demo_created pay_key (toy_identity "p") 1000 20 pay_lease.

Definition plan_path (m : res (option (string * Z * list pyval))) : string :=
  match m with Ok (Some (path, _, _)) => path | _ => "" end.
Definition plan_chain (m : res (option (string * Z * list pyval))) : list pyval :=
  match m with Ok (Some (_, _, chain)) => chain | _ => [] end.

Definition demo_path : string := Eval vm_compute in plan_path demo_claim_plan.
Definition demo_chain : list pyval := Eval vm_compute in plan_chain demo_claim_plan.

Lemma demo_plan_ok :
  claim_plan demo_witness 20 demo_created pay_key (toy_identity "p") 1000 20 pay_lease =
  Ok (Some (demo_path, 20, demo_chain)).
Proof. vm_compute. reflexivity. Qed.

(** The store after the first [budget] writes of the claim. *)
Definition demo_crash (budget : nat) : pstore witness_files * res unit :=
  persist_crash demo_witness budget demo_path pay_key demo_chain (toy_identity "p") op_b 20 demo_created.

Lemma append_is_crash_safe_witness :
  exists events e, get_events demo_witness demo_created pay_key = Ok (Some events) /\
    demo_chain = (events ++ [e])%list /\
    verify_payment_attempt 20 demo_chain = Ok (true, "ok") /\
    (get_events demo_witness (demo_crash 5).1 pay_key = Ok (Some events) \/
     get_events demo_witness (demo_crash 5).1 pay_key = Ok (Some demo_chain)) /\
    ((5 <= 5)%nat -> (demo_crash 5).2 = Ok tt ->
     get_events demo_witness (demo_crash 5).1 pay_key = Ok (Some demo_chain) /\
     forall f, demo_created.(docs) !! demo_path = Some f ->
       get_events demo_witness (restore demo_path f (demo_crash 5).1) pay_key = Err rolled_back).
Proof.
  apply (append_is_crash_safe demo_witness files_closed file_witness_laws 20 demo_created pay_key
           (toy_identity "p") (toy_did "p") op_b demo_path 20 demo_chain 5 (demo_crash 5).1 (demo_crash 5).2).
  - apply toy_signer_of. vm_compute. reflexivity.
  - vm_compute. reflexivity.
  - apply files_closed_decide. vm_compute. reflexivity.
  - right. exists 1000, 20, pay_lease. exact demo_plan_ok.
  - apply later_thanb_ok. vm_compute. reflexivity.
  - apply fitsb_ok. vm_compute. reflexivity.
  - unfold demo_crash. by destruct (persist_crash _ _ _ _ _ _ _ _ _).
Defined.

Definition demo_claim : pstore witness_files * res (option PaymentAttemptView) :=
  claim demo_witness 20 pay_key (toy_identity "p") 1000 20 pay_lease op_b demo_created.

Definition claim_result (m : res (option PaymentAttemptView)) : option PaymentAttemptView :=
  match m with Ok w => w | Err _ => None end.
Definition demo_claimed : option PaymentAttemptView := claim_result demo_claim.2.

Lemma claim_excludes_witness :
  (exists v, demo_claimed = Some v /\ v.(w_state) = STATE_INFLIGHT /\ v.(w_lease_id) = pay_lease) /\
  claim demo_witness 500 pay_key (toy_identity "p") 1000 500 op_a op_a demo_claim.1 = (demo_claim.1, Ok None).
Proof.
  refine ((fun H => conj (proj1 H) (proj2 H 500 1000 500 op_a op_a _ _ _))
    (claim_excludes demo_witness files_closed file_witness_laws 20 demo_created pay_key
       (toy_identity "p") (toy_did "p") op_b 1000 20 pay_lease demo_path 20 demo_chain demo_claim.1
       demo_claimed _ _ _ demo_plan_ok _ _ _)).
  - discriminate.
  - split; discriminate.
  - reflexivity.
  - apply toy_signer_of. vm_compute. reflexivity.
  - vm_compute. reflexivity.
  - apply files_closed_decide. vm_compute. reflexivity.
  - apply later_thanb_ok. vm_compute. reflexivity.
  - apply fitsb_ok. vm_compute. reflexivity.
  - vm_compute. reflexivity.
Defined.
