(* ===== verification/PaymentExec.v ===== *)
(** * Executing and reconciling payment attempts
      ([PaymentAttemptExecutor], [PaymentAttemptReconciler])

    The workers around the payment store: one claims an attempt, settles its
    trade through the x402 adapter and records the outcome, with bounded
    retries; the other resolves an orphaned attempt from the receipt the rail
    already holds, and cannot pay. *)

From Stdlib Require Import ZArith Lia Ascii String.
From stdpp Require Import base list strings gmap.
From S2P Require Import Prelude Digits PyStr PyValue Json JsonAscii CanonicalJson B64u DidKey Sha256 Identity Store Settlement Trade TradeSpec SettleTrade DocFile PaymentEvent PaymentSpec PaymentAnchor PaymentStore JournalSpec PaymentStoreSpec.

Local Open Scope string_scope.
Local Open Scope Z_scope.

(** ** Configuration *)

Record PaymentExecutorConfig := {
  lease_ms : Z;
  retry_after_ms : Z;
  retry_max_ms : Z;
  retry_jitter_percent : Z;
  max_attempts : Z
}.

(** [isinstance(v, bool) or not isinstance(v, int) or not lo <= v <= hi] *)
Definition int_between (lo hi : Z) (v : pyval) : res Z :=
  match as_int v with
  | Some z => if (lo <=? z) && (z <=? hi) then Ok z else Err ValueError
  | None => Err ValueError
  end.

(** [PaymentExecutorConfig.__post_init__] *)
Definition executor_config (lease after max jitter attempts : pyval) : res PaymentExecutorConfig :=
  let* lease := int_between 1000 300000 lease in
  let* after := int_between 0 86400000 after in
  let* max := int_between after 86400000 max in
  let* jitter := int_between 0 50 jitter in
  let* attempts := int_between 1 100 attempts in
  Ok {| lease_ms := lease; retry_after_ms := after; retry_max_ms := max;
        retry_jitter_percent := jitter; max_attempts := attempts |}.

Definition default_config : PaymentExecutorConfig := {|
  lease_ms := 30000; retry_after_ms := 5000; retry_max_ms := 300000;
  retry_jitter_percent := 20; max_attempts := 10 |}.

(** ** Failures *)

(** [getattr(exc, "reason", "")] *)
Definition reason_of (e : exn) : string :=
  match e with SettlementFailed reason _ _ _ => reason | TradeRejected reason => reason | _ => "" end.

(** [_error_code] *)
Definition error_code (e : exn) : string :=
  if ERROR_CODE (reason_of e) then reason_of e else
  match e with
  | TradeConflict => "trade-conflict"
  | TimeoutError => "provider-timeout"
  | ConnectionError => "provider-connection-error"
  | OSError => "io-error"
  | RuntimeError | PaymentAttemptConflict _ | PaymentWitnessRejected _ => "runtime-error"
  | _ => "internal-error"
  end.

(** [_orphan_metadata] *)
Definition orphan_metadata (reason provider_reference evidence_digest : string)
  : res (string * string * string) :=
  let code := error_code (SettlementFailed reason true provider_reference evidence_digest) in
  let reference :=
    if (256 <? py_len provider_reference)
       || existsb (fun c => (c <? 0x21) || (0x7E <? c)) (code_points provider_reference)
    then "" else provider_reference in
  if EVENT_HASH evidence_digest then Ok (code, reference, evidence_digest) else
  let* digest := digest_of (PDict [("error_code", PStr code); ("provider_reference", PStr reference)]) in
  Ok (code, reference, digest).

(** ** The retry schedule *)

Definition retry_base (c : PaymentExecutorConfig) (attempts : Z) : Z :=
  let exponent := Z.min (Z.max (attempts - 1) 0) 30 in
  Z.min c.(retry_max_ms) (c.(retry_after_ms) * Z.shiftl 1 exponent).

Definition retry_jitter (c : PaymentExecutorConfig) (attempts : Z) : Z :=
  retry_base c attempts * c.(retry_jitter_percent) / 100.

(** [_retry_delay_ms] *)
Definition retry_delay_ms (c : PaymentExecutorConfig) (claimed : PaymentAttemptView) : res Z :=
  let base := retry_base c claimed.(w_attempts) in
  let jitter := retry_jitter c claimed.(w_attempts) in
  if jitter =? 0 then Ok base else
  let* body := canonical_json (PDict [("attempt_id", PStr claimed.(w_attempt_id));
                                      ("attempts", PInt claimed.(w_attempts));
                                      ("kind", PStr "nth/payment-retry-jitter@1")]) in
  let offset := of_digits 256 (take 8 (bytes_of (sha256 body))) mod (2 * jitter + 1) - jitter in
  Ok (Z.min c.(retry_max_ms) (Z.max 0 (base + offset))).

(** ** The world of a worker *)

(** The payment store, the trade store and the rail. *)
Record world (W St : Type) := {
  attempts : pstore W;
  trades : files;
  rail : St
}.
Arguments attempts {W St}.
Arguments trades {W St}.
Arguments rail {W St}.
Arguments Build_world {W St}.

(** What the environment supplies to one turn of a worker: the clock when it
    claims, settles and records, and the fresh identifiers of the lease and of
    the two writes to the payment store. *)
Record turn := {
  at_claim : Z;
  at_settle : Z;
  at_record : Z;
  fresh_lease : string;
  claim_op : string;
  record_op : string
}.

(** The [settlement] of the event [settle_trade] returned. *)
Definition event_settlement (e : TradeEvent) : res (list (string * pyval)) :=
  match e.(Trade.payload) with
  | PDict d => match get_or_none "settlement" d with
               | PDict s => Ok s
               | _ => Err (PaymentAttemptRejected "settle_trade returned an event without a settlement payload")
               end
  | _ => Err (PaymentAttemptRejected "settle_trade returned an event without a settlement payload")
  end.

(** [_LookupOnlyX402Adapter] *)
Definition LookupOnlyX402Adapter {St} (R : PaymentRail St) : SettlementAdapter St := {|
  adapter_id := PStr ADAPTER_X402_TESTNET;
  adapter_settle now i s :=
    match lookup_settlement R now i s with
    | (s, Ok (Some r)) => (s, Ok r)
    | (s, Ok None) => (s, settlement_failed "settlement-receipt-not-found")
    | (s, Err e) => (s, Err e)
    end |}.

Section Workers.
Context `{Ed : Ed25519} `{Rp : PyRepr} `{U : UnicodeDB}.
Context {W St : Type} (witness : option (HeadWitness W)) (R : PaymentRail St).

Notation world := (world W St).

(** Run a payment store operation in the world. *)
Definition on_attempts {A} (m : pstore W -> pstore W * res A) (w : world) : world * res A :=
  let (st, r) := m w.(attempts) in (Build_world st w.(trades) w.(rail), r).

(** ** The executor *)

Section Executor.
Context (c : PaymentExecutorConfig) (actor : AgentIdentity) (override : Z) (t : turn).

(** [_retry_or_block] *)
Definition retry_or_block (claimed : PaymentAttemptView) (e : exn) (permanent : bool)
  : pstore W -> pstore W * res PaymentAttemptView :=
  let code := error_code e in
  if permanent || (c.(max_attempts) <=? claimed.(w_attempts)) then
    block witness t.(at_record) claimed.(w_attempt_id) actor claimed.(w_lease_id) code override t.(record_op)
  else
    match retry_delay_ms c claimed with
    | Err x => fun st => (st, Err x)
    | Ok delay =>
      schedule_retry witness t.(at_record) claimed.(w_attempt_id) actor claimed.(w_lease_id) code
        delay override t.(record_op)
    end.

(** The [except] clauses around [settle_trade] in [_execute_claimed]. *)
Definition on_failure (claimed : PaymentAttemptView) (e : exn)
  : pstore W -> pstore W * res PaymentAttemptView :=
  match e with
  | SettlementFailed reason true reference digest =>
    match orphan_metadata reason reference digest with
    | Err x => fun st => (st, Err x)
    | Ok (code, reference, digest) =>
      record_orphaned witness t.(at_record) claimed.(w_attempt_id) actor claimed.(w_lease_id)
        code reference digest override t.(record_op)
    end
  | SettlementFailed reason false _ _ =>
    retry_or_block claimed e (str_in reason PERMANENT_SETTLEMENT_FAILURES)
  | TradeConflict | TradeRejected _ => retry_or_block claimed e false
  | _ => if is_OSOrRuntimeError e then retry_or_block claimed e false else fun st => (st, Err e)
  end.

(** What follows a successful [settle_trade]. *)
Definition on_success (claimed : PaymentAttemptView) (ev : TradeEvent)
  : pstore W -> pstore W * res PaymentAttemptView :=
  match event_settlement ev with
  | Err x => fun st => (st, Err x)
  | Ok settlement =>
    record_settled witness t.(at_record) claimed.(w_attempt_id) actor claimed.(w_lease_id)
      settlement override t.(record_op)
  end.

(** The call of [settle_trade] in [_execute_claimed]. *)
Definition settle_claimed (i : SettlementIntent) (w : world) : world * res TradeEvent :=
  let '(fs, s, r) := settle_trade t.(at_settle) override w.(trades) (safe_str i.(Settlement.trade_id)) actor
                       (X402SettlementAdapter R) i w.(rail) in
  (Build_world w.(attempts) fs s, r).

(** [_execute_claimed] *)
Definition execute_claimed (claimed : PaymentAttemptView) (w : world) : world * res PaymentAttemptView :=
  match intent_from_dict (PDict claimed.(w_intent)) with
  | Err e => (w, Err e)
  | Ok i =>
    match settle_claimed i w with
    | (w, Ok ev) => on_attempts (on_success claimed ev) w
    | (w, Err e) => on_attempts (on_failure claimed e) w
    end
  end.

(** [run_once] *)
Definition run_once (id : string) (w : world) : world * res (option PaymentAttemptView) :=
  match on_attempts (claim witness t.(at_claim) id actor c.(lease_ms) override t.(fresh_lease) t.(claim_op)) w with
  | (w, Err e) => (w, Err e)
  | (w, Ok None) => (w, Ok None)
  | (w, Ok (Some claimed)) =>
    let (w, r) := execute_claimed claimed w in (w, res_map Some r)
  end.
End Executor.

(** The loop of [run_pending] over the file stems; [supply] gives the turn of
    the [n]-th call. *)
Fixpoint run_pending_loop (c : PaymentExecutorConfig) (actor : AgentIdentity) (override : Z)
    (supply : nat -> turn) (n limit : nat) (stems : list string) (w : world)
  : world * res (list PaymentAttemptView) :=
  match stems, limit with
  | [], _ | _, O => (w, Ok [])
  | stem :: stems', S limit' =>
    match run_once c actor override (supply n) (ATTEMPT_PREFIX ++ stem) w with
    | (w, Err e) => (w, Err e)
    | (w, Ok None) => run_pending_loop c actor override supply (S n) limit stems' w
    | (w, Ok (Some v)) =>
      let (w, r) := run_pending_loop c actor override supply (S n) limit' stems' w in
      (w, res_map (cons v) r)
    end
  end.

(** [run_pending] *)
Definition run_pending (c : PaymentExecutorConfig) (actor : AgentIdentity) (limit override : Z)
    (supply : nat -> turn) (w : world) : world * res (list PaymentAttemptView) :=
  if negb ((1 <=? limit) && (limit <=? 1000)) then
    (w, Err (PaymentAttemptRejected "limit must be between 1 and 1000"))
  else run_pending_loop c actor override supply 0 (Z.to_nat limit) (sorted_stems w.(attempts)) w.

(** ** The reconciler *)

(** [reconcile_once] *)
Definition reconcile_once (actor : AgentIdentity) (id : string) (override : Z) (t : turn) (w : world)
  : world * res PaymentAttemptView :=
  match (let* found := get witness t.(at_claim) w.(attempts) id in
         match found with
         | None => Err (PaymentAttemptRejected "payment attempt not found")
         | Some current =>
           let* did := as_did actor in
           if negb (String.eqb did current.(w_actor_did)) then
             Err (PaymentAttemptRejected "payment attempt actor mismatch") else
           if String.eqb current.(w_state) STATE_SETTLED then Ok (inl current) else
           if negb (String.eqb current.(w_state) STATE_ORPHANED) then
             Err (PaymentAttemptRejected "only orphaned payment attempts can be reconciled") else
           let* i := intent_from_dict (PDict current.(w_intent)) in
           Ok (inr (current, i))
         end) with
  | Err e => (w, Err e)
  | Ok (inl current) => (w, Ok current)
  | Ok (inr (current, i)) =>
    match settle_trade t.(at_settle) override w.(trades) (safe_str i.(Settlement.trade_id)) actor
            (LookupOnlyX402Adapter R) i w.(rail) with
    | (fs, s, Err e) => (Build_world w.(attempts) fs s, Err e)
    | (fs, s, Ok ev) =>
      let w := Build_world w.(attempts) fs s in
      match event_settlement ev with
      | Err e => (w, Err e)
      | Ok settlement =>
        on_attempts (record_reconciled witness t.(at_record) id actor settlement
                       current.(w_evidence_digest) override t.(record_op)) w
      end
    end
  end.
End Workers.
