(* ===== verification/PaymentExecSpec.v ===== *)
(** * What the payment workers promise

    Payments under a claim only and at most once, whatever the interleaving of
    workers, crashes and other writers; a reconciler that cannot pay; the
    outcome of every turn and what it leaves in the store; the bounds of the
    retry schedule. *)

From Stdlib Require Import ZArith Lia Ascii String.
From stdpp Require Import base list strings gmap.
From S2P Require Import Prelude Digits PyStr PyValue Json JsonAscii CanonicalJson B64u DidKey Sha256 Identity Store Settlement Trade TradeSpec SettleTrade DocFile PaymentEvent PaymentSpec PaymentAnchor PaymentStore JournalSpec PaymentStoreSpec PaymentExec.

Local Open Scope string_scope.
Local Open Scope Z_scope.

#[local] Opaque verify_settlement verify_payment_attempt persist sha256.

(** ** The retry schedule *)

(** What [executor_config] has checked. *)
Definition valid_config (c : PaymentExecutorConfig) : Prop :=
  1000 <= c.(lease_ms) <= 300000 /\ 0 <= c.(retry_after_ms) <= c.(retry_max_ms) /\
  c.(retry_max_ms) <= 86400000 /\ 0 <= c.(retry_jitter_percent) <= 50 /\ 1 <= c.(max_attempts) <= 100.

Lemma int_between_Ok lo hi v z : int_between lo hi v = Ok z -> v = PInt z /\ lo <= z <= hi.
Proof.
  unfold int_between. destruct v; try done. cbn [as_int].
  destruct (_ && _) eqn:E; [|done]. intros [= ->]. bool_to_prop. split; [done|lia].
Qed.

Lemma executor_config_valid lease after max jitter attempts c :
  executor_config lease after max jitter attempts = Ok c -> valid_config c.
Proof.
  unfold executor_config. intros (z1 & [_ H1]%int_between_Ok & H)%res_bind_Ok.
  apply res_bind_Ok in H as (z2 & [_ H2]%int_between_Ok & H).
  apply res_bind_Ok in H as (z3 & [_ H3]%int_between_Ok & H).
  apply res_bind_Ok in H as (z4 & [_ H4]%int_between_Ok & H).
  apply res_bind_Ok in H as (z5 & [_ H5]%int_between_Ok & H).
  apply Ok_inj in H as <-. unfold valid_config. simpl. lia.
Qed.

Lemma shiftl_1_pos n : 0 <= n -> 1 <= Z.shiftl 1 n.
Proof. intros H. rewrite Z.shiftl_1_l. pose proof (Z.pow_pos_nonneg 2 n). lia. Qed.

Lemma retry_base_range c n : valid_config c -> c.(retry_after_ms) <= retry_base c n <= c.(retry_max_ms).
Proof.
  intros (_ & H1 & _). unfold retry_base. pose proof (shiftl_1_pos (Z.min (Z.max (n - 1) 0) 30) ltac:(lia)). nia.
Qed.

(** The base doubles with every attempt until it reaches the maximum. *)
Lemma retry_base_doubles c n :
  valid_config c -> 1 <= n <= 30 -> retry_base c (n + 1) = Z.min c.(retry_max_ms) (2 * retry_base c n).
Proof.
  intros (_ & H1 & _) Hn. unfold retry_base.
  replace (Z.min (Z.max (n + 1 - 1) 0) 30) with (n - 1 + 1) by lia.
  replace (Z.min (Z.max (n - 1) 0) 30) with (n - 1) by lia.
  rewrite !Z.shiftl_1_l, Z.pow_add_r by lia.
  pose proof (Z.pow_pos_nonneg 2 (n - 1) ltac:(lia) ltac:(lia)). nia.
Qed.

Lemma retry_jitter_range c n : valid_config c -> 0 <= retry_jitter c n <= retry_base c n / 2.
Proof.
  intros Hc. pose proof (retry_base_range c n Hc). destruct Hc as (_ & H1 & _ & H2 & _).
  unfold retry_jitter. split; [apply Z.div_pos; nia|].
  apply Z.div_le_lower_bound; [lia|].
  pose proof (Z.mul_div_le (retry_base c n * retry_jitter_percent c) 100 ltac:(lia)).
  assert (retry_base c n * retry_jitter_percent c <= retry_base c n * 50) by nia. lia.
Qed.

Lemma jitter_body_encodes id n :
  ATTEMPT_ID id = true ->
  exists body, canonical_json (PDict [("attempt_id", PStr id); ("attempts", PInt n);
    ("kind", PStr "nth/payment-retry-jitter@1")]) = Ok body.
Proof.
  intros H. eexists. apply canonical_json_total, flat_encodable. unfold flat. cbn [forallb fst snd atom].
  by rewrite (prefixed_ascii7 ATTEMPT_PREFIX 64 id H eq_refl).
Qed.

(** The delay of an attempt is within its jitter of the base. *)
Lemma retry_delay_spec c v :
  valid_config c -> ATTEMPT_ID v.(w_attempt_id) = true ->
  exists d, retry_delay_ms c v = Ok d /\ 0 <= d <= c.(retry_max_ms) /\
    Z.abs (d - retry_base c v.(w_attempts)) <= retry_jitter c v.(w_attempts).
Proof.
  intros Hc Hid. pose proof (retry_base_range c v.(w_attempts) Hc) as Hb.
  pose proof (retry_jitter_range c v.(w_attempts) Hc) as Hj.
  destruct Hc as (_ & Hr & _). unfold retry_delay_ms.
  destruct (Z.eqb_spec (retry_jitter c (w_attempts v)) 0) as [E|E].
  - exists (retry_base c (w_attempts v)). rewrite E. split_and!; [done|lia..].
  - destruct (jitter_body_encodes _ (w_attempts v) Hid) as [body ->]. cbn [res_bind].
    eexists. split; [reflexivity|].
    set (x := of_digits 256 _).
    pose proof (Z.mod_pos_bound x (2 * retry_jitter c (w_attempts v) + 1) ltac:(lia)). lia.
Qed.

(** ** What the operations append *)

Section Effects.
Context `{Ed : Ed25519} `{Rp : PyRepr} `{U : UnicodeDB}.
Context {W : Type} (witness : option (HeadWitness W)).

Lemma persist_view_Ok path id chain actor op t (st st' : pstore W) v :
  persist_view witness path id chain actor op t st = (st', Ok v) -> v = project_verified chain.
Proof.
  unfold persist_view, io_bind, io_ret. destruct (persist _ _ _ _ _ _ _ st) as [s [u|e]]; [|done].
  by intros [= _ ->].
Qed.

(** A successful append: the view is that of the old chain and the event. *)
Lemma append_Ok now id actor ty new pl override op (st st' : pstore W) v :
  append witness now id actor ty new pl override op st = (st', Ok v) ->
  exists events e, events <> [] /\ v = project_event (project_verified events) (PDict (to_dict e)) /\
    e.(type) = PStr ty /\ e.(new_state) = PStr new /\ e.(PaymentEvent.payload) = PDict pl /\
    verify_payment_attempt now (events ++ [PDict (to_dict e)]) = Ok (true, "ok").
Proof.
  unfold append. destruct (append_plan _ _ _ _ _ _ _ _ _) as [[[path created] chain]|] eqn:H; [|done].
  intros ->%persist_view_Ok. unfold append_plan in H. apply res_bind_Ok in H as (path' & _ & H).
  apply res_bind_Ok in H as (found & Hf & H). destruct found as [events|]; [|done].
  apply res_bind_Ok in H as (chain' & Hc & H). injection H as <- <- <-.
  apply load_owned_inv in Hf as (_ & Hne & _).
  apply candidate_inv in Hc as (e & -> & _ & H1 & H2 & H3 & H4).
  exists events, e. by rewrite project_snoc.
Qed.

(** A successful claim: an attempt of this actor, in flight, bound to its
    obligation. *)
Definition authorised (actor : AgentIdentity) (v : PaymentAttemptView) : Prop :=
  v.(w_state) = STATE_INFLIGHT /\ as_did actor = Ok v.(w_actor_did) /\
  exists i, intent_from_dict (PDict v.(w_intent)) = Ok i /\ i.(payer_did) = PStr v.(w_actor_did) /\
    settlement_idempotency_key i = Ok v.(w_attempt_id).

Lemma claim_Ok now id actor lease_ms override lease op (st st' : pstore W) v :
  claim witness now id actor lease_ms override lease op st = (st', Ok (Some v)) ->
  authorised actor v /\ v.(w_lease_id) = lease.
Proof.
  unfold claim. destruct (claim_plan _ _ _ _ _ _ _ _) as [[[[path t] chain]|]|] eqn:H; [|done..].
  unfold io_bind, io_ret. destruct (persist_view _ _ _ _ _ _ _ st) as [s [x|]] eqn:Hp; [|done].
  intros [= _ ->]. apply persist_view_Ok in Hp as ->.
  apply claim_plan_inv in H as (events & e & (_ & _ & Hne & _ & Hd & -> & _ & Hv) & H1 & H2 & H3).
  destruct (claimed_view events e _ _ Hne H1 H2 H3) as (V1 & V2 & _ & V4).
  split; [|done]. split; [done|]. rewrite V4. split; [done|].
  destruct (verified_binds _ _ _ Hv) as (i & B1 & B2 & B3). exists i. by rewrite V4 in B2.
Qed.

(** ** What the operations leave in the store *)

(** The document of attempt [id] is the one of [chain]. *)
Definition stored (id : string) (chain : list pyval) (st : pstore W) : Prop :=
  exists path d, attempt_path id = Ok path /\ document id chain = Ok d /\
    st.(docs) !! path = Some (written (PDict d)).

(** Reading the attempt back gives that chain, if it gives anything. *)
Lemma stored_read id chain (st : pstore W) found :
  stored id chain st -> get_events witness st id = Ok found -> found = Some chain.
Proof.
  intros (path & d & Hp & Hd & Hf). rewrite (get_events_load _ _ _ _ Hp). unfold load. rewrite Hf.
  rewrite (proj1 (attempt_path_id _ _ Hp)). intros (v & Hv & H)%res_bind_Ok.
  assert (v = PDict d) as ->.
  { revert Hv. unfold read_document, written. cbn [df_size df_value]. by case_match; [|intros [= <-]]. }
  apply res_bind_Ok in H as ([evs h] & Hde & H). apply res_bind_Ok in H as (_ & _ & H). injection H as <-.
  unfold document in Hd. destruct (last chain) as [x|]; [|done].
  apply res_bind_Ok in Hd as (h' & _ & Hd). apply Ok_inj in Hd as <-. unfold document_events in Hde.
  change (get_or_none "events" _) with (PList chain) in Hde.
  change (get_or_none "head_hash" _) with (PStr h') in Hde.
  destruct (negb _); [done|]. destruct (negb _); [done|]. destruct (last chain) as [y|]; [|done].
  destruct (negb _); [done|]. apply res_bind_Ok in Hde as (h2 & _ & Hde).
  by destruct (String.eqb h' h2); [injection Hde as <- _|].
Qed.

Lemma append_anchor_docs a (st st' : pstore W) r : append_anchor a st = (st', r) -> st'.(docs) = st.(docs).
Proof. unfold append_anchor. destruct (res_bind _ _) as [[path raw]|]; by intros [= <- _]. Qed.

Lemma append_witness_docs a (st st' : pstore W) r : append_witness witness a st = (st', r) -> st'.(docs) = st.(docs).
Proof.
  unfold append_witness. destruct witness as [h|]; [|by intros [= <- _]].
  destruct (hw_append _ _ _ _). by intros [= <- _].
Qed.

Lemma persist_stored path id chain actor op t (st st' : pstore W) :
  attempt_path id = Ok path -> persist witness path id chain actor op t st = (st', Ok tt) -> stored id chain st'.
Proof.
  intros Hp. with_strategy transparent [persist] unfold persist. unfold persist_crash. destruct (res_bind _ _) as [ws|] eqn:E; [|done].
  apply res_bind_Ok in E as (d & Hd & E). apply res_bind_Ok in E as (did & _ & E).
  apply res_bind_Ok in E as (prep & _ & E). apply Ok_inj in E as <-. unfold persist_writes. cbn [take run_writes].
  destruct (append_anchor prep st) as [s1 [u1|]]; [|done].
  destruct (append_witness witness prep s1) as [s2 [u2|]]; [|done]. unfold write_document.
  destruct (sign_anchor _ _) as [com|]; [|done].
  destruct (append_anchor com _) as [s4 [u4|]] eqn:E4; [|done]. apply append_anchor_docs in E4.
  destruct (append_witness witness com s4) as [s5 [u5|]] eqn:E5; [|done]. apply append_witness_docs in E5.
  intros [= <-]. exists path, d. split_and!; [done..|]. rewrite E5, E4. apply lookup_insert_eq.
Qed.

(** An operation of time [now] has added one event to attempt [id]. *)
Definition recorded_event (now : Z) (id : string) (st st' : pstore W) (v : PaymentAttemptView) : Prop :=
  exists events e, get_events witness st id = Ok (Some events) /\ v = project_verified (events ++ [e]) /\
    stored id (events ++ [e]) st' /\ verify_payment_attempt now (events ++ [e]) = Ok (true, "ok") /\
    v.(w_attempt_id) = id.

Lemma candidate_recorded now id path actor current ty new pl t op events chain (st st' : pstore W) v :
  attempt_path id = Ok path -> load_owned witness now st path actor = Ok (Some events) ->
  candidate now id events current actor ty new pl t = Ok chain ->
  persist_view witness path id chain actor op t st = (st', Ok v) -> recorded_event now id st st' v.
Proof.
  intros Hp (Hl & _)%load_owned_inv Hc Hv. pose proof (persist_view_Ok _ _ _ _ _ _ _ _ _ Hv) as ->.
  unfold persist_view, io_bind, io_ret in Hv.
  destruct (persist witness path id chain actor op t st) as [s [[]|]] eqn:Hpe; [|done]. injection Hv as ->.
  assert (exists e, chain = (events ++ [PDict (to_dict e)])%list /\ e.(attempt_id) = PStr id) as (e & -> & He).
  { unfold candidate in Hc. apply res_bind_Ok in Hc as (h & _ & Hc). apply res_bind_Ok in Hc as (e & He & Hc).
    apply res_bind_Ok in Hc as ([ok r] & _ & Hc). destruct ok; [|done]. apply Ok_inj in Hc as <-.
    exists e. split; [done|]. unfold sign_event in He. apply res_bind_Ok in He as (did & _ & He).
    destruct (negb _); [done|]. apply res_bind_Ok in He as (b & _ & He).
    apply res_bind_Ok in He as (sg & _ & He). by apply Ok_inj in He as <-. }
  apply candidate_inv in Hc as (_ & _ & _ & _ & _ & _ & Hv).
  exists events, (PDict (to_dict e)). split_and!; [by rewrite (get_events_load _ _ _ _ Hp)|done| |done|].
  - by eapply persist_stored.
  - pose proof (attempt_signed _ _ _ Hv) as [_ Hs%Forall_inv]%Forall_app. destruct Hs as [Hs _].
    change (attempt_id (from_dict (dict_of (PDict (to_dict e))))) with (attempt_id e) in Hs.
    rewrite He in Hs. by injection Hs.
Qed.

Lemma append_recorded now id actor ty new pl override op (st st' : pstore W) v :
  append witness now id actor ty new pl override op st = (st', Ok v) -> recorded_event now id st st' v.
Proof.
  unfold append. destruct (append_plan _ _ _ _ _ _ _ _ _) as [[[path created] chain]|] eqn:H; [|done].
  unfold append_plan in H. apply res_bind_Ok in H as (path' & Hp & H).
  apply res_bind_Ok in H as (found & Hf & H). destruct found as [events|]; [|done].
  apply res_bind_Ok in H as (chain' & Hc & H). injection H as <- <- <-. by eapply candidate_recorded.
Qed.

Lemma claim_recorded now id actor lease_ms override lease op (st st' : pstore W) v :
  claim witness now id actor lease_ms override lease op st = (st', Ok (Some v)) -> recorded_event now id st st' v.
Proof.
  unfold claim. destruct (claim_plan _ _ _ _ _ _ _ _) as [[[[path t] chain]|]|] eqn:H; [|done..].
  unfold io_bind at 1, io_ret. destruct (persist_view _ _ _ _ _ _ _ st) as [s [x|]] eqn:Hpv; [|done].
  intros [= <- <-]. unfold claim_plan in H. destruct (negb _); [done|].
  apply res_bind_Ok in H as (path' & Hp & H). apply res_bind_Ok in H as (found & Hf & H).
  destruct found as [events|]; [|done]. cbv zeta in H.
  destruct (str_in _ _); [done|]. destruct (_ && _); [done|]. destruct (_ && _); [done|].
  apply res_bind_Ok in H as (chain' & Hc & H). injection H as <- <- <-. by eapply candidate_recorded.
Qed.

(** The views after the four outcomes of a turn. *)
Lemma project_event_of w e ty new pl :
  e.(type) = PStr ty -> e.(new_state) = PStr new -> e.(PaymentEvent.payload) = PDict pl ->
  project_event w (PDict (to_dict e)) =
  project_event w (PDict [("type", PStr ty); ("new_state", PStr new); ("payload", PDict pl)]).
Proof.
  intros H1 H2 H3. unfold project_event.
  change (type (from_dict (dict_of (PDict (to_dict e))))) with (type e).
  change (new_state (from_dict (dict_of (PDict (to_dict e))))) with (new_state e).
  change (PaymentEvent.payload (from_dict (dict_of (PDict (to_dict e))))) with (PaymentEvent.payload e).
  by rewrite H1, H2, H3.
Qed.

Lemma block_Ok now id actor lease code override op (st st' : pstore W) v :
  block witness now id actor lease code override op st = (st', Ok v) ->
  v.(w_state) = STATE_BLOCKED /\ v.(w_last_error) = code.
Proof. by intros (events & e & _ & -> & H1 & H2 & H3 & _)%append_Ok; rewrite (project_event_of _ _ _ _ _ H1 H2 H3). Qed.

Lemma schedule_retry_Ok now id actor lease code delay override op (st st' : pstore W) v :
  schedule_retry witness now id actor lease code delay override op st = (st', Ok v) ->
  v.(w_state) = STATE_PENDING /\ v.(w_last_error) = code /\
  v.(w_next_attempt_at_ms) = clock_ms now override + delay.
Proof.
  unfold schedule_retry. destruct (delay <? 0); [done|].
  by intros (events & e & _ & -> & H1 & H2 & H3 & _)%append_Ok; rewrite (project_event_of _ _ _ _ _ H1 H2 H3).
Qed.

Lemma record_settled_Ok now id actor lease settlement override op (st st' : pstore W) v :
  record_settled witness now id actor lease settlement override op st = (st', Ok v) ->
  v.(w_state) = STATE_SETTLED /\ v.(w_settlement) = settlement.
Proof. by intros (events & e & _ & -> & H1 & H2 & H3 & _)%append_Ok; rewrite (project_event_of _ _ _ _ _ H1 H2 H3). Qed.

Lemma record_orphaned_Ok now id actor lease code reference digest override op (st st' : pstore W) v :
  record_orphaned witness now id actor lease code reference digest override op st = (st', Ok v) ->
  v.(w_state) = STATE_ORPHANED /\ v.(w_last_error) = code /\
  v.(w_provider_reference) = reference /\ v.(w_evidence_digest) = digest.
Proof. by intros (events & e & _ & -> & H1 & H2 & H3 & _)%append_Ok; rewrite (project_event_of _ _ _ _ _ H1 H2 H3). Qed.

Lemma record_reconciled_Ok now id actor settlement digest override op (st st' : pstore W) v :
  record_reconciled witness now id actor settlement digest override op st = (st', Ok v) ->
  v.(w_state) = STATE_SETTLED /\ v.(w_settlement) = settlement.
Proof. by intros (events & e & _ & -> & H1 & H2 & H3 & _)%append_Ok; rewrite (project_event_of _ _ _ _ _ H1 H2 H3). Qed.
End Effects.

(** ** Interleaved workers

    Workers claim, settle and record in separate steps, in any interleaving;
    any of them may crash between two steps; attempts are reconciled at any
    time; and both stores may be rewritten by anybody.  The rail is reached
    through the workers only. *)

Section Interleaving.
Context `{Ed : Ed25519} `{Rp : PyRepr} `{U : UnicodeDB}.
Context {W St : Type} (witness : option (HeadWitness W)) (R : PaymentRail St).

Notation world := (world W St).

(** Who runs: the configuration, the identity and the clock override. *)
Record worker := { k_config : PaymentExecutorConfig; k_actor : AgentIdentity; k_override : Z }.

(** What a worker that is not idle has in hand. *)
Inductive local :=
| Claimed (k : worker) (v : PaymentAttemptView)
| Executed (k : worker) (v : PaymentAttemptView) (r : res TradeEvent).

Definition system : Type := world * gmap nat local.

Definition record_outcome (k : worker) (t : turn) (v : PaymentAttemptView) (r : res TradeEvent)
  : pstore W -> pstore W * res PaymentAttemptView :=
  match r with
  | Ok ev => on_success witness k.(k_actor) k.(k_override) t v ev
  | Err e => on_failure witness k.(k_config) k.(k_actor) k.(k_override) t v e
  end.

Definition claim_step (k : worker) (t : turn) (id : string) : world -> world * res (option PaymentAttemptView) :=
  on_attempts (claim witness t.(at_claim) id k.(k_actor) k.(k_config).(lease_ms) k.(k_override)
                 t.(fresh_lease) t.(claim_op)).

(** The label of a step is the claim it grants, if any. *)
Inductive step : system -> option PaymentAttemptView -> system -> Prop :=
| step_claim n k t id w w' L v :
    L !! n = None -> claim_step k t id w = (w', Ok (Some v)) ->
    step (w, L) (Some v) (w', <[n := Claimed k v]> L)
| step_no_claim k t id w w' L r :
    claim_step k t id w = (w', r) -> (forall v, r <> Ok (Some v)) -> step (w, L) None (w', L)
| step_settle n k t i w w' L v r :
    L !! n = Some (Claimed k v) -> intent_from_dict (PDict v.(w_intent)) = Ok i ->
    settle_claimed R k.(k_actor) k.(k_override) t i w = (w', r) ->
    step (w, L) None (w', <[n := Executed k v r]> L)
| step_record n k t w w' L v r r' :
    L !! n = Some (Executed k v r) -> on_attempts (record_outcome k t v r) w = (w', r') ->
    step (w, L) None (w', delete n L)
| step_stop n w L : step (w, L) None (w, delete n L)
| step_reconcile actor id override t w w' L r :
    reconcile_once witness R actor id override t w = (w', r) -> step (w, L) None (w', L)
| step_elsewhere st fs w L : step (w, L) None (Build_world st fs w.(rail), L).

Inductive steps (s0 : system) : list PaymentAttemptView -> system -> Prop :=
| steps_nil : steps s0 [] s0
| steps_snoc tr s1 l s2 :
    steps s0 tr s1 -> step s1 l s2 -> steps s0 (tr ++ match l with Some v => [v] | None => [] end) s2.

(** One call of [run_once] is a path of this system. *)
Lemma on_attempts_rail {A} (m : pstore W -> pstore W * res A) (w w' : world) r :
  on_attempts m w = (w', r) -> w'.(rail) = w.(rail).
Proof. unfold on_attempts. destruct (m _). by intros [= <- _]. Qed.

Lemma on_attempts_pair {A} (m : pstore W -> pstore W * res A) (w : world) :
  on_attempts m w = ((on_attempts m w).1, (on_attempts m w).2).
Proof. by destruct (on_attempts m w). Qed.

Lemma run_once_steps c actor override t id (w w' : world) r :
  run_once witness R c actor override t id w = (w', r) ->
  exists tr L, steps (w, ∅) tr (w', L) /\ (length tr <= 1)%nat.
Proof.
  unfold run_once, execute_claimed. intros H.
  set (k := {| k_config := c; k_actor := actor; k_override := override |}).
  destruct (on_attempts (claim _ _ _ _ _ _ _ _) w) as [w1 rc] eqn:Hc.
  change (claim_step k t id w = (w1, rc)) in Hc.
  destruct rc as [[v|]|e].
  - pose proof (steps_snoc _ _ _ _ _ (steps_nil (w, ∅)) (step_claim 0 k t id w w1 ∅ v eq_refl Hc)) as S1.
    destruct (intent_from_dict (PDict v.(w_intent))) as [i|e] eqn:Hi; [|injection H as <- _; eauto].
    destruct (settle_claimed R actor override t i w1) as [w2 rs] eqn:Hs.
    pose proof (steps_snoc _ _ _ _ _ S1 (step_settle 0 k t i w1 w2 _ v rs (lookup_insert_eq _ _ _) Hi Hs)) as S2.
    pose proof (on_attempts_pair (record_outcome k t v rs) w2) as Hr.
    pose proof (steps_snoc _ _ _ _ _ S2 (step_record 0 k t w2 _ _ v rs _ (lookup_insert_eq _ _ _) Hr)) as S3.
    assert (w' = (on_attempts (record_outcome k t v rs) w2).1) as ->.
    { unfold record_outcome. destruct rs; cbn [k_actor k_override k_config k] in *;
        destruct (on_attempts _ w2); by injection H as <- _. }
    eexists _, _; split; [exact S3|simpl; lia].
  - injection H as <- _. exists [], ∅. split; [|simpl; lia].
    exact (steps_snoc _ _ _ _ _ (steps_nil _) (step_no_claim k t id w w1 ∅ (Ok None) Hc ltac:(done))).
  - injection H as <- _. exists [], ∅. split; [|simpl; lia].
    exact (steps_snoc _ _ _ _ _ (steps_nil _) (step_no_claim k t id w w1 ∅ (Err e) Hc ltac:(done))).
Qed.

(** [settle_trade] touches the rail through its adapter, once. *)
Lemma settle_trade_rail now ov fs id settler (A : SettlementAdapter St) i s fs' s' r :
  settle_trade now ov fs id settler A i s = (fs', s', r) ->
  s' = s \/ s' = (A.(adapter_settle) now i s).1.
Proof.
  unfold settle_trade. destruct (preflight _ _ _ _ _ _) as [[e|]|e]; try (intros [= _ <- _]; by left).
  destruct (adapter_settle A now i s) as [s1 [x|e]]; [|intros [= _ <- _]; by right].
  destruct (record_settlement _ _ _ _ _ _) as [[f ev]|e]; intros [= _ <- _]; by right.
Qed.

(** The lookup-only adapter looks up. *)
Lemma lookup_only_rail now i s :
  (adapter_settle (LookupOnlyX402Adapter R) now i s).1 = s \/
  exists key, settlement_idempotency_key i = Ok key /\
    (adapter_settle (LookupOnlyX402Adapter R) now i s).1 = (rail_lookup R key s).1.
Proof.
  cbn [adapter_settle LookupOnlyX402Adapter]. unfold lookup_settlement.
  destruct (x402_prepare R i) as [[net key]|e] eqn:Hp; [|by left]. right. exists key. split.
  - unfold x402_prepare in Hp. apply res_bind_Ok in Hp as (u & _ & Hp).
    apply res_bind_Ok in Hp as (n & _ & Hp). apply res_bind_Ok in Hp as (k & Hk & Hp). congruence.
  - destruct (rail_lookup R key s) as [s1 [[x|]|]]; [|done..]. by destruct (result_from_receipt _ _ _ _).
Qed.

Lemma reconcile_rail actor id override t (w w' : world) r :
  reconcile_once witness R actor id override t w = (w', r) ->
  w'.(rail) = w.(rail) \/ exists key, w'.(rail) = (rail_lookup R key w.(rail)).1.
Proof.
  unfold reconcile_once. destruct (res_bind _ _) as [[current|[current i]]|e];
    [intros [= <- _]; by left| |intros [= <- _]; by left].
  destruct (settle_trade _ _ _ _ _ _ _ _) as [[fs s] x] eqn:Hs. intros H.
  assert (w'.(rail) = s) as ->.
  { destruct x as [ev|e]; [|by injection H as <- _].
    destruct (event_settlement ev) as [st|e]; [|by injection H as <- _].
    by apply on_attempts_rail in H. }
  apply settle_trade_rail in Hs as [->| ->]; [by left|].
  destruct (lookup_only_rail t.(at_settle) i w.(rail)) as [->|(key & _ & ->)]; [by left|right; eauto].
Qed.

Section Laws.
Context (committed : St -> list (string * rail_value)).
Context `{LR : !RailLaws R committed}.

(** What one step does to the committed payments. *)
Lemma settle_claimed_effect k t i (w w' : world) r :
  settle_claimed R k.(k_actor) k.(k_override) t i w = (w', r) ->
  committed w'.(rail) = committed w.(rail) \/
  exists key x, settlement_idempotency_key i = Ok key /\ dict_get key (committed w.(rail)) = None /\
    committed w'.(rail) = (committed w.(rail) ++ [(key, x)])%list.
Proof.
  unfold settle_claimed. destruct (settle_trade _ _ _ _ _ _ _ _) as [[fs s] x] eqn:Hs.
  intros [= <- _]. cbn [rail]. apply settle_trade_rail in Hs as [->| ->]; [by left|].
  destruct (settle_effect R committed t.(at_settle) i w.(rail)) as [H|(key & y & H)]; [by left|].
  right. by exists key, y.
Qed.

(** Every claim in hand is one that was granted, and authorised. *)
Definition held_ok (tr : list PaymentAttemptView) (L : gmap nat local) : Prop :=
  forall n k v, L !! n = Some (Claimed k v) -> In v tr /\ authorised k.(k_actor) v.

(** Every payment made since the beginning was made under a granted claim. *)
Definition payments_ok (s0 : St) (tr : list PaymentAttemptView) (s : St) : Prop :=
  forall key x, dict_get key (committed s) = Some x -> dict_get key (committed s0) = None ->
  exists actor v, In v tr /\ authorised actor v /\ v.(w_attempt_id) = key.

Definition system_ok (s0 : St) (tr : list PaymentAttemptView) (s : system) : Prop :=
  paid_once committed s.1.(rail) /\
  (forall key x, dict_get key (committed s0) = Some x -> dict_get key (committed s.1.(rail)) = Some x) /\
  held_ok tr s.2 /\ payments_ok s0 tr s.1.(rail).

Lemma held_ok_more tr tr' L : held_ok tr L -> held_ok (tr ++ tr') L.
Proof. intros H n k v Hn. destruct (H n k v Hn). split; [|done]. apply in_or_app. by left. Qed.

Lemma held_ok_delete tr n L : held_ok tr L -> held_ok tr (delete n L).
Proof. intros H m k v [_ Hm]%lookup_delete_Some. by eapply H. Qed.

Lemma held_ok_executed tr n k v r L : held_ok tr L -> held_ok tr (<[n := Executed k v r]> L).
Proof. intros H m k' v' [[_ Hm]|[_ Hm]]%lookup_insert_Some; [done|by eapply H]. Qed.

Lemma system_ok_rail s0 tr (w : world) L (w' : world) L' :
  system_ok s0 tr (w, L) -> committed w'.(rail) = committed w.(rail) -> held_ok tr L' ->
  system_ok s0 tr (w', L').
Proof.
  intros (H1 & H2 & _ & H4) E H. unfold system_ok, payments_ok, paid_once in *. cbn [fst snd] in *.
  by rewrite E.
Qed.

Lemma system_ok_grant s0 tr (w : world) L n k v :
  system_ok s0 tr (w, L) -> authorised k.(k_actor) v -> system_ok s0 (tr ++ [v]) (w, <[n := Claimed k v]> L).
Proof.
  intros (H1 & H2 & H3 & H4) Ha. split_and!; try done; cbn [fst snd] in *.
  - intros m k' v' [[_ [= <- <-]]|[_ Hm]]%lookup_insert_Some.
    + split; [apply in_or_app; right; by left|done].
    + by eapply held_ok_more.
  - intros key x Hx Hn. destruct (H4 key x Hx Hn) as (a & v' & Hin & Hv). exists a, v'.
    split; [apply in_or_app; by left|done].
Qed.

Lemma system_ok_paid s0 tr (w : world) L (w' : world) L' k v i key x :
  system_ok s0 tr (w, L) -> In v tr -> authorised k v ->
  intent_from_dict (PDict v.(w_intent)) = Ok i -> settlement_idempotency_key i = Ok key ->
  dict_get key (committed w.(rail)) = None -> committed w'.(rail) = (committed w.(rail) ++ [(key, x)])%list ->
  held_ok tr L' -> system_ok s0 tr (w', L').
Proof.
  intros (H1 & H2 & _ & H4) Hin Ha Hi Hk Hnone E HL. split_and!; try done; cbn [fst snd] in *.
  - unfold paid_once, dict_keys in *. rewrite E, fmap_app. apply NoDup_app.
    split_and!; [done| |apply NoDup_singleton]. intros y Hy Hy'.
    apply list_elem_of_singleton in Hy' as ->. apply dict_get_None in Hnone. apply Hnone.
    by apply list_elem_of_In.
  - intros y z Hy. rewrite E, dict_get_app. by rewrite (H2 y z Hy).
  - intros y z Hy Hn. rewrite E, dict_get_app in Hy.
    destruct (dict_get y (committed w.(rail))) as [z'|] eqn:Hy'; [by eapply H4|].
    cbn [dict_get] in Hy. destruct (String.eqb_spec y key) as [->|]; [|done].
    exists k, v. split_and!; try done. destruct Ha as (_ & _ & j & Hj & _ & Hkj). congruence.
Qed.

Lemma system_ok_step s0 tr s l s' :
  system_ok s0 tr s -> step s l s' -> system_ok s0 (tr ++ match l with Some v => [v] | None => [] end) s'.
Proof.
  intros H Hs. pose proof H as (_ & _ & HL & _).
  destruct Hs as [n k t id w w' L v _ Hc|k t id w w' L r Hc _|n k t i w w' L v r Hn Hi Hset
    |n k t w w' L v r r' _ Hr|n w L|actor id override t w w' L r Hr|st fs w L];
    rewrite ?app_nil_r; cbn [fst snd] in *.
  - apply (system_ok_grant _ _ w').
    + eapply system_ok_rail; [exact H|by rewrite (on_attempts_rail _ _ _ _ Hc)|done].
    + unfold claim_step, on_attempts in Hc. destruct (claim _ _ _ _ _ _ _ _ _) as [st x] eqn:E.
      injection Hc as _ ->. by apply claim_Ok in E as [].
  - eapply system_ok_rail; [exact H|by rewrite (on_attempts_rail _ _ _ _ Hc)|done].
  - destruct (HL _ _ _ Hn) as [Hin Ha].
    destruct (settle_claimed_effect k t i w w' r Hset) as [E|(key & x & Hk & Hnone & E)].
    + eapply system_ok_rail; [exact H|done|by apply held_ok_executed].
    + eapply system_ok_paid; eauto using held_ok_executed.
  - eapply system_ok_rail; [exact H|by rewrite (on_attempts_rail _ _ _ _ Hr)|by apply held_ok_delete].
  - eapply system_ok_rail; [exact H|done|by apply held_ok_delete].
  - eapply system_ok_rail; [exact H| |done].
    destruct (reconcile_rail _ _ _ _ _ _ _ Hr) as [->|(key & ->)]; [done|apply lookup_frame].
  - by eapply system_ok_rail.
Qed.

Lemma system_ok_init (w : world) : paid_once committed w.(rail) -> system_ok w.(rail) [] (w, ∅).
Proof. intros H. split_and!; try done. intros key x H1 H2. cbn [fst] in *. congruence. Qed.

Lemma system_ok_steps (w : world) tr s :
  paid_once committed w.(rail) -> steps (w, ∅) tr s -> system_ok w.(rail) tr s.
Proof.
  intros H Hs. induction Hs as [|tr s1 l s2 _ IH Hstep]; [by apply system_ok_init|].
  by eapply system_ok_step.
Qed.
End Laws.
End Interleaving.

(** ** The outcome of a turn *)

Lemma retry_delay_range c v d :
  valid_config c -> retry_delay_ms c v = Ok d -> 0 <= d <= c.(retry_max_ms).
Proof.
  intros Hc. pose proof (retry_base_range c v.(w_attempts) Hc) as Hb. destruct Hc as (_ & Hr & _).
  unfold retry_delay_ms. destruct (_ =? 0); [intros [= <-]; lia|].
  intros (body & _ & H)%res_bind_Ok. apply Ok_inj in H. lia.
Qed.

Section Outcome.
Context `{Ed : Ed25519} `{Rp : PyRepr} `{U : UnicodeDB}.
Context {W : Type} (witness : option (HeadWitness W)).
Context (c : PaymentExecutorConfig) (actor : AgentIdentity) (override : Z) (t : turn).
Context (Hc : valid_config c).

(** A failure that cannot have paid was recorded as blocked or as a retry. *)
Definition gave_up_or_retries (claimed : PaymentAttemptView) (e : exn) (permanent : bool)
    (v : PaymentAttemptView) : Prop :=
  v.(w_last_error) = error_code e /\
  (permanent || (c.(max_attempts) <=? claimed.(w_attempts)) = true /\ v.(w_state) = STATE_BLOCKED \/
   permanent || (c.(max_attempts) <=? claimed.(w_attempts)) = false /\ v.(w_state) = STATE_PENDING /\
   clock_ms t.(at_record) override <= v.(w_next_attempt_at_ms)
     <= clock_ms t.(at_record) override + c.(retry_max_ms)).

(** The record a turn leaves, by the result of [settle_trade]. *)
Definition recorded (claimed : PaymentAttemptView) (r : res TradeEvent) (v : PaymentAttemptView) : Prop :=
  match r with
  | Ok ev => v.(w_state) = STATE_SETTLED /\ event_settlement ev = Ok v.(w_settlement)
  | Err (SettlementFailed reason true _ _ as e) =>
    v.(w_state) = STATE_ORPHANED /\ v.(w_last_error) = error_code e /\ EVENT_HASH v.(w_evidence_digest) = true
  | Err (SettlementFailed reason false _ _ as e) =>
    gave_up_or_retries claimed e (str_in reason PERMANENT_SETTLEMENT_FAILURES) v
  | Err e => gave_up_or_retries claimed e false v
  end.

Lemma retry_or_block_Ok claimed e permanent (st st' : pstore W) v :
  retry_or_block witness c actor override t claimed e permanent st = (st', Ok v) ->
  gave_up_or_retries claimed e permanent v.
Proof.
  unfold retry_or_block, gave_up_or_retries. destruct (permanent || _).
  - intros [H1 H2]%block_Ok. by split; [|left].
  - destruct (retry_delay_ms c claimed) as [d|] eqn:Hd; [|done].
    intros (H1 & H2 & H3)%schedule_retry_Ok. split; [done|right]. apply retry_delay_range in Hd; [|done].
    split_and!; [done..|lia|lia].
Qed.

Lemma retry_or_block_recorded claimed e permanent (st st' : pstore W) v :
  retry_or_block witness c actor override t claimed e permanent st = (st', Ok v) ->
  recorded_event witness t.(at_record) claimed.(w_attempt_id) st st' v.
Proof.
  unfold retry_or_block. destruct (permanent || _); [apply append_recorded|].
  destruct (retry_delay_ms c claimed); [|done]. unfold schedule_retry.
  destruct (_ <? 0); [done|]. apply append_recorded.
Qed.

Lemma on_failure_recorded claimed e (st st' : pstore W) v :
  on_failure witness c actor override t claimed e st = (st', Ok v) ->
  recorded_event witness t.(at_record) claimed.(w_attempt_id) st st' v.
Proof.
  unfold on_failure. destruct e; try done; try (cbn [is_OSOrRuntimeError]; apply retry_or_block_recorded).
  destruct payment_may_have_committed; [|apply retry_or_block_recorded].
  destruct (orphan_metadata _ _ _) as [[[code ref] digest]|]; [|done]. apply append_recorded.
Qed.

Lemma on_success_recorded claimed ev (st st' : pstore W) v :
  on_success witness actor override t claimed ev st = (st', Ok v) ->
  recorded_event witness t.(at_record) claimed.(w_attempt_id) st st' v.
Proof. unfold on_success. destruct (event_settlement ev); [|done]. apply append_recorded. Qed.

Lemma orphan_metadata_Ok reason reference digest code reference' digest' :
  orphan_metadata reason reference digest = Ok (code, reference', digest') ->
  code = error_code (SettlementFailed reason true reference digest) /\ EVENT_HASH digest' = true.
Proof.
  unfold orphan_metadata. destruct (EVENT_HASH digest) eqn:E; [by intros [= <- _ <-]|].
  intros (d & Hd & H)%res_bind_Ok. injection H as <- _ <-. split; [done|by eapply digest_is_hash].
Qed.

Lemma on_failure_Ok claimed e (st st' : pstore W) v :
  on_failure witness c actor override t claimed e st = (st', Ok v) -> recorded claimed (Err e) v.
Proof.
  unfold on_failure. destruct e; try done; try (cbn [is_OSOrRuntimeError]; by intros H%retry_or_block_Ok).
  destruct payment_may_have_committed; [|by intros H%retry_or_block_Ok].
  destruct (orphan_metadata _ _ _) as [[[code ref] digest]|] eqn:Ho; [|done].
  apply orphan_metadata_Ok in Ho as [-> Hd]. intros (H1 & H2 & _ & <-)%record_orphaned_Ok. done.
Qed.

Lemma on_success_Ok claimed ev (st st' : pstore W) v :
  on_success witness actor override t claimed ev st = (st', Ok v) -> recorded claimed (Ok ev) v.
Proof.
  unfold on_success. destruct (event_settlement ev) as [settlement|] eqn:He; [|done].
  intros [H1 H2]%record_settled_Ok. split; [done|]. by rewrite H2.
Qed.
End Outcome.

(** ** Properties *)

Section Properties.
Context `{Ed : Ed25519} `{Rp : PyRepr} `{U : UnicodeDB}.
Context {W St : Type} (witness : option (HeadWitness W)) (R : PaymentRail St).

(** C19.  Workers pay under a claim, and once.  Let any number of executors
    claim, settle and record in any interleaving over a rail that keeps the
    protocol's promises, let any of them crash between two steps, let orphans
    be reconciled and both stores be rewritten by anybody: no idempotency key
    is ever paid twice, no payment is changed or lost, and every payment made
    was made under a granted claim, held in flight by the payer, whose attempt
    id is the idempotency key of its intent. *)
Theorem workers_pay_once committed (w : world W St) tr s :
  RailLaws R committed -> paid_once committed w.(rail) -> steps witness R (w, ∅) tr s ->
  paid_once committed s.1.(rail) /\
  (forall key x, dict_get key (committed w.(rail)) = Some x -> dict_get key (committed s.1.(rail)) = Some x) /\
  forall key x, dict_get key (committed s.1.(rail)) = Some x -> dict_get key (committed w.(rail)) = None ->
  exists v i, In v tr /\ v.(w_state) = STATE_INFLIGHT /\ v.(w_attempt_id) = key /\
    intent_from_dict (PDict v.(w_intent)) = Ok i /\ settlement_idempotency_key i = Ok key /\
    i.(payer_did) = PStr v.(w_actor_did).
Proof.
  intros LR Hp Hs. destruct (system_ok_steps witness R committed w tr s Hp Hs) as (H1 & H2 & _ & H4).
  split_and!; [done..|]. intros key x Hx Hn.
  destruct (H4 key x Hx Hn) as (actor & v & Hin & (Ha & _ & i & Hi & Hpay & Hk) & <-). by exists v, i.
Qed.

(** C28.  The outcome of a turn.  When a call of [run_once] returns a view, it
    has added exactly two verified events to the stored attempt [id]: a claim,
    and the outcome of one call of [settle_trade] with the attempt's intent.
    The store then holds the document of that chain, reading the attempt back
    gives the chain or an error, and the returned view is its projection; and
    the outcome is the right one: a settled trade is recorded as settled, with
    the settlement of the trade's own event; a payment that may have happened
    as orphaned, with an evidence digest; a permanent failure, or the last
    attempt, as blocked; any other failure as a retry that is due within the
    configured maximum. *)
Theorem run_once_outcome c actor override t id (w w' : world W St) v :
  valid_config c ->
  run_once witness R c actor override t id w = (w', Ok (Some v)) ->
  exists st events ce oe claimed i fs s r,
    get_events witness w.(attempts) id = Ok (Some events) /\
    claim witness t.(at_claim) id actor c.(lease_ms) override t.(fresh_lease) t.(claim_op) w.(attempts)
      = (st, Ok (Some claimed)) /\
    claimed = project_verified (events ++ [ce]) /\
    intent_from_dict (PDict claimed.(w_intent)) = Ok i /\
    settle_trade t.(at_settle) override w.(trades) (safe_str i.(Settlement.trade_id)) actor
      (X402SettlementAdapter R) i w.(rail) = (fs, s, r) /\
    w'.(trades) = fs /\ w'.(rail) = s /\
    stored id (events ++ [ce; oe]) w'.(attempts) /\
    (forall found, get_events witness w'.(attempts) id = Ok found -> found = Some (events ++ [ce; oe])%list) /\
    verify_payment_attempt t.(at_record) (events ++ [ce; oe]) = Ok (true, "ok") /\
    v = project_verified (events ++ [ce; oe]) /\ v.(w_attempt_id) = id /\
    recorded c override t claimed r v.
Proof.
  intros Hc H. unfold run_once, on_attempts in H.
  destruct (claim _ _ _ _ _ _ _ _ _) as [st [[claimed|]|]] eqn:Hcl; [|done..].
  destruct (execute_claimed _ _ _ _ _ _ _ _) as [w2 x] eqn:Hx. destruct x as [y|]; [|done].
  injection H as <- <-. unfold execute_claimed in Hx.
  destruct (intent_from_dict _) as [i|] eqn:Hi; [|done].
  unfold settle_claimed in Hx. cbn [attempts trades rail] in Hx.
  destruct (settle_trade _ _ _ _ _ _ _ _) as [[fs s] r] eqn:Hs.
  destruct (claim_recorded _ _ _ _ _ _ _ _ _ _ _ Hcl) as (events & ce & Hev & Hcv & Hst & _ & Hid).
  assert (w2.(trades) = fs /\ w2.(rail) = s /\ recorded c override t claimed r y /\
          recorded_event witness t.(at_record) id st w2.(attempts) y) as (E1 & E2 & Hr & Hre).
  { unfold on_attempts in Hx. destruct r as [ev|e].
    - destruct (on_success _ _ _ _ _ _ _) as [st2 z] eqn:Ho. injection Hx as <- ->.
      pose proof (on_success_recorded _ _ _ _ _ _ _ _ _ Ho) as Hre. rewrite Hid in Hre.
      split_and!; try done. by eapply on_success_Ok.
    - destruct (on_failure _ _ _ _ _ _ _ _) as [st2 z] eqn:Ho. injection Hx as <- ->.
      pose proof (on_failure_recorded _ _ _ _ _ _ _ _ _ _ Ho) as Hre. rewrite Hid in Hre.
      split_and!; try done. by eapply on_failure_Ok. }
  destruct Hre as (events' & oe & Hev' & -> & Hst' & Hv & Hid').
  apply (stored_read witness _ _ _ _ Hst) in Hev' as Hev'.
  injection Hev' as ->. rewrite <- !app_assoc in Hst', Hv, Hid', Hr |- *. cbn [app] in *.
  exists st, events, ce, oe, claimed, i, fs, s, r. split_and!; try done. intros found. by apply stored_read.
Qed.

(** Reconciling never pays.  Whatever the rail does, one call of
    [reconcile_once] leaves it alone or looks one key up; and when it returns
    a view the attempt is settled. *)
Theorem reconcile_never_pays actor id override t (w w' : world W St) r :
  reconcile_once witness R actor id override t w = (w', r) ->
  (w'.(rail) = w.(rail) \/ exists key, w'.(rail) = (rail_lookup R key w.(rail)).1) /\
  forall v, r = Ok v -> v.(w_state) = STATE_SETTLED.
Proof.
  intros H. split; [by eapply reconcile_rail|]. intros v ->. revert H. unfold reconcile_once.
  destruct (res_bind _ _) as [[current|[current i]]|e] eqn:E; [| |done].
  - intros [= _ <-]. apply res_bind_Ok in E as (found & _ & E). destruct found as [cur|]; [|done].
    apply res_bind_Ok in E as (did & _ & E). destruct (negb _); [done|].
    destruct (String.eqb_spec cur.(w_state) STATE_SETTLED) as [Es|]; [by injection E as <-|].
    destruct (negb _); [done|]. apply res_bind_Ok in E as (i & _ & E). done.
  - destruct (settle_trade _ _ _ _ _ _ _ _) as [[fs s] [ev|e]]; [|done].
    destruct (event_settlement ev) as [settlement|e]; [|done]. unfold on_attempts.
    destruct (record_reconciled _ _ _ _ _ _ _ _ _) as [st x] eqn:Hr. intros [= _ ->].
    by apply record_reconciled_Ok in Hr as [].
Qed.
End Properties.

(** The cap of the exponent never shows: a configuration bounds the maximum by a
    day, which is less than [2 ^ 30] milliseconds. *)
Lemma retry_base_uncapped c n :
  valid_config c -> retry_base c n = Z.min c.(retry_max_ms) (c.(retry_after_ms) * 2 ^ Z.max (n - 1) 0).
Proof.
  intros (_ & H1 & H2 & _). unfold retry_base. rewrite Z.shiftl_1_l.
  destruct (Z.le_gt_cases (Z.max (n - 1) 0) 30) as [Hn|Hn]; [by rewrite (Z.min_l (Z.max (n - 1) 0)) by lia|].
  rewrite (Z.min_r (Z.max (n - 1) 0)) by lia.
  destruct (Z.eq_dec c.(retry_after_ms) 0) as [Ha|Ha]; [rewrite Ha; lia|].
  pose proof (Z.pow_le_mono_r 2 30 (Z.max (n - 1) 0) ltac:(lia) ltac:(lia)).
  change (2 ^ 30) with 1073741824 in *. nia.
Qed.

(** C39.  The retry schedule: under an accepted configuration the delay of an
    attempt with a well-formed id exists, whatever its number of attempts, and
    is within [0, retry_max_ms]; it is the base
    [min retry_max (retry_after * 2^(attempts-1))] up to a jitter of at most
    half of it, and exactly the base when no jitter is configured. The cap of
    the exponent at 30 never changes the base. *)
Theorem retry_delay_bounds lease after max jitter attempts c v :
  executor_config lease after max jitter attempts = Ok c ->
  ATTEMPT_ID v.(w_attempt_id) = true ->
  exists d, retry_delay_ms c v = Ok d /\ 0 <= d <= c.(retry_max_ms) /\
    let base := Z.min c.(retry_max_ms) (c.(retry_after_ms) * 2 ^ Z.max (v.(w_attempts) - 1) 0) in
    Z.abs (d - base) <= base / 2 /\ (c.(retry_jitter_percent) = 0 -> d = base).
Proof.
  intros Hc%executor_config_valid Hid.
  destruct (retry_delay_spec c v Hc Hid) as (d & Hd & Hr & Hj). exists d. split_and!; [done|lia..|].
  cbv zeta. rewrite <- (retry_base_uncapped c _ Hc).
  pose proof (retry_jitter_range c v.(w_attempts) Hc) as Hj'. split; [lia|].
  intros H0. unfold retry_jitter in Hj at 1. rewrite H0, Z.mul_0_r in Hj. change (0 / 100) with 0 in Hj. lia.
Qed.

(** ** Witnesses *)

#[local] Existing Instance toy_ed25519.
#[local] Existing Instance toy_laws.
#[local] Existing Instance toy_repr.
#[local] Existing Instance toy_unicode.

(** An attempt created at time 10 for a trade verified at time 100. *)
Definition demo_world : world witness_files FakeState :=
  {| attempts := demo_created; trades := files_of demo_verified; rail := sample_state |}.

Definition demo_moment : turn := {|
  at_claim := 120; at_settle := 120; at_record := 130;
  fresh_lease := pay_lease; claim_op := op_b; record_op := str_repeat "c" 32 |}.

Definition demo_turn : world witness_files FakeState * res (option PaymentAttemptView) :=
  run_once demo_witness (FakePaymentRail working_config) default_config (toy_identity "p") 0 demo_moment
    pay_key demo_world.

Definition settled_world : world witness_files FakeState := Eval vm_compute in demo_turn.1.
Definition view_or_created (m : res (option PaymentAttemptView)) : PaymentAttemptView :=
  match m with Ok (Some v) => v | _ => project_verified [] end.
Definition settled_view : PaymentAttemptView := Eval vm_compute in view_or_created demo_turn.2.

Lemma demo_turn_settles :
  run_once demo_witness (FakePaymentRail working_config) default_config (toy_identity "p") 0 demo_moment
    pay_key demo_world = (settled_world, Ok (Some settled_view)).
Proof. vm_compute. reflexivity. Qed.

Lemma workers_pay_once_witness :
  exists tr s, steps demo_witness (FakePaymentRail working_config) (demo_world, ∅) tr s /\
    List.length (fake_committed s.1.(rail)) = 1%nat /\
    paid_once fake_committed s.1.(rail) /\
    (forall key x, dict_get key (fake_committed demo_world.(rail)) = Some x ->
       dict_get key (fake_committed s.1.(rail)) = Some x) /\
    forall key x, dict_get key (fake_committed s.1.(rail)) = Some x ->
      dict_get key (fake_committed demo_world.(rail)) = None ->
    exists v i, In v tr /\ v.(w_state) = STATE_INFLIGHT /\ v.(w_attempt_id) = key /\
      intent_from_dict (PDict v.(w_intent)) = Ok i /\ settlement_idempotency_key i = Ok key /\
      i.(payer_did) = PStr v.(w_actor_did).
Proof.
  destruct (run_once_steps _ _ _ _ _ _ _ _ _ _ demo_turn_settles) as (tr & L & Hs & _).
  exists tr, (settled_world, L). split; [exact Hs|]. split; [reflexivity|].
  refine (workers_pay_once demo_witness (FakePaymentRail working_config) fake_committed demo_world tr
            (settled_world, L) _ _ Hs).
  - apply fake_rail_laws. reflexivity.
  - apply NoDup_nil_2.
Defined.

Lemma run_once_outcome_witness :
  exists st events ce oe claimed i fs s r,
    get_events demo_witness demo_created pay_key = Ok (Some events) /\
    claim demo_witness 120 pay_key (toy_identity "p") 30000 0 pay_lease op_b demo_created
      = (st, Ok (Some claimed)) /\
    claimed = project_verified (events ++ [ce]) /\
    intent_from_dict (PDict claimed.(w_intent)) = Ok i /\
    settle_trade 120 0 (files_of demo_verified) (safe_str i.(Settlement.trade_id)) (toy_identity "p")
      (X402SettlementAdapter (FakePaymentRail working_config)) i sample_state = (fs, s, r) /\
    settled_world.(trades) = fs /\ settled_world.(rail) = s /\
    stored pay_key (events ++ [ce; oe]) settled_world.(attempts) /\
    (forall found, get_events demo_witness settled_world.(attempts) pay_key = Ok found ->
       found = Some (events ++ [ce; oe])%list) /\
    verify_payment_attempt 130 (events ++ [ce; oe]) = Ok (true, "ok") /\
    settled_view = project_verified (events ++ [ce; oe]) /\ settled_view.(w_attempt_id) = pay_key /\
    recorded default_config 0 demo_moment claimed r settled_view.
Proof.
  refine (run_once_outcome demo_witness (FakePaymentRail working_config) default_config (toy_identity "p")
            0 demo_moment pay_key demo_world settled_world settled_view _ demo_turn_settles).
  unfold valid_config. cbn. lia.
Defined.

(** The same attempt, orphaned; the rail holds the receipt. *)
Definition orphaned_world : world witness_files FakeState := Eval vm_compute in
  {| attempts := (record_orphaned demo_witness 120 pay_key (toy_identity "p") pay_lease "rail-timeout" ""
                    ("sha256:" ++ str_repeat "0" 64) 0 (str_repeat "c" 32)
                    (claim demo_witness 110 pay_key (toy_identity "p") 1000 0 pay_lease op_b demo_created).1).1;
     trades := files_of demo_verified; rail := settled_world.(rail) |}.

Definition demo_reconcile : world witness_files FakeState * res PaymentAttemptView :=
  reconcile_once demo_witness (FakePaymentRail working_config) (toy_identity "p") pay_key 0
    {| at_claim := 140; at_settle := 140; at_record := 150; fresh_lease := ""; claim_op := "";
       record_op := str_repeat "d" 32 |} orphaned_world.

Lemma reconcile_never_pays_witness :
  (demo_reconcile.1.(rail) = orphaned_world.(rail) \/
   exists key, demo_reconcile.1.(rail) = (rail_lookup (FakePaymentRail working_config) key orphaned_world.(rail)).1) /\
  forall v, demo_reconcile.2 = Ok v -> v.(w_state) = STATE_SETTLED.
Proof.
  refine (reconcile_never_pays demo_witness (FakePaymentRail working_config) (toy_identity "p") pay_key 0
            _ orphaned_world demo_reconcile.1 demo_reconcile.2 _).
  unfold demo_reconcile. apply surjective_pairing.
Defined.

Lemma retry_delay_bounds_witness :
  exists d, retry_delay_ms default_config (project_verified chain_claimed) = Ok d /\ 0 <= d <= 300000 /\
    let base := Z.min 300000 (5000 * 2 ^ Z.max (1 - 1) 0) in
    Z.abs (d - base) <= base / 2 /\ (20 = 0 -> d = base).
Proof.
  refine (retry_delay_bounds (PInt 30000) (PInt 5000) (PInt 300000) (PInt 20) (PInt 10) default_config
            (project_verified chain_claimed) _ _).
  - reflexivity.
  - vm_compute. reflexivity.
Defined.
