(* ===== verification/Url.v ===== *)
(** * [urllib.parse.urlsplit] and the routes of the outbox

    The parts of a URL that [_normalize_target_url] ([commerce/outbox.py])
    looks at. *)

From Stdlib Require Import ZArith Lia Ascii String.
From stdpp Require Import base list strings.
From S2P Require Import Prelude PyStr PyValue JsonAscii.

Local Open Scope string_scope.
Local Open Scope Z_scope.

(** What differs between versions of Python (the host between brackets) or comes
    from the Unicode database (the NFKC form of a network location that is not
    ASCII). *)
Class NetlocRules := {
  bracketed_ok : string -> bool;
  nfkc_ok : string -> bool
}.

(** ** [urlsplit] of a text without white space and control characters *)

Record SplitResult := {
  scheme : string;
  netloc : list ascii;
  query : list ascii;
  fragment : list ascii
}.

Definition is_alpha (c : ascii) : bool := is_lower c || is_upper c.
Definition scheme_char (c : ascii) : bool :=
  is_alpha c || is_dec c || is_char "+" c || is_char "-" c || is_char "." c.
Definition lower_char (c : ascii) : ascii := if is_upper c then chr (byte_of c + 32) else c.
Definition has_char (c : ascii) (l : list ascii) : bool := existsb (Ascii.eqb c) l.

(** The scheme, and what follows its colon. *)
Definition split_scheme (url : list ascii) : list ascii * list ascii :=
  match split_at_char ":" url with
  | Some (c :: l, rest) =>
    if is_alpha c && forallb scheme_char (c :: l) then (map lower_char (c :: l), rest) else ([], url)
  | _ => ([], url)
  end.

(** [_splitnetloc] *)
Fixpoint split_netloc (l : list ascii) : list ascii * list ascii :=
  match l with
  | [] => ([], [])
  | c :: l' =>
    if is_char "/" c || is_char "?" c || is_char "#" c then ([], l)
    else let '(a, b) := split_netloc l' in (c :: a, b)
  end.

(** [s.split(c, 1)] when [c] occurs: what precedes and what follows *)
Definition cut (c : ascii) (l : list ascii) : list ascii * list ascii :=
  match split_at_char c l with Some (a, b) => (a, b) | None => (l, []) end.

Section Url.
Context `{N : NetlocRules}.

(** [urlsplit]; [None] is a [ValueError] *)
Definition urlsplit (url : string) : option SplitResult :=
  let '(scheme, rest) := split_scheme (chars url) in
  let '(netloc, rest) := match rest with
                         | a :: b :: rest' => if is_char "/" a && is_char "/" b then split_netloc rest' else ([], rest)
                         | _ => ([], rest)
                         end in
  if xorb (has_char "[" netloc) (has_char "]" netloc) then None else
  if has_char "[" netloc && negb (bracketed_ok (of_chars netloc)) then None else
  let '(rest, fragment) := cut "#" rest in
  let '(_, query) := cut "?" rest in
  if negb (forallb (fun c => byte_of c <? 128) netloc) && negb (nfkc_ok (of_chars netloc)) then None else
  Some {| scheme := of_chars scheme; netloc := netloc; query := query; fragment := fragment |}.

(** [SplitResult._hostinfo] of a location without user information: the host and
    the text of the port *)
Definition hostinfo (netloc : list ascii) : list ascii * list ascii :=
  match split_at_char "[" netloc with
  | Some (_, bracketed) => let '(host, rest) := cut "]" bracketed in (host, (cut ":" rest).2)
  | None => cut ":" netloc
  end.

(** [port is not None and not 1 <= port <= 65_535], or the [ValueError] of
    [SplitResult.port] *)
Definition port_ok (port : list ascii) : bool :=
  match port with
  | [] => true
  | _ => forallb is_dec port && let n := dec_value (of_chars port) in (1 <=? n) && (n <=? 65535)
  end.

Definition is_nil (l : list ascii) : bool := match l with [] => true | _ => false end.

(** [_normalize_target_url] *)
Definition normalize_target_url (value : pyval) : res string :=
  match value with
  | PStr s =>
    if String.eqb s "" || (2048 <? py_len s) ||
       existsb (fun c => cp_isspace c || (c <? 0x20) || (c =? 0x7F)) (code_points s)
    then Err CommerceEnvelopeRejected else
    match urlsplit s with
    | None => Err CommerceEnvelopeRejected
    | Some parsed =>
      let '(host, port) := hostinfo parsed.(netloc) in
      if (String.eqb parsed.(scheme) "http" || String.eqb parsed.(scheme) "https") &&
         negb (is_nil parsed.(netloc)) && negb (has_char "@" parsed.(netloc)) && negb (is_nil host) &&
         is_nil parsed.(query) && is_nil parsed.(fragment) && port_ok port
      then Ok (rstrip_char "/" s) else Err CommerceEnvelopeRejected
    end
  | _ => Err CommerceEnvelopeRejected
  end.
End Url.

(** ** Normal forms *)

Lemma drop_while_char_spec c l : exists k, l = (repeat c k ++ drop_while_char c l)%list.
Proof.
  induction l as [|d l [k IH]]; [by exists O|]. cbn [drop_while_char].
  destruct (Ascii.eqb_spec c d) as [->|]; [|by exists O]. exists (S k). cbn [repeat app]. by rewrite <- IH.
Qed.

Lemma drop_while_char_idemp c l : drop_while_char c (drop_while_char c l) = drop_while_char c l.
Proof.
  induction l as [|d l IH]; [done|]. cbn [drop_while_char].
  destruct (Ascii.eqb c d) eqn:E; [done|]. cbn [drop_while_char]. by rewrite E.
Qed.

Lemma rev_repeat_char (c : ascii) k : rev (repeat c k) = repeat c k.
Proof. induction k as [|k IH]; [done|]. cbn [repeat rev]. rewrite IH. symmetry. apply repeat_cons. Qed.

(** [rstrip] leaves a prefix, and stripping again changes nothing. *)
Lemma rstrip_char_spec c s : exists k, chars s = (chars (rstrip_char c s) ++ repeat c k)%list.
Proof.
  unfold rstrip_char. rewrite chars_of_chars.
  destruct (drop_while_char_spec c (rev (chars s))) as [k E]. exists k.
  rewrite <- (rev_involutive (chars s)) at 1. rewrite E at 1. by rewrite rev_app_distr, rev_repeat_char.
Qed.

Lemma rstrip_char_idemp c s : rstrip_char c (rstrip_char c s) = rstrip_char c s.
Proof.
  unfold rstrip_char at 1. f_equal. unfold rstrip_char.
  by rewrite chars_of_chars, rev_involutive, drop_while_char_idemp.
Qed.

Lemma split_at_char_first c l k a b :
  split_at_char c l = Some (a, b) -> split_at_char c (l ++ k)%list = Some (a, (b ++ k)%list).
Proof.
  revert a; induction l as [|d l IH]; [done|]. intros a. cbn [split_at_char app].
  destruct (Ascii.eqb c d); [by intros [= <- <-]|].
  destruct (split_at_char c l) as [[a' b']|] eqn:E; [|done]. intros [= <- <-].
  by rewrite (IH a').
Qed.

Lemma split_at_char_split c l a b : split_at_char c l = Some (a, b) -> l = (a ++ c :: b)%list.
Proof.
  revert a; induction l as [|d l IH]; [done|]. intros a. cbn [split_at_char].
  destruct (Ascii.eqb_spec c d) as [->|]; [by intros [= <- <-]|].
  destruct (split_at_char c l) as [[a' b']|] eqn:E; [|done]. intros [= <- <-].
  by rewrite (IH a').
Qed.

Lemma split_at_char_None_app c l k :
  split_at_char c (l ++ k)%list = None -> split_at_char c l = None.
Proof.
  induction l as [|d l IH]; [done|]. cbn [split_at_char app].
  destruct (Ascii.eqb c d); [done|]. destruct (split_at_char c (l ++ k)) as [[]|]; [done|].
  intros _. by rewrite IH.
Qed.

(** Cutting at [c] a text that ends in [k] other characters. *)
Lemma cut_repeat c d l k : c <> d -> (cut c (l ++ repeat d k)%list).2 = [] ->
  (cut c l).2 = [] /\ (cut c (l ++ repeat d k)%list).1 = ((cut c l).1 ++ repeat d k)%list.
Proof.
  intros Hcd. unfold cut. destruct (split_at_char c l) as [[a b]|] eqn:E.
  - rewrite (split_at_char_first _ _ _ _ _ E). cbn [fst snd]. intros H. apply app_eq_nil in H as [-> Hk].
    split; [done|]. by rewrite Hk, app_nil_r.
  - destruct (split_at_char c (l ++ repeat d k)) as [[a b]|] eqn:F; [|done].
    exfalso. revert a F. clear -E Hcd. induction l as [|x l IH]; intros a F.
    + cbn [app] in F. apply split_at_char_split in F.
      assert (In c (repeat d k)) as H%repeat_spec by (rewrite F; apply in_elt). congruence.
    + cbn [split_at_char app] in *. destruct (Ascii.eqb c x); [done|].
      destruct (split_at_char c l) as [[]|]; [done|].
      destruct (split_at_char c (l ++ repeat d k)) as [[a' b']|] eqn:G; [|done].
      injection F as <- <-. by apply (IH eq_refl a').
Qed.

(** The slashes at the end of a text are characters of their own. *)
Lemma utf8_ok_slashes n l k :
  (List.length l <= n)%nat -> utf8_ok (l ++ repeat 47 k) = true ->
  decode_points (l ++ repeat 47 k) = (decode_points l ++ repeat 47 k)%list.
Proof.
  revert l; induction n as [|n IH]; intros l Hn H.
  { destruct l; [|simpl in Hn; lia]. cbn [app decode_points]. clear.
    induction k as [|k IH]; [done|]. cbn [repeat decode_points]. cbn. by rewrite IH. }
  destruct l as [|x b1]; [apply (IH []); simpl in *; [lia|done]|]. cbn [List.length] in Hn.
  cbn [app utf8_ok decode_points] in *.
  destruct (x <? 0x80); [rewrite IH by (lia || done); done|]. destruct (x <? 0xC2); [done|].
  destruct b1 as [|y b2].
  { cbn [app] in *. destruct k as [|k]; cbn [repeat] in *; [by repeat case_match|].
    destruct (x <? 0xE0); [done|]. destruct (x <? 0xF0); [destruct k; cbn [repeat] in H; [done|];
      by rewrite andb_false_r in H|]. destruct (x <? 0xF5); [|done].
    destruct k as [|[|k]]; cbn [repeat] in H; try done. by rewrite andb_false_r in H. }
  cbn [app List.length] in *. destruct (x <? 0xE0).
  { apply andb_true_iff in H as [_ H]. by rewrite IH by (lia || done). }
  destruct b2 as [|z b3].
  { cbn [app] in *. destruct k as [|k]; cbn [repeat] in *; [by repeat case_match|].
    destruct (x <? 0xF0); [by rewrite andb_false_r in H|]. destruct (x <? 0xF5); [|done].
    destruct k as [|k]; cbn [repeat] in H; [done|]. by rewrite andb_false_r in H. }
  cbn [app List.length] in *. destruct (x <? 0xF0).
  { apply andb_true_iff in H as [_ H]. by rewrite IH by (lia || done). }
  destruct b3 as [|w b4].
  { cbn [app] in *. destruct k as [|k]; cbn [repeat] in *; [by repeat case_match|].
    destruct (x <? 0xF5); [|done]. by rewrite andb_false_r in H. }
  cbn [app List.length] in *. destruct (x <? 0xF5); [|done].
  apply andb_true_iff in H as [_ H]. by rewrite IH by (lia || done).
Qed.

Lemma split_netloc_slashes l k :
  split_netloc (l ++ repeat "/"%char k)%list = ((split_netloc l).1, ((split_netloc l).2 ++ repeat "/"%char k)%list).
Proof.
  induction l as [|c l IH]; [by destruct k|]. cbn [app split_netloc].
  destruct (is_char "/" c || is_char "?" c || is_char "#" c); [done|].
  rewrite IH. by destruct (split_netloc l).
Qed.

Lemma split_scheme_slashes l k scheme rest :
  split_scheme (l ++ repeat "/"%char k)%list = (scheme, rest) -> scheme <> [] ->
  exists rest', rest = (rest' ++ repeat "/"%char k)%list /\ split_scheme l = (scheme, rest') /\ l <> [].
Proof.
  unfold split_scheme. intros E Hs. destruct (split_at_char ":" l) as [[a b]|] eqn:Ea.
  - rewrite (split_at_char_first _ _ _ _ _ Ea) in E. exists b. destruct a as [|c a]; [by injection E as <- _|].
    destruct (is_alpha c && forallb scheme_char (c :: a)); [|by injection E as <- _].
    injection E as <- <-. by destruct l.
  - exfalso. destruct (split_at_char ":" (l ++ repeat "/"%char k)) as [[a b]|] eqn:F; [|by injection E as <- _].
    clear E Hs scheme rest. revert a F Ea. induction l as [|x l IH]; intros a F Ea.
    + cbn [app] in F. apply split_at_char_split in F.
      assert (In ":"%char (repeat "/"%char k)) as H%repeat_spec by (rewrite F; apply in_elt). done.
    + cbn [split_at_char app] in *. destruct (Ascii.eqb ":" x); [done|].
      destruct (split_at_char ":" l) as [[]|]; [done|].
      destruct (split_at_char ":" (l ++ repeat "/"%char k)) as [[a' b']|]; [|done].
      injection F as _ <-. by apply (IH a').
Qed.

(** What follows the scheme: a network location, and the rest. *)
Definition split_location (rest : list ascii) : list ascii * list ascii :=
  match rest with
  | a :: b :: rest' => if is_char "/" a && is_char "/" b then split_netloc rest' else ([], rest)
  | _ => ([], rest)
  end.

Lemma split_location_slashes rest k :
  (split_location (rest ++ repeat "/"%char k)%list).1 <> [] ->
  split_location (rest ++ repeat "/"%char k)%list =
  ((split_location rest).1, ((split_location rest).2 ++ repeat "/"%char k)%list).
Proof.
  assert (forall j, (split_netloc (repeat "/"%char j)).1 = []) as Hs by (by intros []).
  destruct rest as [|a [|b rest]]; cbn [app split_location].
  - destruct k as [|[|k]]; cbn [repeat split_location]; try done. intros H. by destruct H, k.
  - destruct k as [|k]; cbn [repeat]; [done|]. destruct (is_char "/" a && is_char "/" "/"); [|done].
    intros H. by destruct (H (Hs k)).
  - destruct (is_char "/" a && is_char "/" b); [|done]. intros _. apply split_netloc_slashes.
Qed.

Lemma slash_bytes k : byte_of <$> repeat "/"%char k = repeat 47 k.
Proof. induction k as [|k IH]; [done|]. cbn [repeat fmap list_fmap]. f_equal. exact IH. Qed.

Section NormalUrl.
Context `{N : NetlocRules}.

Lemma urlsplit_slashes s t k p :
  chars s = (chars t ++ repeat "/"%char k)%list -> urlsplit s = Some p ->
  p.(scheme) <> "" -> p.(netloc) <> [] -> p.(query) = [] -> p.(fragment) = [] ->
  urlsplit t = Some p /\ t <> "".
Proof.
  intros Es H Hs Hn Hq Hf. unfold urlsplit in *. rewrite Es in H.
  destruct (split_scheme (chars t ++ _)) as [sch rest] eqn:E1.
  change (match rest with a :: b :: rest' => _ | _ => _ end) with (split_location rest) in H.
  destruct (split_location rest) as [nl rest2] eqn:E2.
  destruct (xorb (has_char "[" nl) (has_char "]" nl)) eqn:B1; [done|].
  destruct (has_char "[" nl && negb (bracketed_ok (of_chars nl))) eqn:B2; [done|].
  destruct (cut "#" rest2) as [rest3 fr] eqn:E3. destruct (cut "?" rest3) as [path q] eqn:E4.
  destruct (negb (forallb (fun c => byte_of c <? 128) nl) && negb (nfkc_ok (of_chars nl))) eqn:B3; [done|].
  injection H as <-. cbn [scheme netloc query fragment] in *. subst q fr.
  destruct (split_scheme_slashes _ _ _ _ E1) as (rest' & -> & E1' & Ht); [by intros ->|].
  rewrite E1'. change (match rest' with a :: b :: r => _ | _ => _ end) with (split_location rest').
  pose proof (split_location_slashes rest' k) as E2'. rewrite E2 in E2'. specialize (E2' Hn).
  injection E2' as -> ->. destruct (split_location rest') as [nl r]. cbn [fst snd] in *. rewrite B1, B2.
  destruct (cut_repeat "#" "/" r k) as [F1 F2]; [done|by rewrite E3|]. rewrite E3 in F2. cbn [fst] in F2. subst rest3.
  destruct (cut "#" r) as [r1 f1]. cbn [fst snd] in *. subst f1.
  destruct (cut_repeat "?" "/" r1 k) as [F3 _]; [done|by rewrite E4|]. destruct (cut "?" r1) as [p1 q1].
  cbn [fst snd] in *. subst q1. rewrite B3. split; [done|]. by intros ->.
Qed.

(** A normal form is its own normal form. *)
Lemma normalize_idempotent v u :
  (forall s, v = PStr s -> is_text s = true) -> normalize_target_url v = Ok u -> normalize_target_url (PStr u) = Ok u.
Proof.
  intros Ht H. destruct v as [| | | |s| | |]; try done. specialize (Ht s eq_refl). unfold normalize_target_url in *.
  destruct (String.eqb s "" || _ || _) eqn:G; [done|]. apply orb_false_iff in G as [[_ G2]%orb_false_iff G3].
  destruct (urlsplit s) as [p|] eqn:Ep; [|done]. destruct (hostinfo (netloc p)) as [host port] eqn:Eh.
  destruct (_ && port_ok port) eqn:C; [|done]. injection H as <-.
  destruct (rstrip_char_spec "/" s) as [k Ek].
  assert (code_points s = (code_points (rstrip_char "/" s) ++ repeat 47 k)%list) as Ec.
  { unfold code_points, bytes_of. rewrite Ek, fmap_app.
    rewrite slash_bytes. apply (utf8_ok_slashes (List.length (byte_of <$> chars (rstrip_char "/" s)))); [lia|].
    unfold is_text, bytes_of in Ht. by rewrite Ek, fmap_app, slash_bytes in Ht. }
  rewrite Ec, existsb_app in G3. apply orb_false_iff in G3 as [G3 _].
  assert ((2048 <? py_len (rstrip_char "/" s)) = false) as G2'.
  { apply Z.ltb_ge in G2. apply Z.ltb_ge. unfold py_len in *. rewrite Ec, length_app in G2. lia. }
  pose proof C as C'. rewrite !andb_true_iff in C'. destruct C' as ((((((C1 & C2) & _) & _) & C5) & C6) & _).
  destruct (urlsplit_slashes s (rstrip_char "/" s) k p Ek Ep) as [Ep' Hne].
  { intros E0. by rewrite E0 in C1. }
  { intros E0. by rewrite E0 in C2. } { clear -C5. by destruct (query p). } { clear -C6. by destruct (fragment p). }
  rewrite (proj2 (String.eqb_neq _ _) Hne), G2', G3, Ep', Eh, C. cbn [orb]. by rewrite rstrip_char_idemp.
Qed.

Lemma normalize_is_str v u : normalize_target_url v = Ok u -> exists s, v = PStr s.
Proof. destruct v; try done. eauto. Qed.
End NormalUrl.
