(* ===== verification/Envelope.v ===== *)
(** * Commerce envelopes and acknowledgements ([nth_dao/commerce/outbox.py])

    The messages by which two nodes replicate orders and trades: a signed
    envelope named by the digest of what it says, and the receipt its target
    signs.  The inbox keeps one receipt per envelope. *)

From Stdlib Require Import ZArith Lia Ascii String.
From stdpp Require Import base list strings gmap.
From S2P Require Import Prelude PyStr PyValue CanonicalJson B64u DidKey Sha256 Identity Store Settlement.

Local Open Scope string_scope.
Local Open Scope Z_scope.

Definition ENVELOPE_KIND : string := "nth-commerce-sync-v1".
Definition ACK_KIND : string := "nth-commerce-ack-v1".
Definition MAX_PAYLOAD_BYTES : Z := 512 * 1024.

(** [isinstance(v, int) and not isinstance(v, bool) and v > 0] *)
Definition positive_int (v : pyval) : bool := match as_int v with Some z => 0 <? z | None => false end.

(** [_is_digest] *)
Definition is_digest (v : pyval) : bool :=
  match v with
  | PStr s =>
    (py_len s =? 71) && startswith "sha256:" s &&
    match fromhex (str_drop 7 s) with Ok _ => true | Err _ => false end
  | _ => false
  end.

(** [trade_chain_head] *)
Definition trade_chain_head (events : pyval) : res string :=
  match events with
  | PList l => match last l with
               | Some (PDict d) => digest_of (PDict d)
               | _ => Err CommerceEnvelopeRejected
               end
  | _ => Err CommerceEnvelopeRejected
  end.

(** ** The messages *)

(** [CommerceEnvelope]; the fields are what the document holds until
    [validate_envelope] has checked them. *)
Record CommerceEnvelope := {
  env_message_id : pyval;
  env_source_did : pyval;
  env_target_did : pyval;
  env_payload : pyval;
  env_created_at_ms : pyval;
  env_kind : pyval;
  env_signature : pyval
}.

Definition ENVELOPE_FIELDS : list string :=
  ["message_id"; "source_did"; "target_did"; "payload"; "created_at_ms"; "kind"; "signature"].

(** [CommerceEnvelope.to_dict] *)
Definition envelope_to_dict (e : CommerceEnvelope) : list (string * pyval) :=
  [("message_id", e.(env_message_id)); ("source_did", e.(env_source_did)); ("target_did", e.(env_target_did));
   ("payload", e.(env_payload)); ("created_at_ms", e.(env_created_at_ms)); ("kind", e.(env_kind));
   ("signature", e.(env_signature))].

(** [CommerceEnvelope.signing_body] *)
Definition envelope_signing_body (e : CommerceEnvelope) : pyval := signing_body "signature" (envelope_to_dict e).

(** [CommerceEnvelope.from_dict] *)
Definition envelope_from_dict (value : pyval) : res CommerceEnvelope :=
  match value with
  | PDict d =>
    if negb (same_keys ENVELOPE_FIELDS d) then Err CommerceEnvelopeRejected else
    let g k := get_or_none k d in
    Ok {| env_message_id := g "message_id"; env_source_did := g "source_did"; env_target_did := g "target_did";
          env_payload := g "payload"; env_created_at_ms := g "created_at_ms"; env_kind := g "kind";
          env_signature := g "signature" |}
  | _ => Err CommerceEnvelopeRejected
  end.

(** [_message_id] *)
Definition message_id (source_did target_did payload : pyval) : res string :=
  digest_of (PDict [("source_did", source_did); ("target_did", target_did); ("payload", payload)]).

(** [CommerceAck] *)
Record CommerceAck := {
  ack_message_id : pyval;
  ack_order_id : pyval;
  ack_chain_head : pyval;
  ack_receiver_did : pyval;
  ack_received_at_ms : pyval;
  ack_kind : pyval;
  ack_signature : pyval
}.

Definition ACK_FIELDS : list string :=
  ["message_id"; "order_id"; "received_chain_head"; "receiver_did"; "received_at_ms"; "kind"; "signature"].

(** [CommerceAck.to_dict] *)
Definition ack_to_dict (a : CommerceAck) : list (string * pyval) :=
  [("message_id", a.(ack_message_id)); ("order_id", a.(ack_order_id)); ("received_chain_head", a.(ack_chain_head));
   ("receiver_did", a.(ack_receiver_did)); ("received_at_ms", a.(ack_received_at_ms)); ("kind", a.(ack_kind));
   ("signature", a.(ack_signature))].

(** [CommerceAck.signing_body] *)
Definition ack_signing_body (a : CommerceAck) : pyval := signing_body "signature" (ack_to_dict a).

(** [CommerceAck.from_dict] *)
Definition ack_from_dict (value : pyval) : res CommerceAck :=
  match value with
  | PDict d =>
    if negb (same_keys ACK_FIELDS d) then Err CommerceEnvelopeRejected else
    let g k := get_or_none k d in
    Ok {| ack_message_id := g "message_id"; ack_order_id := g "order_id"; ack_chain_head := g "received_chain_head";
          ack_receiver_did := g "receiver_did"; ack_received_at_ms := g "received_at_ms"; ack_kind := g "kind";
          ack_signature := g "signature" |}
  | _ => Err CommerceEnvelopeRejected
  end.

Section Messages.
Context `{Ed : Ed25519}.

(** The signature checks that envelopes and acknowledgements share.  A value
    that is not a [str] either is empty or makes [b64u_decode] raise a
    [TypeError]. *)
Definition signature_valid (did : pyval) (sig body : pyval) : res bool :=
  match did, sig with
  | PStr did, PStr s =>
    try_except
      (let* raw := b64u_decode s in
       if negb (bytes_len raw =? 64) || negb (String.eqb (b64u_encode raw) s) then Ok false else
       let* key_hex := decode_ed25519_did_key_hex did in
       let* pubkey := fromhex key_hex in
       let* bytes := canonical_json body in
       Ok (ed_verify pubkey bytes raw))
      is_TypeOrValueError (fun _ => Ok false)
  | _, _ => Ok false
  end.

(** The end of [_validate_envelope] and [_validate_ack]. *)
Definition check_signature (did sig body : pyval) (reason : string) : res verdict :=
  let* _ := check nacl_available "crypto unavailable" in
  let* good := signature_valid did sig body in
  let* _ := check good reason in
  Ok (true, "ok").

(** [_validate_envelope] *)
Definition validate_envelope (e : CommerceEnvelope) (require_signature : bool) : res verdict :=
  run_body (
    let* _ := check (py_eqb e.(env_kind) (PStr ENVELOPE_KIND)) "wrong envelope kind" in
    let* _ := check (is_did_key e.(env_source_did) && is_did_key e.(env_target_did)) "invalid envelope DID" in
    let* _ := check (is_dict e.(env_payload)) "payload must be an object" in
    let* _ := check (positive_int e.(env_created_at_ms)) "invalid envelope timestamp" in
    let* expected_id := try_except
      (let* encoded := canonical_json e.(env_payload) in
       let* _ := check (bytes_len encoded <=? MAX_PAYLOAD_BYTES) "envelope payload too large" in
       message_id e.(env_source_did) e.(env_target_did) e.(env_payload))
      is_TypeOrValueError (fun _ => reject "payload is not canonical JSON") in
    let* _ := check (py_eqb e.(env_message_id) (PStr expected_id)) "message id does not match envelope content" in
    if negb require_signature then Ok (true, "ok") else
    check_signature e.(env_source_did) e.(env_signature) (envelope_signing_body e) "envelope signature invalid").

(** [verify_envelope] *)
Definition verify_envelope (e : CommerceEnvelope) : res verdict := validate_envelope e true.

Definition set_env_signature (e : CommerceEnvelope) (s : pyval) : CommerceEnvelope :=
  {| env_message_id := e.(env_message_id); env_source_did := e.(env_source_did); env_target_did := e.(env_target_did);
     env_payload := e.(env_payload); env_created_at_ms := e.(env_created_at_ms); env_kind := e.(env_kind);
     env_signature := s |}.

(** [sign_envelope] *)
Definition sign_envelope (identity : AgentIdentity) (target_did payload created_at_ms : pyval) : res CommerceEnvelope :=
  let* source_did := as_did identity in
  let* id := message_id (PStr source_did) target_did payload in
  let e := {| env_message_id := PStr id; env_source_did := PStr source_did; env_target_did := target_did;
              env_payload := payload; env_created_at_ms := created_at_ms; env_kind := PStr ENVELOPE_KIND;
              env_signature := PStr "" |} in
  let* (ok, _) := validate_envelope e false in
  if negb ok then Err CommerceEnvelopeRejected else
  let* body := canonical_json (envelope_signing_body e) in
  let* raw := sign identity body in
  Ok (set_env_signature e (PStr (b64u_encode raw))).

(** A [str] of one to 160 characters. *)
Definition order_id_ok (v : pyval) : bool :=
  match v with PStr s => (1 <=? py_len s) && (py_len s <=? 160) | _ => false end.

(** [_validate_ack] *)
Definition validate_ack (a : CommerceAck) (require_signature : bool) : res verdict :=
  run_body (
    let* _ := check (py_eqb a.(ack_kind) (PStr ACK_KIND)) "wrong ack kind" in
    let* _ := check (is_digest a.(ack_message_id) && is_digest a.(ack_chain_head)) "invalid ack digest" in
    let* _ := check (order_id_ok a.(ack_order_id)) "invalid ack order id" in
    let* _ := check (is_did_key a.(ack_receiver_did)) "invalid ack receiver DID" in
    let* _ := check (positive_int a.(ack_received_at_ms)) "invalid ack timestamp" in
    if negb require_signature then Ok (true, "ok") else
    check_signature a.(ack_receiver_did) a.(ack_signature) (ack_signing_body a) "ack signature invalid").

(** [verify_ack] *)
Definition verify_ack (a : CommerceAck) : res verdict := validate_ack a true.

Definition set_ack_signature (a : CommerceAck) (s : pyval) : CommerceAck :=
  {| ack_message_id := a.(ack_message_id); ack_order_id := a.(ack_order_id); ack_chain_head := a.(ack_chain_head);
     ack_receiver_did := a.(ack_receiver_did); ack_received_at_ms := a.(ack_received_at_ms);
     ack_kind := a.(ack_kind); ack_signature := s |}.

(** [sign_ack] *)
Definition sign_ack (identity : AgentIdentity) (message_id order_id chain_head received_at_ms : pyval)
  : res CommerceAck :=
  let* receiver := as_did identity in
  let a := {| ack_message_id := message_id; ack_order_id := order_id; ack_chain_head := chain_head;
              ack_receiver_did := PStr receiver; ack_received_at_ms := received_at_ms; ack_kind := PStr ACK_KIND;
              ack_signature := PStr "" |} in
  let* (ok, _) := validate_ack a false in
  if negb ok then Err CommerceEnvelopeRejected else
  let* body := canonical_json (ack_signing_body a) in
  let* raw := sign identity body in
  Ok (set_ack_signature a (PStr (b64u_encode raw))).

(** ** The inbox *)

Definition INBOX_FIELDS : list string := ["source_did"; "target_did"; "ack"].

(** [asdict(InboxRecord(...))] *)
Definition inbox_record (e : CommerceEnvelope) (a : CommerceAck) : pyval :=
  PDict [("source_did", e.(env_source_did)); ("target_did", e.(env_target_did)); ("ack", PDict (ack_to_dict a))].

(** [CommerceInbox._path] *)
Definition inbox_path (id : pyval) : res string :=
  match id with
  | PStr s => if is_digest id then Ok (str_drop 7 s ++ ".json") else Err CommerceEnvelopeRejected
  | _ => Err CommerceEnvelopeRejected
  end.

(** [CommerceInbox.get_ack] *)
Definition get_ack (e : CommerceEnvelope) (order_id chain_head : pyval) (fs : files) : res (option CommerceAck) :=
  let* path := inbox_path e.(env_message_id) in
  match safe_load_json fs path with
  | None => Ok None
  | Some (PDict value) =>
    if negb (same_keys INBOX_FIELDS value) then Err CommerceEnvelopeRejected else
    let* ack := ack_from_dict (get_or_none "ack" value) in
    let* (ok, _) := verify_ack ack in
    if negb ok then Err CommerceEnvelopeRejected else
    if py_eqb (get_or_none "source_did" value) e.(env_source_did) &&
       py_eqb (get_or_none "target_did" value) e.(env_target_did) &&
       py_eqb ack.(ack_message_id) e.(env_message_id) && py_eqb ack.(ack_order_id) order_id &&
       py_eqb ack.(ack_chain_head) chain_head && py_eqb ack.(ack_receiver_did) e.(env_target_did)
    then Ok (Some ack) else Err CommerceEnvelopeRejected
  | Some _ => Err CommerceEnvelopeRejected
  end.

(** [CommerceInbox.acknowledge] *)
Definition acknowledge (e : CommerceEnvelope) (order_id chain_head : pyval) (identity : AgentIdentity)
    (received_at_ms : pyval) (fs : files) : files * res (CommerceAck * bool) :=
  match (let* path := inbox_path e.(env_message_id) in
         let* existing := get_ack e order_id chain_head fs in
         match existing with
         | Some ack => Ok (inl ack)
         | None =>
           let* did := as_did identity in
           if negb (py_eqb (PStr did) e.(env_target_did)) then Err CommerceEnvelopeRejected else
           let* ack := sign_ack identity e.(env_message_id) order_id chain_head received_at_ms in
           Ok (inr (path, ack))
         end) with
  | Err x => (fs, Err x)
  | Ok (inl ack) => (fs, Ok (ack, false))
  | Ok (inr (path, ack)) => (atomic_write_json fs path (inbox_record e ack), Ok (ack, true))
  end.
End Messages.
