(* ===== verification/EnvelopeSpec.v ===== *)
(** * What envelopes and acknowledgements promise

    An envelope that is signed verifies, and names its content; the inbox signs
    one acknowledgement per envelope and returns that one ever after. *)

From Stdlib Require Import ZArith Lia Ascii String.
From stdpp Require Import base list strings gmap.
From S2P Require Import Prelude Digits PyStr PyValue Json JsonAscii CanonicalJson B64u DidKey Sha256 Identity Store Settlement Envelope.

Local Open Scope string_scope.
Local Open Scope Z_scope.

#[local] Arguments digest_of : simpl never.
#[local] Arguments is_digest : simpl never.
#[local] Arguments same_keys : simpl never.

Lemma ascii7_Forall s : char_all ascii7 s = true -> Forall (fun z => 0 <= z < 128) (bytes_of s).
Proof.
  unfold char_all, bytes_of. rewrite Forall_fmap, forallb_Forall. intros H.
  eapply Forall_impl; [exact H|]. intros c Hc. unfold ascii7 in Hc. pose proof (byte_of_range c). simpl. lia.
Qed.

Lemma digest_is_digest d h : digest_of d = Ok h -> is_digest (PStr h) = true.
Proof.
  unfold digest_of. intros (b & _ & H)%res_bind_Ok. apply Ok_inj in H as <-. unfold is_digest.
  pose proof (sha256_hex_digest b) as Hd. unfold hex_digest in Hd. apply andb_true_iff in Hd as [Hl%Nat.eqb_eq Ha].
  assert (char_all ascii7 ("sha256:" ++ sha256_hex b) = true) as H7.
  { rewrite char_all_app. apply andb_true_iff. split; [done|]. by apply (hex_ascii7 64), sha256_hex_digest. }
  rewrite py_len_ascii by by apply ascii7_Forall. unfold bytes_len. rewrite str_length_app, Hl, prefix_app.
  change 7%nat with (String.length "sha256:"). by rewrite str_drop_app, fromhex_sha256.
Qed.

Lemma did_text_ok d : is_did_key (PStr d) = true -> text_ok d = true.
Proof.
  unfold is_did_key. destruct (startswith _ d); [|done]. cbn [negb].
  destruct (decode_ed25519_did_key d) as [pk|] eqn:E; [|done]. intros _.
  apply text_ok_ascii. eapply did_ascii. by apply decode_did_inv in E as [_ ?].
Qed.

Lemma digest_text_ok v h : digest_of v = Ok h -> text_ok h = true.
Proof.
  unfold digest_of. intros (b & _ & H)%res_bind_Ok. apply Ok_inj in H as <-. apply text_ok_ascii, ascii7_Forall.
  rewrite char_all_app. apply andb_true_iff. split; [done|]. by apply (hex_ascii7 64), sha256_hex_digest.
Qed.

Section Signatures.
Context `{Ed : Ed25519}.

(** The holder of the key behind [did] signed [body]. *)
Definition sealed (did sig body : pyval) : Prop :=
  exists d s raw pk bytes, did = PStr d /\ sig = PStr s /\ b64u_decode s = Ok raw /\
    decode_ed25519_did_key d = Ok pk /\ canonical_json body = Ok bytes /\ ed_verify pk bytes raw = true.

Lemma signature_valid_sealed did sig body : signature_valid did sig body = Ok true -> sealed did sig body.
Proof.
  unfold signature_valid. destruct did as [| | | |d| | |]; try done. destruct sig as [| | | |s| | |]; try done.
  intros [H|(x & _ & _ & [=])]%try_except_Ok.
  apply res_bind_Ok in H as (raw & Hr & H). destruct (_ || _); [done|].
  apply res_bind_Ok in H as (kh & Hk & H). apply res_bind_Ok in H as (pk & Hp & H).
  apply res_bind_Ok in H as (bytes & Hb & H). apply Ok_inj in H.
  unfold decode_ed25519_did_key_hex in Hk. destruct (decode_ed25519_did_key d) as [pk'|] eqn:Hd; [|done].
  cbn in Hk. apply Ok_inj in Hk as <-. rewrite fromhex_hex in Hp. apply Ok_inj in Hp as ->.
  by exists d, s, raw, pk, bytes.
Qed.

Lemma check_signature_Ok did sig body reason w : check_signature did sig body reason = Ok (true, w) ->
  w = "ok" /\ sealed did sig body.
Proof.
  unfold check_signature. intros (? & _ & H)%res_bind_Ok. apply res_bind_Ok in H as (b & Hb & H).
  apply res_bind_Ok in H as (? & ->%check_Ok & H). injection H as <-. split; [done|].
  by apply signature_valid_sealed.
Qed.

Context `{L : !Ed25519Laws Ed}.

Lemma signer_is_did self did : signer self did -> is_did_key (PStr did) = true.
Proof.
  intros Hs. destruct (signer_sign self did "" Hs) as (_ & _ & pk & _ & _ & Hpk & _).
  unfold is_did_key. rewrite Hpk. destruct (startswith DID_KEY_PREFIX did) eqn:Ep; [done|].
  unfold decode_ed25519_did_key in Hpk. by rewrite Ep in Hpk.
Qed.

Lemma signer_as_did self did d : signer self did -> as_did self = Ok d -> d = did.
Proof. intros (seed & _ & _ & _ & Hd). congruence. Qed.

(** What a signer signs passes the signature check. *)
Lemma signed_checks self did body bytes raw reason :
  signer self did -> canonical_json body = Ok bytes -> sign self bytes = Ok raw ->
  check_signature (PStr did) (PStr (b64u_encode raw)) body reason = Ok (true, "ok").
Proof.
  intros Hs Hb Hr. destruct (signer_sign self did bytes Hs) as (s & _ & pk & Hsig & H64 & Hpk & Hver & _).
  rewrite Hsig in Hr. apply Ok_inj in Hr as <-. unfold check_signature. rewrite nacl_present. cbn [check res_bind].
  unfold signature_valid. rewrite b64u_decode_encode. cbn [res_bind]. rewrite H64, String.eqb_refl. cbn [Z.eqb Pos.eqb negb orb].
  unfold decode_ed25519_did_key_hex. rewrite Hpk. cbn [res_map res_bind]. rewrite fromhex_hex. cbn [res_bind].
  rewrite Hb. cbn [res_bind try_except]. by rewrite Hver.
Qed.
End Signatures.

Section Envelopes.
Context `{Ed : Ed25519}.

(** The checks that do not look at the signature. *)
Lemma validate_envelope_split e w : validate_envelope e true = Ok (true, w) <->
  validate_envelope e false = Ok (true, "ok") /\
  check_signature e.(env_source_did) e.(env_signature) (envelope_signing_body e) "envelope signature invalid" = Ok (true, w).
Proof.
  unfold validate_envelope. cbn [negb]. split.
  - intros H%run_body_true. do 6 (apply res_bind_Ok in H as (? & ?G & H)).
    split; [|exact H]. by repeat match goal with G : _ = Ok _ |- context [res_bind ?m _] => rewrite G; cbn [res_bind] end.
  - intros [H%run_body_true Hs]. do 6 (apply res_bind_Ok in H as (? & ?G & H)).
    repeat match goal with G : ?m = Ok _ |- context [res_bind ?m _] => rewrite G; cbn [res_bind] end.
    by rewrite Hs.
Qed.

(** What a verified envelope is. *)
Record verified_envelope (e : CommerceEnvelope) : Prop := {
  ve_kind : e.(env_kind) = PStr ENVELOPE_KIND;
  ve_dids : is_did_key e.(env_source_did) = true /\ is_did_key e.(env_target_did) = true;
  ve_payload : exists d bytes, e.(env_payload) = PDict d /\ canonical_json (PDict d) = Ok bytes /\
    bytes_len bytes <= MAX_PAYLOAD_BYTES;
  ve_time : exists t, e.(env_created_at_ms) = PInt t /\ 0 < t;
  ve_id : exists id, e.(env_message_id) = PStr id /\
    message_id e.(env_source_did) e.(env_target_did) e.(env_payload) = Ok id
}.

Lemma positive_int_iff v : positive_int v = true <-> exists t, v = PInt t /\ 0 < t.
Proof.
  unfold positive_int, as_int. destruct v; split; try done; try (by intros (? & [=] & _)).
  - intros H%Z.ltb_lt. eauto.
  - intros (t & [= ->] & H). by apply Z.ltb_lt.
Qed.

Lemma validate_envelope_inv e w : validate_envelope e false = Ok (true, w) <-> w = "ok" /\ verified_envelope e.
Proof.
  unfold validate_envelope. cbn [negb]. split.
  - intros H%run_body_true. apply res_bind_Ok in H as (? & Hk%check_Ok & H).
    apply res_bind_Ok in H as (? & Hd%check_Ok & H). apply res_bind_Ok in H as (? & Hp%check_Ok & H).
    apply res_bind_Ok in H as (? & Ht%check_Ok & H). apply res_bind_Ok in H as (id & Hid & H).
    apply res_bind_Ok in H as (? & Hm%check_Ok & H). injection H as <-. split; [done|].
    apply try_except_Ok in Hid as [Hid|(? & _ & _ & [=])]. apply res_bind_Ok in Hid as (bytes & Hb & Hid).
    apply res_bind_Ok in Hid as (? & Hl%check_Ok & Hid). apply py_eqb_PStr_r in Hk, Hm.
    destruct (env_payload e) as [| | | | | |d|] eqn:Ep; try done. apply andb_true_iff in Hd.
    split; [done|done| |by apply positive_int_iff|].
    + exists d, bytes. rewrite Ep. split_and!; [done..|lia].
    + exists id. by rewrite Ep.
  - intros [-> [Hk [Hd1 Hd2] (d & bytes & Hp & Hb & Hl) Ht (id & Hm & Hid)]]. rewrite Hk, Hd1, Hd2, Hm. rewrite Hp in *.
    cbn [py_eqb is_dict andb]. rewrite (proj2 (positive_int_iff _) Ht), !String.eqb_refl. cbn [check res_bind].
    rewrite Hb. cbn [res_bind]. rewrite (proj2 (Z.leb_le _ _) Hl). cbn [check res_bind]. rewrite Hid.
    cbn [try_except res_bind py_eqb]. by rewrite String.eqb_refl.
Qed.

Lemma verify_envelope_inv e w : verify_envelope e = Ok (true, w) ->
  verified_envelope e /\ sealed e.(env_source_did) e.(env_signature) (envelope_signing_body e).
Proof.
  intros [H Hs%check_signature_Ok]%validate_envelope_split. apply validate_envelope_inv in H as [_ H]. tauto.
Qed.

Lemma validated_ok e w : validate_envelope e true = Ok (true, w) -> w = "ok".
Proof. by intros [_ [-> _]%check_signature_Ok]%validate_envelope_split. Qed.

Lemma set_env_signature_valid e s : verified_envelope e -> verified_envelope (set_env_signature e s).
Proof. by intros []. Qed.

Lemma did_key_str v : is_did_key v = true -> exists d, v = PStr d.
Proof. destruct v; try done. eauto. Qed.

Context `{L : !Ed25519Laws Ed}.

(** What [sign_envelope] returns verifies. *)
Lemma verified_of_signed identity did target payload t e :
  signer identity did -> sign_envelope identity target payload t = Ok e -> exists w, verify_envelope e = Ok (true, w).
Proof.
  intros Hs H. unfold sign_envelope in H. apply res_bind_Ok in H as (d & Hd & H).
  apply (signer_as_did _ _ _ Hs) in Hd as ->. apply res_bind_Ok in H as (id & _ & H).
  apply res_bind_Ok in H as ([ok w] & Hv & H). destruct ok; [|done]. cbn [negb] in H.
  apply res_bind_Ok in H as (body & Hb & H). apply res_bind_Ok in H as (raw & Hr & H). injection H as <-.
  exists "ok". apply validate_envelope_split. apply validate_envelope_inv in Hv as [_ Hv].
  split; [apply validate_envelope_inv; split; [done|by apply set_env_signature_valid]|]. by eapply signed_checks.
Qed.

(** Signing makes valid envelopes.  The holder of a DID can sign any
    object that has a canonical encoding of at most 512 KiB for any target at
    any positive time, and what [sign_envelope] returns verifies, with those
    contents and the digest of source, target and payload as its message id. *)
Theorem signed_envelope_verifies identity did target d bytes t :
  signer identity did -> is_did_key (PStr target) = true -> canonical_json (PDict d) = Ok bytes ->
  bytes_len bytes <= MAX_PAYLOAD_BYTES -> 0 < t ->
  exists e, sign_envelope identity (PStr target) (PDict d) (PInt t) = Ok e /\ verify_envelope e = Ok (true, "ok") /\
    e.(env_source_did) = PStr did /\ e.(env_target_did) = PStr target /\ e.(env_payload) = PDict d /\
    e.(env_created_at_ms) = PInt t /\
    exists id, message_id (PStr did) (PStr target) (PDict d) = Ok id /\ e.(env_message_id) = PStr id.
Proof.
  intros Hs Htd Hb Hl Ht. pose proof (signer_is_did _ _ Hs) as Hsd. pose proof Hb as [Henc _]%canonical_json_encodable.
  assert (exists id, message_id (PStr did) (PStr target) (PDict d) = Ok id) as [id Hid].
  { unfold message_id, digest_of. rewrite canonical_json_total; [by eexists|].
    cbn -[encodable text_ok]. cbn [encodable forallb fst snd] in *.
    rewrite (did_text_ok did), (did_text_ok target) by done. cbn [andb]. by rewrite Henc. }
  set (e := {| env_message_id := PStr id; env_source_did := PStr did; env_target_did := PStr target;
               env_payload := PDict d; env_created_at_ms := PInt t; env_kind := PStr ENVELOPE_KIND;
               env_signature := PStr "" |}).
  assert (verified_envelope e) as He.
  { split; [done|done|by exists d, bytes|by exists t|by exists id]. }
  assert (exists body, canonical_json (envelope_signing_body e) = Ok body) as [body Hbody].
  { eexists. change (envelope_signing_body e) with
      (PDict [("message_id", PStr id); ("source_did", PStr did); ("target_did", PStr target); ("payload", PDict d);
              ("created_at_ms", PInt t); ("kind", PStr ENVELOPE_KIND)]). apply canonical_json_total. cbn [encodable forallb fst snd] in *.
    rewrite (did_text_ok did), (did_text_ok target) by done. rewrite (digest_text_ok _ _ Hid). cbn [andb]. by rewrite Henc. }
  destruct (signer_sign identity did body Hs) as (raw & _ & _ & Hraw & _).
  exists (set_env_signature e (PStr (b64u_encode raw))). unfold sign_envelope.
  destruct Hs as (seed & Hseed). assert (as_did identity = Ok did) as -> by apply Hseed. cbn [res_bind].
  rewrite Hid. cbn [res_bind]. fold e.
  rewrite (proj2 (validate_envelope_inv e "ok") (conj eq_refl He)). cbn [res_bind negb]. rewrite Hbody. cbn [res_bind].
  rewrite Hraw. cbn [res_bind]. split_and!; try done; [|by exists id].
  apply validate_envelope_split. split; [apply validate_envelope_inv; split; [done|by apply set_env_signature_valid]|].
  eapply signed_checks; [by exists seed|exact Hbody|done].
Qed.
End Envelopes.

Section Inbox.
Context `{Ed : Ed25519}.

(** What a verified acknowledgement is. *)
Record verified_ack (a : CommerceAck) : Prop := {
  va_message : exists id, a.(ack_message_id) = PStr id;
  va_order : exists id, a.(ack_order_id) = PStr id;
  va_head : exists h, a.(ack_chain_head) = PStr h;
  va_receiver : exists d, a.(ack_receiver_did) = PStr d
}.

Lemma validate_ack_split a w : validate_ack a true = Ok (true, w) <->
  validate_ack a false = Ok (true, "ok") /\
  check_signature a.(ack_receiver_did) a.(ack_signature) (ack_signing_body a) "ack signature invalid" = Ok (true, w).
Proof.
  unfold validate_ack. cbn [negb]. split.
  - intros H%run_body_true. do 5 (apply res_bind_Ok in H as (? & ?G & H)).
    split; [|exact H]. by repeat match goal with G : _ = Ok _ |- context [res_bind ?m _] => rewrite G; cbn [res_bind] end.
  - intros [H%run_body_true Hs]. do 5 (apply res_bind_Ok in H as (? & ?G & H)).
    repeat match goal with G : ?m = Ok _ |- context [res_bind ?m _] => rewrite G; cbn [res_bind] end.
    by rewrite Hs.
Qed.

Lemma validate_ack_inv a w : validate_ack a false = Ok (true, w) -> w = "ok" /\ verified_ack a.
Proof.
  unfold validate_ack. cbn [negb]. intros H%run_body_true. apply res_bind_Ok in H as (? & _ & H).
  apply res_bind_Ok in H as (? & Hd%check_Ok & H). apply res_bind_Ok in H as (? & Ho%check_Ok & H).
  apply res_bind_Ok in H as (? & Hr%check_Ok & H). apply res_bind_Ok in H as (? & _ & H). injection H as <-.
  apply andb_true_iff in Hd as [Hm Hh]. split; [done|]. split.
  - destruct (ack_message_id a); try done. eauto.
  - destruct (ack_order_id a); try done. eauto.
  - destruct (ack_chain_head a); try done. eauto.
  - destruct (ack_receiver_did a); try done. eauto.
Qed.

Lemma verify_ack_inv a w : verify_ack a = Ok (true, w) -> w = "ok" /\ verified_ack a.
Proof.
  intros [H Hs%check_signature_Ok]%validate_ack_split. apply validate_ack_inv in H as [_ H]. tauto.
Qed.

(** An acknowledgement of [e] for an order and a chain head. *)
Definition acknowledges (a : CommerceAck) (e : CommerceEnvelope) (order_id chain_head : pyval) : bool :=
  py_eqb a.(ack_message_id) e.(env_message_id) && py_eqb a.(ack_order_id) order_id &&
  py_eqb a.(ack_chain_head) chain_head && py_eqb a.(ack_receiver_did) e.(env_target_did).

(** What the inbox finds is a verified acknowledgement of that envelope. *)
Lemma get_ack_Ok e order_id chain_head fs a : get_ack e order_id chain_head fs = Ok (Some a) ->
  verify_ack a = Ok (true, "ok") /\ acknowledges a e order_id chain_head = true.
Proof.
  unfold get_ack. intros (path & _ & H)%res_bind_Ok. destruct (safe_load_json fs path) as [v|]; [|done].
  destruct v as [| | | | | |value|]; try done. destruct (negb _); [done|].
  apply res_bind_Ok in H as (a' & _ & H). apply res_bind_Ok in H as ([ok w] & Hv & H).
  destruct ok; [|done]. cbn [negb] in H. destruct (_ && _) eqn:E; [|done]. injection H as <-.
  destruct (verify_ack_inv _ _ Hv) as [-> _]. split; [done|]. unfold acknowledges. rewrite !andb_true_iff in *. tauto.
Qed.

Lemma refound e a order_id chain_head order' head' fs :
  get_ack e order_id chain_head fs = Ok (Some a) ->
  get_ack e order' head' fs = if acknowledges a e order' head' then Ok (Some a) else Err CommerceEnvelopeRejected.
Proof.
  unfold get_ack. intros (path & -> & H)%res_bind_Ok. cbn [res_bind]. destruct (safe_load_json fs path) as [v|]; [|done].
  destruct v as [| | | | | |value|]; try done. destruct (negb _); [done|].
  apply res_bind_Ok in H as (a' & -> & H). cbn [res_bind]. apply res_bind_Ok in H as ([ok w] & -> & H). cbn [res_bind].
  destruct ok; [|done]. cbn [negb] in *. destruct (_ && _) eqn:E in H; [|done]. injection H as ->.
  rewrite !andb_true_iff in E. destruct E as (((((E1 & E2) & _) & _) & _) & _). rewrite E1, E2. unfold acknowledges.
  cbn [andb]. done.
Qed.

(** A receipt that is stored is found again, by whoever asks for the same order
    and head. *)
Lemma stored_ack e a order_id chain_head fs path :
  verified_envelope e -> verify_ack a = Ok (true, "ok") -> inbox_path e.(env_message_id) = Ok path ->
  get_ack e order_id chain_head (atomic_write_json fs path (inbox_record e a)) =
  if acknowledges a e order_id chain_head then Ok (Some a) else Err CommerceEnvelopeRejected.
Proof.
  intros He Ha Hp. unfold get_ack. rewrite Hp. cbn [res_bind]. unfold inbox_record. rewrite safe_load_written by done.
  change (negb (same_keys INBOX_FIELDS _)) with false. cbv beta iota zeta.
  change (get_or_none "ack" _) with (PDict (ack_to_dict a)).
  change (ack_from_dict (PDict (ack_to_dict a))) with
    (Ok {| ack_message_id := a.(ack_message_id); ack_order_id := a.(ack_order_id); ack_chain_head := a.(ack_chain_head);
           ack_receiver_did := a.(ack_receiver_did); ack_received_at_ms := a.(ack_received_at_ms);
           ack_kind := a.(ack_kind); ack_signature := a.(ack_signature) |}).
  cbn [res_bind]. match goal with |- context [verify_ack ?x] => assert (x = a) as -> by (by destruct a) end.
  rewrite Ha. cbn [res_bind negb].
  change (get_or_none "source_did" _) with e.(env_source_did). change (get_or_none "target_did" _) with e.(env_target_did).
  destruct (ve_dids _ He) as [Hs Ht]. apply did_key_str in Hs as [s Hs], Ht as [t Ht].
  assert (py_eqb e.(env_source_did) e.(env_source_did) = true) as -> by (rewrite Hs; apply String.eqb_refl).
  assert (py_eqb e.(env_target_did) e.(env_target_did) = true) as -> by (rewrite Ht; apply String.eqb_refl).
  done.
Qed.

Context `{L : !Ed25519Laws Ed}.

Lemma sign_ack_spec identity did m o h t a :
  signer identity did -> sign_ack identity (PStr m) o h t = Ok a ->
  verify_ack a = Ok (true, "ok") /\ a.(ack_message_id) = PStr m /\ a.(ack_order_id) = o /\ a.(ack_chain_head) = h /\
  a.(ack_receiver_did) = PStr did.
Proof.
  intros Hs H. unfold sign_ack in H. apply res_bind_Ok in H as (d & Hd & H).
  apply (signer_as_did _ _ _ Hs) in Hd as ->. apply res_bind_Ok in H as ([ok w] & Hv & H). destruct ok; [|done].
  cbn [negb] in H. apply res_bind_Ok in H as (body & Hb & H). apply res_bind_Ok in H as (raw & Hr & H). injection H as <-.
  split_and!; try done. apply validate_ack_split. destruct (validate_ack_inv _ _ Hv) as [-> _]. split; [exact Hv|].
  cbn [set_ack_signature ack_receiver_did ack_signature]. by eapply signed_checks.
Qed.

(** C22.  An envelope is acknowledged once.  Whenever [acknowledge] returns a
    receipt for a verified envelope, the target of the envelope signed it for
    that message, order and chain head; from then on every further call for the
    same order and head returns that very receipt and writes nothing, whoever
    makes it and whenever, and a call for another order or head is refused. *)
Theorem inbox_acknowledges_once e order_id chain_head identity did t fs fs' a fresh w :
  verify_envelope e = Ok (true, w) -> signer identity did ->
  acknowledge e order_id chain_head identity t fs = (fs', Ok (a, fresh)) ->
  verify_ack a = Ok (true, "ok") /\ acknowledges a e order_id chain_head = true /\ (fresh = false -> fs' = fs) /\
  forall identity' t' order' head',
    acknowledge e order' head' identity' t' fs' =
    (fs', if acknowledges a e order' head' then Ok (a, false) else Err CommerceEnvelopeRejected).
Proof.
  intros [He _]%verify_envelope_inv Hs H. unfold acknowledge in H.
  destruct (inbox_path (env_message_id e)) as [path|x] eqn:Hp; [|done]. cbn [res_bind] in H.
  destruct (get_ack e order_id chain_head fs) as [[a0|]|x] eqn:Hg; [| |done]; cbn [res_bind] in H.
  - injection H as <- <- <-. destruct (get_ack_Ok _ _ _ _ _ Hg) as [Hv Ha]. split_and!; try done.
    intros identity' t' order' head'. unfold acknowledge. rewrite Hp. cbn [res_bind].
    rewrite (refound _ _ _ _ _ _ _ Hg). by destruct (acknowledges a0 e order' head').
  - destruct (as_did identity) as [d|x] eqn:Hd; [|done]. cbn [res_bind] in H.
    apply (signer_as_did _ _ _ Hs) in Hd as ->. destruct (py_eqb (PStr did) (env_target_did e)) eqn:Ht; [|done].
    cbn [negb] in H. destruct (ve_id _ He) as (id & Hid & _). rewrite Hid in H, Hp.
    destruct (sign_ack identity (PStr id) order_id chain_head t) as [a0|x] eqn:Hsig; [|done].
    cbn [res_bind] in H. injection H as <- <- <-.
    destruct (sign_ack_spec _ _ _ _ _ _ _ Hs Hsig) as (Hv & H1 & H2 & H3 & H4).
    destruct (verify_ack_inv _ _ Hv) as [_ [_ [o Ho] [h Hh] _]].
    split_and!; try done.
    + unfold acknowledges. rewrite H1, H4, Ht, Hid. rewrite <- H2, <- H3, Ho, Hh. cbn [py_eqb]. by rewrite !String.eqb_refl.
    + intros identity' t' order' head'. unfold acknowledge. rewrite Hid, Hp. cbn [res_bind].
      rewrite stored_ack; [|done|done|by rewrite Hid]. by destruct (acknowledges a0 e order' head').
Qed.
End Inbox.

(** ** Examples *)

#[local] Existing Instance toy_ed25519.
#[local] Existing Instance toy_laws.

Definition demo_envelope : CommerceEnvelope := Eval vm_compute in
  match sign_envelope (toy_identity "b") (PStr (toy_did "s")) (PDict [("n", PInt 1)]) (PInt 10) with
  | Ok e => e
  | Err _ => Build_CommerceEnvelope PNone PNone PNone PNone PNone PNone PNone
  end.

Lemma demo_envelope_signed :
  sign_envelope (toy_identity "b") (PStr (toy_did "s")) (PDict [("n", PInt 1)]) (PInt 10) = Ok demo_envelope.
Proof. vm_compute. reflexivity. Qed.

Lemma signed_envelope_verifies_witness :
  exists e, sign_envelope (toy_identity "b") (PStr (toy_did "s")) (PDict [("n", PInt 1)]) (PInt 10) = Ok e /\
    verify_envelope e = Ok (true, "ok") /\ e.(env_payload) = PDict [("n", PInt 1)].
Proof.
  assert (canonical_json (PDict [("n", PInt 1)]) = Ok (dumps (PDict [("n", PInt 1)]))) as Hb by (vm_compute; reflexivity).
  assert (is_did_key (PStr (toy_did "s")) = true) as Hd by (vm_compute; reflexivity).
  assert (bytes_len (dumps (PDict [("n", PInt 1)])) <= MAX_PAYLOAD_BYTES) as Hl by (vm_compute; discriminate).
  destruct (signed_envelope_verifies (toy_identity "b") (toy_did "b") (toy_did "s") [("n", PInt 1)]
    _ 10 (toy_signer_of "b" eq_refl) Hd Hb Hl eq_refl) as (e & H1 & H2 & _ & _ & H3 & _).
  exists e. exact (conj H1 (conj H2 H3)).
Defined.

Lemma demo_envelope_verified : exists w, verify_envelope demo_envelope = Ok (true, w).
Proof.
  destruct (verified_of_signed (toy_identity "b") (toy_did "b") (PStr (toy_did "s")) (PDict [("n", PInt 1)]) (PInt 10)
    demo_envelope (toy_signer_of "b" eq_refl) demo_envelope_signed) as [w H]. by exists w.
Qed.

(** The seller acknowledges the buyer's envelope. *)
Definition demo_ack : res (files * CommerceAck) := Eval vm_compute in
  match acknowledge demo_envelope (PStr "o") (demo_envelope.(env_message_id)) (toy_identity "s") (PInt 20) ∅ with
  | (fs, Ok (a, true)) => Ok (fs, a)
  | (_, Ok _) => Err ValueError
  | (_, Err x) => Err x
  end.

Lemma inbox_acknowledges_once_witness :
  exists fs a, acknowledge demo_envelope (PStr "o") (demo_envelope.(env_message_id)) (toy_identity "s") (PInt 20) ∅ =
      (fs, Ok (a, true)) /\
    verify_ack a = Ok (true, "ok") /\
    acknowledge demo_envelope (PStr "other") (demo_envelope.(env_message_id)) (toy_identity "s") (PInt 30) fs =
      (fs, Err CommerceEnvelopeRejected).
Proof.
  destruct demo_envelope_verified as [w Hw].
  assert (exists fs a, demo_ack = Ok (fs, a)) as (fs & a & E) by (by eexists _, _).
  assert (acknowledge demo_envelope (PStr "o") (demo_envelope.(env_message_id)) (toy_identity "s") (PInt 20) ∅ =
    (fs, Ok (a, true))) as H.
  { apply (f_equal (fun r => match r with Ok (f, x) => (f, Ok (x, true)) | Err e => (∅, Err e) end)) in E.
    rewrite <- E. vm_compute. reflexivity. }
  exists fs, a. split; [exact H|].
  destruct (inbox_acknowledges_once demo_envelope (PStr "o") (demo_envelope.(env_message_id)) (toy_identity "s")
    (toy_did "s") (PInt 20) ∅ fs a true w Hw (toy_signer_of "s" eq_refl) H) as (H1 & _ & _ & H2).
  split; [exact H1|]. rewrite H2.
  apply (f_equal (fun r => match r with Ok (_, x) => x.(ack_order_id) | Err _ => PNone end)) in E.
  unfold acknowledges. cbn in E. rewrite <- E. cbn [py_eqb String.eqb andb]. by rewrite andb_false_r.
Defined.
