(* ===== verification/Outbox.v ===== *)
(** * The durable commerce outbox ([CommerceOutbox], [nth_dao/commerce/outbox.py])

    One document per envelope, named by the digest in its message id, until the
    target has acknowledged it; acknowledged documents may move to an archive.
    A worker that delivers an envelope holds a lease on it.  A lock makes every
    operation on one document atomic. *)

From Stdlib Require Import ZArith Lia Ascii String.
From stdpp Require Import base list strings gmap.
From S2P Require Import Prelude PyStr PyValue CanonicalJson DidKey Sha256 Identity Store Projection PyOps Settlement DocFile Url Envelope.

Local Open Scope string_scope.
Local Open Scope Z_scope.

Definition MAX_OUTBOX_RECORD_BYTES : Z := 768 * 1024.

Definition OUTBOX_ERROR_DELIVERY_FAILED : string := "delivery-failed".
Definition OUTBOX_ERROR_DELIVERY_REJECTED : string := "delivery-permanently-rejected".
Definition OUTBOX_ERROR_DISPATCH_CONTRACT : string := "dispatcher-contract-error".
Definition OUTBOX_ERROR_RECORD_MISSING : string := "outbox-record-missing".
Definition OUTBOX_ERROR_LEASE_SUPERSEDED : string := "delivery-lease-superseded".
Definition OUTBOX_ERROR_RUNTIME : string := "delivery-runtime-error".
Definition OUTBOX_ERROR_PERSISTENCE : string := "delivery-persistence-error".
Definition OUTBOX_ERROR_CODES : list string :=
  [OUTBOX_ERROR_DELIVERY_FAILED; OUTBOX_ERROR_DELIVERY_REJECTED; OUTBOX_ERROR_DISPATCH_CONTRACT;
   OUTBOX_ERROR_RECORD_MISSING; OUTBOX_ERROR_LEASE_SUPERSEDED; OUTBOX_ERROR_RUNTIME; OUTBOX_ERROR_PERSISTENCE;
   "target-policy-rejected"; "peer-response-invalid"; "peer-http-retryable"; "peer-http-rejected";
   "peer-network-error"].

Definition STATUSES : list string := ["pending"; "inflight"; "blocked"; "acknowledged"].

(** [normalize_outbox_error] *)
Definition normalize_outbox_error (error : pyval) (retryable : bool) : string :=
  let fallback := if retryable then OUTBOX_ERROR_DELIVERY_FAILED else OUTBOX_ERROR_DELIVERY_REJECTED in
  match error with
  | PStr e => if str_in (py_strip e) OUTBOX_ERROR_CODES then py_strip e else fallback
  | _ => fallback
  end.

(** ** Records *)

(** [OutboxRecord], as [_decode_record] returns it *)
Record OutboxRecord := {
  ob_envelope : list (string * pyval);
  ob_target_url : string;
  ob_status : string;
  ob_attempts : Z;
  ob_last_error : string;
  ob_acknowledged_at_ms : Z;
  ob_blocked_at_ms : Z;
  ob_last_attempt_at_ms : Z;
  ob_next_attempt_at_ms : Z;
  ob_lease_id : string;
  ob_lease_expires_at_ms : Z;
  ob_route_history : option (list pyval)
}.

Definition RECORD_FIELDS : list string :=
  ["envelope"; "target_url"; "status"; "attempts"; "last_error"; "acknowledged_at_ms"; "blocked_at_ms";
   "last_attempt_at_ms"; "next_attempt_at_ms"; "lease_id"; "lease_expires_at_ms"; "route_history"].

(** [asdict(record)] *)
Definition record_dict (r : OutboxRecord) : list (string * pyval) :=
  [("envelope", PDict r.(ob_envelope)); ("target_url", PStr r.(ob_target_url)); ("status", PStr r.(ob_status));
   ("attempts", PInt r.(ob_attempts)); ("last_error", PStr r.(ob_last_error));
   ("acknowledged_at_ms", PInt r.(ob_acknowledged_at_ms)); ("blocked_at_ms", PInt r.(ob_blocked_at_ms));
   ("last_attempt_at_ms", PInt r.(ob_last_attempt_at_ms)); ("next_attempt_at_ms", PInt r.(ob_next_attempt_at_ms));
   ("lease_id", PStr r.(ob_lease_id)); ("lease_expires_at_ms", PInt r.(ob_lease_expires_at_ms));
   ("route_history", match r.(ob_route_history) with None => PNone | Some l => PList l end)].

(** [OutboxRecord(envelope=..., target_url=...)] *)
Definition new_record (envelope : list (string * pyval)) (target_url : string) : OutboxRecord := {|
  ob_envelope := envelope; ob_target_url := target_url; ob_status := "pending"; ob_attempts := 0;
  ob_last_error := ""; ob_acknowledged_at_ms := 0; ob_blocked_at_ms := 0; ob_last_attempt_at_ms := 0;
  ob_next_attempt_at_ms := 0; ob_lease_id := ""; ob_lease_expires_at_ms := 0; ob_route_history := None |}.

(** The documents of the two directories, by the stem of their file. *)
Record outbox := { records : gmap string docfile; archived : gmap string docfile }.

(** [_load_record] *)
Definition load_record (m : gmap string docfile) (stem : string) : res (option (list (string * pyval))) :=
  match m !! stem with
  | None => Ok None
  | Some f =>
    if MAX_OUTBOX_RECORD_BYTES <? f.(df_size) then Err CommerceEnvelopeRejected else
    match f.(df_value) with
    | Some (PDict d) => Ok (Some d)
    | _ => Err CommerceEnvelopeRejected
    end
  end.

(** [_path]: the stem of the file *)
Definition outbox_path (id : string) : res string :=
  if is_digest (PStr id) then Ok (str_drop 7 id) else Err CommerceEnvelopeRejected.

Section Decode.
Context `{N : NetlocRules}.

(** A URL that is its own normal form. *)
Definition normal_url (v : pyval) : bool :=
  match normalize_target_url v with Ok u => py_eqb (PStr u) v | Err _ => false end.

(** One item of the route history. *)
Definition route_item_ok (v : pyval) : bool :=
  match v with
  | PDict d =>
    same_keys ["target_did"; "previous_url"; "new_url"; "changed_at_ms"] d &&
    normal_url (get_or_none "previous_url" d) && normal_url (get_or_none "new_url" d) &&
    is_did_key (get_or_none "target_did" d) && positive_int (get_or_none "changed_at_ms" d)
  | _ => false
  end.

(** The route history: absent, or at most twenty items. *)
Definition route_history (v : pyval) : option (option (list pyval)) :=
  match v with
  | PNone => Some None
  | PList l => if Nat.leb (List.length l) 20 && forallb route_item_ok l then Some (Some l) else None
  | _ => None
  end.

(** [isinstance(v, int) and not isinstance(v, bool) and v >= 0] *)
Definition natural (v : pyval) : option Z :=
  match as_int v with Some z => if 0 <=? z then Some z else None | None => None end.

(** The stable error code of a record that is read. *)
Definition read_error (status last_error : string) : string :=
  if String.eqb status "acknowledged" || String.eqb last_error "" then ""
  else normalize_outbox_error (PStr last_error) (negb (String.eqb status "blocked")).

(** What the status of a record requires of its other fields. *)
Definition status_consistent (r : OutboxRecord) : bool :=
  let st s := String.eqb r.(ob_status) s in
  negb (st "inflight" && (String.eqb r.(ob_lease_id) "" || (r.(ob_lease_expires_at_ms) <=? 0))) &&
  negb (st "acknowledged" && (r.(ob_acknowledged_at_ms) <=? 0)) &&
  negb (st "blocked" && (r.(ob_blocked_at_ms) <=? 0)).

(** [_decode_record]; a status that is not hashable is not caught *)
Definition decode_record (value : list (string * pyval)) : res OutboxRecord :=
  if negb (forallb (fun k => str_in k RECORD_FIELDS) (dict_keys value)) then Err CommerceEnvelopeRejected else
  match dict_get "envelope" value, dict_get "target_url" value with
  | Some envelope, Some target_url =>
    let number k := get_default k (PInt 0) value in
    let* known := in_strings (get_default "status" (PStr "pending") value) STATUSES in
    match known, get_default "status" (PStr "pending") value, envelope, target_url, normal_url target_url,
          natural (number "attempts"), get_default "last_error" (PStr "") value, get_default "lease_id" (PStr "") value with
    | true, PStr status, PDict envelope, PStr url, true, Some attempts, PStr last_error, PStr lease_id =>
      match natural (number "acknowledged_at_ms"), natural (number "blocked_at_ms"),
            natural (number "last_attempt_at_ms"), natural (number "next_attempt_at_ms"),
            natural (number "lease_expires_at_ms"), route_history (get_default "route_history" PNone value) with
      | Some acknowledged, Some blocked, Some last_attempt, Some next_attempt, Some lease_expires, Some history =>
        let r := {| ob_envelope := envelope; ob_target_url := url; ob_status := status; ob_attempts := attempts;
                    ob_last_error := read_error status last_error; ob_acknowledged_at_ms := acknowledged;
                    ob_blocked_at_ms := blocked; ob_last_attempt_at_ms := last_attempt;
                    ob_next_attempt_at_ms := next_attempt; ob_lease_id := lease_id;
                    ob_lease_expires_at_ms := lease_expires; ob_route_history := history |} in
        if status_consistent r then Ok r else Err CommerceEnvelopeRejected
      | _, _, _, _, _, _ => Err CommerceEnvelopeRejected
      end
    | _, _, _, _, _, _, _, _ => Err CommerceEnvelopeRejected
    end
  | _, _ => Err CommerceEnvelopeRejected
  end.
End Decode.

Section Outbox.
Context `{Ed : Ed25519} `{N : NetlocRules} `{Ft : FloatText}.

(** An operation on the outbox that may raise. *)
Definition op (A : Type) : Type := outbox -> outbox * res A.

Definition put_record (stem : string) (f : docfile) (o : outbox) : outbox :=
  {| records := <[stem := f]> o.(records); archived := o.(archived) |}.
Definition put_archived (stem : string) (f : docfile) (o : outbox) : outbox :=
  {| records := o.(records); archived := <[stem := f]> o.(archived) |}.

(** [atomic_write_json(path, asdict(record))], then [return record] *)
Definition save_record (stem : string) (r : OutboxRecord) : op OutboxRecord := fun o =>
  match write_document (PDict (record_dict r)) with
  | Err x => (o, Err x)
  | Ok f => (put_record stem f o, Ok r)
  end.

(** ** Queueing *)

(** The record of an envelope that is to be sent elsewhere from now on. *)
Definition retargeted (r : OutboxRecord) (target_did : pyval) (new_url : string) (changed_at_ms : Z) : OutboxRecord :=
  let entry := PDict [("target_did", target_did); ("previous_url", PStr r.(ob_target_url)); ("new_url", PStr new_url);
                      ("changed_at_ms", PInt changed_at_ms)] in
  let history := (default [] r.(ob_route_history) ++ [entry])%list in
  {| ob_envelope := r.(ob_envelope); ob_target_url := new_url; ob_status := "pending"; ob_attempts := r.(ob_attempts);
     ob_last_error := ""; ob_acknowledged_at_ms := r.(ob_acknowledged_at_ms); ob_blocked_at_ms := 0;
     ob_last_attempt_at_ms := r.(ob_last_attempt_at_ms); ob_next_attempt_at_ms := 0; ob_lease_id := r.(ob_lease_id);
     ob_lease_expires_at_ms := r.(ob_lease_expires_at_ms);
     ob_route_history := Some (drop (List.length history - 20) history) |}.

(** The branches of [enqueue] on the document that is stored: [inl] a record
    that is kept, [inr] one that is written. *)
Definition enqueue_existing (e : CommerceEnvelope) (url : string) (allow_retarget : bool) (changed_at_ms : Z)
    (current : list (string * pyval)) : res (OutboxRecord + OutboxRecord) :=
  let* stored := envelope_from_dict (get_or_none "envelope" current) in
  let* (ok, _) := verify_envelope stored in
  if negb ok then Err CommerceEnvelopeRejected else
  if negb (py_eqb stored.(env_message_id) e.(env_message_id) && py_eqb stored.(env_source_did) e.(env_source_did) &&
           py_eqb stored.(env_target_did) e.(env_target_did) && py_eqb stored.(env_payload) e.(env_payload))
  then Err CommerceEnvelopeRejected else
  let* existing := decode_record current in
  let same := String.eqb existing.(ob_target_url) url in
  if String.eqb existing.(ob_status) "acknowledged" then
    if same then Ok (inl existing) else Err CommerceEnvelopeRejected
  else if same then Ok (inl existing)
  else if negb allow_retarget then Err CommerceEnvelopeRejected
  else if negb (str_in existing.(ob_status) ["pending"; "blocked"]) then Err CommerceEnvelopeRejected
  else Ok (inr (retargeted existing stored.(env_target_did) url changed_at_ms)).

(** The body of [enqueue], up to its write *)
Definition enqueue_plan (now : Z) (e : CommerceEnvelope) (target_url : pyval) (allow_retarget : bool) (override : Z)
    (o : outbox) : res (string * (OutboxRecord + OutboxRecord)) :=
  let* (ok, _) := verify_envelope e in
  if negb ok then Err CommerceEnvelopeRejected else
  let* url := normalize_target_url target_url in
  if override <? 0 then Err CommerceEnvelopeRejected else
  let* stem := match e.(env_message_id) with PStr id => outbox_path id | _ => Err CommerceEnvelopeRejected end in
  let* live := load_record o.(records) stem in
  let* current := match live with Some d => Ok (Some d) | None => load_record o.(archived) stem end in
  let* todo := match current with
               | Some d => enqueue_existing e url allow_retarget (clock_ms now override) d
               | None => Ok (inr (new_record (envelope_to_dict e) url))
               end in
  Ok (stem, todo).

(** [enqueue] *)
Definition enqueue (now : Z) (e : CommerceEnvelope) (target_url : pyval) (allow_retarget : bool) (override : Z)
  : op OutboxRecord := fun o =>
  match enqueue_plan now e target_url allow_retarget override o with
  | Err x => (o, Err x)
  | Ok (_, inl existing) => (o, Ok existing)
  | Ok (stem, inr record) => save_record stem record o
  end.

(** ** Reading *)

(** The document [get] returns: how it is replaced, its value and its record *)
Definition find_document (id : string) (o : outbox)
  : res (option ((docfile -> outbox -> outbox) * list (string * pyval) * OutboxRecord)) :=
  let* stem := outbox_path id in
  let* live := load_record o.(records) stem in
  match live with
  | Some d => let* r := decode_record d in Ok (Some (put_record stem, d, r))
  | None =>
    let* old := load_record o.(archived) stem in
    match old with
    | Some d => let* r := decode_record d in Ok (Some (put_archived stem, d, r))
    | None => Ok None
    end
  end.

(** [get] *)
Definition get (id : string) : op (option OutboxRecord) := fun o =>
  match find_document id o with
  | Err x => (o, Err x)
  | Ok None => (o, Ok None)
  | Ok (Some (put, d, r)) =>
    if py_eqb (get_or_none "last_error" d) (PStr r.(ob_last_error)) then (o, Ok (Some r)) else
    match write_document (PDict (record_dict r)) with
    | Err x => (o, Err x)
    | Ok f => (put f o, Ok (Some r))
    end
  end.

(** The file stems of a directory, as [sorted(root.glob("*.json"))]. *)
Definition sorted_stems (m : gmap string docfile) : list string := map fst (sort_items (map_to_list m)).

Definition is_envelope_error (e : exn) : bool := match e with CommerceEnvelopeRejected => true | _ => false end.

(** The record under a stem, when its document is valid; [_list_statuses] and
    [archive_acknowledged] skip the others. *)
Definition readable (o : outbox) (stem : string) : res (option OutboxRecord) :=
  try_except
    (let* d := load_record o.(records) stem in
     match d with
     | Some d => res_map Some (decode_record d)
     | None => Ok None
     end)
    is_envelope_error (fun _ => Ok None).

Fixpoint list_loop (statuses : list string) (o : outbox) (limit : nat) (stems : list string)
  : res (list OutboxRecord) :=
  match stems, limit with
  | [], _ | _, O => Ok []
  | stem :: stems', S limit' =>
    let* found := readable o stem in
    match found with
    | Some r =>
      if str_in r.(ob_status) statuses then let* rows := list_loop statuses o limit' stems' in Ok (r :: rows)
      else list_loop statuses o limit stems'
    | None => list_loop statuses o limit stems'
    end
  end.

(** [_list_statuses] *)
Definition list_statuses (statuses : list string) (limit : Z) (o : outbox) : res (list OutboxRecord) :=
  if negb ((1 <=? limit) && (limit <=? 1000)) then Err CommerceEnvelopeRejected else
  list_loop statuses o (Z.to_nat limit) (sorted_stems o.(records)).

(** [pending] *)
Definition pending (limit : Z) (o : outbox) : res (list OutboxRecord) := list_statuses ["pending"; "inflight"] limit o.
(** [blocked] *)
Definition blocked (limit : Z) (o : outbox) : res (list OutboxRecord) := list_statuses ["blocked"] limit o.

(** ** Delivery *)

Definition claimed (r : OutboxRecord) (lease : string) (expires : Z) : OutboxRecord :=
  {| ob_envelope := r.(ob_envelope); ob_target_url := r.(ob_target_url); ob_status := "inflight";
     ob_attempts := r.(ob_attempts); ob_last_error := r.(ob_last_error);
     ob_acknowledged_at_ms := r.(ob_acknowledged_at_ms); ob_blocked_at_ms := 0;
     ob_last_attempt_at_ms := r.(ob_last_attempt_at_ms); ob_next_attempt_at_ms := r.(ob_next_attempt_at_ms);
     ob_lease_id := lease; ob_lease_expires_at_ms := expires; ob_route_history := r.(ob_route_history) |}.

(** Whether [claim] leaves a record alone. *)
Definition not_claimable (r : OutboxRecord) (current_ms : Z) (force : bool) : bool :=
  let st s := String.eqb r.(ob_status) s in
  st "acknowledged" || (st "blocked" && negb force) ||
  (st "inflight" && (current_ms <? r.(ob_lease_expires_at_ms))) ||
  (st "pending" && (current_ms <? r.(ob_next_attempt_at_ms)) && negb force).

Definition lease_ms_ok (lease_ms : Z) : bool := (1000 <=? lease_ms) && (lease_ms <=? 300000).

(** The record that [claim] and [record_attempt] read. *)
Definition live_record (id : string) (o : outbox) : res (option (string * OutboxRecord)) :=
  let* stem := outbox_path id in
  let* live := load_record o.(records) stem in
  match live with
  | None => Ok None
  | Some d => let* r := decode_record d in Ok (Some (stem, r))
  end.

(** [claim]; [lease] is the fresh lease id *)
Definition claim (now : Z) (id : string) (lease_ms override : Z) (force : bool) (lease : string)
  : op (option OutboxRecord) := fun o =>
  if negb (lease_ms_ok lease_ms) || (override <? 0) then (o, Err CommerceEnvelopeRejected) else
  match live_record id o with
  | Err x => (o, Err x)
  | Ok None => (o, Ok None)
  | Ok (Some (stem, r)) =>
    let current_ms := clock_ms now override in
    if not_claimable r current_ms force then (o, Ok None) else
    match save_record stem (claimed r lease (current_ms + lease_ms)) o with
    | (o, Ok r) => (o, Ok (Some r))
    | (o, Err x) => (o, Err x)
    end
  end.

(** The loop of [claim_pending]; [supply] gives the clock and the fresh lease
    id of the [n]-th claim. *)
Fixpoint claim_loop (lease_ms override : Z) (force : bool) (supply : nat -> Z * string) (n limit : nat)
    (stems : list string) : op (list OutboxRecord) := fun o =>
  match stems, limit with
  | [], _ | _, O => (o, Ok [])
  | stem :: stems', S limit' =>
    let (now, lease) := supply n in
    match claim now ("sha256:" ++ stem) lease_ms override force lease o with
    | (o, Ok (Some r)) =>
      let (o, rs) := claim_loop lease_ms override force supply (S n) limit' stems' o in (o, res_map (cons r) rs)
    | (o, Ok None) => claim_loop lease_ms override force supply (S n) limit stems' o
    | (o, Err x) =>
      if is_TypeOrValueError x then claim_loop lease_ms override force supply (S n) limit stems' o else (o, Err x)
    end
  end.

(** [claim_pending] *)
Definition claim_pending (limit lease_ms override : Z) (force : bool) (supply : nat -> Z * string)
  : op (list OutboxRecord) := fun o =>
  if negb ((1 <=? limit) && (limit <=? 1000)) || negb (lease_ms_ok lease_ms) || (override <? 0)
  then (o, Err CommerceEnvelopeRejected)
  else claim_loop lease_ms override force supply 0 (Z.to_nat limit) (sorted_stems o.(records)) o.

(** The record after an attempt to deliver it. *)
Definition attempted (r : OutboxRecord) (acknowledged_at_ms attempted_at_ms retry_after_ms : Z) (error : pyval)
    (retryable : bool) : OutboxRecord :=
  let status := if negb (acknowledged_at_ms =? 0) then "acknowledged" else if retryable then "pending" else "blocked" in
  let st s := String.eqb status s in
  {| ob_envelope := r.(ob_envelope); ob_target_url := r.(ob_target_url); ob_status := status;
     ob_attempts := r.(ob_attempts) + 1;
     ob_last_error := if st "acknowledged" then "" else normalize_outbox_error error retryable;
     ob_acknowledged_at_ms := if st "acknowledged" then acknowledged_at_ms else r.(ob_acknowledged_at_ms);
     ob_blocked_at_ms := if st "blocked" then attempted_at_ms else 0;
     ob_last_attempt_at_ms := attempted_at_ms;
     ob_next_attempt_at_ms := if st "pending" then attempted_at_ms + retry_after_ms else 0;
     ob_lease_id := ""; ob_lease_expires_at_ms := 0; ob_route_history := r.(ob_route_history) |}.

(** [record_attempt] *)
Definition record_attempt (now : Z) (id : string) (acknowledged_at_ms : Z) (error : pyval) (lease_id : string)
    (retry_after_ms override : Z) (retryable : bool) : op OutboxRecord := fun o =>
  if (acknowledged_at_ms <? 0) || negb ((0 <=? retry_after_ms) && (retry_after_ms <=? 86400000)) || (override <? 0)
  then (o, Err CommerceEnvelopeRejected) else
  match live_record id o with
  | Err x => (o, Err x)
  | Ok None => (o, Err CommerceEnvelopeRejected)
  | Ok (Some (stem, r)) =>
    if String.eqb r.(ob_status) "acknowledged" then (o, Ok r) else
    if String.eqb r.(ob_status) "inflight" && (String.eqb lease_id "" || negb (String.eqb lease_id r.(ob_lease_id)))
    then (o, Err CommerceEnvelopeRejected)
    else save_record stem (attempted r acknowledged_at_ms (clock_ms now override) retry_after_ms error retryable) o
  end.

(** ** The archive *)

(** Whether [archive_acknowledged] moves a record. *)
Definition archivable (before_ms : Z) (r : OutboxRecord) : bool :=
  String.eqb r.(ob_status) "acknowledged" && (0 <? r.(ob_acknowledged_at_ms)) && (r.(ob_acknowledged_at_ms) <? before_ms).

(** [path.replace(destination)] *)
Definition move_record (stem : string) (o : outbox) : outbox :=
  match o.(records) !! stem with
  | Some f => {| records := delete stem o.(records); archived := <[stem := f]> o.(archived) |}
  | None => o
  end.

Fixpoint archive_loop (before_ms : Z) (limit : nat) (stems : list string) : op (list string) := fun o =>
  match stems, limit with
  | [], _ | _, O => (o, Ok [])
  | stem :: stems', S limit' =>
    match readable o stem with
    | Err x => (o, Err x)
    | Ok (Some r) =>
      if negb (archivable before_ms r) then archive_loop before_ms limit stems' o else
      match o.(archived) !! stem with
      | Some _ => (o, Err CommerceEnvelopeRejected)
      | None =>
        let (o, ids) := archive_loop before_ms limit' stems' (move_record stem o) in
        (o, res_map (cons ("sha256:" ++ stem)) ids)
      end
    | Ok None => archive_loop before_ms limit stems' o
    end
  end.

(** [archive_acknowledged] *)
Definition archive_acknowledged (before_ms limit : Z) : op (list string) := fun o =>
  if (before_ms <=? 0) || negb ((1 <=? limit) && (limit <=? 1000)) then (o, Err CommerceEnvelopeRejected)
  else archive_loop before_ms (Z.to_nat limit) (sorted_stems o.(records)) o.
End Outbox.
