(* ===== verification/OutboxSpec.v ===== *)
(** * What the outbox promises

    The document of each envelope follows one delivery machine, whatever workers
    do to the outbox: nothing that was queued is lost or changed, an
    acknowledgement is final, and a lease keeps other workers away. *)

From Stdlib Require Import ZArith Lia Ascii String.
From stdpp Require Import base list strings gmap relations.
From S2P Require Import Prelude PyStr PyValue Json JsonAscii CanonicalJson B64u DidKey Sha256 Identity Store Projection PyOps Settlement DocFile Url Envelope EnvelopeSpec Outbox.

Local Open Scope string_scope.
Local Open Scope Z_scope.

#[local] Arguments pretty : simpl never.
#[local] Arguments same_keys : simpl never.
#[local] Arguments normal_url : simpl never.
#[local] Arguments normalize_target_url : simpl never.

(** Take conjunctions and existentials in the context apart. *)
Ltac split_hyps :=
  repeat match goal with H : _ /\ _ |- _ => destruct H | H : exists _, _ |- _ => destruct H end.

(** ** Error codes *)

(** An error code that is stored: none, or one of the public codes. *)
Definition code_ok (status e : string) : bool :=
  String.eqb e "" || (str_in e OUTBOX_ERROR_CODES && negb (String.eqb status "acknowledged")).

Lemma strip_code e : str_in e OUTBOX_ERROR_CODES = true -> py_strip e = e.
Proof.
  intros H%str_in_In. cbn [OUTBOX_ERROR_CODES In] in H.
  repeat (destruct H as [<-|H]; [vm_compute; reflexivity|]). done.
Qed.

Lemma normalize_in_codes v b : str_in (normalize_outbox_error v b) OUTBOX_ERROR_CODES = true.
Proof.
  unfold normalize_outbox_error. destruct v; try (by destruct b).
  destruct (str_in (py_strip s) OUTBOX_ERROR_CODES) eqn:E; [done|by destruct b].
Qed.

Lemma normalize_code e b : str_in e OUTBOX_ERROR_CODES = true -> normalize_outbox_error (PStr e) b = e.
Proof. intros H. unfold normalize_outbox_error. by rewrite (strip_code e H), H. Qed.

Lemma read_error_ok status e : code_ok status (read_error status e) = true.
Proof.
  unfold code_ok, read_error. destruct (String.eqb status "acknowledged") eqn:E; [done|]. cbn [orb].
  destruct (String.eqb e "") eqn:E2; [done|]. by rewrite normalize_in_codes, orb_true_r.
Qed.

Lemma read_error_id status e : code_ok status e = true -> read_error status e = e.
Proof.
  unfold code_ok, read_error. destruct (String.eqb_spec e "") as [->|]; [by rewrite orb_true_r|].
  cbn [orb]. intros [H Hs]%andb_true_iff. apply negb_true_iff in Hs. rewrite Hs. cbn [orb].
  by apply normalize_code.
Qed.

Lemma in_strings_str s l b : in_strings (PStr s) l = Ok b <-> str_in s l = b.
Proof. change (in_strings (PStr s) l) with (Ok (str_in s l)). split; [apply Ok_inj|by intros ->]. Qed.

Section Records.
Context `{N : NetlocRules}.

(** ** Well-formed records *)

Definition naturals (r : OutboxRecord) : bool :=
  (0 <=? r.(ob_attempts)) && (0 <=? r.(ob_acknowledged_at_ms)) && (0 <=? r.(ob_blocked_at_ms)) &&
  (0 <=? r.(ob_last_attempt_at_ms)) && (0 <=? r.(ob_next_attempt_at_ms)) && (0 <=? r.(ob_lease_expires_at_ms)).

Definition history_ok (h : option (list pyval)) : bool :=
  match h with None => true | Some l => Nat.leb (List.length l) 20 && forallb route_item_ok l end.

Definition record_ok (r : OutboxRecord) : bool :=
  str_in r.(ob_status) STATUSES && normal_url (PStr r.(ob_target_url)) && naturals r &&
  code_ok r.(ob_status) r.(ob_last_error) && history_ok r.(ob_route_history) && status_consistent r.

Lemma natural_Some v z : natural v = Some z -> v = PInt z /\ (0 <=? z) = true.
Proof.
  unfold natural, as_int. destruct v; try done. destruct (0 <=? _) eqn:E; [|done]. by intros [= ->].
Qed.

Lemma natural_PInt z : (0 <=? z) = true -> natural (PInt z) = Some z.
Proof. unfold natural. cbn [as_int]. by intros ->. Qed.

Lemma route_history_Some v h : route_history v = Some h ->
  history_ok h = true /\ v = match h with None => PNone | Some l => PList l end.
Proof.
  unfold route_history. destruct v; try done; [by intros [= <-]|].
  destruct (_ && _) eqn:E; [|done]. by intros [= <-].
Qed.

Lemma route_history_ok h : history_ok h = true ->
  route_history match h with None => PNone | Some l => PList l end = Some h.
Proof. destruct h as [l|]; [|done]. cbn [history_ok route_history]. by intros ->. Qed.

(** What is decoded is well formed, *)
Lemma decode_record_ok d r : decode_record d = Ok r -> record_ok r = true.
Proof.
  unfold decode_record. intros H. inv_guards H. apply Ok_inj in H as <-. unfold record_ok, naturals.
  cbn [ob_status ob_target_url ob_attempts ob_acknowledged_at_ms ob_blocked_at_ms ob_last_attempt_at_ms
       ob_next_attempt_at_ms ob_lease_expires_at_ms ob_last_error ob_route_history].
  repeat match goal with
  | G : natural _ = Some _ |- _ => apply natural_Some in G as [_ ->]
  | G : route_history _ = Some _ |- _ => apply route_history_Some in G as [-> _]
  | G : status_consistent _ = true |- _ => rewrite G
  | G : normal_url _ = true |- _ => rewrite G
  end.
  rewrite read_error_ok, !andb_true_r. subst. by apply in_strings_str.
Qed.

(** and a well-formed record is read back as it was written. *)
Lemma decode_record_dict r : record_ok r = true -> decode_record (record_dict r) = Ok r.
Proof.
  unfold record_ok, naturals. rewrite !andb_true_iff.
  intros (((((Hs & Hu) & Hn) & Hc) & Hh) & Hst). destruct Hn as (((((H1 & H2) & H3) & H4) & H5) & H6).
  unfold decode_record.
  change (forallb _ (dict_keys (record_dict r))) with true. cbn [negb].
  change (dict_get "envelope" (record_dict r)) with (Some (PDict r.(ob_envelope))).
  change (dict_get "target_url" (record_dict r)) with (Some (PStr r.(ob_target_url))). cbv beta iota zeta.
  change (get_default "status" _ _) with (PStr r.(ob_status)).
  change (get_default "attempts" _ _) with (PInt r.(ob_attempts)).
  change (get_default "last_error" _ _) with (PStr r.(ob_last_error)).
  change (get_default "lease_id" _ _) with (PStr r.(ob_lease_id)).
  change (get_default "acknowledged_at_ms" _ _) with (PInt r.(ob_acknowledged_at_ms)).
  change (get_default "blocked_at_ms" _ _) with (PInt r.(ob_blocked_at_ms)).
  change (get_default "last_attempt_at_ms" _ _) with (PInt r.(ob_last_attempt_at_ms)).
  change (get_default "next_attempt_at_ms" _ _) with (PInt r.(ob_next_attempt_at_ms)).
  change (get_default "lease_expires_at_ms" _ _) with (PInt r.(ob_lease_expires_at_ms)).
  change (get_default "route_history" _ _) with (match r.(ob_route_history) with None => PNone | Some l => PList l end).
  rewrite (proj2 (in_strings_str _ _ _) Hs). cbn [res_bind]. rewrite Hu, !natural_PInt, route_history_ok, read_error_id by done. cbv beta iota zeta.
  match goal with |- context [status_consistent ?x] => assert (x = r) as -> by (by destruct r) end.
  by rewrite Hst.
Qed.

(** Two records with the same document are the same. *)
Lemma record_dict_inj r r' : record_dict r = record_dict r' -> r = r'.
Proof.
  destruct r, r'. unfold record_dict. cbn. intros [= -> -> -> -> -> -> -> -> -> -> -> H]. f_equal.
  repeat case_match; congruence.
Qed.
End Records.

(** ** The delivery machine of one envelope *)

Section Machine.
Context `{Ed : Ed25519} `{N : NetlocRules}.

(** Where the record of an envelope is. *)
Inductive place :=
| Absent
| Live (r : OutboxRecord)
| Archived (r : OutboxRecord).

Inductive label :=
| LQueue
| LRetarget
| LClaim (current_ms : Z) (force : bool) (lease : string)
| LAttempt (lease : string)
| LArchive.

Lemma envelope_dids e w : verify_envelope e = Ok (true, w) ->
  is_did_key e.(env_source_did) = true /\ is_did_key e.(env_target_did) = true.
Proof.
  unfold verify_envelope, validate_envelope. intros H%run_body_true.
  apply res_bind_Ok in H as (? & _ & H). apply res_bind_Ok in H as (? & H%check_Ok & _).
  by apply andb_true_iff in H.
Qed.

(** A validly signed envelope with the message id of a document. *)
Definition names (stem : string) (envelope : list (string * pyval)) : Prop :=
  exists e w, envelope_from_dict (PDict envelope) = Ok e /\ verify_envelope e = Ok (true, w) /\
    e.(env_message_id) = PStr ("sha256:" ++ stem).

Inductive delivery_step (stem : string) : label -> place -> place -> Prop :=
| step_queue e url :
    names stem (envelope_to_dict e) -> normal_url (PStr url) = true ->
    delivery_step stem LQueue Absent (Live (new_record (envelope_to_dict e) url))
| step_retarget r e url t :
    In r.(ob_status) ["pending"; "blocked"] -> normal_url (PStr url) = true -> url <> r.(ob_target_url) -> 0 < t ->
    envelope_from_dict (PDict r.(ob_envelope)) = Ok e ->
    delivery_step stem LRetarget (Live r) (Live (retargeted r e.(env_target_did) url t))
| step_claim r t force lease expires :
    not_claimable r t force = false -> 0 < t < expires -> lease <> "" ->
    delivery_step stem (LClaim t force lease) (Live r) (Live (claimed r lease expires))
| step_attempt r lease acknowledged_at t retry error retryable :
    r.(ob_status) <> "acknowledged" -> (r.(ob_status) = "inflight" -> lease = r.(ob_lease_id)) ->
    0 <= acknowledged_at -> 0 < t -> 0 <= retry ->
    delivery_step stem (LAttempt lease) (Live r) (Live (attempted r acknowledged_at t retry error retryable))
| step_archive r :
    r.(ob_status) = "acknowledged" -> delivery_step stem LArchive (Live r) (Archived r).

(** A record that a document can hold. *)
Definition sound (stem : string) (r : OutboxRecord) : Prop := record_ok r = true /\ names stem r.(ob_envelope).

Definition place_sound (stem : string) (p : place) : Prop :=
  match p with
  | Absent => True
  | Live r => sound stem r
  | Archived r => sound stem r /\ r.(ob_status) = "acknowledged"
  end.

Lemma record_ok_cases r : record_ok r = true <->
  str_in r.(ob_status) STATUSES = true /\ normal_url (PStr r.(ob_target_url)) = true /\ naturals r = true /\
  code_ok r.(ob_status) r.(ob_last_error) = true /\ history_ok r.(ob_route_history) = true /\
  status_consistent r = true.
Proof. unfold record_ok. rewrite !andb_true_iff. tauto. Qed.

Lemma naturals_cases r : naturals r = true <->
  0 <= r.(ob_attempts) /\ 0 <= r.(ob_acknowledged_at_ms) /\ 0 <= r.(ob_blocked_at_ms) /\
  0 <= r.(ob_last_attempt_at_ms) /\ 0 <= r.(ob_next_attempt_at_ms) /\ 0 <= r.(ob_lease_expires_at_ms).
Proof. unfold naturals. rewrite !andb_true_iff, !Z.leb_le. tauto. Qed.

Lemma code_ok_live s s' e : s' <> "acknowledged" -> code_ok s e = true -> code_ok s' e = true.
Proof.
  unfold code_ok. intros Hs. destruct (String.eqb e ""); [done|]. cbn [orb]. intros [-> _]%andb_true_iff.
  by apply negb_true_iff, String.eqb_neq.
Qed.

Lemma normalized_code_ok s v b : s <> "acknowledged" -> code_ok s (normalize_outbox_error v b) = true.
Proof.
  intros Hs. unfold code_ok. rewrite normalize_in_codes. apply orb_true_iff. right.
  by apply negb_true_iff, String.eqb_neq.
Qed.

Lemma new_record_ok d url : normal_url (PStr url) = true -> record_ok (new_record d url) = true.
Proof. intros H. apply record_ok_cases. split_and!; done. Qed.

Lemma claimed_ok r lease expires :
  record_ok r = true -> lease <> "" -> 0 < expires -> record_ok (claimed r lease expires) = true.
Proof.
  rewrite !record_ok_cases, !naturals_cases. intros (Hs & Hu & Hn & Hc & Hh & _) Hl He.
  cbn [claimed ob_status ob_target_url ob_attempts ob_acknowledged_at_ms ob_blocked_at_ms ob_last_attempt_at_ms
       ob_next_attempt_at_ms ob_lease_expires_at_ms ob_last_error ob_route_history].
  split_and!; try done; try lia.
  - by eapply code_ok_live.
  - unfold status_consistent. cbn [claimed ob_status ob_lease_id ob_lease_expires_at_ms].
    rewrite (proj2 (String.eqb_neq lease "") Hl), (proj2 (Z.leb_gt expires 0)) by lia. done.
Qed.

Lemma attempted_ok r acknowledged_at t retry error retryable :
  record_ok r = true -> 0 <= acknowledged_at -> 0 < t -> 0 <= retry ->
  record_ok (attempted r acknowledged_at t retry error retryable) = true.
Proof.
  rewrite !record_ok_cases, !naturals_cases. intros (Hs & Hu & Hn & Hc & Hh & _) Ha Ht Hr.
  unfold attempted, status_consistent.
  destruct (Z.eqb_spec acknowledged_at 0) as [->|Hne]; cbn [negb];
    [destruct retryable|]; cbn -[normalize_outbox_error code_ok STATUSES history_ok Z.leb];
    (split_and!; try done; try lia; try (by apply normalized_code_ok)).
Qed.

Lemma forallb_drop {A} (f : A -> bool) n l : forallb f l = true -> forallb f (drop n l) = true.
Proof. rewrite !forallb_Forall. apply Forall_drop. Qed.

Lemma retargeted_ok r e w url t :
  record_ok r = true -> verify_envelope e = Ok (true, w) -> normal_url (PStr url) = true -> 0 < t ->
  record_ok (retargeted r e.(env_target_did) url t) = true.
Proof.
  rewrite !record_ok_cases, !naturals_cases. intros (Hs & Hu & Hn & Hc & Hh & _) Hv Hurl Ht.
  cbn -[normalize_outbox_error code_ok STATUSES history_ok Z.leb]. split_and!; try done; try lia.
  cbn [history_ok]. apply andb_true_iff. split.
  - apply Nat.leb_le. rewrite length_drop. lia.
  - apply forallb_drop. rewrite forallb_app. apply andb_true_iff. split.
    { destruct (ob_route_history r); [|done]. by apply andb_true_iff in Hh as [_ Hh]. }
    cbn [forallb route_item_ok]. rewrite andb_true_r, !andb_true_iff. split_and!; try done.
    + apply envelope_dids in Hv as [_ Hv]. exact Hv.
    + by apply Z.ltb_lt.
Qed.

(** Every step leads to a record that a document can hold. *)
Lemma step_sound stem l p p' : delivery_step stem l p p' -> place_sound stem p -> place_sound stem p'.
Proof.
  destruct 1 as [e url Hn Hu|r e url t Hs Hu _ Ht He|r t force lease expires Hc Ht Hl|r lease a t retry error b Hs Hl Ha Ht Hr|r Hs];
    cbn [place_sound]; unfold sound.
  - intros _. split; [by apply new_record_ok|exact Hn].
  - intros [Hok Hn]. split; [|exact Hn]. destruct Hn as (e' & w & He' & Hv & _). rewrite He in He'.
    apply Ok_inj in He' as <-. by eapply retargeted_ok.
  - intros [Hok Hn]. split; [|exact Hn]. apply claimed_ok; [done..|lia].
  - intros [Hok Hn]. split; [|exact Hn]. by apply attempted_ok.
  - done.
Qed.
End Machine.

(** ** The outbox implements the machine *)

Section Refinement.
Context `{Ed : Ed25519} `{N : NetlocRules} `{Ft : FloatText}.

(** A document that holds a record. *)
Definition holds (stem : string) (f : docfile) (r : OutboxRecord) : Prop :=
  write_document (PDict (record_dict r)) = Ok f /\ sound stem r.

Definition at_place (o : outbox) (stem : string) (p : place) : Prop :=
  match p with
  | Absent => o.(records) !! stem = None /\ o.(archived) !! stem = None
  | Live r => (exists f, o.(records) !! stem = Some f /\ holds stem f r) /\ o.(archived) !! stem = None
  | Archived r => o.(records) !! stem = None /\
    (exists f, o.(archived) !! stem = Some f /\ holds stem f r) /\ r.(ob_status) = "acknowledged"
  end.

Definition inv (o : outbox) : Prop := forall stem, exists p, at_place o stem p.

Lemma holds_inj stem f r r' : holds stem f r -> holds stem f r' -> r = r'.
Proof.
  intros [(_ & _ & ->)%write_document_Ok _] [(_ & _ & E)%write_document_Ok _]. apply record_dict_inj.
  apply (f_equal df_value) in E. cbn [written df_value] in E. congruence.
Qed.

Lemma at_place_inj o stem p p' : at_place o stem p -> at_place o stem p' -> p = p'.
Proof.
  destruct p, p'; cbn [at_place]; intros; split_hyps; simplify_eq; try done;
    f_equal; by eapply holds_inj.
Qed.

Lemma at_place_sound o stem p : at_place o stem p -> place_sound stem p.
Proof. destruct p; cbn; [done|by intros [(f & _ & _ & H) _]|by intros (_ & (f & _ & _ & H) & ?)]. Qed.

(** The records that [P]-labelled steps lead to. *)
Definition follows (P : label -> Prop) (stem : string) : relation place :=
  rtc (fun p p' => exists l, P l /\ delivery_step stem l p p').

(** From one outbox to another, every document follows the machine. *)
Definition steps (P : label -> Prop) (o o' : outbox) : Prop :=
  forall stem p, at_place o stem p -> exists p', at_place o' stem p' /\ follows P stem p p'.

Global Instance steps_preorder P : PreOrder (steps P).
Proof.
  split; [intros o stem p Hp; exists p; split; [done|apply rtc_refl]|].
  intros o1 o2 o3 H1 H2 stem p Hp. destruct (H1 stem p Hp) as (p2 & Hp2 & Hf1).
  destruct (H2 stem p2 Hp2) as (p3 & Hp3 & Hf2). exists p3. split; [done|]. unfold follows in *. by etrans.
Qed.

Lemma steps_inv P o o' : steps P o o' -> inv o -> inv o'.
Proof. intros H Ho stem. destruct (Ho stem) as [p Hp]. destruct (H stem p Hp) as (p' & Hp' & _). eauto. Qed.

Lemma steps_weaken (P Q : label -> Prop) o o' : (forall l, P l -> Q l) -> steps P o o' -> steps Q o o'.
Proof.
  intros HPQ H stem p Hp. destruct (H stem p Hp) as (p' & Hp' & Hf). exists p'. split; [done|].
  eapply rtc_subrel; [|exact Hf]. intros ? ? (l & Hl & Hs). exists l. eauto.
Qed.

(** Writing a record that one step leads to. *)
Lemma put_at_place o stem l p r' f :
  at_place o stem p -> delivery_step stem l p (Live r') -> write_document (PDict (record_dict r')) = Ok f ->
  at_place (put_record stem f o) stem (Live r').
Proof.
  intros Hp Hs Hf. cbn [at_place put_record records archived]. split.
  - eexists. split; [apply lookup_insert_eq|]. split; [done|].
    exact (step_sound _ _ _ _ Hs (at_place_sound _ _ _ Hp)).
  - inversion Hs; subst; cbn [at_place] in Hp; tauto.
Qed.

Lemma put_steps (P : label -> Prop) o stem l p r' f :
  P l -> at_place o stem p -> delivery_step stem l p (Live r') -> write_document (PDict (record_dict r')) = Ok f ->
  steps P o (put_record stem f o).
Proof.
  intros HP Hp Hs Hf stem' q Hq. destruct (decide (stem' = stem)) as [->|Hne].
  - rewrite (at_place_inj _ _ _ _ Hq Hp). exists (Live r'). split; [exact (put_at_place _ _ _ _ _ _ Hp Hs Hf)|].
    apply rtc_once. eauto.
  - exists q. split; [|apply rtc_refl].
    destruct q; cbn [at_place put_record records archived] in *; by rewrite !lookup_insert_ne.
Qed.

Lemma save_steps (P : label -> Prop) o stem l p r' o' x :
  P l -> at_place o stem p -> delivery_step stem l p (Live r') -> save_record stem r' o = (o', x) -> steps P o o'.
Proof.
  unfold save_record. intros HP Hp Hs E. destruct (write_document _) as [f|] eqn:Hw; injection E as <- <-; [|done].
  by eapply put_steps.
Qed.

(** What [_load_record] finds under a stem. *)
Lemma load_written m stem f r d :
  m !! stem = Some f -> holds stem f r -> load_record m stem = Ok (Some d) -> d = record_dict r /\ decode_record d = Ok r.
Proof.
  unfold load_record. intros -> [(_ & _ & ->)%write_document_Ok [Hok _]]. cbn [written df_size df_value]. case_match; [done|].
  intros [= <-]. split; [done|]. by apply decode_record_dict.
Qed.

Lemma load_none m stem : load_record m stem = Ok None <-> m !! stem = None.
Proof. unfold load_record. destruct (m !! stem); [|done]. repeat case_match; done. Qed.

Lemma load_live o stem d : inv o -> load_record o.(records) stem = Ok (Some d) ->
  exists r, at_place o stem (Live r) /\ d = record_dict r /\ decode_record d = Ok r.
Proof.
  intros Ho Hd. destruct (Ho stem) as [p Hp]. pose proof Hp as Hp'.
  destruct p as [|r|r]; cbn [at_place] in Hp.
  - destruct Hp as [Hp%load_none _]. congruence.
  - destruct Hp as ((f & Hf & Hh) & _). exists r. split; [done|]. by eapply load_written.
  - destruct Hp as [Hp%load_none _]. congruence.
Qed.

Lemma load_archived o stem d : inv o -> load_record o.(archived) stem = Ok (Some d) ->
  exists r, at_place o stem (Archived r) /\ d = record_dict r /\ decode_record d = Ok r.
Proof.
  intros Ho Hd. destruct (Ho stem) as [p Hp]. pose proof Hp as Hp'.
  destruct p as [|r|r]; cbn [at_place] in Hp.
  - destruct Hp as [_ Hp%load_none]. congruence.
  - destruct Hp as [_ Hp%load_none]. congruence.
  - destruct Hp as (_ & (f & Hf & Hh) & _). exists r. split; [done|]. by eapply load_written.
Qed.

(** The path of a message id. *)
Lemma outbox_path_Ok id stem : outbox_path id = Ok stem -> id = "sha256:" ++ stem.
Proof.
  unfold outbox_path, is_digest. destruct (_ && _) eqn:E; [|done]. intros [= <-].
  rewrite !andb_true_iff in E. destruct E as ((_ & Hp) & _). apply prefix_true_iff in Hp as [t ->].
  pose proof (str_drop_app "sha256:" t) as Ed'. cbn [String.length] in Ed'. by rewrite Ed'.
Qed.

Lemma clock_positive now override : 0 < now -> (override <? 0) = false -> 0 < clock_ms now override.
Proof. intros Hn Ho%Z.ltb_ge. unfold clock_ms. destruct (Z.eqb_spec override 0); lia. Qed.

Lemma live_record_Ok o id stem r : inv o -> live_record id o = Ok (Some (stem, r)) ->
  id = "sha256:" ++ stem /\ at_place o stem (Live r).
Proof.
  intros Ho (stem' & Hp & E)%res_bind_Ok. apply res_bind_Ok in E as (live & Hd & E).
  destruct live as [d|]; [|done]. apply res_bind_Ok in E as (r' & Hr & E). injection E as -> ->.
  destruct (load_live _ _ _ Ho Hd) as (r' & Hat & -> & Hr'). rewrite Hr in Hr'. injection Hr' as <-.
  split; [by apply outbox_path_Ok|done].
Qed.

Lemma claim_steps P now id lease_ms override force lease o :
  inv o -> 0 < now -> lease <> "" -> P (LClaim (clock_ms now override) force lease) ->
  steps P o (claim now id lease_ms override force lease o).1.
Proof.
  intros Ho Hn Hl HP. unfold claim.
  destruct (negb (lease_ms_ok lease_ms)) eqn:G1; [done|]. destruct (override <? 0) eqn:G2; [done|]. cbn [orb].
  destruct (live_record id o) as [[[stem r]|]|x] eqn:E; [|done|done].
  apply (live_record_Ok _ _ _ _ Ho) in E as [_ Hat].
  destruct (not_claimable r _ force) eqn:Hc; [done|].
  pose proof (clock_positive now override Hn G2) as Hclock.
  destruct (save_record _ _ o) as [o' [r'|x]] eqn:Hs; cbn [fst];
    (eapply save_steps; [exact HP|exact Hat| |exact Hs]);
    (apply step_claim; [done| |done]); unfold lease_ms_ok in G1; bool_to_prop; lia.
Qed.

Lemma claim_loop_steps P lease_ms override force supply n limit stems o :
  (forall k, 0 < (supply k).1 /\ (supply k).2 <> "" /\ P (LClaim (clock_ms (supply k).1 override) force (supply k).2)) ->
  inv o -> steps P o (claim_loop lease_ms override force supply n limit stems o).1.
Proof.
  intros Hsup. revert n limit o. induction stems as [|stem stems IH]; intros n limit o Ho; [by destruct limit|].
  destruct limit as [|limit]; [done|]. cbn [claim_loop]. pose proof (Hsup n) as (H1 & H2 & H3).
  destruct (supply n) as [now lease]. cbn [fst snd] in *.
  pose proof (claim_steps P now ("sha256:" ++ stem) lease_ms override force lease o Ho H1 H2 H3) as Hc.
  destruct (claim _ _ _ _ _ _ o) as [o' [[r|]|x]]; cbn [fst] in Hc.
  - pose proof (IH (S n) limit o' (steps_inv _ _ _ Hc Ho)) as H. destruct (claim_loop _ _ _ _ _ _ _ o').
    etrans; [exact Hc|exact H].
  - etrans; [exact Hc|]. apply IH. by eapply steps_inv.
  - destruct (is_TypeOrValueError x); [|exact Hc]. etrans; [exact Hc|]. apply IH. by eapply steps_inv.
Qed.

Lemma record_attempt_steps P now id acknowledged_at error lease_id retry override retryable o :
  inv o -> 0 < now -> P (LAttempt lease_id) ->
  steps P o (record_attempt now id acknowledged_at error lease_id retry override retryable o).1.
Proof.
  intros Ho Hn HP. unfold record_attempt.
  destruct (acknowledged_at <? 0) eqn:G1; [done|]. destruct (negb ((0 <=? retry) && _)) eqn:G2; [done|].
  destruct (override <? 0) eqn:G3; [done|]. cbn [orb].
  destruct (live_record id o) as [[[stem r]|]|x] eqn:E; [|done|done].
  apply (live_record_Ok _ _ _ _ Ho) in E as [_ Hat].
  destruct (String.eqb (ob_status r) "acknowledged") eqn:Ha; [done|].
  destruct (String.eqb (ob_status r) "inflight" && _) eqn:Hi; [done|].
  destruct (save_record _ _ o) as [o' x] eqn:Hs. cbn [fst].
  pose proof (clock_positive now override Hn G3) as Hclock.
  eapply save_steps; [exact HP|exact Hat| |exact Hs]. clear Hs. apply negb_false_iff in G2. bool_to_prop.
  apply step_attempt; [done| |lia|done|lia].
  intros Hs'. rewrite Hs' in Hi. cbn [String.eqb andb] in Hi.
  apply orb_false_iff in Hi as [_ Hi]. apply negb_false_iff in Hi. by apply String.eqb_eq.
Qed.

Lemma get_unchanged id o : inv o -> (get id o).1 = o.
Proof.
  intros Ho. unfold get. destruct (find_document id o) as [[[[put d] r]|]|x] eqn:E; [|done|done].
  apply res_bind_Ok in E as (stem' & Hp & E). apply res_bind_Ok in E as (live & Hd & E).
  assert (d = record_dict r) as ->.
  { destruct live as [d'|].
    - apply res_bind_Ok in E as (r' & Hr & E). injection E as _ -> ->.
      destruct (load_live _ _ _ Ho Hd) as (r' & _ & -> & Hr'). congruence.
    - apply res_bind_Ok in E as (old & Hd' & E). destruct old as [d'|]; [|done].
      apply res_bind_Ok in E as (r' & Hr & E). injection E as _ -> ->.
      destruct (load_archived _ _ _ Ho Hd') as (r' & _ & -> & Hr'). congruence. }
  change (get_or_none "last_error" (record_dict r)) with (PStr (ob_last_error r)). cbn [py_eqb].
  by rewrite String.eqb_refl.
Qed.

Lemma normalized_is_normal v u :
  (forall s, v = PStr s -> is_text s = true) -> normalize_target_url v = Ok u -> normal_url (PStr u) = true.
Proof.
  intros Ht H. unfold normal_url. rewrite (normalize_idempotent _ _ Ht H). cbn [py_eqb]. apply String.eqb_refl.
Qed.

Lemma envelope_round_trip e : envelope_from_dict (PDict (envelope_to_dict e)) = Ok e.
Proof. by destruct e. Qed.

Lemma enqueue_existing_steps e url allow t d x : enqueue_existing e url allow t d = Ok (inr x) ->
  exists r e', decode_record d = Ok r /\ envelope_from_dict (get_or_none "envelope" d) = Ok e' /\
    In r.(ob_status) ["pending"; "blocked"] /\ r.(ob_target_url) <> url /\
    x = retargeted r e'.(env_target_did) url t.
Proof.
  unfold enqueue_existing. intros H. apply res_bind_Ok in H as (e' & He' & H).
  apply res_bind_Ok in H as ([ok w] & _ & H). destruct ok; [|done]. cbn [negb] in H.
  destruct (negb _); [done|]. apply res_bind_Ok in H as (r & Hr & H).
  destruct (String.eqb (ob_status r) "acknowledged"); [by repeat case_match|].
  destruct (String.eqb_spec (ob_target_url r) url) as [|Hne]; [done|]. destruct allow; [|done]. cbn [negb] in H.
  destruct (str_in _ _) eqn:Hs; [|done]. injection H as <-. exists r, e'. split_and!; try done. by apply str_in_In.
Qed.

Lemma enqueue_steps (P : label -> Prop) now e target_url allow override o :
  inv o -> 0 < now -> (forall s, target_url = PStr s -> is_text s = true) -> P LQueue -> P LRetarget ->
  steps P o (enqueue now e target_url allow override o).1.
Proof.
  intros Ho Hn Ht HQ HR. unfold enqueue.
  destruct (enqueue_plan now e target_url allow override o) as [[stem [x|x]]|x] eqn:E; [done| |done].
  destruct (save_record stem x o) as [o' y] eqn:Hs. cbn [fst]. unfold enqueue_plan in E.
  apply res_bind_Ok in E as ([ok w] & Hv & E). destruct ok; [|done]. cbn [negb] in E.
  apply res_bind_Ok in E as (url & Hu%normalized_is_normal & E); [|done].
  destruct (override <? 0) eqn:Hov; [done|]. apply res_bind_Ok in E as (stem' & Hid & E).
  apply res_bind_Ok in E as (live & Hl & E). apply res_bind_Ok in E as (current & Hc & E).
  apply res_bind_Ok in E as (todo & Hx & E). injection E as -> ->.
  destruct current as [d|].
  - apply enqueue_existing_steps in Hx as (r & e' & Hr & He' & Hst & Hne & ->). destruct live as [d'|].
    + injection Hc as ->. destruct (load_live _ _ _ Ho Hl) as (r' & Hat & -> & Hr').
      rewrite Hr in Hr'. injection Hr' as <-. eapply save_steps; [exact HR|exact Hat| |exact Hs].
      apply step_retarget; [done..|by apply clock_positive|exact He'].
    + destruct (load_archived _ _ _ Ho Hc) as (r' & Hat & -> & Hr'). rewrite Hr in Hr'. injection Hr' as <-.
      exfalso. destruct Hat as (_ & _ & Ha). rewrite Ha in Hst. by repeat destruct Hst as [?|Hst].
  - injection Hx as <-. destruct live as [d'|]; [done|]. apply load_none in Hl, Hc.
    eapply (save_steps P o stem LQueue Absent); [exact HQ|done| |exact Hs].
    apply step_queue; [|done]. exists e, w. split_and!; [apply envelope_round_trip|done|].
    destruct (env_message_id e); try done. by apply outbox_path_Ok in Hid as ->.
Qed.

Lemma readable_Ok o stem r : inv o -> readable o stem = Ok (Some r) -> at_place o stem (Live r).
Proof.
  intros Ho H. unfold readable in H. apply try_except_Ok in H as [H|(? & _ & _ & ?)]; [|done].
  apply res_bind_Ok in H as (d & Hd & H). destruct d as [d|]; [|done].
  destruct (load_live _ _ _ Ho Hd) as (r' & Hat & -> & Hr'). rewrite Hr' in H. by injection H as <-.
Qed.

Lemma move_steps (P : label -> Prop) o stem r :
  P LArchive -> at_place o stem (Live r) -> r.(ob_status) = "acknowledged" -> steps P o (move_record stem o).
Proof.
  intros HP Hat Hs stem' q Hq. pose proof Hat as ((f & Hf & Hh) & Ha). unfold move_record. rewrite Hf.
  destruct (decide (stem' = stem)) as [->|Hne].
  - rewrite (at_place_inj _ _ _ _ Hq Hat). exists (Archived r). split.
    + cbn [at_place records archived]. split_and!; [apply lookup_delete_eq| |done].
      exists f. split; [apply lookup_insert_eq|done].
    + apply rtc_once. exists LArchive. split; [done|by apply step_archive].
  - exists q. split; [|apply rtc_refl].
    destruct q; cbn [at_place records archived] in *; by rewrite lookup_delete_ne, lookup_insert_ne by done.
Qed.

Lemma archive_loop_steps (P : label -> Prop) before_ms limit stems o :
  P LArchive -> inv o -> steps P o (archive_loop before_ms limit stems o).1.
Proof.
  intros HP. revert limit o. induction stems as [|stem stems IH]; intros limit o Ho; [by destruct limit|].
  destruct limit as [|limit]; [done|]. cbn [archive_loop].
  destruct (readable o stem) as [[r|]|x] eqn:Hr; [|by apply IH|done].
  destruct (archivable before_ms r) eqn:Ha; cbn [negb]; [|by apply IH].
  destruct (archived o !! stem); [done|]. apply (readable_Ok _ _ _ Ho) in Hr.
  assert (r.(ob_status) = "acknowledged") as Hs by (unfold archivable in Ha; by bool_to_prop).
  pose proof (move_steps P o stem r HP Hr Hs) as Hm.
  pose proof (IH limit (move_record stem o) (steps_inv _ _ _ Hm Ho)) as H.
  destruct (archive_loop before_ms limit stems (move_record stem o)). etrans; [exact Hm|exact H].
Qed.

(** Archiving finds no document in its way. *)
Lemma archive_loop_total before_ms limit stems o :
  inv o -> exists ids, (archive_loop before_ms limit stems o).2 = Ok ids.
Proof.
  revert limit o. induction stems as [|stem stems IH]; intros limit o Ho; [destruct limit; by eexists|].
  destruct limit as [|limit]; [by eexists|]. cbn [archive_loop].
  destruct (readable o stem) as [[r|]|x] eqn:Hr; [|by apply IH|].
  - destruct (archivable before_ms r) eqn:Ha; cbn [negb]; [|by apply IH].
    apply (readable_Ok _ _ _ Ho) in Hr. pose proof Hr as (_ & ->).
    assert (r.(ob_status) = "acknowledged") as Hs by (unfold archivable in Ha; by bool_to_prop).
    pose proof (move_steps (fun _ => True) o stem r I Hr Hs) as Hm.
    destruct (IH limit (move_record stem o) (steps_inv _ _ _ Hm Ho)) as [ids Hids].
    destruct (archive_loop before_ms limit stems (move_record stem o)) as [o' x]. cbn [snd] in *. subst x. by eexists.
  - exfalso. unfold readable in Hr. destruct (load_record (records o) stem) as [[d|]|y] eqn:Hd; [|done|].
    + destruct (load_live _ _ _ Ho Hd) as (r & _ & -> & Hr'). cbn [res_bind] in Hr. by rewrite Hr' in Hr.
    + unfold load_record in Hd. repeat case_match; simplify_eq.
Qed.
End Refinement.

(** ** Runs of workers *)

(** One call of an operation, by any worker, with what the environment supplies. *)
Inductive outbox_op :=
| OpEnqueue (now : Z) (e : CommerceEnvelope) (target_url : pyval) (allow_retarget : bool) (override : Z)
| OpGet (id : string)
| OpClaim (now : Z) (id : string) (lease_ms override : Z) (force : bool) (lease : string)
| OpClaimPending (limit lease_ms override : Z) (force : bool) (supply : nat -> Z * string)
| OpRecordAttempt (now : Z) (id : string) (acknowledged_at_ms : Z) (error : pyval) (lease_id : string)
    (retry_after_ms override : Z) (retryable : bool)
| OpArchive (before_ms limit : Z).

Section Runs.
Context `{Ed : Ed25519} `{N : NetlocRules} `{Ft : FloatText}.

Definition apply_op (p : outbox_op) (o : outbox) : outbox :=
  match p with
  | OpEnqueue now e url allow override => (enqueue now e url allow override o).1
  | OpGet id => (get id o).1
  | OpClaim now id lease_ms override force lease => (claim now id lease_ms override force lease o).1
  | OpClaimPending limit lease_ms override force supply => (claim_pending limit lease_ms override force supply o).1
  | OpRecordAttempt now id acknowledged_at error lease_id retry override retryable =>
    (record_attempt now id acknowledged_at error lease_id retry override retryable o).1
  | OpArchive before_ms limit => (archive_acknowledged before_ms limit o).1
  end.

Definition run_ops (ops : list outbox_op) (o : outbox) : outbox := fold_left (fun o p => apply_op p o) ops o.

(** What the environment guarantees: the clock is positive, a fresh lease id is
    not empty, and a URL is text. *)
Definition op_valid (p : outbox_op) : Prop :=
  match p with
  | OpEnqueue now _ url _ _ => 0 < now /\ forall s, url = PStr s -> is_text s = true
  | OpGet _ | OpArchive _ _ => True
  | OpClaim now _ _ _ _ lease => 0 < now /\ lease <> ""
  | OpClaimPending _ _ _ _ supply => forall n, 0 < (supply n).1 /\ (supply n).2 <> ""
  | OpRecordAttempt now _ _ _ _ _ _ _ => 0 < now
  end.

(** The steps of the delivery machine a call can make. *)
Definition permits (p : outbox_op) (l : label) : Prop :=
  match p, l with
  | OpEnqueue _ _ _ _ _, (LQueue | LRetarget) => True
  | OpClaim now _ _ override force lease, LClaim t f id => t = clock_ms now override /\ f = force /\ id = lease
  | OpClaimPending _ _ override force supply, LClaim t f id =>
    exists n, t = clock_ms (supply n).1 override /\ f = force /\ id = (supply n).2
  | OpRecordAttempt _ _ _ _ lease_id _ _ _, LAttempt id => id = lease_id
  | OpArchive _ _, LArchive => True
  | _, _ => False
  end.

Lemma op_steps p o : inv o -> op_valid p -> steps (permits p) o (apply_op p o).
Proof.
  intros Ho. destruct p; cbn [op_valid apply_op].
  - intros [Hn Ht]. by apply enqueue_steps.
  - intros _. by rewrite get_unchanged.
  - intros [Hn Hl]. by apply claim_steps.
  - intros Hs. unfold claim_pending. destruct (_ || _); [done|]. apply claim_loop_steps; [|done].
    intros k. destruct (Hs k). split_and!; [done..|]. by exists k.
  - intros Hn. by apply record_attempt_steps.
  - intros _. unfold archive_acknowledged. destruct (_ || _); [done|]. by apply archive_loop_steps.
Qed.

Lemma run_steps (P : label -> Prop) ops o :
  inv o -> Forall (fun p => op_valid p /\ forall l, permits p l -> P l) ops -> steps P o (run_ops ops o).
Proof.
  intros Ho H. revert o Ho. induction H as [|p ops [Hv HP] _ IH]; intros o Ho; [done|].
  pose proof (steps_weaken _ _ _ _ HP (op_steps p o Ho Hv)) as Hp.
  etrans; [exact Hp|]. apply IH. by eapply steps_inv.
Qed.

Definition empty_outbox : outbox := {| records := ∅; archived := ∅ |}.

Lemma empty_inv : inv empty_outbox.
Proof. intros stem. exists Absent. by cbn. Qed.

(** ** What the machine promises *)

(** The record an outbox keeps for an envelope, wherever it is. *)
Definition record_of (p : place) : option OutboxRecord :=
  match p with Absent => None | Live r | Archived r => Some r end.

Definition kept (o : outbox) (stem : string) : option OutboxRecord :=
  match (match o.(records) !! stem with Some f => Some f | None => o.(archived) !! stem end) with
  | Some {| df_value := Some (PDict d) |} => match decode_record d with Ok r => Some r | Err _ => None end
  | _ => None
  end.

Lemma holds_kept stem f r : holds stem f r ->
  match df_value f with
  | Some (PDict d) => match decode_record d with Ok r => Some r | Err _ => None end
  | _ => None
  end = Some r.
Proof.
  intros [(_ & _ & ->)%write_document_Ok [Hok _]]. cbn [written df_value]. by rewrite decode_record_dict.
Qed.

Lemma kept_at_place o stem p : at_place o stem p -> kept o stem = record_of p.
Proof.
  unfold kept. destruct p as [|r|r]; cbn [at_place record_of].
  - by intros [-> ->].
  - intros ((f & -> & Hh%holds_kept) & _). by destruct f.
  - intros (-> & (f & -> & Hh%holds_kept) & _). by destruct f.
Qed.

(** Later records of the same envelope. *)
Definition later (r r' : OutboxRecord) : Prop :=
  r'.(ob_envelope) = r.(ob_envelope) /\ r.(ob_attempts) <= r'.(ob_attempts) /\
  (r.(ob_status) = "acknowledged" -> r' = r).

Lemma step_later stem l p p' r : delivery_step stem l p p' -> record_of p = Some r ->
  exists r', record_of p' = Some r' /\ later r r'.
Proof.
  destruct 1 as [e url Hn Hu|r0 e url t Hs Hu _ Ht He|r0 t force lease expires Hc Ht Hl|r0 lease a t retry error b Hs Hl Ha Ht Hr|r0 Hs];
    cbn [record_of]; intros [= <-]; eexists; (split; [reflexivity|]); unfold later; cbn; split_and!; try done; try lia.
  - intros E. rewrite E in Hs. by repeat destruct Hs as [?|Hs].
  - intros E. unfold not_claimable in Hc. by rewrite E in Hc.
Qed.

Lemma follows_later P stem p p' r : follows P stem p p' -> record_of p = Some r ->
  exists r', record_of p' = Some r' /\ later r r'.
Proof.
  intros H. revert r. induction H as [p|p p2 p3 (l & _ & Hs) _ IH]; intros r Hr; [by exists r|].
  destruct (step_later _ _ _ _ _ Hs Hr) as (r2 & Hr2 & H1 & H2 & H3).
  destruct (IH r2 Hr2) as (r3 & Hr3 & H4 & H5 & H6). exists r3. split; [done|].
  split_and!; [congruence|lia|]. intros Ha. specialize (H3 Ha). subst r2. auto.
Qed.

(** A step that leaves a live lease alone. *)
Lemma step_respects stem l r p' :
  delivery_step stem l (Live r) p' -> r.(ob_status) = "inflight" -> l <> LAttempt r.(ob_lease_id) ->
  (forall t force lease, l = LClaim t force lease -> t < r.(ob_lease_expires_at_ms)) -> False.
Proof.
  intros H Hi Hl Hc. inversion H as [|? ? ? ? Hs|? ? ? ? ? Hn|? ? ? ? ? ? ? Hs Hll|? Hs]; subst.
  - rewrite Hi in Hs. by repeat destruct Hs as [?|Hs].
  - specialize (Hc _ _ _ eq_refl). unfold not_claimable in Hn. rewrite Hi in Hn. cbn in Hn.
    apply orb_false_iff in Hn as [Hn _]. apply Z.ltb_ge in Hn. lia.
  - by rewrite (Hll Hi) in Hl.
  - congruence.
Qed.

Lemma follows_respects (P : label -> Prop) stem r p' :
  follows P stem (Live r) p' -> r.(ob_status) = "inflight" -> ~ P (LAttempt r.(ob_lease_id)) ->
  (forall t force lease, P (LClaim t force lease) -> t < r.(ob_lease_expires_at_ms)) -> p' = Live r.
Proof.
  intros H Hi Hl Hc. inversion H as [|? p2 ? (l & HP & Hs) _]; subst; [done|]. exfalso.
  eapply (step_respects _ _ _ _ Hs Hi); [by intros ->|]. intros t force lease ->. by eapply Hc.
Qed.
End Runs.

Section Properties.
Context `{Ed : Ed25519} `{N : NetlocRules} `{Ft : FloatText}.

(** C13.  The outbox is a delivery machine per envelope.  Whatever sequence of
    operations workers call, at whatever times and with whatever lease ids, the
    document of each envelope only moves along the steps that those calls permit
    (queued, retargeted, leased, attempted, archived), and every document is one
    that the operations read back. *)
Theorem outbox_refines_delivery ops o :
  inv o -> Forall op_valid ops ->
  inv (run_ops ops o) /\
  forall stem p, at_place o stem p -> exists p', at_place (run_ops ops o) stem p' /\
    rtc (fun a b => exists l, (exists c, In c ops /\ permits c l) /\ delivery_step stem l a b) p p'.
Proof.
  intros Ho Hv. assert (steps (fun l => exists c, In c ops /\ permits c l) o (run_ops ops o)) as H.
  { apply run_steps; [done|]. rewrite Forall_forall in Hv |- *. intros c Hc. split; [by apply Hv|].
    intros l Hl. exists c. split; [by apply list_elem_of_In|done]. }
  split; [by eapply steps_inv|exact H].
Qed.

Lemma kept_place o stem r : inv o -> kept o stem = Some r -> exists p, at_place o stem p /\ record_of p = Some r.
Proof. intros Ho Hk. destruct (Ho stem) as [p Hp]. exists p. split; [done|]. by rewrite <- (kept_at_place _ _ _ Hp). Qed.

Lemma run_any ops o : inv o -> Forall op_valid ops -> steps (fun _ => True) o (run_ops ops o).
Proof. intros Ho Hv. apply run_steps; [done|]. eapply Forall_impl; [exact Hv|]. done. Qed.

Lemma kept_later ops o stem r :
  inv o -> Forall op_valid ops -> kept o stem = Some r -> exists r', kept (run_ops ops o) stem = Some r' /\ later r r'.
Proof.
  intros Ho Hv Hk. destruct (kept_place _ _ _ Ho Hk) as (p & Hp & Hr).
  destruct (run_any _ _ Ho Hv stem p Hp) as (p' & Hp' & Hf).
  destruct (follows_later _ _ _ _ _ Hf Hr) as (r' & Hr' & Hl). exists r'.
  by rewrite (kept_at_place _ _ _ Hp').
Qed.

(** The envelope in a record says what [e] says. *)
Definition carries (r : OutboxRecord) (e : CommerceEnvelope) : Prop :=
  exists e' w, envelope_from_dict (PDict r.(ob_envelope)) = Ok e' /\ verify_envelope e' = Ok (true, w) /\
    (e' = e \/ py_eqb e'.(env_source_did) e.(env_source_did) && py_eqb e'.(env_target_did) e.(env_target_did) &&
               py_eqb e'.(env_payload) e.(env_payload) = true).

Lemma carries_envelope r r' e : ob_envelope r' = ob_envelope r -> carries r e -> carries r' e.
Proof. unfold carries. by intros ->. Qed.

Lemma saved_kept stem x o o' r : inv o' -> save_record stem x o = (o', Ok r) -> x = r /\ kept o' stem = Some r.
Proof.
  intros Ho Hs. unfold save_record in Hs. destruct (write_document _) as [f|] eqn:Hw; [|done].
  injection Hs as <- <-. split; [done|]. apply write_document_Ok in Hw as (_ & _ & ->).
  set (o' := put_record _ _ _) in *. assert (o'.(records) !! stem = Some (written (PDict (record_dict x)))) as Hf
    by apply lookup_insert_eq.
  destruct (Ho stem) as [p Hp]. rewrite (kept_at_place _ _ _ Hp).
  destruct p as [|r|r]; cbn [at_place] in Hp; [destruct Hp; congruence| |destruct Hp; congruence].
  destruct Hp as ((f & Hf' & (_ & _ & ->)%write_document_Ok & _) & _). cbn [record_of]. f_equal.
  apply record_dict_inj. rewrite Hf in Hf'. injection Hf' as Hf'. unfold record_dict. congruence.
Qed.

Lemma current_kept o stem live d :
  inv o -> load_record o.(records) stem = Ok live ->
  match live with Some d => Ok (Some d) | None => load_record o.(archived) stem end = Ok (Some d) ->
  exists r, kept o stem = Some r /\ d = record_dict r /\ decode_record d = Ok r.
Proof.
  intros Ho Hl Hc. destruct live as [d'|].
  - injection Hc as ->. destruct (load_live _ _ _ Ho Hl) as (r & Hat & Hd & Hr). exists r.
    by rewrite (kept_at_place _ _ _ Hat).
  - destruct (load_archived _ _ _ Ho Hc) as (r & Hat & Hd & Hr). exists r. by rewrite (kept_at_place _ _ _ Hat).
Qed.

Lemma existing_carries e url allow t r x :
  decode_record (record_dict r) = Ok r -> enqueue_existing e url allow t (record_dict r) = Ok x ->
  carries r e /\ match x with inl r' => r' = r | inr r' => ob_envelope r' = ob_envelope r end.
Proof.
  unfold enqueue_existing. intros Hr H. change (get_or_none "envelope" _) with (PDict (ob_envelope r)) in H.
  apply res_bind_Ok in H as (e' & He' & H). apply res_bind_Ok in H as ([ok w] & Hv & H). destruct ok; [|done].
  cbn [negb] in H. destruct (negb _) eqn:Hb; [done|]. apply negb_false_iff in Hb. rewrite !andb_true_iff in Hb.
  rewrite Hr in H. cbn [res_bind] in H. split.
  - exists e', w. split_and!; [done..|]. right. rewrite !andb_true_iff. tauto.
  - repeat case_match; simplify_eq; done.
Qed.

(** What a successful [enqueue] leaves in the outbox. *)
Lemma enqueue_kept now e url allow override o o1 r :
  inv o -> 0 < now -> (forall s, url = PStr s -> is_text s = true) -> enqueue now e url allow override o = (o1, Ok r) ->
  inv o1 /\ exists stem, env_message_id e = PStr ("sha256:" ++ stem) /\ kept o1 stem = Some r /\ carries r e.
Proof.
  intros Ho Hn Ht He. pose proof (enqueue_steps (fun _ => True) now e url allow override o Ho Hn Ht I I) as Hst.
  rewrite He in Hst. cbn [fst] in Hst. pose proof (steps_inv _ _ _ Hst Ho) as Ho1. split; [done|]. unfold enqueue in He.
  destruct (enqueue_plan now e url allow override o) as [[stem todo]|x] eqn:E; [|done]. unfold enqueue_plan in E.
  apply res_bind_Ok in E as ([ok w] & Hv & E). destruct ok; [|done]. cbn [negb] in E.
  apply res_bind_Ok in E as (u & _ & E). destruct (override <? 0); [done|].
  apply res_bind_Ok in E as (stem' & Hid & E). apply res_bind_Ok in E as (live & Hl & E).
  apply res_bind_Ok in E as (current & Hc & E). apply res_bind_Ok in E as (todo' & Hx & E). injection E as -> ->.
  exists stem. split; [destruct (env_message_id e); try done; by apply outbox_path_Ok in Hid as ->|].
  destruct current as [d|].
  - destruct (current_kept _ _ _ _ Ho Hl Hc) as (r0 & Hk & -> & Hr0).
    destruct (existing_carries _ _ _ _ _ _ Hr0 Hx) as [Hcar Henv]. destruct todo as [x|x].
    + subst x. by injection He as <- <-.
    + destruct (saved_kept _ _ _ _ _ Ho1 He) as [-> Hk1]. split; [done|]. by eapply carries_envelope.
  - injection Hx as <-. destruct (saved_kept _ _ _ _ _ Ho1 He) as [<- Hk]. split; [done|].
    exists e, w. split_and!; [apply envelope_round_trip|done|by left].
Qed.

(** C20.  Nothing that was queued is lost or altered.  Once [enqueue] has
    returned, then after any sequence of operations the outbox or its archive
    still holds, under the message id, a record of a validly signed envelope
    with that source, target and payload; the number of attempts never
    decreases, and a record that was acknowledged is never changed again. *)
Theorem queued_is_never_lost now e url allow override o o1 r ops :
  inv o -> op_valid (OpEnqueue now e url allow override) -> enqueue now e url allow override o = (o1, Ok r) ->
  Forall op_valid ops ->
  exists stem r', env_message_id e = PStr ("sha256:" ++ stem) /\ kept (run_ops ops o1) stem = Some r' /\
    carries r' e /\ r.(ob_attempts) <= r'.(ob_attempts) /\ (r.(ob_status) = "acknowledged" -> r' = r).
Proof.
  intros Ho [Hn Ht] He Hv. destruct (enqueue_kept _ _ _ _ _ _ _ _ Ho Hn Ht He) as (Ho1 & stem & Hid & Hk & Hcar).
  destruct (kept_later ops o1 stem r Ho1 Hv Hk) as (r' & Hk' & H1 & H2 & H3). exists stem, r'.
  split_and!; try done. by eapply carries_envelope.
Qed.

(** A call that neither settles the lease on [r] nor runs at a time when the
    lease has expired. *)
Definition respects (r : OutboxRecord) (c : outbox_op) : Prop :=
  match c with
  | OpRecordAttempt _ _ _ _ lease_id _ _ _ => lease_id <> r.(ob_lease_id)
  | OpClaim now _ _ override _ _ => clock_ms now override < r.(ob_lease_expires_at_ms)
  | OpClaimPending _ _ override _ supply => forall n, clock_ms (supply n).1 override < r.(ob_lease_expires_at_ms)
  | _ => True
  end.

Definition lets_be (r : OutboxRecord) (l : label) : Prop :=
  l <> LAttempt r.(ob_lease_id) /\ forall t f lid, l = LClaim t f lid -> t < r.(ob_lease_expires_at_ms).

Lemma respects_lets_be r c l : respects r c -> permits c l -> lets_be r l.
Proof.
  unfold lets_be. destruct c, l; cbn [permits respects]; try done; intros Hr Hp.
  - destruct Hp as (-> & -> & ->). split; [done|]. by intros t f lid [= <- <- <-].
  - destruct Hp as (n & -> & -> & ->). split; [done|]. intros t f lid [= <- <- <-]. apply Hr.
  - subst. split; [|done]. by intros [= ->].
Qed.

Lemma live_claim_refused o stem r now lease_ms override force lease :
  at_place o stem (Live r) -> r.(ob_status) = "inflight" -> inv o ->
  clock_ms now override < r.(ob_lease_expires_at_ms) ->
  forall o' r', claim now ("sha256:" ++ stem) lease_ms override force lease o <> (o', Ok (Some r')).
Proof.
  intros Hat Hi Ho Hc o' r'. unfold claim. destruct (_ || _); [done|].
  destruct (live_record _ o) as [[[stem' r0]|]|x] eqn:E; [|done|done].
  destruct (live_record_Ok _ _ _ _ Ho E) as [Es Hat']. apply str_app_inv_l in Es as <-.
  assert (r0 = r) as -> by (pose proof (at_place_inj _ _ _ _ Hat Hat'); congruence).
  unfold not_claimable. rewrite Hi, (proj2 (Z.ltb_lt _ _) Hc). cbn. by destruct force.
Qed.

(** C21.  A lease excludes other workers.  While a worker holds the lease on an
    envelope, the record stays exactly as that worker left it, whatever other
    operations run before the lease expires (forced claims and retargeting
    included), and every claim of the envelope is refused. *)
Theorem lease_excludes_others ops o stem r now lease_ms override force lease :
  inv o -> Forall op_valid ops -> kept o stem = Some r -> r.(ob_status) = "inflight" -> Forall (respects r) ops ->
  clock_ms now override < r.(ob_lease_expires_at_ms) ->
  kept (run_ops ops o) stem = Some r /\
  forall o' r', claim now ("sha256:" ++ stem) lease_ms override force lease (run_ops ops o) <> (o', Ok (Some r')).
Proof.
  intros Ho Hv Hk Hi Hres Hc. destruct (kept_place _ _ _ Ho Hk) as (p & Hp & Hr).
  assert (p = Live r) as ->.
  { destruct p as [|r0|r0]; cbn [record_of] in Hr; [done|congruence|]. injection Hr as ->.
    destruct Hp as (_ & _ & Ha). congruence. }
  assert (steps (lets_be r) o (run_ops ops o)) as H.
  { apply run_steps; [done|]. rewrite Forall_forall in Hv, Hres |- *. intros c Hin. split; [by apply Hv|].
    intros l. apply respects_lets_be. by apply Hres. }
  destruct (H stem _ Hp) as (p' & Hp' & Hf).
  assert (p' = Live r) as ->.
  { eapply follows_respects; [exact Hf|done|by intros []|]. intros t f lid [_ Ht]. by eapply Ht. }
  split; [by rewrite (kept_at_place _ _ _ Hp')|]. intros o' r'. eapply live_claim_refused; try done.
  by eapply steps_inv.
Qed.

(** ** Progress *)

Lemma write_document_intro v : serializable v = true -> encodes v = true -> write_document v = Ok (written v).
Proof. unfold write_document. by intros -> ->. Qed.

Lemma claimed_writes r f lease expires :
  write_document (PDict (record_dict r)) = Ok f -> text_ok lease = true ->
  exists f', write_document (PDict (record_dict (claimed r lease expires))) = Ok f'.
Proof.
  intros (Hs & He & _)%write_document_Ok Hl. eexists. apply write_document_intro.
  - exact Hs.
  - cbn -[text_ok encodes] in *. cbn [encodes forallb record_dict fst snd] in He |- *.
    rewrite !andb_true_iff in *. cbn [claimed ob_envelope ob_target_url ob_last_error ob_lease_id ob_route_history ob_status].
    tauto.
Qed.

Lemma names_digest stem envelope : names stem envelope -> is_digest (PStr ("sha256:" ++ stem)) = true.
Proof.
  intros (e & w & _ & [Hv _]%verify_envelope_inv & Hid). destruct (ve_id _ Hv) as (id & Hid' & Hm).
  rewrite Hid in Hid'. injection Hid' as <-. by eapply digest_is_digest.
Qed.

(** C36.  Work is never stuck.  A record that is neither acknowledged nor
    blocked, and whose document fits the size limit, is leased by the first
    claim made when its lease has expired and its retry is due: whatever the
    worker that held it before did, or failed to do. *)
Theorem expired_lease_is_claimable o stem r now lease_ms override lease :
  inv o -> kept o stem = Some r -> In r.(ob_status) ["pending"; "inflight"] ->
  (forall f, o.(records) !! stem = Some f -> f.(df_size) <= MAX_OUTBOX_RECORD_BYTES) ->
  (r.(ob_status) = "inflight" -> r.(ob_lease_expires_at_ms) <= clock_ms now override) ->
  (r.(ob_status) = "pending" -> r.(ob_next_attempt_at_ms) <= clock_ms now override) -> lease_ms_ok lease_ms = true -> 0 <= override -> text_ok lease = true ->
  exists o', claim now ("sha256:" ++ stem) lease_ms override false lease o =
             (o', Ok (Some (claimed r lease (clock_ms now override + lease_ms)))).
Proof.
  intros Ho Hk Hst Hsz Hexp Hnext Hlm Hov Hl. destruct (kept_place _ _ _ Ho Hk) as (p & Hp & Hr).
  assert (r.(ob_status) <> "acknowledged" /\ r.(ob_status) <> "blocked") as [Hna Hnb].
  { repeat destruct Hst as [<-|Hst]; done. }
  assert (p = Live r) as ->.
  { destruct p as [|r0|r0]; cbn [record_of] in Hr; [done|congruence|]. injection Hr as ->. by destruct Hp as (_ & _ & ?). }
  destruct Hp as ((f & Hf & Hw & Hok & Hn) & _). apply names_digest in Hn as Hd. unfold claim. rewrite Hlm, (proj2 (Z.ltb_ge override 0)) by lia.
  cbn [negb orb]. assert (live_record ("sha256:" ++ stem) o = Ok (Some (stem, r))) as ->.
  { unfold live_record, outbox_path. rewrite Hd. pose proof (str_drop_app "sha256:" stem) as Es.
    cbn [String.length] in Es. rewrite Es. cbn [res_bind]. unfold load_record. rewrite Hf.
    rewrite (proj2 (Z.ltb_ge _ _) (Hsz f Hf)). pose proof (write_document_Ok _ _ Hw) as (_ & _ & ->). cbn [written df_value res_bind].
    by rewrite decode_record_dict. }
  assert (not_claimable r (clock_ms now override) false = false) as ->.
  { unfold not_claimable. rewrite (proj2 (String.eqb_neq _ _) Hna), (proj2 (String.eqb_neq _ _) Hnb).
    destruct (String.eqb_spec r.(ob_status) "inflight") as [Ei|]; destruct (String.eqb_spec r.(ob_status) "pending") as [Ep|];
      try congruence; cbn [andb orb]; [by rewrite (proj2 (Z.ltb_ge _ _) (Hexp Ei))
                                      |by rewrite (proj2 (Z.ltb_ge _ _) (Hnext Ep))|done]. }
  destruct (claimed_writes _ _ _ (clock_ms now override + lease_ms) Hw Hl) as [f' Hf'].
  unfold save_record. rewrite Hf'. by eexists.
Qed.
End Properties.

(** ** Examples *)

#[local] Existing Instance toy_ed25519.
#[local] Existing Instance toy_laws.
#[local] Instance plain_netloc : NetlocRules := {| bracketed_ok := fun _ => true; nfkc_ok := fun _ => true |}.
#[local] Instance no_float_text : FloatText := fun _ => "0.0".

Definition demo_stem : string := Eval vm_compute in
  match demo_envelope.(env_message_id) with PStr id => str_drop 7 id | _ => "" end.

Definition demo_enqueue : outbox_op := OpEnqueue 20 demo_envelope (PStr "https://peer/") false 0.
Definition demo_claim : outbox_op := OpClaim 30 ("sha256:" ++ demo_stem) 30000 0 false "lease-1".
Definition demo_deliver : outbox_op :=
  OpRecordAttempt 40 ("sha256:" ++ demo_stem) 45 PNone "lease-1" 0 0 true.
Definition demo_archive : outbox_op := OpArchive 100 10.

Definition demo_record : OutboxRecord := new_record (envelope_to_dict demo_envelope) "https://peer".
Definition demo_outbox : outbox := put_record demo_stem (written (PDict (record_dict demo_record))) empty_outbox.

Lemma demo_enqueued : enqueue 20 demo_envelope (PStr "https://peer/") false 0 empty_outbox = (demo_outbox, Ok demo_record).
Proof.
  unfold enqueue, enqueue_plan. destruct demo_envelope_verified as [w ->]. cbn [res_bind negb].
  assert (normalize_target_url (PStr "https://peer/") = Ok "https://peer") as -> by (vm_compute; reflexivity).
  cbn [res_bind Z.ltb Z.compare].
  assert (outbox_path ("sha256:" ++ demo_stem) = Ok demo_stem) as E by (vm_compute; reflexivity).
  change (env_message_id demo_envelope) with (PStr ("sha256:" ++ demo_stem)). cbv beta iota. rewrite E. cbn [res_bind].
  unfold load_record. cbn [empty_outbox records archived]. rewrite !lookup_empty. cbn [res_bind].
  unfold save_record, demo_outbox, demo_record. by rewrite write_document_intro by (vm_compute; reflexivity).
Qed.

Lemma demo_enqueue_valid : op_valid demo_enqueue.
Proof. split; [done|]. by intros s [= <-]. Qed.

Lemma demo_ops_valid : Forall op_valid [demo_claim; demo_deliver; demo_archive].
Proof. repeat constructor; done. Qed.

Lemma outbox_refines_delivery_witness :
  inv (run_ops [demo_enqueue; demo_claim; demo_deliver; demo_archive] empty_outbox).
Proof.
  apply (outbox_refines_delivery [demo_enqueue; demo_claim; demo_deliver; demo_archive] empty_outbox empty_inv).
  constructor; [apply demo_enqueue_valid|apply demo_ops_valid].
Defined.

Lemma demo_inv : inv demo_outbox /\ kept demo_outbox demo_stem = Some demo_record.
Proof.
  destruct (enqueue_kept 20 demo_envelope (PStr "https://peer/") false 0 empty_outbox demo_outbox demo_record empty_inv
    (proj1 demo_enqueue_valid) (proj2 demo_enqueue_valid) demo_enqueued) as (Ho & stem & Hid & Hk & _).
  assert (stem = demo_stem) as <-; [|by split].
  apply (f_equal (fun v => match v with PStr id => str_drop 7 id | _ => "" end)) in Hid.
  etrans; [symmetry; exact (str_drop_app "sha256:" stem)|]. etrans; [symmetry; exact Hid|]. vm_compute. reflexivity.
Qed.

(** After the delivery and the archiving the outbox still has the record. *)
Lemma queued_is_never_lost_witness :
  exists stem r', env_message_id demo_envelope = PStr ("sha256:" ++ stem) /\
    kept (run_ops [demo_claim; demo_deliver; demo_archive] demo_outbox) stem = Some r' /\ carries r' demo_envelope.
Proof.
  destruct (queued_is_never_lost 20 demo_envelope (PStr "https://peer/") false 0 empty_outbox demo_outbox demo_record
    [demo_claim; demo_deliver; demo_archive] empty_inv demo_enqueue_valid demo_enqueued demo_ops_valid)
    as (stem & r' & H1 & H2 & H3 & _).
  exists stem, r'. exact (conj H1 (conj H2 H3)).
Defined.

(** Another worker claims the record while the lease runs, with force. *)
Lemma lease_excludes_others_witness :
  exists o r, inv o /\ kept o demo_stem = Some r /\ r.(ob_lease_id) = "lease-1" /\
    kept (run_ops [OpClaim 31 ("sha256:" ++ demo_stem) 30000 0 true "lease-2"] o) demo_stem = Some r.
Proof.
  set (r := claimed demo_record "lease-1" 30030).
  set (o := apply_op demo_claim demo_outbox).
  assert (inv o) as Ho by (exact (steps_inv _ _ _ (op_steps demo_claim demo_outbox (proj1 demo_inv) (Forall_inv demo_ops_valid)) (proj1 demo_inv))).
  assert (kept o demo_stem = Some r) as Hk by (vm_compute; reflexivity).
  exists o, r. split; [exact Ho|]. split; [exact Hk|]. split; [reflexivity|].
  apply (lease_excludes_others [OpClaim 31 ("sha256:" ++ demo_stem) 30000 0 true "lease-2"] o demo_stem r 31 30000 0 true "lease-2" Ho).
  - by repeat constructor.
  - exact Hk.
  - reflexivity.
  - by repeat constructor.
  - reflexivity.
Defined.

Lemma expired_lease_is_claimable_witness :
  exists o', claim 30 ("sha256:" ++ demo_stem) 30000 0 false "lease-1" demo_outbox =
             (o', Ok (Some (claimed demo_record "lease-1" 30030))).
Proof.
  apply (expired_lease_is_claimable demo_outbox demo_stem demo_record 30 30000 0 "lease-1" (proj1 demo_inv) (proj2 demo_inv)).
  - by left.
  - intros f Hf. apply Z.leb_le.
    apply (f_equal (fun x => match x with Some f => df_size f <=? MAX_OUTBOX_RECORD_BYTES | None => true end)) in Hf.
    etrans; [symmetry; exact Hf|]. vm_compute. reflexivity.
  - discriminate.
  - discriminate.
  - reflexivity.
  - discriminate.
  - reflexivity.
Defined.
