(* ===== verification/Reconcile.v ===== *)
(** * Delivery retries ([CommerceReconciler], [nth_dao/commerce/reconciliation.py])

    One cycle of the worker that polls the outbox: it leases each pending
    envelope, hands it to a dispatcher, and makes sure that the lease is settled
    whatever the dispatcher does.  The dispatcher and the maintenance callback
    are arbitrary functions on the outbox. *)

From Stdlib Require Import ZArith Lia Ascii String SpecFloat.
From stdpp Require Import base list strings gmap.
From S2P Require Import Prelude Digits PyStr PyValue Sha256 Identity Settlement DocFile Url Envelope Outbox.

Local Open Scope string_scope.
Local Open Scope Z_scope.

(** ** Configuration *)

Record ReconcilerConfig := {
  rc_poll_interval_s : spec_float;
  rc_lease_ms : Z;
  rc_batch_limit : Z;
  rc_base_backoff_ms : Z;
  rc_max_backoff_ms : Z;
  rc_jitter_ratio : spec_float;
  rc_archive_after_s : Z;
  rc_orphan_after_s : Z
}.

(** [float(z)] *)
Definition float_of_int (z : Z) : spec_float := binary_normalize 53 1024 z 0 false.

(** [float(v)] of an [int] or a [float] that is not a [bool] *)
Definition number_as_float (v : pyval) : res spec_float :=
  match v with
  | PFloat f => Ok f
  | PInt z => match float_of_int z with S754_infinity _ => Err OverflowError | f => Ok f end
  | _ => Err ValueError
  end.

Definition float_between (lo hi : spec_float) (v : pyval) : res spec_float :=
  let* f := number_as_float v in if SFleb lo f && SFleb f hi then Ok f else Err ValueError.

(** An [int] that is not a [bool] and satisfies [p]. *)
Definition int_where (p : Z -> bool) (v : pyval) : res Z :=
  match as_int v with Some z => if p z then Ok z else Err ValueError | None => Err ValueError end.

Definition FLOAT_0 : spec_float := S754_zero false.
(** the double nearest to 0.1 *)
Definition FLOAT_01 : spec_float := S754_finite false 7205759403792794 (-56).
Definition FLOAT_05 : spec_float := S754_finite false 4503599627370496 (-53).
Definition FLOAT_300 : spec_float := float_of_int 300.

(** [ReconcilerConfig.__post_init__] *)
Definition reconciler_config (poll lease batch base max jitter archive orphan : pyval) : res ReconcilerConfig :=
  let* poll := float_between FLOAT_01 FLOAT_300 poll in
  let* lease := int_where (fun z => (1000 <=? z) && (z <=? 300000)) lease in
  let* batch := int_where (fun z => (1 <=? z) && (z <=? 1000)) batch in
  let* base := int_where (fun z => 1 <=? z) base in
  let* max := int_where (fun z => (base <=? z) && (z <=? 86400000)) max in
  let* jitter := float_between FLOAT_0 FLOAT_05 jitter in
  let* archive := int_where (fun z => (z =? 0) || (86400 <=? z)) archive in
  let* orphan := int_where (fun z => 86400 <=? z) orphan in
  Ok {| rc_poll_interval_s := poll; rc_lease_ms := lease; rc_batch_limit := batch; rc_base_backoff_ms := base;
        rc_max_backoff_ms := max; rc_jitter_ratio := jitter; rc_archive_after_s := archive;
        rc_orphan_after_s := orphan |}.

(** ** The retry delay *)

(** [int(base_delay * float(self.config.jitter_ratio))] *)
Definition jitter_window (c : ReconcilerConfig) (base_delay : Z) : Z :=
  default 0 (float_trunc (SFmul 53 1024 (float_of_int base_delay) c.(rc_jitter_ratio))).

(** [retry_delay_ms] *)
Definition retry_delay_ms (c : ReconcilerConfig) (prior_attempts : Z) (message_id : string) : res Z :=
  if prior_attempts <? 0 then Err ValueError else
  let base_delay := Z.min c.(rc_max_backoff_ms) (c.(rc_base_backoff_ms) * 2 ^ Z.min prior_attempts 30) in
  let window := jitter_window c base_delay in
  if String.eqb message_id "" || (window <=? 0) || (c.(rc_max_backoff_ms) <=? base_delay) then Ok base_delay else
  let* encoded := utf8_encode message_id in
  let jitter := of_digits 256 (take 8 (bytes_of (sha256 encoded))) mod (window + 1) in
  Ok (Z.min c.(rc_max_backoff_ms) (base_delay + jitter)).

(** ** The state of the reconciler *)

Record reconciler := {
  rs_last_run_at_ms : Z;
  rs_last_success_at_ms : Z;
  rs_last_error : string;
  rs_claimed_total : Z;
  rs_acknowledged_total : Z;
  rs_failed_total : Z;
  rs_maintenance_total : Z;
  rs_quarantined_total : Z;
  rs_maintenance_error : string
}.

(** What the environment supplies to the handling of one candidate: the clock
    when it is claimed and when a failure is recorded, and the fresh lease id. *)
Record tick := { tk_claim : Z; tk_lease : string; tk_record : Z; tk_retry : Z }.

(** The counters of one cycle. *)
Record tally := { ta_claimed : Z; ta_acknowledged : Z; ta_failed : Z; ta_last_error : string }.

Definition tally_claimed (t : tally) : tally :=
  {| ta_claimed := t.(ta_claimed) + 1; ta_acknowledged := t.(ta_acknowledged); ta_failed := t.(ta_failed);
     ta_last_error := t.(ta_last_error) |}.

(** [None]: acknowledged, and the error of the cycle is the previous one;
    [Some e]: failed with [e] *)
Definition tally_outcome (outcome : option string) (t : tally) : tally :=
  match outcome with
  | None => {| ta_claimed := t.(ta_claimed); ta_acknowledged := t.(ta_acknowledged) + 1; ta_failed := t.(ta_failed);
               ta_last_error := t.(ta_last_error) |}
  | Some e => {| ta_claimed := t.(ta_claimed); ta_acknowledged := t.(ta_acknowledged);
                 ta_failed := t.(ta_failed) + 1; ta_last_error := e |}
  end.

(** [except (CommerceEnvelopeRejected, OSError, RuntimeError, TypeError, ValueError)] *)
Definition is_persist_error (e : exn) : bool := is_TypeOrValueError e || is_OSOrRuntimeError e.

Section Reconciler.
Context `{N : NetlocRules} `{Ft : FloatText} `{Rp : PyRepr}.
Context (c : ReconcilerConfig) (dispatch : OutboxRecord -> Z -> op pyval).
Context (maintenance : option (Z -> Z -> op pyval)) (override : Z).

(** [str(record.envelope.get("message_id", ""))] *)
Definition record_id (r : OutboxRecord) : string := py_str (get_default "message_id" (PStr "") r.(ob_envelope)).

Definition is_acknowledged (current : option OutboxRecord) : bool :=
  match current with Some r => String.eqb r.(ob_status) "acknowledged" | None => false end.

(** The record is still in flight under the lease of [record]. *)
Definition holds_lease (current : option OutboxRecord) (record : OutboxRecord) : bool :=
  match current with
  | Some r => String.eqb r.(ob_status) "inflight" && String.eqb r.(ob_lease_id) record.(ob_lease_id)
  | None => false
  end.

(** The error code of a failed attempt. *)
Definition failure_code (result : list (string * pyval)) (current : option OutboxRecord) : string :=
  match current with
  | None => OUTBOX_ERROR_RECORD_MISSING
  | Some r =>
    if String.eqb r.(ob_status) "inflight" then OUTBOX_ERROR_LEASE_SUPERSEDED else
    let error := get_or_none "error" result in
    normalize_outbox_error (if truthy error then error else PStr r.(ob_last_error))
      (negb (String.eqb r.(ob_status) "blocked"))
  end.

(** The call of [record_attempt] that settles the lease of [record]. *)
Definition release (now : Z) (record : OutboxRecord) (retry_after_ms : Z) (error : string) : op OutboxRecord :=
  record_attempt now (record_id record) 0 (PStr error) record.(ob_lease_id) retry_after_ms override true.

(** The body of the [try] statement of [run_once]. *)
Definition dispatch_record (t : tick) (record : OutboxRecord) (retry_after_ms : Z) : op (option string) := fun o =>
  match dispatch record retry_after_ms o with
  | (o, Ok (PDict result)) =>
    match get (record_id record) o with
    | (o, Err x) => (o, Err x)
    | (o, Ok current) =>
      if is_acknowledged current then (o, Ok None) else
      if holds_lease current record then
        match release t.(tk_record) record retry_after_ms OUTBOX_ERROR_DISPATCH_CONTRACT o with
        | (o, Err x) => (o, Err x)
        | (o, Ok r) => (o, Ok (Some (failure_code result (Some r))))
        end
      else (o, Ok (Some (failure_code result current)))
    end
  | (o, Ok _) => (o, Err TypeError)
  | (o, Err x) => (o, Err x)
  end.

(** Its [except Exception] clause. *)
Definition finalize_failure (t : tick) (record : OutboxRecord) (retry_after_ms : Z) : op (option string) := fun o =>
  let persist x o := if is_persist_error x then (o, Ok (Some OUTBOX_ERROR_PERSISTENCE)) else (o, Err x) in
  match get (record_id record) o with
  | (o, Err x) => persist x o
  | (o, Ok current) =>
    if is_acknowledged current then (o, Ok None) else
    if holds_lease current record then
      match release t.(tk_retry) record retry_after_ms OUTBOX_ERROR_RUNTIME o with
      | (o, Err x) => persist x o
      | (o, Ok _) => (o, Ok (Some OUTBOX_ERROR_RUNTIME))
      end
    else (o, Ok (Some OUTBOX_ERROR_RUNTIME))
  end.

Definition deliver (t : tick) (record : OutboxRecord) (retry_after_ms : Z) : op (option string) := fun o =>
  match dispatch_record t record retry_after_ms o with
  | (o, Err _) => finalize_failure t record retry_after_ms o
  | r => r
  end.

(** The loop over the candidates; [stop] is [self._stop_event]. *)
Fixpoint cycle_loop (ticks : nat -> tick) (stop : nat -> bool) (n : nat) (candidates : list OutboxRecord) (t : tally)
    (o : outbox) : outbox * tally * res unit :=
  match candidates with
  | [] => (o, t, Ok tt)
  | candidate :: rest =>
    if stop n then (o, t, Ok tt) else
    let tk := ticks n in
    match claim tk.(tk_claim) (record_id candidate) c.(rc_lease_ms) override false tk.(tk_lease) o with
    | (o, Err x) => if is_envelope_error x then cycle_loop ticks stop (S n) rest t o else (o, t, Err x)
    | (o, Ok None) => cycle_loop ticks stop (S n) rest t o
    | (o, Ok (Some record)) =>
      let t := tally_claimed t in
      match retry_delay_ms c record.(ob_attempts) (record_id record) with
      | Err x => (o, t, Err x)
      | Ok delay =>
        match deliver tk record delay o with
        | (o, Err x) => (o, t, Err x)
        | (o, Ok outcome) => cycle_loop ticks stop (S n) rest (tally_outcome outcome t) o
        end
      end
    end
  end.

(** The end of a cycle: the archive. *)
Definition cycle_archive (now : Z) (o : outbox) : outbox * res unit :=
  if c.(rc_archive_after_s) =? 0 then (o, Ok tt) else
  let (o, r) := archive_acknowledged (clock_ms now override - c.(rc_archive_after_s) * 1000) c.(rc_batch_limit) o in
  (o, res_map (fun _ => tt) r).

(** [int(result.get(key, 0))] *)
Definition count_in (key : string) (result : pyval) : res Z :=
  match result with PDict d => py_int (get_default key (PInt 0) d) | _ => Err AttributeError end.

Definition with_maintenance (scanned quarantined : Z) (error : string) (s : reconciler) : reconciler :=
  {| rs_last_run_at_ms := s.(rs_last_run_at_ms); rs_last_success_at_ms := s.(rs_last_success_at_ms);
     rs_last_error := s.(rs_last_error); rs_claimed_total := s.(rs_claimed_total);
     rs_acknowledged_total := s.(rs_acknowledged_total); rs_failed_total := s.(rs_failed_total);
     rs_maintenance_total := s.(rs_maintenance_total) + scanned;
     rs_quarantined_total := s.(rs_quarantined_total) + quarantined; rs_maintenance_error := error |}.

(** The maintenance callback and what is recorded of it. *)
Definition cycle_maintenance (now : Z) (s : reconciler) (o : outbox) : outbox * reconciler :=
  match maintenance with
  | None => (o, s)
  | Some f =>
    match f (clock_ms now override) c.(rc_batch_limit) o with
    | (o, Err _) => (o, with_maintenance 0 0 OUTBOX_ERROR_RUNTIME s)
    | (o, Ok result) =>
      match count_in "scanned" result with
      | Err _ => (o, with_maintenance 0 0 OUTBOX_ERROR_RUNTIME s)
      | Ok scanned =>
        match count_in "quarantined" result with
        | Err _ => (o, with_maintenance scanned 0 OUTBOX_ERROR_RUNTIME s)
        | Ok quarantined => (o, with_maintenance scanned quarantined "" s)
        end
      end
    end
  end.

(** The [finally] clause. *)
Definition record_cycle (now : Z) (t : tally) (s : reconciler) : reconciler :=
  let current_ms := clock_ms now override in
  {| rs_last_run_at_ms := current_ms;
     rs_last_success_at_ms := if t.(ta_acknowledged) =? 0 then s.(rs_last_success_at_ms) else current_ms;
     rs_last_error := if negb (String.eqb t.(ta_last_error) "") then t.(ta_last_error)
                      else if t.(ta_acknowledged) =? 0 then s.(rs_last_error) else "";
     rs_claimed_total := s.(rs_claimed_total) + t.(ta_claimed);
     rs_acknowledged_total := s.(rs_acknowledged_total) + t.(ta_acknowledged);
     rs_failed_total := s.(rs_failed_total) + t.(ta_failed);
     rs_maintenance_total := s.(rs_maintenance_total); rs_quarantined_total := s.(rs_quarantined_total);
     rs_maintenance_error := s.(rs_maintenance_error) |}.

Definition tally_error (e : string) (t : tally) : tally :=
  {| ta_claimed := t.(ta_claimed); ta_acknowledged := t.(ta_acknowledged); ta_failed := t.(ta_failed);
     ta_last_error := e |}.

Definition no_tally : tally := {| ta_claimed := 0; ta_acknowledged := 0; ta_failed := 0; ta_last_error := "" |}.

(** The clock at the end of a cycle: for the archive, the maintenance and the
    statistics. *)
Record endings := { en_archive : Z; en_maintenance : Z; en_finally : Z }.

(** [run_once], when the run lock is free; the counters of its result *)
Definition run_once (ticks : nat -> tick) (stop : nat -> bool) (en : endings) (s : reconciler) (o : outbox)
  : outbox * reconciler * res tally :=
  let failed o t s x := (o, record_cycle en.(en_finally) (tally_error OUTBOX_ERROR_RUNTIME t) s, Err x) in
  match pending c.(rc_batch_limit) o with
  | Err x => failed o no_tally s x
  | Ok candidates =>
    match cycle_loop ticks stop 0 candidates no_tally o with
    | (o, t, Err x) => failed o t s x
    | (o, t, Ok _) =>
      match cycle_archive en.(en_archive) o with
      | (o, Err x) => failed o t s x
      | (o, Ok _) =>
        let (o, s) := cycle_maintenance en.(en_maintenance) s o in
        (o, record_cycle en.(en_finally) t s, Ok t)
      end
    end
  end.
End Reconciler.
