(* ===== verification/ReconcileSpec.v ===== *)
(** * What the reconciler promises

    Whatever the dispatcher does with a leased envelope (return, fail, settle
    the lease itself, or let other workers run), a cycle leaves none of its
    leases on a record, and counts every claim as delivered or failed. *)

From Stdlib Require Import ZArith Lia Ascii String SpecFloat.
From stdpp Require Import base list strings gmap relations.
From S2P Require Import Prelude Digits PyStr PyValue Json CanonicalJson B64u DidKey Sha256 Identity Projection PyOps Settlement DocFile Url Envelope EnvelopeSpec Outbox OutboxSpec Reconcile.

Local Open Scope string_scope.
Local Open Scope Z_scope.

#[local] Arguments pretty : simpl never.

(** ** Delays *)

(** What [reconciler_config] establishes. *)
Definition config_ok (c : ReconcilerConfig) : Prop :=
  1000 <= c.(rc_lease_ms) <= 300000 /\ 1 <= c.(rc_batch_limit) <= 1000 /\ 1 <= c.(rc_base_backoff_ms) /\
  c.(rc_base_backoff_ms) <= c.(rc_max_backoff_ms) <= 86400000.

Lemma int_where_Ok p v z : int_where p v = Ok z -> p z = true.
Proof. unfold int_where. destruct (as_int v); [|done]. destruct (p _) eqn:E; [|done]. by intros [= <-]. Qed.

Lemma reconciler_config_ok poll lease batch base max jitter archive orphan c :
  reconciler_config poll lease batch base max jitter archive orphan = Ok c -> config_ok c.
Proof.
  unfold reconciler_config. intros H. repeat (apply res_bind_Ok in H as (? & ?G & H)). injection H as <-.
  repeat match goal with G : int_where _ _ = Ok _ |- _ => apply int_where_Ok in G end. bool_to_prop.
  unfold config_ok. cbn. lia.
Qed.

(** The delay of a retry lies between the exponential delay and the limit. *)
Lemma reconcile_delay_range c prior id d :
  config_ok c -> retry_delay_ms c prior id = Ok d ->
  0 <= prior /\ Z.min c.(rc_max_backoff_ms) (c.(rc_base_backoff_ms) * 2 ^ Z.min prior 30) <= d <= c.(rc_max_backoff_ms).
Proof.
  unfold config_ok, retry_delay_ms. intros Hc. destruct (Z.ltb_spec prior 0); [done|].
  set (base := Z.min _ _). destruct (_ || _) eqn:E; [intros [= <-]; lia|].
  intros (enc & _ & H1)%res_bind_Ok. injection H1 as <-. rewrite !orb_false_iff in E. destruct E as [[_ E]%orb_false_iff _] || destruct E as [[_ E] _].
  apply Z.leb_gt in E. pose proof (Z.mod_pos_bound (of_digits 256 (take 8 (bytes_of (sha256 enc)))) (jitter_window c base + 1) ltac:(lia)).
  lia.
Qed.

(** ** Leases *)

Section Leases.
Context `{Ed : Ed25519} `{N : NetlocRules} `{Ft : FloatText}.

(** No record an operation can load is in flight under a lease in [own], except
    perhaps one. *)
Definition unheld_but (but : string -> Prop) (own : string -> Prop) (o : outbox) : Prop :=
  forall stem r f, ~ but stem -> at_place o stem (Live r) -> o.(records) !! stem = Some f ->
    f.(df_size) <= MAX_OUTBOX_RECORD_BYTES -> r.(ob_status) = "inflight" -> ~ own r.(ob_lease_id).

Definition unheld := unheld_but (fun _ => False).

(** Only a claim puts a record in flight. *)
Lemma step_inflight stem l p r : delivery_step stem l p (Live r) -> r.(ob_status) = "inflight" ->
  exists t f, l = LClaim t f r.(ob_lease_id).
Proof.
  inversion 1 as [e url|r0 e url t|r0 t force lease expires|r0 lease a t retry error b|]; subst; cbn; try done; [eauto|].
  destruct (negb _); [done|]. by destruct b.
Qed.

Lemma follows_cases (P : label -> Prop) stem p r :
  follows P stem p (Live r) -> r.(ob_status) = "inflight" -> p = Live r \/ exists t f, P (LClaim t f r.(ob_lease_id)).
Proof.
  intros H Hi. apply rtc_inv_r in H as [->|(p2 & _ & l & Hl & Hs)]; [by left|].
  destruct (step_inflight _ _ _ _ Hs Hi) as (t & f & ->). right. eauto.
Qed.

Lemma follows_inflight (P : label -> Prop) stem p r :
  follows P stem p (Live r) -> r.(ob_status) = "inflight" -> (forall t f, ~ P (LClaim t f r.(ob_lease_id))) ->
  p = Live r.
Proof.
  intros H Hi HP. destruct (follows_cases _ _ _ _ H Hi) as [|(t & f & Hp)]; [done|by destruct (HP t f)].
Qed.

(** The document of a record is determined by it. *)
Lemma live_document o stem r f : at_place o stem (Live r) -> o.(records) !! stem = Some f ->
  write_document (PDict (record_dict r)) = Ok f.
Proof. intros ((f' & Hf & Hw & _) & _) Hf'. congruence. Qed.

Lemma unheld_steps (P : label -> Prop) but (own : string -> Prop) o o' :
  steps P o o' -> inv o -> (forall t f lease, own lease -> ~ P (LClaim t f lease)) -> unheld_but but own o ->
  unheld_but but own o'.
Proof.
  intros Hst Ho HP H stem r f Hb Hat Hf Hsz Hi Hs. destruct (Ho stem) as [p Hp].
  destruct (Hst stem p Hp) as (p' & Hp' & Hfo). rewrite (at_place_inj _ _ _ _ Hp' Hat) in Hfo.
  apply follows_inflight in Hfo as ->; [|done|intros t fo; by apply HP].
  pose proof Hp as ((f0 & Hf0 & Hw & _) & _). pose proof (live_document _ _ _ _ Hat Hf) as Hw'.
  assert (f0 = f) as -> by congruence. by apply (H stem r f Hb Hp Hf0 Hsz Hi).
Qed.

Lemma record_id_names `{Rp : PyRepr} stem r : names stem r.(ob_envelope) -> record_id r = "sha256:" ++ stem.
Proof.
  intros (e & w & He & _ & Hid). unfold record_id, get_default. unfold envelope_from_dict in He.
  destruct (same_keys ENVELOPE_FIELDS (ob_envelope r)) eqn:Hk; [|done]. cbn [negb] in He. injection He as <-.
  cbn [env_message_id] in Hid. unfold get_or_none in Hid. destruct (dict_get "message_id" (ob_envelope r)); [|done].
  by subst.
Qed.

(** Reading the record of an envelope. *)
Lemma find_live stem o r :
  inv o -> at_place o stem (Live r) -> (exists x, find_document ("sha256:" ++ stem) o = Err x) \/
  exists d, find_document ("sha256:" ++ stem) o = Ok (Some (put_record stem, d, r)) /\ live_record ("sha256:" ++ stem) o = Ok (Some (stem, r)).
Proof.
  intros Ho Hat. pose proof Hat as ((f & Hf & Hw & Hok & Hn) & _). apply names_digest in Hn.
  pose proof (str_drop_app "sha256:" stem) as Es. cbn [String.length] in Es.
  unfold find_document, live_record, outbox_path. rewrite Hn, Es. cbn [res_bind].
  destruct (load_record (records o) stem) as [[d|]|x] eqn:Hl; cbn [res_bind]; [|apply load_none in Hl; congruence|left; by eexists].
  destruct (load_live _ _ _ Ho Hl) as (r' & Hat' & -> & Hr). assert (r' = r) as -> by (pose proof (at_place_inj _ _ _ _ Hat Hat'); congruence).
  rewrite Hr. cbn [res_bind]. right. by eexists.
Qed.

Lemma find_live_fits stem o r f : at_place o stem (Live r) -> o.(records) !! stem = Some f ->
  f.(df_size) <= MAX_OUTBOX_RECORD_BYTES -> exists d, find_document ("sha256:" ++ stem) o = Ok (Some (put_record stem, d, r)).
Proof.
  intros Hat Hf Hsz. pose proof (live_document _ _ _ _ Hat Hf) as (_ & _ & ->)%write_document_Ok.
  pose proof Hat as ((f & Hf' & Hw & Hok & Hn) & _). apply names_digest in Hn.
  pose proof (str_drop_app "sha256:" stem) as Es. cbn [String.length] in Es.
  unfold find_document, outbox_path. rewrite Hn, Es. cbn [res_bind]. unfold load_record. rewrite Hf.
  rewrite (proj2 (Z.ltb_ge _ _) Hsz). cbn [written df_value res_bind]. rewrite decode_record_dict by done. by eexists.
Qed.

Lemma attempted_writes r f t retry e :
  write_document (PDict (record_dict r)) = Ok f -> str_in e OUTBOX_ERROR_CODES = true ->
  exists f', write_document (PDict (record_dict (attempted r 0 t retry (PStr e) true))) = Ok f'.
Proof.
  intros (Hs & He & _)%write_document_Ok Hc. eexists. apply write_document_intro; [exact Hs|].
  cbn [encodes forallb record_dict fst snd] in He |- *. rewrite !andb_true_iff in *.
  unfold attempted. change (0 =? 0) with true. cbn [negb].
  cbn [ob_envelope ob_target_url ob_last_error ob_lease_id ob_route_history ob_status String.eqb].
  assert (text_ok (normalize_outbox_error (PStr e) true) = true) as Ht.
  { rewrite normalize_code by done. apply str_in_In in Hc. cbn [OUTBOX_ERROR_CODES In] in Hc.
    repeat (destruct Hc as [<-|Hc]; [vm_compute; reflexivity|]). done. }
  tauto.
Qed.

(** Settling a lease that is still held succeeds. *)
Lemma release_settles `{Rp : PyRepr} o stem r record now override retry e :
  inv o -> at_place o stem (Live r) -> live_record ("sha256:" ++ stem) o = Ok (Some (stem, r)) ->
  record_id record = "sha256:" ++ stem -> r.(ob_status) = "inflight" -> r.(ob_lease_id) = record.(ob_lease_id) ->
  0 <= retry <= 86400000 -> 0 <= override -> 0 < now -> str_in e OUTBOX_ERROR_CODES = true ->
  exists o' r', release override now record retry e o = (o', Ok r') /\ at_place o' stem (Live r') /\
    r'.(ob_status) = "pending".
Proof.
  intros Ho Hat Hl Hid Hi Hls Hr Hov Hn He. pose proof Hat as ((f & Hf & Hw & Hok & _) & _).
  unfold release, record_attempt. rewrite (proj2 (Z.leb_le 0 retry)), (proj2 (Z.leb_le retry _)), (proj2 (Z.ltb_ge override 0)) by lia.
  cbn [negb andb orb Z.ltb Z.compare]. rewrite Hid, Hl, Hi. cbn [String.eqb andb].
  assert (String.eqb (ob_lease_id r) "" = false) as Hne.
  { apply record_ok_cases in Hok as (_ & _ & _ & _ & _ & Hc). unfold status_consistent in Hc. rewrite Hi in Hc.
    cbn in Hc. destruct (ob_lease_id r =? "")%string; [done|done]. }
  rewrite <- Hls, Hne, String.eqb_refl. cbn [negb orb].
  destruct (attempted_writes r f (clock_ms now override) retry e Hw He) as [f' Hf'].
  unfold save_record. rewrite Hf'. eexists _, _. split; [reflexivity|]. split; [|done].
  eapply put_at_place; [exact Hat| |exact Hf']. apply step_attempt with (lease := ob_lease_id r); [by rewrite Hi|done|lia| |lia].
  apply clock_positive; [done|by apply Z.ltb_ge].
Qed.
End Leases.

(** ** Errors *)

Section Errors.
Context `{N : NetlocRules} `{Ft : FloatText}.

Lemma decode_error d x : decode_record d = Err x -> is_TypeOrValueError x = true.
Proof.
  unfold decode_record, in_strings. intros H. repeat case_match; simplify_eq; try done;
    cbn [res_bind] in H; repeat case_match; by simplify_eq.
Qed.

Lemma load_error m stem x : load_record m stem = Err x -> x = CommerceEnvelopeRejected.
Proof. unfold load_record. intros. repeat case_match; by simplify_eq. Qed.

Lemma path_error id x : outbox_path id = Err x -> x = CommerceEnvelopeRejected.
Proof. unfold outbox_path. case_match; congruence. Qed.

Lemma write_error v x : write_document v = Err x -> is_TypeOrValueError x = true.
Proof. unfold write_document. intros. repeat case_match; by simplify_eq. Qed.

Lemma find_error id o x : find_document id o = Err x -> is_TypeOrValueError x = true.
Proof.
  unfold find_document. intros H. apply res_bind_Err in H as [->%path_error|(stem & _ & H)]; [done|].
  apply res_bind_Err in H as [->%load_error|(live & _ & H)]; [done|]. destruct live as [d|].
  - apply res_bind_Err in H as [H%decode_error|(? & _ & [=])]; done.
  - apply res_bind_Err in H as [->%load_error|(old & _ & H)]; [done|]. destruct old as [d|]; [|done].
    apply res_bind_Err in H as [H%decode_error|(? & _ & [=])]; done.
Qed.

Lemma get_error id o o' x : get id o = (o', Err x) -> is_TypeOrValueError x = true.
Proof.
  unfold get. destruct (find_document id o) as [[[[put d] r]|]|y] eqn:E; [| |intros [= _ <-]; by eapply find_error].
  - case_match; [done|]. destruct (write_document _) eqn:Hw; [done|]. intros [= _ <-]. by eapply write_error.
  - done.
Qed.

Lemma live_error id o x : live_record id o = Err x -> is_TypeOrValueError x = true.
Proof.
  unfold live_record. intros H. apply res_bind_Err in H as [->%path_error|(stem & _ & H)]; [done|].
  apply res_bind_Err in H as [->%load_error|(live & _ & H)]; [done|]. destruct live as [d|]; [|done].
  apply res_bind_Err in H as [H%decode_error|(? & _ & [=])]; done.
Qed.

Lemma release_error `{Rp : PyRepr} override now record retry e o o' x :
  release override now record retry e o = (o', Err x) -> is_TypeOrValueError x = true.
Proof.
  unfold release, record_attempt. case_match; [intros [= _ <-]; done|].
  destruct (live_record _ o) as [[[stem r]|]|y] eqn:E; [|intros [= _ <-]; done|intros [= _ <-]; by eapply live_error].
  case_match; [done|]. case_match; [intros [= _ <-]; done|]. unfold save_record.
  destruct (write_document _) eqn:Hw; [done|]. intros [= _ <-]. by eapply write_error.
Qed.
End Errors.

(** ** One cycle *)

Section Cycle.
Context `{Ed : Ed25519} `{N : NetlocRules} `{Ft : FloatText} `{Rp : PyRepr}.
Context (c : ReconcilerConfig) (dispatch : OutboxRecord -> Z -> op pyval).
Context (maintenance : option (Z -> Z -> op pyval)) (override : Z).
(** The lease ids that are fresh in this cycle. *)
Context (own : string -> Prop).

(** The steps of everybody else: no claim with one of those ids. *)
Definition foreign (l : label) : Prop := forall t f lease, l = LClaim t f lease -> ~ own lease.

Context (Hdispatch : forall r d o, inv o -> steps foreign o (dispatch r d o).1).
Context (Hov : 0 <= override).

Lemma foreign_unheld but o o' : steps foreign o o' -> inv o -> unheld_but but own o -> unheld_but but own o'.
Proof. intros Hst Ho. apply (unheld_steps foreign); [done..|]. intros t f lease Hl H. by apply (H t f lease). Qed.

(** Settling a lease is foreign. *)
Lemma release_foreign now record retry e o : inv o -> 0 < now -> steps foreign o (release override now record retry e o).1.
Proof. intros Ho Hn. apply record_attempt_steps; [done..|]. by intros t f lease [=]. Qed.

Definition tick_ok (t : tick) : Prop :=
  0 < t.(tk_claim) /\ 0 < t.(tk_record) /\ 0 < t.(tk_retry) /\ own t.(tk_lease) /\ t.(tk_lease) <> "" /\
  text_ok t.(tk_lease) = true.

(** The two ways a record stands after the dispatcher ran: nothing is held, or
    the record is untouched and can be loaded. *)
Definition still_held (stem : string) (record : OutboxRecord) (o : outbox) : Prop :=
  at_place o stem (Live record) /\ exists f, o.(records) !! stem = Some f /\ f.(df_size) <= MAX_OUTBOX_RECORD_BYTES.

Lemma held_or_not stem record o o' :
  steps foreign o o' -> inv o -> at_place o stem (Live record) -> unheld_but (eq stem) own o ->
  unheld own o' \/ (still_held stem record o' /\ unheld_but (eq stem) own o').
Proof.
  intros Hst Ho Hat H. pose proof (foreign_unheld _ _ _ Hst Ho H) as H'.
  destruct (Hst stem _ Hat) as (p & Hp & Hf). destruct p as [|r|r].
  - left. intros stem' r' f' _ Hat'. apply H'; [|done]. intros <-. by pose proof (at_place_inj _ _ _ _ Hp Hat').
  - pose proof Hp as ((f & Hf' & _) & _). destruct (decide (df_size f <= MAX_OUTBOX_RECORD_BYTES)) as [Hsz|Hsz].
    + destruct (decide (ob_status r = "inflight")) as [Hi|Hi].
      * destruct (follows_cases _ _ _ _ Hf Hi) as [[= ->]|(t & fo & HP)].
        { right. split; [|done]. split; [done|]. by exists f. }
        left. intros stem' r' f2 _ Hat' Hf2 Hsz2 Hi2 Hs2. apply (H' stem' r' f2); try done. intros <-.
        assert (r' = r) as -> by (pose proof (at_place_inj _ _ _ _ Hat' Hp); congruence).
        by apply (HP _ _ _ eq_refl).
      * left. intros stem' r' f2 _ Hat' Hf2 Hsz2 Hi2. apply (H' stem' r' f2); try done. intros <-.
        assert (r' = r) as -> by (pose proof (at_place_inj _ _ _ _ Hat' Hp); congruence). done.
    + left. intros stem' r' f2 _ Hat' Hf2 Hsz2 Hi2. apply (H' stem' r' f2); try done. intros <-. assert (f2 = f) as -> by congruence. done.
  - left. intros stem' r' f' _ Hat'. apply H'; [|done]. intros <-. by pose proof (at_place_inj _ _ _ _ Hp Hat').
Qed.

(** Reading leaves the outbox alone. *)
Lemma get_cases id o : inv o -> (exists current, get id o = (o, Ok current)) \/
  exists x, get id o = (o, Err x) /\ is_TypeOrValueError x = true.
Proof.
  intros Ho. pose proof (get_unchanged id o Ho) as Hu. destruct (get id o) as [o' [r|x]] eqn:E; cbn [fst] in Hu; subst o'.
  - left. by exists r.
  - right. exists x. split; [done|]. by eapply get_error.
Qed.

Lemma get_held stem record o : inv o -> still_held stem record o ->
  get ("sha256:" ++ stem) o = (o, Ok (Some record)).
Proof.
  intros Ho [Hat (f & Hf & Hsz)]. destruct (find_live_fits _ _ _ _ Hat Hf Hsz) as [d Hd].
  pose proof (get_unchanged ("sha256:" ++ stem) o Ho) as Hu. unfold get in *. rewrite Hd in *.
  destruct (find_live _ _ _ Ho Hat) as [[x Hx]|(d' & Hd' & _)]; [congruence|].
  unfold find_document in Hd. apply res_bind_Ok in Hd as (s & Hs & Hd). apply outbox_path_Ok, str_app_inv_l in Hs as <-.
  apply res_bind_Ok in Hd as (live & Hl & Hd). destruct live as [d0|].
  - destruct (load_live _ _ _ Ho Hl) as (r0 & _ & -> & Hr0). rewrite Hr0 in Hd. cbn [res_bind] in Hd. injection Hd as <- <-.
    change (get_or_none "last_error" (record_dict r0)) with (PStr (ob_last_error r0)). cbn [py_eqb]. by rewrite String.eqb_refl.
  - apply load_none in Hl. congruence.
Qed.

Lemma held_released stem record o now retry e :
  inv o -> still_held stem record o -> unheld_but (eq stem) own o -> record.(ob_status) = "inflight" ->
  0 <= retry <= 86400000 -> 0 < now -> str_in e OUTBOX_ERROR_CODES = true ->
  exists o' r, release override now record retry e o = (o', Ok r) /\ inv o' /\ unheld own o'.
Proof.
  intros Ho [Hat (f & Hf & Hsz)] Hu Hi Hr Hn He. pose proof Hat as (_ & _) . 
  assert (record_id record = "sha256:" ++ stem) as Hid.
  { destruct Hat as ((f' & _ & _ & _ & Hnm) & _). by apply record_id_names. }
  destruct (find_live _ _ _ Ho Hat) as [[x Hx]|(d & _ & Hl)].
  { destruct (find_live_fits _ _ _ _ Hat Hf Hsz). congruence. }
  destruct (release_settles o stem record record now override retry e Ho Hat Hl Hid Hi eq_refl Hr Hov Hn He)
    as (o' & r & Hrel & Hat' & Hp). pose proof (release_foreign now record retry e o Ho Hn) as Hst.
  rewrite Hrel in Hst. cbn [fst] in Hst. pose proof (steps_inv _ _ _ Hst Ho) as Ho'. exists o', r.
  split_and!; [done|done|]. pose proof (foreign_unheld _ _ _ Hst Ho Hu) as Hu'.
  intros stem' r' f2 _ Hat2 Hf2 Hsz2 Hi2. apply (Hu' stem' r' f2); try done. intros <-.
  assert (r' = r) as -> by (pose proof (at_place_inj _ _ _ _ Hat2 Hat'); congruence). congruence.
Qed.

Lemma type_error_persists x : is_TypeOrValueError x = true -> is_persist_error x = true.
Proof. unfold is_persist_error. by intros ->. Qed.

(** An outbox a cycle may leave. *)
Definition released (o : outbox) : Prop := inv o /\ unheld own o.

Lemma released_foreign o o' : steps foreign o o' -> released o -> released o'.
Proof. intros Hst [Ho Hu]. split; [by eapply steps_inv|by eapply foreign_unheld]. Qed.

Lemma finalize_released t record delay o : released o -> tick_ok t ->
  exists o' outcome, finalize_failure override t record delay o = (o', Ok outcome) /\ released o'.
Proof.
  intros Hr (_ & _ & Hn & _). unfold finalize_failure.
  destruct (get_cases (record_id record) o (proj1 Hr)) as [[current ->]|(x & -> & ->%type_error_persists)]; [|by eexists _, _].
  destruct (is_acknowledged current); [by eexists _, _|]. destruct (holds_lease current record); [|by eexists _, _].
  pose proof (release_foreign (tk_retry t) record delay OUTBOX_ERROR_RUNTIME o (proj1 Hr) Hn) as Hst.
  destruct (release _ _ _ _ _ o) as [o' [r|x]] eqn:E; cbn [fst] in Hst;
    [|apply release_error, type_error_persists in E as ->]; eexists _, _; (split; [reflexivity|]); by eapply released_foreign.
Qed.

Lemma finalize_held stem t record delay o :
  inv o -> still_held stem record o -> unheld_but (eq stem) own o -> record.(ob_status) = "inflight" -> tick_ok t ->
  0 <= delay <= 86400000 -> record_id record = "sha256:" ++ stem ->
  exists o' outcome, finalize_failure override t record delay o = (o', Ok outcome) /\ released o'.
Proof.
  intros Ho Hh Hu Hi (_ & _ & Hn & _) Hd Hid. unfold finalize_failure. rewrite Hid, (get_held _ _ _ Ho Hh).
  unfold is_acknowledged, holds_lease. rewrite Hi, !String.eqb_refl. cbn [String.eqb andb].
  destruct (held_released stem record o (tk_retry t) delay OUTBOX_ERROR_RUNTIME Ho Hh Hu Hi Hd Hn eq_refl)
    as (o' & r & Hrel & Hr). cbn. rewrite Hrel. by eexists _, _.
Qed.

Lemma deliver_releases stem t record delay o :
  inv o -> at_place o stem (Live record) -> unheld_but (eq stem) own o -> record.(ob_status) = "inflight" ->
  tick_ok t -> 0 <= delay <= 86400000 ->
  exists o' outcome, deliver dispatch override t record delay o = (o', Ok outcome) /\ released o'.
Proof.
  intros Ho Hat Hu Hi Ht Hd. assert (record_id record = "sha256:" ++ stem) as Hid.
  { destruct Hat as ((f' & _ & _ & _ & Hnm) & _). by apply record_id_names. }
  unfold deliver, dispatch_record. pose proof (Hdispatch record delay o Ho) as Hst.
  destruct (dispatch record delay o) as [o1 rd]. cbn [fst] in Hst. pose proof (steps_inv _ _ _ Hst Ho) as Ho1.
  pose proof Ht as (_ & Hn & _).
  destruct (held_or_not _ _ _ _ Hst Ho Hat Hu) as [Hr|[Hh Hu1]].
  - assert (released o1) as Hrel by done.
    destruct rd as [[| | | | | |result|]|x]; try (by apply finalize_released).
    destruct (get_cases (record_id record) o1 Ho1) as [[current ->]|(x & -> & _)]; [|by apply finalize_released].
    destruct (is_acknowledged current); [by eexists _, _|]. destruct (holds_lease current record); [|by eexists _, _].
    pose proof (release_foreign (tk_record t) record delay OUTBOX_ERROR_DISPATCH_CONTRACT o1 Ho1 Hn) as Hst2.
    destruct (release _ _ _ _ _ o1) as [o2 [r|x]]; cbn [fst] in Hst2;
      [eexists _, _; split; [reflexivity|]; by eapply released_foreign|].
    apply finalize_released; [by eapply released_foreign|done].
  - destruct rd as [[| | | | | |result|]|x]; try (by eapply finalize_held).
    rewrite Hid, (get_held _ _ _ Ho1 Hh). unfold is_acknowledged, holds_lease. rewrite Hi, !String.eqb_refl. cbn [String.eqb andb].
    destruct (held_released stem record o1 (tk_record t) delay OUTBOX_ERROR_DISPATCH_CONTRACT Ho1 Hh Hu1 Hi Hd Hn eq_refl)
      as (o' & r & Hrel & Hr). cbn. rewrite Hrel. by eexists _, _.
Qed.

(** A claim that succeeds leaves its own lease and nothing else. *)
Lemma claim_unheld t id lease_ms o o' record :
  released o -> tick_ok t -> claim t.(tk_claim) id lease_ms override false t.(tk_lease) o = (o', Ok (Some record)) ->
  inv o' /\ exists stem, at_place o' stem (Live record) /\ unheld_but (eq stem) own o' /\
    record.(ob_status) = "inflight" /\ 0 <= record.(ob_attempts).
Proof.
  intros [Ho Hu] (Hn & _ & _ & Hs & Hl & _) H.
  pose proof (claim_steps (fun _ => True) (tk_claim t) id lease_ms override false (tk_lease t) o Ho Hn Hl I) as Hst.
  rewrite H in Hst. cbn [fst] in Hst. pose proof (steps_inv _ _ _ Hst Ho) as Ho'. split; [done|].
  unfold claim in H. destruct (_ || _); [done|]. destruct (live_record id o) as [[[stem r]|]|x] eqn:Hlr; [|done|done].
  destruct (not_claimable _ _ _); [done|]. destruct (save_record _ _ o) as [o1 [r1|x]] eqn:Hsv; [|done].
  injection H as <- <-. destruct (saved_kept _ _ _ _ _ Ho' Hsv) as [<- Hk].
  destruct (live_record_Ok _ _ _ _ Ho Hlr) as [_ Hat]. exists stem.
  unfold save_record in Hsv. destruct (write_document _) as [f|] eqn:Hw; [|done]. injection Hsv as <-.
  assert (at_place (put_record stem f o) stem (Live (claimed r (tk_lease t) (clock_ms (tk_claim t) override + lease_ms)))) as Hat'.
  { destruct (Ho' stem) as [p Hp]. pose proof (kept_at_place _ _ _ Hp) as E. rewrite Hk in E.
    destruct p as [|r'|r']; cbn [record_of] in E; [done|congruence|].
    exfalso. cbn [at_place put_record records] in Hp. destruct Hp as [Hp _]. by rewrite lookup_insert_eq in Hp. }
  split_and!; [done| |done|].
  - intros stem' r' f' Hne Hat2 Hf2 Hsz Hi. cbn [put_record records] in Hf2. rewrite lookup_insert_ne in Hf2 by done.
    apply (Hu stem' r' f' (fun H => H)); [|done..]. cbn [at_place put_record records archived] in Hat2 |- *.
    destruct Hat2 as ((f2 & Hf3 & Hh) & Ha). rewrite lookup_insert_ne in Hf3 by done. split; [by exists f2|done].
  - pose proof Hat' as ((? & _ & _ & Hok & _) & _). apply record_ok_cases in Hok as (_ & _ & Hnat & _).
    by apply naturals_cases in Hnat as [? _].
Qed.

Lemma reclaim_refused t id lease_ms o o' x :
  released o -> tick_ok t -> claim t.(tk_claim) id lease_ms override false t.(tk_lease) o = (o', Err x) ->
  o' = o /\ x = CommerceEnvelopeRejected.
Proof.
  intros [Ho _] (_ & _ & _ & _ & _ & Hl) H. unfold claim in H. destruct (_ || _); [by injection H as <- <-|].
  destruct (live_record id o) as [[[stem r]|]|y] eqn:Hlr; [|done|].
  - destruct (not_claimable _ _ _); [done|]. destruct (live_record_Ok _ _ _ _ Ho Hlr) as [_ ((f & _ & Hw & _) & _)].
    destruct (claimed_writes r f (tk_lease t) (clock_ms (tk_claim t) override + lease_ms) Hw Hl) as [f' Hf'].
    unfold save_record in H. rewrite Hf' in H. done.
  - injection H as <- <-. split; [done|]. unfold live_record in Hlr. apply res_bind_Err in Hlr as [->%path_error|(stem & _ & H)]; [done|].
    apply res_bind_Err in H as [->%load_error|(live & Hd & H)]; [done|]. destruct live as [d|]; [|done].
    destruct (load_live _ _ _ Ho Hd) as (r & _ & -> & Hr). by rewrite Hr in H.
Qed.

Lemma claim_None_same now id lease_ms lease o o' : claim now id lease_ms override false lease o = (o', Ok None) -> o' = o.
Proof.
  unfold claim. intros H. destruct (_ || _); [done|]. destruct (live_record id o) as [[[stem r]|]|y]; [|by injection H|done].
  destruct (not_claimable _ _ _); [by injection H|]. by destruct (save_record _ _ o) as [? []].
Qed.

Lemma text_ok_encode s : text_ok s = true -> utf8_encode s = Ok s.
Proof. unfold text_ok, utf8_encode. by destruct (has_surrogate (bytes_of s)). Qed.

(** What a tally counts. *)
Definition balanced (n : Z) (t : tally) : Prop :=
  t.(ta_claimed) = t.(ta_acknowledged) + t.(ta_failed) /\ 0 <= t.(ta_acknowledged) /\ 0 <= t.(ta_failed) /\ t.(ta_claimed) <= n.

Lemma cycle_loop_releases ticks stop n candidates t o m :
  config_ok c -> (forall k, tick_ok (ticks k)) -> released o -> balanced m t ->
  exists o' t', cycle_loop c dispatch override ticks stop n candidates t o = (o', t', Ok tt) /\ released o' /\
    balanced (m + Z.of_nat (List.length candidates)) t'.
Proof.
  intros Hc Ht. revert n t o m. induction candidates as [|r candidates IH]; intros n t o m Hr Hb.
  { exists o, t. split; [done|]. split; [done|]. by rewrite Z.add_0_r. }
  assert (forall t', balanced m t' -> balanced (m + Z.of_nat (List.length (r :: candidates))) t') as Hmono.
  { intros t' (H1 & H2 & H3 & H4). unfold balanced. cbn [List.length]. split_and!; try done. lia. }
  assert (forall k t' o', released o' -> balanced (m + 1) t' -> exists o2 t2,
    cycle_loop c dispatch override ticks stop k candidates t' o' = (o2, t2, Ok tt) /\ released o2 /\
    balanced (m + Z.of_nat (List.length (r :: candidates))) t2) as IH'.
  { intros k t' o' Hr' Hb'. destruct (IH k t' o' (m + 1) Hr' Hb') as (o2 & t2 & E & H2 & H3). exists o2, t2.
    split; [done|]. split; [done|]. cbn [List.length]. by replace (m + Z.of_nat (Datatypes.S (List.length candidates))) with
      (m + 1 + Z.of_nat (List.length candidates)) by lia. }
  cbn [cycle_loop]. destruct (stop n); [exists o, t; split; [done|]; split; [done|by apply Hmono]|].
  assert (balanced (m + 1) t) as Hb1 by (destruct Hb as (? & ? & ? & ?); unfold balanced; split_and!; try done; lia).
  destruct (claim _ _ _ _ _ _ o) as [o1 [[record|]|x]] eqn:Hcl.
  - destruct (claim_unheld _ _ _ _ _ _ Hr (Ht n) Hcl) as (Ho1 & stem & Hat & Hu & Hi & Hatt).
    assert (exists d, retry_delay_ms c (ob_attempts record) (record_id record) = Ok d) as [d Hd].
    { pose proof Hat as ((? & _ & _ & _ & Hnm) & _). pose proof (record_id_names _ _ Hnm) as Hid.
      destruct Hnm as (e & w & _ & [Hv _]%verify_envelope_inv & Hid'). destruct (ve_id _ Hv) as (id & Hid2 & Hm).
      rewrite Hid' in Hid2. injection Hid2 as <-. apply digest_text_ok in Hm.
      unfold retry_delay_ms. rewrite (proj2 (Z.ltb_ge (ob_attempts record) 0)) by lia. case_match; [by eexists|].
      assert (utf8_encode (record_id record) = Ok (record_id record)) as ->; [|by eexists].
      rewrite Hid. by apply text_ok_encode. }
    rewrite Hd. pose proof (reconcile_delay_range _ _ _ _ Hc Hd) as [_ Hrange].
    assert (0 <= d <= 86400000) as Hdr.
    { destruct Hc as (_ & _ & H1 & H2). assert (0 < 2 ^ Z.min (ob_attempts record) 30) by (apply Z.pow_pos_nonneg; lia). nia. }
    destruct (deliver_releases stem (ticks n) record d o1 Ho1 Hat Hu Hi (Ht n) Hdr) as (o2 & outcome & E & Hr2).
    rewrite E. apply IH'; [done|]. destruct Hb as (? & ? & ? & ?). destruct outcome; unfold balanced; cbn; lia.
  - apply claim_None_same in Hcl as ->. by apply IH'.
  - destruct (reclaim_refused _ _ _ _ _ _ Hr (Ht n) Hcl) as [-> ->]. by apply IH'.
Qed.

Lemma list_loop_total statuses o limit stems : inv o ->
  exists rows, list_loop statuses o limit stems = Ok rows /\ (List.length rows <= limit)%nat.
Proof.
  intros Ho. revert limit. induction stems as [|stem stems IH]; intros limit; [exists []; destruct limit; split; [done|simpl; lia|done|simpl; lia]|].
  destruct limit as [|limit]; [by exists []; split; [|simpl; lia]|]. cbn [list_loop].
  destruct (readable o stem) as [[r|]|x] eqn:Hr; cbn [res_bind].
  - destruct (str_in _ _); [|apply IH]. destruct (IH limit) as (rows & -> & Hl). exists (r :: rows). split; [done|].
    cbn [List.length]. lia.
  - apply IH.
  - exfalso. unfold readable in Hr. destruct (load_record (records o) stem) as [[d|]|y] eqn:Hd; [|done|].
    + destruct (load_live _ _ _ Ho Hd) as (r & _ & -> & Hr'). cbn [res_bind] in Hr. by rewrite Hr' in Hr.
    + apply load_error in Hd as ->. done.
Qed.

Lemma pending_total limit o : inv o -> 1 <= limit <= 1000 ->
  exists rows, pending limit o = Ok rows /\ Z.of_nat (List.length rows) <= limit.
Proof.
  intros Ho Hl. unfold pending, list_statuses. rewrite (proj2 (Z.leb_le 1 limit)), (proj2 (Z.leb_le limit 1000)) by lia.
  cbn [andb negb]. destruct (list_loop_total ["pending"; "inflight"] o (Z.to_nat limit) (sorted_stems o.(records)) Ho)
    as (rows & -> & Hn). exists rows. split; [done|lia].
Qed.

Lemma archive_foreign before_ms limit o : inv o -> steps foreign o (archive_acknowledged before_ms limit o).1.
Proof.
  intros Ho. unfold archive_acknowledged. destruct (_ || _); [done|]. apply archive_loop_steps; [|done].
  by intros t f lease [=].
Qed.

Lemma cycle_archive_released now o :
  config_ok c -> released o -> (c.(rc_archive_after_s) = 0 \/ c.(rc_archive_after_s) * 1000 < clock_ms now override) ->
  exists o', cycle_archive c override now o = (o', Ok tt) /\ released o'.
Proof.
  intros (_ & Hb & _) Hr Ha. unfold cycle_archive. destruct (Z.eqb_spec (rc_archive_after_s c) 0) as [|Hne]; [by exists o|].
  destruct Ha as [|Ha]; [done|]. pose proof (archive_foreign (clock_ms now override - rc_archive_after_s c * 1000)
    (rc_batch_limit c) o (proj1 Hr)) as Hst.
  assert (exists ids, (archive_acknowledged (clock_ms now override - rc_archive_after_s c * 1000) (rc_batch_limit c) o).2 = Ok ids) as [ids Hids].
  { unfold archive_acknowledged. rewrite (proj2 (Z.leb_gt _ 0)), (proj2 (Z.leb_le 1 _)), (proj2 (Z.leb_le _ 1000)) by lia.
    cbn [andb negb orb]. apply archive_loop_total, (proj1 Hr). }
  destruct (archive_acknowledged _ _ o) as [o' r]. cbn [fst snd] in *. subst r. exists o'. split; [done|].
  by eapply released_foreign.
Qed.

Context (Hmaintenance : forall f a b o, maintenance = Some f -> inv o -> steps foreign o (f a b o).1).

Lemma cycle_maintenance_released now s o : released o ->
  exists o' s', cycle_maintenance c maintenance override now s o = (o', s') /\ released o' /\
    s'.(rs_claimed_total) = s.(rs_claimed_total) /\ s'.(rs_acknowledged_total) = s.(rs_acknowledged_total) /\
    s'.(rs_failed_total) = s.(rs_failed_total).
Proof.
  intros Hr. unfold cycle_maintenance. destruct maintenance as [f|] eqn:Em; [|by exists o, s].
  pose proof (Hmaintenance f (clock_ms now override) (rc_batch_limit c) o eq_refl (proj1 Hr)) as Hst.
  destruct (f _ _ o) as [o' [result|x]]; cbn [fst] in Hst;
    [destruct (count_in "scanned" result); [destruct (count_in "quarantined" result)|]|];
    eexists _, _; (split; [reflexivity|]); split; [by eapply released_foreign|done|by eapply released_foreign|done
      |by eapply released_foreign|done|by eapply released_foreign|done].
Qed.
End Cycle.

Section Properties.
Context `{Ed : Ed25519} `{N : NetlocRules} `{Ft : FloatText} `{Rp : PyRepr}.

(** C14.  A cycle always completes and strands no lease.  Let the dispatcher and
    the maintenance callback do to the outbox whatever workers can do (return,
    raise, settle the record, let others claim and deliver), short of claiming
    with the lease ids that are fresh in this cycle.  Then [run_once] returns;
    afterwards no record that can be loaded is in flight under one of those ids;
    at most [batch_limit] records were claimed, each counted as acknowledged or
    failed, in the result and in the totals. *)
Theorem cycle_strands_no_lease c dispatch maintenance override own ticks stop en s o :
  config_ok c -> 0 <= override -> inv o -> (forall k, tick_ok own (ticks k)) -> unheld own o ->
  (forall r d o, inv o -> steps (foreign own) o (dispatch r d o).1) ->
  (forall f a b o, maintenance = Some f -> inv o -> steps (foreign own) o (f a b o).1) ->
  (c.(rc_archive_after_s) = 0 \/ c.(rc_archive_after_s) * 1000 < clock_ms en.(en_archive) override) ->
  exists o' s' t, run_once c dispatch maintenance override ticks stop en s o = (o', s', Ok t) /\
    inv o' /\ unheld own o' /\
    t.(ta_claimed) = t.(ta_acknowledged) + t.(ta_failed) /\ 0 <= t.(ta_acknowledged) /\ 0 <= t.(ta_failed) /\
    t.(ta_claimed) <= c.(rc_batch_limit) /\
    s'.(rs_claimed_total) = s.(rs_claimed_total) + t.(ta_claimed) /\
    s'.(rs_acknowledged_total) = s.(rs_acknowledged_total) + t.(ta_acknowledged) /\
    s'.(rs_failed_total) = s.(rs_failed_total) + t.(ta_failed).
Proof.
  intros Hc Hov Ho Ht Hu Hd Hm Ha. unfold run_once. pose proof Hc as (_ & Hb & _).
  destruct (pending_total c.(rc_batch_limit) o Ho Hb) as (rows & -> & Hrows).
  destruct (cycle_loop_releases c dispatch override own Hd Hov ticks stop 0 rows no_tally o 0 Hc Ht (conj Ho Hu))
    as (o1 & t & -> & Hr1 & Hbal); [done|].
  destruct (cycle_archive_released c override own en.(en_archive) o1 Hc Hr1 Ha) as (o2 & -> & Hr2).
  destruct (cycle_maintenance_released c maintenance override own Hm en.(en_maintenance) s o2 Hr2)
    as (o3 & s3 & -> & [Hi3 Hu3] & E1 & E2 & E3).
  destruct Hbal as (B1 & B2 & B3 & B4). eexists _, _, t. split; [reflexivity|]. cbn [record_cycle rs_claimed_total rs_acknowledged_total rs_failed_total].
  rewrite E1, E2, E3. split_and!; try done. lia.
Qed.
End Properties.

(** ** Example *)

#[local] Existing Instance toy_ed25519.
#[local] Existing Instance plain_netloc.
#[local] Existing Instance no_float_text.
#[local] Instance toy_repr : PyRepr := fun _ => "".

Definition demo_config : ReconcilerConfig := {|
  rc_poll_interval_s := float_of_int 2; rc_lease_ms := 30000; rc_batch_limit := 25; rc_base_backoff_ms := 1000;
  rc_max_backoff_ms := 300000; rc_jitter_ratio := S754_zero false; rc_archive_after_s := 0;
  rc_orphan_after_s := 604800 |}.
Definition demo_state : reconciler := {|
  rs_last_run_at_ms := 0; rs_last_success_at_ms := 0; rs_last_error := ""; rs_claimed_total := 0;
  rs_acknowledged_total := 0; rs_failed_total := 0; rs_maintenance_total := 0; rs_quarantined_total := 0;
  rs_maintenance_error := "" |}.
Definition demo_tick : tick := {| tk_claim := 30; tk_lease := "lease-1"; tk_record := 40; tk_retry := 40 |}.
Definition demo_endings : endings := {| en_archive := 50; en_maintenance := 50; en_finally := 50 |}.

(** A dispatcher that always raises. *)
Definition broken_dispatch (r : OutboxRecord) (d : Z) : op pyval := fun o => (o, Err RuntimeError).

Lemma cycle_strands_no_lease_witness :
  exists o' s' t,
    run_once demo_config broken_dispatch None 0 (fun _ => demo_tick) (fun _ => false) demo_endings demo_state demo_outbox =
      (o', s', Ok t) /\ inv o' /\ unheld (eq "lease-1") o' /\ t.(ta_claimed) = t.(ta_acknowledged) + t.(ta_failed).
Proof.
  assert (unheld (eq "lease-1") demo_outbox) as Hu.
  { intros stem r f _ Hat Hf _ Hi Hl. pose proof (kept_at_place _ _ _ Hat) as Hk. cbn [record_of] in Hk.
    unfold demo_outbox in Hf. cbn [put_record records empty_outbox] in Hf.
    destruct (decide (stem = demo_stem)) as [->|Hne].
    - rewrite (proj2 demo_inv) in Hk. injection Hk as <-. discriminate Hi.
    - by rewrite lookup_insert_ne in Hf. }
  destruct (cycle_strands_no_lease demo_config broken_dispatch None 0 (eq "lease-1") (fun _ => demo_tick) (fun _ => false)
    demo_endings demo_state demo_outbox) as (o' & s' & t & H1 & H2 & H3 & H4 & _).
  - repeat split; discriminate.
  - discriminate.
  - apply demo_inv.
  - intros k. repeat split; discriminate.
  - exact Hu.
  - intros r d o _. reflexivity.
  - discriminate.
  - by left.
  - exists o', s', t. exact (conj H1 (conj H2 (conj H3 H4))).
Defined.

(** The same cycle, evaluated: the attempt is counted as failed and the record
    waits for its retry. *)
Example broken_dispatch_ex :
  (run_once demo_config broken_dispatch None 0 (fun _ => demo_tick) (fun _ => false) demo_endings demo_state demo_outbox).2 =
  Ok {| ta_claimed := 1; ta_acknowledged := 0; ta_failed := 1; ta_last_error := OUTBOX_ERROR_RUNTIME |}.
Proof. vm_compute. reflexivity. Qed.
