(* ===== verification/Provisional.v ===== *)
(** * Provisional imports ([nth_dao/commerce/provisional.py])

    A federated order arrives with the chain of its trade.  The import writes
    the trade first and the order last, under a marker that is removed when both
    are durable; a reconciler later completes or quarantines what an
    interrupted import left.  Every write replaces, moves or appends to one
    file; a process may stop before any of its writes. *)

From Stdlib Require Import ZArith Lia Ascii String.
From stdpp Require Import base list strings gmap.
From S2P Require Import Prelude PyStr PyValue PyDecimal PyDate CanonicalJson B64u DidKey Sha256 Money Identity Store PyOps Projection Settlement Mandate Listing Order Trade DocFile Envelope.

Local Open Scope string_scope.
Local Open Scope Z_scope.

(** ** Markers *)

Definition PROVISIONAL_KIND : string := "nth-commerce-provisional-import-v1".

Record ProvisionalImport := {
  pi_order_id : string;
  pi_message_id : string;
  pi_source_did : string;
  pi_chain_head : string;
  pi_created_at_ms : Z;
  pi_kind : string
}.

#[export] Instance ProvisionalImport_eq_dec : EqDecision ProvisionalImport.
Proof. solve_decision. Defined.

Definition PROVISIONAL_FIELDS : list string :=
  ["order_id"; "message_id"; "source_did"; "chain_head"; "created_at_ms"; "kind"].

(** [ProvisionalImport.to_dict] *)
Definition import_to_dict (r : ProvisionalImport) : list (string * pyval) :=
  [("order_id", PStr r.(pi_order_id)); ("message_id", PStr r.(pi_message_id)); ("source_did", PStr r.(pi_source_did));
   ("chain_head", PStr r.(pi_chain_head)); ("created_at_ms", PInt r.(pi_created_at_ms)); ("kind", PStr r.(pi_kind))].

(** A [str] of [len] characters that starts with [prefix] and goes on in
    hexadecimal. *)
Definition prefixed_hex (prefix : string) (len : Z) (v : pyval) : option string :=
  match v with
  | PStr s =>
    if startswith prefix s && (py_len s =? len) &&
       match fromhex (removeprefix prefix s) with Ok _ => true | Err _ => false end
    then Some s else None
  | _ => None
  end.

(** [ProvisionalImport.from_dict] *)
Definition import_from_dict (value : pyval) : res ProvisionalImport :=
  match value with
  | PDict d =>
    if negb (same_keys PROVISIONAL_FIELDS d) then Err ProvisionalImportRejected else
    if negb (py_eqb (get_or_none "kind" d) (PStr PROVISIONAL_KIND)) then Err ProvisionalImportRejected else
    match prefixed_hex ORDER_ID_PREFIX 81 (get_or_none "order_id" d),
          prefixed_hex "sha256:" 71 (get_or_none "message_id" d),
          prefixed_hex "sha256:" 71 (get_or_none "chain_head" d),
          get_or_none "source_did" d, as_int (get_or_none "created_at_ms" d) with
    | Some order_id, Some message_id, Some chain_head, PStr source_did, Some created =>
      if is_did_key (PStr source_did) && (0 <? created)
      then Ok {| pi_order_id := order_id; pi_message_id := message_id; pi_source_did := source_did;
                 pi_chain_head := chain_head; pi_created_at_ms := created; pi_kind := PROVISIONAL_KIND |}
      else Err ProvisionalImportRejected
    | _, _, _, _, _ => Err ProvisionalImportRejected
    end
  | _ => Err ProvisionalImportRejected
  end.

(** [ProvisionalImportStore._storage_key] *)
Definition storage_key (order_id : string) : string := sha256_hex order_id.

(** ** The disk and the process *)

(** The directories; files are named without [.json]. *)
Record imports := {
  im_markers : files;               (** [commerce/provisional_imports] *)
  im_trades : files;                (** [trades] *)
  im_orders : files;                (** [commerce/orders] *)
  im_audit : list pyval;            (** [commerce/import_reconciliation.jsonl] *)
  im_old_markers : files;           (** [commerce/quarantine/provisional_imports] *)
  im_bad_markers : files;           (** [commerce/quarantine/invalid_provisional_imports] *)
  im_old_trades : files             (** [commerce/quarantine/trades] *)
}.

Definition set_markers (m : files) (d : imports) : imports :=
  {| im_markers := m; im_trades := d.(im_trades); im_orders := d.(im_orders); im_audit := d.(im_audit);
     im_old_markers := d.(im_old_markers); im_bad_markers := d.(im_bad_markers); im_old_trades := d.(im_old_trades) |}.
Definition set_trades (m : files) (d : imports) : imports :=
  {| im_markers := d.(im_markers); im_trades := m; im_orders := d.(im_orders); im_audit := d.(im_audit);
     im_old_markers := d.(im_old_markers); im_bad_markers := d.(im_bad_markers); im_old_trades := d.(im_old_trades) |}.
Definition set_orders (m : files) (d : imports) : imports :=
  {| im_markers := d.(im_markers); im_trades := d.(im_trades); im_orders := m; im_audit := d.(im_audit);
     im_old_markers := d.(im_old_markers); im_bad_markers := d.(im_bad_markers); im_old_trades := d.(im_old_trades) |}.
Definition set_audit (l : list pyval) (d : imports) : imports :=
  {| im_markers := d.(im_markers); im_trades := d.(im_trades); im_orders := d.(im_orders); im_audit := l;
     im_old_markers := d.(im_old_markers); im_bad_markers := d.(im_bad_markers); im_old_trades := d.(im_old_trades) |}.
Definition set_old_markers (m : files) (d : imports) : imports :=
  {| im_markers := d.(im_markers); im_trades := d.(im_trades); im_orders := d.(im_orders); im_audit := d.(im_audit);
     im_old_markers := m; im_bad_markers := d.(im_bad_markers); im_old_trades := d.(im_old_trades) |}.
Definition set_bad_markers (m : files) (d : imports) : imports :=
  {| im_markers := d.(im_markers); im_trades := d.(im_trades); im_orders := d.(im_orders); im_audit := d.(im_audit);
     im_old_markers := d.(im_old_markers); im_bad_markers := m; im_old_trades := d.(im_old_trades) |}.
Definition set_old_trades (m : files) (d : imports) : imports :=
  {| im_markers := d.(im_markers); im_trades := d.(im_trades); im_orders := d.(im_orders); im_audit := d.(im_audit);
     im_old_markers := d.(im_old_markers); im_bad_markers := d.(im_bad_markers); im_old_trades := m |}.

(** A process: the writes it makes before it is stopped, and the disk. *)
Record process := { pr_writes : nat; pr_disk : imports }.

(** Code that reads and writes; [None] is a process that was stopped. *)
Definition io (A : Type) : Type := process -> process * option (res A).

Definition ret {A} (a : A) : io A := fun p => (p, Some (Ok a)).
Definition raise {A} (e : exn) : io A := fun p => (p, Some (Err e)).

Definition bind {A B} (m : io A) (f : A -> io B) : io B := fun p =>
  match m p with
  | (p, Some (Ok a)) => f a p
  | (p, Some (Err e)) => (p, Some (Err e))
  | (p, None) => (p, None)
  end.

(** [try]: the outcome as a value *)
Definition attempt {A} (m : io A) : io (res A) := fun p =>
  match m p with (p, Some r) => (p, Some (Ok r)) | (p, None) => (p, None) end.

Definition reads {A} (f : imports -> res A) : io A := fun p => (p, Some (f p.(pr_disk))).

(** One write, which is atomic *)
Definition update (f : imports -> res imports) : io unit := fun p =>
  match f p.(pr_disk) with
  | Err e => (p, Some (Err e))
  | Ok d => match p.(pr_writes) with
            | O => (p, None)
            | S n => ({| pr_writes := n; pr_disk := d |}, Some (Ok tt))
            end
  end.

Notation "'let!' x ':=' m 'in' k" := (bind m (fun x => k))
  (at level 10, x pattern, m at level 100, k at level 200) : py_scope.

Section Provisional.
Context `{Ed : Ed25519} `{D : IsoDates} `{U : UnicodeDigits} `{Rp : PyRepr} `{Ud : UnicodeDB}.

(** [_load_path] *)
Definition load_marker (stem : string) (d : imports) : res (option ProvisionalImport) :=
  match safe_load_json d.(im_markers) stem with
  | None => Ok None
  | Some v => let* r := import_from_dict v in Ok (Some r)
  end.

(** [_write_locked] *)
Definition write_marker (stem : string) (r : ProvisionalImport) : io unit :=
  let! existing := reads (load_marker stem) in
  let! present := reads (fun d => Ok (file_exists d.(im_markers) stem)) in
  match existing with
  | None =>
    if present then raise ProvisionalImportRejected else
    update (fun d => Ok (set_markers (atomic_write_json d.(im_markers) stem (PDict (import_to_dict r))) d))
  | Some stored => if decide (stored = r) then ret tt else raise ProvisionalImportRejected
  end.

(** The record of [import_bundle]; [clock] is the current time. *)
Definition bundle_record (clock : Z) (order : OrderEvent) (trade_events message_id source_did created_at_ms : pyval)
  : res ProvisionalImport :=
  let* head := trade_chain_head trade_events in
  import_from_dict (PDict [
    ("order_id", order.(Order.order_id)); ("message_id", message_id); ("source_did", source_did);
    ("chain_head", PStr head);
    ("created_at_ms", if truthy created_at_ms then created_at_ms else PInt clock); ("kind", PStr PROVISIONAL_KIND)]).

(** [import_bundle] *)
Definition import_bundle (now clock : Z) (order : OrderEvent)
    (trade_events message_id source_did created_at_ms : pyval) : io unit :=
  let! record := reads (fun _ => bundle_record clock order trade_events message_id source_did created_at_ms) in
  let stem := storage_key record.(pi_order_id) in
  let! _ := write_marker stem record in
  let! _ := update (fun d =>
    let* (trades, _) := Trade.import_verified_events now d.(im_trades) record.(pi_order_id) trade_events in
    Ok (set_trades trades d)) in
  let! _ := update (fun d =>
    let* (orders, _) := Order.import_verified d.(im_orders) order in Ok (set_orders orders d)) in
  update (fun d => Ok (set_markers (delete stem d.(im_markers)) d)).

(** ** The reconciler *)

(** The entry of [_audit] *)
Definition audit_entry (event_type : string) (r : ProvisionalImport) (now_ms : Z) : res pyval :=
  let body := [("type", PStr event_type); ("order_id", PStr r.(pi_order_id)); ("message_id", PStr r.(pi_message_id));
               ("source_did", PStr r.(pi_source_did)); ("chain_head", PStr r.(pi_chain_head));
               ("recorded_at_ms", PInt now_ms)] in
  let* id := digest_of (PDict body) in
  Ok (PDict (body ++ [("event_id", PStr id)])).

(** [_audit] *)
Definition audit (event_type : string) (r : ProvisionalImport) (now_ms : Z) : io unit :=
  update (fun d => let* e := audit_entry event_type r now_ms in Ok (set_audit (d.(im_audit) ++ [e]) d)).

(** [os.replace(path, destination)] between two directories *)
Definition move (name : string) (from : files) (dest : string) (to : files) : res (files * files) :=
  match from !! name with
  | None => Err OSError
  | Some f => Ok (delete name from, <[dest := f]> to)
  end.

(** [_quarantine_marker] *)
Definition quarantine_marker (stem : string) (r : ProvisionalImport) : io unit :=
  let destination := storage_key r.(pi_order_id) in
  update (fun d =>
    if file_exists d.(im_old_markers) destination then Err ProvisionalImportRejected else
    let* (markers, old) := move stem d.(im_markers) destination d.(im_old_markers) in
    Ok (set_old_markers old (set_markers markers d))).

(** The bytes of the markers, of which the model keeps the decoded values *)
Context (raw : string -> string).

(** [_quarantine_invalid_marker] *)
Definition quarantine_invalid_marker (stem : string) (now_ms : Z) : io unit :=
  let destination := stem ++ "-" ++ int_str now_ms in
  let! taken := reads (fun d => Ok (file_exists d.(im_bad_markers) destination)) in
  if taken then raise ProvisionalImportRejected else
  let! _ := update (fun d => Ok (set_audit (d.(im_audit) ++
    [PDict [("type", PStr "commerce.provisional.invalid_quarantined"); ("marker_sha256", PStr (sha256_hex (raw stem)));
            ("recorded_at_ms", PInt now_ms)]]) d)) in
  update (fun d =>
    let* (markers, bad) := move stem d.(im_markers) destination d.(im_bad_markers) in
    Ok (set_bad_markers bad (set_markers markers d))).

(** [trades.quarantine_verified_orphan(...)] with the destination of [reconcile] *)
Definition quarantine_trade (now : Z) (r : ProvisionalImport) : io bool :=
  let plan (d : imports) := Trade.quarantine_orphan now d.(im_trades) d.(im_old_trades) r.(pi_order_id) r.(pi_chain_head)
                              (storage_key r.(pi_order_id)) in
  let! (_, _, moved) := reads plan in
  if negb moved then ret false else
  let! _ := update (fun d => let* (trades, old, _) := plan d in Ok (set_old_trades old (set_trades trades d))) in
  ret true.

(** [except (ProvisionalImportRejected, TypeError, ValueError)] *)
Definition is_marker_error (e : exn) : bool :=
  is_TypeOrValueError e || match e with ProvisionalImportRejected => true | _ => false end.

(** [except (ProvisionalImportRejected, TradeConflict, TradeRejected, TypeError, ValueError)] *)
Definition is_orphan_error (e : exn) : bool :=
  is_marker_error e || match e with TradeConflict | TradeRejected _ => true | _ => false end.

(** What became of one marker. *)
Inductive outcome :=
| Gone | Completed | Retained | Quarantined | QuarantinedInvalid | Invalid.

(** The body of the loop of [reconcile] for the marker [stem] *)
Definition reconcile_marker (now now_ms cutoff_ms : Z) (stem : string) : io outcome :=
  let! loaded := attempt (reads (load_marker stem)) in
  let! present := reads (fun d => Ok (file_exists d.(im_markers) stem)) in
  let invalid :=
    let! _ := quarantine_invalid_marker stem now_ms in ret QuarantinedInvalid in
  match loaded with
  | Err e => if is_OSError e then ret Invalid else if is_marker_error e then invalid else raise e
  | Ok None => if negb present then ret Gone else invalid
  | Ok (Some record) =>
    let! order := reads (fun d => get_order d.(im_orders) (PStr record.(pi_order_id))) in
    match order with
    | Some _ =>
      let! _ := audit "commerce.provisional.completed" record now_ms in
      let! _ := update (fun d => Ok (set_markers (delete stem d.(im_markers)) d)) in
      ret Completed
    | None =>
      if cutoff_ms <? record.(pi_created_at_ms) then ret Retained else
      let! events := reads (fun d => Ok (events_or_nil d.(im_trades) record.(pi_order_id))) in
      match events with
      | [] =>
        let! _ := audit "commerce.provisional.expired_empty" record now_ms in
        let! _ := quarantine_marker stem record in
        ret Quarantined
      | _ =>
        let! valid := attempt (reads (fun d =>
          Trade.validate_orphan now d.(im_trades) record.(pi_order_id) record.(pi_chain_head))) in
        match valid with
        | Err e =>
          if is_OSError e then ret Invalid else
          if is_orphan_error e then
            let! _ := audit "commerce.provisional.validation_failed" record now_ms in invalid
          else raise e
        | Ok None => ret Invalid
        | Ok (Some _) =>
          let! _ := audit "commerce.provisional.orphan_quarantine_requested" record now_ms in
          let! moved := attempt (quarantine_trade now record) in
          match moved with
          | Err e => if is_OSError e || is_orphan_error e then ret Invalid else raise e
          | Ok false => ret Invalid
          | Ok true =>
            let! _ := quarantine_marker stem record in
            let! _ := audit "commerce.provisional.orphan_quarantined" record now_ms in
            ret Quarantined
          end
        end
      end
    end
  end.

(** The counters [reconcile] returns *)
Record census := { ce_scanned : Z; ce_completed : Z; ce_quarantined : Z; ce_retained : Z; ce_invalid : Z }.

Definition no_census : census :=
  {| ce_scanned := 0; ce_completed := 0; ce_quarantined := 0; ce_retained := 0; ce_invalid := 0 |}.

Definition count_if (b : bool) : Z := if b then 1 else 0.

Definition add_outcome (r : outcome) (c : census) : census := {|
  ce_scanned := c.(ce_scanned) + 1;
  ce_completed := c.(ce_completed) + count_if (match r with Completed => true | _ => false end);
  ce_quarantined := c.(ce_quarantined) + count_if (match r with Quarantined | QuarantinedInvalid => true | _ => false end);
  ce_retained := c.(ce_retained) + count_if (match r with Retained => true | _ => false end);
  ce_invalid := c.(ce_invalid) + count_if (match r with Invalid | QuarantinedInvalid => true | _ => false end)
|}.

Fixpoint reconcile_loop (now now_ms cutoff_ms : Z) (stems : list string) (c : census) : io census :=
  match stems with
  | [] => ret c
  | stem :: stems =>
    let! r := reconcile_marker now now_ms cutoff_ms stem in
    reconcile_loop now now_ms cutoff_ms stems (add_outcome r c)
  end.

(** [reconcile]; [stems] are the names of the markers, the oldest file first,
    and [clock] the current time *)
Definition reconcile (now clock : Z) (stems : list string) (orphan_after_s limit override : Z) : io census :=
  if orphan_after_s <? 86400 then raise ValueError else
  if negb ((1 <=? limit) && (limit <=? 1000)) then raise ValueError else
  let now_ms := clock_ms clock override in
  reconcile_loop now now_ms (now_ms - orphan_after_s * 1000) (take (Z.to_nat limit) stems) no_census.
End Provisional.
