(* ===== verification/ProvisionalSpec.v ===== *)
(** * What provisional imports promise

    Every write of an import or of the reconciler is a step of one of two small
    relations; from them: an order is never visible before its trade, an
    interrupted import that is repeated at the same time resumes, and the
    reconciler loses nothing. *)

From Stdlib Require Import ZArith Lia Ascii String.
From stdpp Require Import base list strings gmap relations.
From S2P Require Import Prelude Digits PyStr PyValue PyDecimal PyDate Json JsonAscii CanonicalJson B64u DidKey Sha256 Money Identity Store PyOps Projection Settlement Mandate MandateSpec Listing Order OrderSpec Trade TradeSpec OrderTrade OrderTradeSpec DocFile Envelope EnvelopeSpec Provisional.

Local Open Scope string_scope.
Local Open Scope Z_scope.

#[local] Arguments verify_order : simpl never.
#[local] Arguments verify_trade : simpl never.
#[local] Arguments import_from_dict : simpl never.
#[local] Arguments sha256_hex : simpl never.

(** ** File names

    The file of a trade is named after the order, by [safe_id]; two orders have
    different files. *)

Definition plain (c : ascii) : Prop := 0 <= byte_of c < 128.

Lemma hex_value_plain c z : hex_value c = Some z -> plain c.
Proof.
  unfold hex_value, is_dec, in_range, plain. repeat case_match; try done; intros _; bool_to_prop; lia.
Qed.

Lemma hex_space_plain c : hex_space c = true -> plain c.
Proof.
  unfold hex_space, is_char, in_range, plain. rewrite orb_true_iff, Ascii.eqb_eq. intros [<-|H]; [by vm_compute|].
  bool_to_prop. lia.
Qed.

Lemma unhex_plain l r : unhex_chars l = Some r -> Forall plain l.
Proof.
  revert r. induction l as [l IH] using (induction_ltof1 _ (@List.length ascii)); unfold ltof in IH.
  destruct l as [|a l]; [constructor|]. intros r. cbn [unhex_chars].
  destruct (hex_space a) eqn:Ea.
  - intros H. constructor; [by apply hex_space_plain|]. eapply IH; [simpl; lia|exact H].
  - destruct l as [|b l]; [done|]. destruct (hex_value a) as [x|] eqn:Ex; [|done].
    destruct (hex_value b) as [y|] eqn:Ey; [|done]. destruct (unhex_chars l) as [z|] eqn:Ez; [|done]. intros _.
    constructor; [by eapply hex_value_plain|]. constructor; [by eapply hex_value_plain|].
    eapply IH; [simpl; lia|exact Ez].
Qed.

Lemma bytes_of_length s : List.length (bytes_of s) = String.length s.
Proof. unfold bytes_of. by rewrite length_fmap, str_length_chars. Qed.

Lemma plain_points s : Forall plain (chars s) -> code_points s = bytes_of s.
Proof. intros H. apply decode_points_ascii. unfold bytes_of. by apply Forall_fmap. Qed.

Lemma plain_of_points l : Forall (fun z => 0 <= z < 128) l -> of_code_points l = of_bytes l.
Proof.
  intros H. unfold of_code_points, of_bytes. f_equal. induction H as [|z l Hz _ IH]; [done|].
  cbn [mbind list_bind fmap list_fmap]. rewrite <- IH.
  assert (byte_of (chr z) = z) as E by (apply byte_of_chr; unfold is_byte; lia).
  rewrite <- E at 1. rewrite utf8_of_ascii; [done|]. unfold ascii7. rewrite E. lia.
Qed.

Lemma prefixed_hex_inv p n v s :
  prefixed_hex p n v = Some s -> v = PStr s /\ py_len s = n /\ exists t, s = p ++ t /\ Forall plain (chars t).
Proof.
  unfold prefixed_hex. destruct v as [| | | |s'| | |]; try done. destruct (_ && _) eqn:E; [|done]. intros [= ->].
  apply andb_true_iff in E as [[Hp Hl%Z.eqb_eq]%andb_true_iff Hh]. apply prefix_true_iff in Hp as [t ->].
  split_and!; [done..|]. exists t. split; [done|]. unfold removeprefix in Hh. rewrite prefix_app, str_drop_app in Hh.
  unfold fromhex in Hh. destruct (unhex_chars (chars t)) as [l|] eqn:El; [|done]. by eapply unhex_plain.
Qed.

Lemma drop_dashes_length l : (List.length (drop_dashes l) <= List.length l)%nat.
Proof. induction l as [|c l IH]; [done|]. cbn [drop_dashes]. destruct (c =? 45); simpl in *; lia. Qed.

Lemma drop_dashes_same l : List.length (drop_dashes l) = List.length l -> drop_dashes l = l.
Proof.
  destruct l as [|c l]; [done|]. cbn [drop_dashes]. destruct (c =? 45); [|done].
  pose proof (drop_dashes_length l). simpl. lia.
Qed.

Lemma drop_dashes_Forall (P : Z -> Prop) l : Forall P l -> Forall P (drop_dashes l).
Proof. induction 1 as [|c l Hc Hl IH]; [done|]. cbn [drop_dashes]. destruct (c =? 45); [done|by constructor]. Qed.

Section Names.
Context `{Ud : UnicodeDB}.

(** What [safe_id] makes of a character *)
Definition name_point (c : Z) : Z := if cp_isalnum c || allow_extra c then c else 45.

Lemma name_point_cases c : name_point c = c \/ name_point c = 45.
Proof. unfold name_point. destruct (_ || _); auto. Qed.

(** A name that is as long as the string was made of all its characters. *)
Lemma safe_id_full s t :
  Forall plain (chars s) -> Forall plain (chars t) -> (String.length s <= 200)%nat -> String.length t = String.length s ->
  (4 < String.length s)%nat -> safe_id s = t -> map name_point (bytes_of s) = bytes_of t.
Proof.
  intros Hs Ht Hle Hlen H4. unfold safe_id. rewrite (plain_points _ Hs). fold name_point.
  destruct (String.eqb_spec s "") as [->|_]; [simpl in *; lia|].
  set (l := map _ (bytes_of s)). change (map name_point (bytes_of s)) with l.
  assert (List.length l = String.length s) as Hl.
  { unfold l. by rewrite length_map, bytes_of_length. }
  set (k := rev (drop_dashes (rev (drop_dashes l)))).
  assert (List.length k <= List.length (drop_dashes l))%nat as Hk.
  { unfold k. rewrite length_rev. etrans; [apply drop_dashes_length|]. by rewrite length_rev. }
  pose proof (drop_dashes_length l) as Hd.
  intros E. assert (t <> "anon") as Hna by (intros ->; simpl in *; lia).
  destruct k as [|z k'] eqn:Ek; [by vm_compute in E; congruence|]. rewrite <- Ek in *.
  destruct (_ || _); [congruence|].
  assert (Forall (fun z => 0 <= z < 128) k) as Hr.
  { unfold k. apply Forall_rev, drop_dashes_Forall, Forall_rev, drop_dashes_Forall. unfold l, bytes_of.
    apply Forall_map, Forall_fmap. eapply Forall_impl; [exact Hs|]. intros c Hc. cbn [compose].
    destruct (name_point_cases (byte_of c)) as [->| ->]; [exact Hc|lia]. }
  rewrite take_ge in E by lia. rewrite plain_of_points in E by done.
  assert (k = bytes_of t) as Hkt.
  { rewrite <- E, bytes_of_of; [done|]. eapply Forall_impl; [exact Hr|]. intros x Hx. cbv beta in Hx. unfold is_byte. lia. }
  assert (List.length k = String.length t) as Hkl.
  { by rewrite Hkt, bytes_of_length. }
  assert (drop_dashes l = l) as E1 by (apply drop_dashes_same; lia).
  assert (drop_dashes (rev l) = rev l) as E2.
  { apply drop_dashes_same. unfold k in Hkl. rewrite length_rev, E1 in Hkl. rewrite length_rev. lia. }
  rewrite <- Hkt. unfold k. by rewrite E1, E2, rev_involutive.
Qed.

Lemma hex_lower_between c : is_hex_lower c = true -> 48 <= byte_of c <= 57 \/ 97 <= byte_of c <= 102.
Proof.
  unfold is_hex_lower, is_dec, in_range. intros [H|H]%orb_true_iff; bool_to_prop; lia.
Qed.

Lemma hex_lower_range c : is_hex_lower c = true -> plain c /\ byte_of c <> 45 /\ cp_isalnum (byte_of c) = true.
Proof.
  intros Hr%hex_lower_between.
  unfold plain, cp_isalnum. split; [lia|]. split; [lia|]. rewrite (proj2 (Z.ltb_lt _ 128)) by lia.
  rewrite !orb_true_iff, !andb_true_iff, !Z.leb_le. lia.
Qed.

Lemma drop_dashes_clean l k : Forall (fun z => z <> 45) l -> l <> [] -> drop_dashes (l ++ k) = (l ++ k)%list.
Proof.
  destruct 1 as [|z l Hz _]; [done|]. intros _. cbn [drop_dashes app]. by rewrite (proj2 (Z.eqb_neq z 45)).
Qed.

(** The file name of an order whose id is in lower case *)
Lemma order_trade_path t : hex_digest 64 t = true -> trade_path (ORDER_ID_PREFIX ++ t) = "nth-order-sha256-" ++ t.
Proof.
  unfold hex_digest. intros [Hl%Nat.eqb_eq Hh%forallb_Forall]%andb_true_iff.
  assert (Forall (fun c => plain c /\ byte_of c <> 45 /\ cp_isalnum (byte_of c) = true) (chars t)) as Hc.
  { eapply Forall_impl; [exact Hh|]. apply hex_lower_range. }
  assert (Forall plain (chars t)) as Hp by (eapply Forall_impl; [exact Hc|]; naive_solver).
  assert (Forall plain (chars (ORDER_ID_PREFIX ++ t))) as Hp'.
  { rewrite chars_app. apply Forall_app. split; [|done]. repeat constructor; vm_compute; intuition congruence. }
  assert (Forall (fun z => z <> 45) (bytes_of t)) as Hn.
  { unfold bytes_of. apply Forall_fmap. eapply Forall_impl; [exact Hc|]. cbn [compose]. naive_solver. }
  assert (bytes_of t <> []) as Hne.
  { unfold bytes_of. intros H%fmap_nil_inv. rewrite <- (of_chars_chars t), H in Hl. done. }
  assert (map name_point (bytes_of (ORDER_ID_PREFIX ++ t)) = bytes_of ("nth-order-sha256-" ++ t)) as Hm.
  { rewrite !bytes_of_app, map_app. f_equal. unfold bytes_of. clear -Hc.
    induction Hc as [|c l [_ [_ Ha]] _ IH]; [done|]. cbn [fmap list_fmap map]. f_equal; [|exact IH].
    unfold name_point. by rewrite Ha. }
  unfold trade_path, safe_id. destruct (String.eqb_spec (ORDER_ID_PREFIX ++ t) "") as [E|_]; [done|].
  rewrite (plain_points _ Hp'). fold name_point. rewrite Hm.
  set (l := bytes_of _). assert (l = bytes_of "nth-order-sha256-" ++ bytes_of t)%list as El by apply bytes_of_app.
  assert (drop_dashes l = l) as -> by (rewrite El; reflexivity).
  assert (drop_dashes (rev l) = rev l) as ->.
  { rewrite El, rev_app_distr. apply drop_dashes_clean; [by apply Forall_rev|]. intros E%(f_equal (@rev Z)).
    by rewrite rev_involutive in E. }
  rewrite rev_involutive.
  assert (Forall (fun z => 0 <= z < 128 /\ z <> 47 /\ z <> 92) l) as Hr.
  { rewrite El. apply Forall_app. split; [repeat constructor; vm_compute; intuition congruence|].
    unfold bytes_of. apply Forall_fmap. eapply Forall_impl; [exact Hh|]. cbn [compose]. intros c H.
    apply hex_lower_between in H. lia. }
  assert (forall x, x = 47 \/ x = 92 -> existsb (Z.eqb x) l = false) as He.
  { intros x Hx. apply not_true_is_false. rewrite existsb_exists. intros (y & Hy & E%Z.eqb_eq). subst y.
    rewrite Forall_forall in Hr. apply list_elem_of_In in Hy. destruct (Hr _ Hy). lia. }
  assert (exists r, l = 110 :: 116 :: r) as [r Er] by (rewrite El; by eexists).
  assert (match l with [] => code_points "anon" | _ => l end = l) as -> by by rewrite Er.
  rewrite (He 47), (He 92) by auto.
  rewrite !bool_decide_false by (rewrite Er; congruence). cbn [orb].
  rewrite take_ge; [rewrite plain_of_points|].
  - unfold l. apply of_bytes_of.
  - eapply Forall_impl; [exact Hr|]. naive_solver.
  - unfold l. rewrite bytes_of_length, str_length_app, Hl. vm_compute. lia.
Qed.

Lemma name_points_clean l k : map name_point l = k -> Forall (fun z => z <> 45) k -> l = k.
Proof.
  intros <-. induction l as [|c l IH]; [done|]. cbn [map]. intros [Hc Hl]%Forall_cons. f_equal; [|by apply IH].
  destruct (name_point_cases c); congruence.
Qed.

(** The trades of two orders that have an import marker, or a file, are in
    different files. *)
Lemma trade_path_inj s t :
  prefixed_hex ORDER_ID_PREFIX 81 (PStr s) = Some s -> hex_digest 64 t = true ->
  trade_path s = trade_path (ORDER_ID_PREFIX ++ t) -> s = ORDER_ID_PREFIX ++ t.
Proof.
  intros (_ & Hl & u & -> & Hu)%prefixed_hex_inv Ht E. rewrite (order_trade_path _ Ht) in E.
  assert (Forall plain (chars (ORDER_ID_PREFIX ++ u))) as Hs.
  { rewrite chars_app. apply Forall_app. split; [|done]. repeat constructor; vm_compute; intuition congruence. }
  unfold hex_digest in Ht. apply andb_true_iff in Ht as [Hn%Nat.eqb_eq Hh%forallb_Forall].
  unfold py_len in Hl. rewrite (plain_points _ Hs), bytes_of_length in Hl.
  apply safe_id_full in E; [|done| | | |].
  - rewrite !bytes_of_app, map_app in E. apply app_inj_1 in E as [_ E]; [|by rewrite length_map, !bytes_of_length].
    apply name_points_clean in E; [by apply bytes_of_inj in E as ->|]. unfold bytes_of. apply Forall_fmap.
    eapply Forall_impl; [exact Hh|]. cbn [compose]. intros c H%hex_lower_between. lia.
  - rewrite chars_app. apply Forall_app. split; [repeat constructor; vm_compute; intuition congruence|].
    eapply Forall_impl; [exact Hh|]. intros c H%hex_lower_between. unfold plain. lia.
  - lia.
  - rewrite str_length_app, Hn. change (String.length "nth-order-sha256-") with 17%nat. lia.
  - lia.
Qed.
End Names.

(** ** Reading the writes of a process

    [wp R m Q d]: started on the disk [d], whatever number of writes it makes,
    [m] moves the disk along [R], and if it is not stopped its result and disk
    satisfy [Q]. *)

Definition wp {A} (R : relation imports) (m : io A) (Q : res A -> imports -> Prop) (d : imports) : Prop :=
  forall n, let out := m {| pr_writes := n; pr_disk := d |} in
    rtc R d out.1.(pr_disk) /\ forall r, out.2 = Some r -> Q r out.1.(pr_disk).

Section Wp.
Context {R : relation imports}.

Lemma wp_ret {A} (a : A) Q d : Q (Ok a) d -> wp R (ret a) Q d.
Proof. intros H n. split; [done|]. by intros r [= <-]. Qed.

Lemma wp_raise {A} e (Q : res A -> _) d : Q (Err e) d -> wp R (raise e) Q d.
Proof. intros H n. split; [done|]. by intros r [= <-]. Qed.

Lemma wp_reads {A} (f : imports -> res A) Q d : Q (f d) d -> wp R (reads f) Q d.
Proof. intros H n. split; [done|]. by intros r [= <-]. Qed.

Lemma wp_update f Q d :
  match f d with Ok d' => R d d' /\ Q (Ok tt) d' | Err e => Q (Err e) d end -> wp R (update f) Q d.
Proof.
  intros H n. unfold update. cbn [pr_disk pr_writes]. destruct (f d) as [d'|e].
  - destruct H as [Hr Hq]. destruct n; cbn [fst snd pr_disk]; [by split|]. split; [by apply rtc_once|].
    by intros r [= <-].
  - split; [done|]. by intros r [= <-].
Qed.

Lemma wp_bind {A B} (m : io A) (f : A -> io B) Q d :
  wp R m (fun r d => match r with Ok a => wp R (f a) Q d | Err e => Q (Err e) d end) d -> wp R (bind m f) Q d.
Proof.
  intros H n. destruct (H n) as [Hr Hq]. unfold bind.
  destruct (m _) as [[n' d'] [[a|e]|]]; cbn [fst snd pr_disk] in *; [|split; [done|]..].
  - destruct (Hq _ eq_refl n') as [Hr' Hq']. split; [by etrans|done].
  - intros r [= <-]. exact (Hq _ eq_refl).
  - done.
Qed.

Lemma wp_attempt {A} (m : io A) Q d : wp R m (fun r => Q (Ok r)) d -> wp R (attempt m) Q d.
Proof.
  intros H n. destruct (H n) as [Hr Hq]. unfold attempt.
  destruct (m _) as [[n' d'] [r|]]; cbn [fst snd pr_disk] in *; split; try done.
  intros r' [= <-]. by apply Hq.
Qed.

Lemma wp_mono {A} (m : io A) (Q Q' : res A -> imports -> Prop) d :
  (forall r d', Q r d' -> Q' r d') -> wp R m Q d -> wp R m Q' d.
Proof. intros HQ H n. destruct (H n) as [Hr Hq]. split; [done|]. intros r Hr'. by apply HQ, Hq. Qed.
End Wp.

(** One rule of [wp] *)
Ltac wp_step :=
  lazymatch goal with
  | |- wp _ (bind _ _) _ _ => apply wp_bind
  | |- wp _ (reads _) _ _ => apply wp_reads
  | |- wp _ (update _) _ _ => apply wp_update
  | |- wp _ (attempt _) _ _ => apply wp_attempt
  | |- wp _ (ret _) _ _ => apply wp_ret
  | |- wp _ (raise _) _ _ => apply wp_raise
  | |- wp _ (if ?c then _ else _) _ _ => destruct c eqn:?
  end; cbv beta iota zeta.

(** ** Imports *)

Section Imports.
Context `{Ed : Ed25519} `{D : IsoDates} `{U : UnicodeDigits} `{Rp : PyRepr} `{Ud : UnicodeDB}.

(** The order [id] can be read from the store. *)
Definition visible (orders : files) (id : string) : Prop := exists e, get_order orders (PStr id) = Ok (Some e).

(** What the markers that [import_bundle] writes name *)
Definition named (r : ProvisionalImport) : Prop := exists v, import_from_dict v = Ok r.

(** The writes of an import. *)
Inductive import_step (now : Z) (d : imports) : imports -> Prop :=
| is_mark stem f : import_step now d (set_markers (atomic_write_json d.(im_markers) stem f) d)
| is_trade r events ts l :
    named r -> Trade.import_verified_events now d.(im_trades) r.(pi_order_id) events = Ok (ts, l) ->
    import_step now d (set_trades ts d)
| is_order order r os e :
    order.(Order.order_id) = PStr r.(pi_order_id) ->
    verify_trade now d.(im_trades) r.(pi_order_id) = Ok (true, "") ->
    Order.import_verified d.(im_orders) order = Ok (os, e) -> import_step now d (set_orders os d)
| is_done stem : import_step now d (set_markers (delete stem d.(im_markers)) d).

Lemma import_from_dict_inv v r :
  import_from_dict v = Ok r ->
  exists d, v = PDict d /\
    (get_or_none "order_id" d = PStr r.(pi_order_id) /\ get_or_none "chain_head" d = PStr r.(pi_chain_head)) /\
    prefixed_hex ORDER_ID_PREFIX 81 (PStr r.(pi_order_id)) = Some r.(pi_order_id) /\
    prefixed_hex "sha256:" 71 (PStr r.(pi_message_id)) = Some r.(pi_message_id) /\
    prefixed_hex "sha256:" 71 (PStr r.(pi_chain_head)) = Some r.(pi_chain_head) /\
    is_did_key (PStr r.(pi_source_did)) = true /\ 0 < r.(pi_created_at_ms) /\ r.(pi_kind) = PROVISIONAL_KIND.
Proof.
  unfold import_from_dict. destruct v as [| | | | | |d|]; try done. destruct (negb _); [done|]. destruct (negb _); [done|].
  destruct (prefixed_hex ORDER_ID_PREFIX 81 _) as [o|] eqn:Eo; [|done].
  destruct (prefixed_hex "sha256:" 71 (get_or_none "message_id" d)) as [m|] eqn:Em; [|done].
  destruct (prefixed_hex "sha256:" 71 (get_or_none "chain_head" d)) as [h|] eqn:Eh; [|done].
  destruct (get_or_none "source_did" d) as [| | | |s| | |] eqn:Es; try done.
  destruct (as_int _) as [c|]; [|done]. destruct (_ && _) eqn:E; [|done]. intros [= <-].
  apply andb_true_iff in E as [Hd Hc%Z.ltb_lt]. exists d. cbn [pi_order_id pi_message_id pi_chain_head pi_source_did pi_created_at_ms pi_kind].
  pose proof (prefixed_hex_inv _ _ _ _ Eo) as [E1 _]. pose proof (prefixed_hex_inv _ _ _ _ Em) as [E2 _].
  pose proof (prefixed_hex_inv _ _ _ _ Eh) as [E3 _]. rewrite E1 in Eo. rewrite E2 in Em. rewrite E3 in Eh. by split_and!.
Qed.

Lemma import_round_trip v r : import_from_dict v = Ok r -> import_from_dict (PDict (import_to_dict r)) = Ok r.
Proof.
  intros (d & -> & _ & Ho & Hm & Hh & Hd & Hc & Hk)%import_from_dict_inv. destruct r as [o m s h c k].
  cbn [pi_order_id pi_message_id pi_chain_head pi_source_did pi_created_at_ms pi_kind] in *. subst k.
  unfold import_from_dict, import_to_dict.
  cbn -[prefixed_hex PROVISIONAL_KIND is_did_key]. rewrite Ho, Hm, Hh, Hd, (proj2 (Z.ltb_lt _ _) Hc). done.
Qed.

Lemma bundle_record_order clock order events mid src created r :
  bundle_record clock order events mid src created = Ok r -> named r /\ order.(Order.order_id) = PStr r.(pi_order_id).
Proof.
  unfold bundle_record. intros (h & _ & H)%res_bind_Ok. split; [by eexists|].
  apply import_from_dict_inv in H as (d & [= <-] & [Ho _] & _). exact Ho.
Qed.

Lemma imported_verifies now fs id events ts l :
  Trade.import_verified_events now fs id events = Ok (ts, l) ->
  verify_trade now ts id = Ok (true, "") /\ forall name, name <> trade_path id -> ts !! name = fs !! name.
Proof.
  unfold Trade.import_verified_events. intros (c & Hc & H)%res_bind_Ok. apply Ok_inj in H. injection H as <- <-.
  apply validate_import_inv in Hc as (_ & _ & Hv & _). split.
  - unfold verify_trade, events_or_nil. by rewrite get_events_written.
  - intros name Hn. unfold atomic_write_json. by rewrite lookup_insert_ne.
Qed.

(** Whatever it returns or wherever it stops, an import is a sequence of those
    writes. *)
Lemma import_bundle_wp now clock order events mid src created d :
  wp (import_step now) (import_bundle now clock order events mid src created) (fun _ _ => True) d.
Proof.
  unfold import_bundle. wp_step. wp_step.
  destruct (bundle_record clock order events mid src created) as [r|e] eqn:Er; [|done].
  destruct (bundle_record_order _ _ _ _ _ _ _ Er) as [Hn Ho]. wp_step.
  eapply (wp_mono _ (fun _ _ => True)).
  2:{ unfold write_marker. wp_step. wp_step. destruct (load_marker _ d) as [x|]; [|done]. wp_step. wp_step.
      destruct x as [s|]; [destruct (decide _); by wp_step|]. wp_step; [by wp_step|]. wp_step. split; [constructor|done]. }
  intros [u|e] d1 _; [|done]. wp_step. wp_step.
  destruct (Trade.import_verified_events now d1.(im_trades) _ events) as [[ts l]|e] eqn:Et; [|done]. cbn [res_bind].
  split; [by econstructor|]. wp_step. wp_step. cbn [im_orders set_trades].
  destruct (Order.import_verified d1.(im_orders) order) as [[os o]|e] eqn:Eo; [|done]. cbn [res_bind]. split.
  { eapply is_order; [exact Ho| |exact Eo]. cbn [im_trades set_trades]. by eapply imported_verifies. }
  wp_step. split; [constructor|done].
Qed.

(** The invariant: an order that can be read has a trade that verifies. *)
Definition traded (now : Z) (d : imports) : Prop :=
  forall id, visible d.(im_orders) id -> verify_trade now d.(im_trades) id = Ok (true, "").

Lemma order_path_hex id path :
  order_path (PStr id) = Ok path -> exists t, id = ORDER_ID_PREFIX ++ t /\ hex_digest 64 t = true.
Proof.
  unfold order_path. destruct (startswith _ _) eqn:Ep; [|done]. apply prefix_true_iff in Ep as [t ->].
  rewrite str_drop_app. destruct (hex_digest 64 t) eqn:Ht; [|done]. intros _. by exists t.
Qed.

Lemma visible_hex orders id : visible orders id -> exists t, id = ORDER_ID_PREFIX ++ t /\ hex_digest 64 t = true.
Proof.
  intros [e H]. unfold get_order, Order.get_events in H. apply res_bind_Ok in H as (x & H & _).
  apply res_bind_Ok in H as (path & H & _). by eapply order_path_hex.
Qed.

(** Importing the order [e] makes no other order visible. *)
Lemma import_visible orders e os e' id :
  Order.import_verified orders e = Ok (os, e') -> visible os id -> visible orders id \/ e.(Order.order_id) = PStr id.
Proof.
  intros [->|(path & w & Hp & -> & _)]%import_new; [by left|]. intros [x Hx].
  destruct (order_path (PStr id)) as [q|] eqn:Hq; [|by unfold get_order, Order.get_events in Hx; rewrite Hq in Hx].
  destruct (decide (path = q)) as [->|Hne]; [right; by eapply order_path_inj|]. left. exists x.
  unfold get_order, Order.get_events in *. rewrite Hq in *. cbn [res_bind] in *. by rewrite safe_load_other in Hx.
Qed.

Lemma same_trade_file fs fs' id name :
  fs !! trade_path id = fs' !! trade_path id -> name = id -> events_or_nil fs name = events_or_nil fs' name.
Proof. intros H ->. unfold events_or_nil, Trade.get_events, safe_load_json. by rewrite H. Qed.

Lemma verify_trade_same now fs fs' id :
  fs !! trade_path id = fs' !! trade_path id -> verify_trade now fs id = verify_trade now fs' id.
Proof. intros H. unfold verify_trade. by rewrite (same_trade_file fs fs' id id). Qed.

Lemma import_step_traded now d d' : import_step now d d' -> traded now d -> traded now d'.
Proof.
  intros Hs Ht. destruct Hs as [stem f|r events ts l [v Hr] Hi|order r os e Ho Hv Hi|stem]; [done| | |done].
  - intros id Hid. cbn [im_orders im_trades set_trades] in *.
    destruct (imported_verifies _ _ _ _ _ _ Hi) as [Hv Hother].
    destruct (decide (trade_path id = trade_path r.(pi_order_id))) as [E|Hne].
    + destruct (visible_hex _ _ Hid) as (t & -> & Hh).
      apply import_from_dict_inv in Hr as (_ & _ & _ & Hp & _).
      by rewrite <- (trade_path_inj _ _ Hp Hh (eq_sym E)).
    + rewrite (verify_trade_same _ ts d.(im_trades)) by by apply Hother. by apply Ht.
  - intros id Hid. cbn [im_orders im_trades set_orders] in *.
    destruct (import_visible _ _ _ _ _ Hi Hid) as [H|E]; [by apply Ht|]. rewrite Ho in E. by injection E as <-.
Qed.

Lemma traded_later now now' d : now <= now' -> traded now d -> traded now' d.
Proof. intros Hn Ht id Hid. eapply verify_events_later; [exact Hn|]. by apply Ht. Qed.
End Imports.

(** ** The reconciler *)

Section Reconciler.
Context `{Ed : Ed25519} `{D : IsoDates} `{U : UnicodeDigits} `{Rp : PyRepr} `{Ud : UnicodeDB}.

(** The marker [r] is stored and names a trade that may be put away: no order
    made it visible, the marker is old enough, and the trade is the verified
    chain the marker names. *)
Record expired (now cutoff : Z) (d : imports) (stem : string) (r : ProvisionalImport) : Prop := {
  ex_marker : load_marker stem d = Ok (Some r);
  ex_hidden : get_order d.(im_orders) (PStr r.(pi_order_id)) = Ok None;
  ex_old : r.(pi_created_at_ms) <= cutoff;
  ex_exact : exists events, Trade.validate_orphan now d.(im_trades) r.(pi_order_id) r.(pi_chain_head) = Ok (Some events)
}.

(** The writes of the reconciler: each moves a file, adds to the audit, or
    removes the marker of an order that is visible. *)
Inductive clean_step (now cutoff : Z) (d : imports) : imports -> Prop :=
| cs_audit l : clean_step now cutoff d (set_audit (d.(im_audit) ++ l) d)
| cs_done stem r :
    load_marker stem d = Ok (Some r) -> visible d.(im_orders) r.(pi_order_id) ->
    clean_step now cutoff d (set_markers (delete stem d.(im_markers)) d)
| cs_old_marker stem f dest :
    d.(im_markers) !! stem = Some f -> d.(im_old_markers) !! dest = None ->
    clean_step now cutoff d
      (set_old_markers (<[dest := f]> d.(im_old_markers)) (set_markers (delete stem d.(im_markers)) d))
| cs_bad_marker stem f dest :
    d.(im_markers) !! stem = Some f -> d.(im_bad_markers) !! dest = None ->
    clean_step now cutoff d
      (set_bad_markers (<[dest := f]> d.(im_bad_markers)) (set_markers (delete stem d.(im_markers)) d))
| cs_old_trade stem r f dest :
    expired now cutoff d stem r -> d.(im_trades) !! trade_path r.(pi_order_id) = Some f ->
    d.(im_old_trades) !! dest = None ->
    clean_step now cutoff d
      (set_old_trades (<[dest := f]> d.(im_old_trades)) (set_trades (delete (trade_path r.(pi_order_id)) d.(im_trades)) d)).

Lemma file_exists_None fs name : file_exists fs name = false -> fs !! name = None.
Proof. unfold file_exists. by destruct (fs !! name). Qed.

Lemma audit_wp now cutoff t r now_ms Q d :
  (forall e, Q (Err e) d) -> (forall e, Q (Ok tt) (set_audit (d.(im_audit) ++ [e]) d)) ->
  wp (clean_step now cutoff) (audit t r now_ms) Q d.
Proof.
  intros He Ho. unfold audit. wp_step. destruct (audit_entry t r now_ms) as [e|e]; cbn [res_bind]; [|done].
  split; [constructor|done].
Qed.

Lemma quarantine_marker_wp now cutoff stem r d :
  wp (clean_step now cutoff) (quarantine_marker stem r) (fun _ _ => True) d.
Proof.
  unfold quarantine_marker. wp_step. destruct (file_exists _ _) eqn:E; [done|]. unfold move.
  destruct (d.(im_markers) !! stem) as [f|] eqn:Ef; [|done]. cbn [res_bind]. split; [|done].
  apply cs_old_marker; [done|by apply file_exists_None].
Qed.

Lemma quarantine_invalid_wp now cutoff raw stem now_ms d :
  wp (clean_step now cutoff) (quarantine_invalid_marker raw stem now_ms) (fun _ _ => True) d.
Proof.
  unfold quarantine_invalid_marker. wp_step. wp_step. wp_step; [by wp_step|]. wp_step. wp_step. split; [constructor|].
  wp_step. cbn [im_markers im_bad_markers set_audit]. unfold move.
  destruct (d.(im_markers) !! stem) as [f|] eqn:Ef; [|done]. cbn [res_bind]. split; [|done].
  eapply (cs_bad_marker _ _ (set_audit _ d)); [exact Ef|]. by apply file_exists_None.
Qed.

Lemma quarantine_trade_wp now cutoff stem r d :
  expired now cutoff d stem r -> wp (clean_step now cutoff) (quarantine_trade now r) (fun _ _ => True) d.
Proof.
  intros He. unfold quarantine_trade. wp_step. wp_step.
  destruct (Trade.quarantine_orphan _ _ _ _ _ _) as [[[ts old] moved]|e] eqn:Eq; [|done]. wp_step; [by wp_step|].
  wp_step. wp_step. rewrite Eq. cbn [res_bind]. split; [|by wp_step].
  destruct (ex_exact _ _ _ _ _ He) as [events Hev]. unfold Trade.quarantine_orphan in Eq. rewrite Hev in Eq.
  cbn [res_bind] in Eq. destruct (file_exists _ _) eqn:Ex; [done|].
  destruct (d.(im_trades) !! _) as [f|] eqn:Ef; injection Eq as <- <- <-; [|done].
  eapply cs_old_trade; [exact He|exact Ef|by apply file_exists_None].
Qed.

Lemma reconcile_marker_wp now cutoff raw now_ms stem d :
  wp (clean_step now cutoff) (reconcile_marker raw now now_ms cutoff stem) (fun _ _ => True) d.
Proof.
  assert (forall d, wp (clean_step now cutoff)
    (let! _ := quarantine_invalid_marker raw stem now_ms in ret QuarantinedInvalid) (fun _ _ => True) d) as Hinv.
  { intros d0. wp_step. eapply wp_mono; [|apply quarantine_invalid_wp]. intros [u|e] d1 _; [by wp_step|done]. }
  unfold reconcile_marker. wp_step. wp_step. wp_step. wp_step. wp_step.
  destruct (load_marker stem d) as [[r|]|e] eqn:El.
  2:{ wp_step; [by wp_step|apply Hinv]. }
  2:{ wp_step; [by wp_step|]. wp_step; [apply Hinv|by wp_step]. }
  wp_step. wp_step. destruct (get_order _ _) as [[o|]|e] eqn:Eg; [| |done].
  - wp_step. apply audit_wp; [done|]. intros x. wp_step. wp_step. split; [|by wp_step].
    eapply cs_done; [exact El|]. by exists o.
  - wp_step; [by wp_step|]. wp_step. wp_step. destruct (events_or_nil _ _) as [|ev evs] eqn:Ee.
    + wp_step. apply audit_wp; [done|]. intros x. wp_step.
      eapply wp_mono; [|apply quarantine_marker_wp]. intros [u|e] d1 _; [by wp_step|done].
    + wp_step. wp_step. wp_step. destruct (Trade.validate_orphan _ _ _ _) as [[evs'|]|e] eqn:Ev.
      * wp_step. apply audit_wp; [done|]. intros x. wp_step. wp_step.
        eapply wp_mono; [|eapply (quarantine_trade_wp _ _ stem)].
        2:{ constructor; [exact El|exact Eg|by apply Z.ltb_ge|by eexists]. }
        intros [[]|e] d1 _; [|by wp_step|wp_step; by wp_step].
        wp_step. eapply wp_mono; [|apply quarantine_marker_wp]. intros [u|e] d2 _; [|done].
        wp_step. apply audit_wp; [done|]. intros y. by wp_step.
      * by wp_step.
      * wp_step; [by wp_step|]. wp_step; [|by wp_step]. wp_step. apply audit_wp; [done|]. intros x. apply Hinv.
Qed.

Lemma reconcile_wp raw now clock stems after limit override d :
  wp (clean_step now (clock_ms clock override - after * 1000))
    (reconcile raw now clock stems after limit override) (fun _ _ => True) d.
Proof.
  unfold reconcile. wp_step; [by wp_step|]. wp_step; [by wp_step|].
  generalize no_census as c. revert d. induction (take _ stems) as [|stem l IH]; intros d c; [by apply wp_ret|].
  cbn [reconcile_loop]. wp_step. eapply wp_mono; [|apply reconcile_marker_wp]. intros [o|e] d1 _; [apply IH|done].
Qed.

Lemma load_marker_named stem d r : load_marker stem d = Ok (Some r) -> named r.
Proof.
  unfold load_marker. destruct (safe_load_json _ _) as [v|]; [|done]. intros (x & Hx & H)%res_bind_Ok.
  apply Ok_inj in H. injection H as <-. by exists v.
Qed.

Lemma load_marker_mono stem d e r :
  e.(im_markers) ⊆ d.(im_markers) -> load_marker stem e = Ok (Some r) -> load_marker stem d = Ok (Some r).
Proof.
  unfold load_marker, safe_load_json. intros Hs. destruct (e.(im_markers) !! stem) as [f|] eqn:E; [|done].
  by rewrite (lookup_weaken _ _ _ _ E Hs).
Qed.

Lemma validate_orphan_file now fs id h events :
  Trade.validate_orphan now fs id h = Ok (Some events) -> exists f, fs !! trade_path id = Some f.
Proof.
  unfold Trade.validate_orphan, events_or_nil, Trade.get_events, safe_load_json.
  destruct (fs !! trade_path id) as [f|]; [by eexists|done].
Qed.

Lemma validate_orphan_mono now fs fs' id h events :
  fs ⊆ fs' -> Trade.validate_orphan now fs id h = Ok (Some events) ->
  Trade.validate_orphan now fs' id h = Ok (Some events).
Proof.
  intros Hs H. destruct (validate_orphan_file _ _ _ _ _ H) as [f Hf].
  assert (fs !! trade_path id = fs' !! trade_path id) as E by by rewrite Hf, (lookup_weaken _ _ _ _ Hf Hs).
  unfold Trade.validate_orphan in *. by rewrite <- (verify_trade_same _ _ _ _ E), <- (same_trade_file _ _ _ _ E eq_refl).
Qed.

Lemma expired_back now cutoff d e stem r :
  e.(im_markers) ⊆ d.(im_markers) -> e.(im_trades) ⊆ d.(im_trades) -> e.(im_orders) = d.(im_orders) ->
  expired now cutoff e stem r -> expired now cutoff d stem r.
Proof.
  intros Hm Ht Ho [H1 H2 H3 [ev H4]]. constructor; [by eapply load_marker_mono|by rewrite <- Ho|done|].
  exists ev. by eapply validate_orphan_mono.
Qed.

(** What a run of the reconciler leaves of a disk. *)
Record put_away (now cutoff : Z) (d d' : imports) : Prop := {
  (** orders are untouched, the audit and the quarantine only grow, and nothing
      is made up *)
  pa_orders : d'.(im_orders) = d.(im_orders);
  pa_audit : exists l, d'.(im_audit) = (d.(im_audit) ++ l)%list;
  pa_quarantine : d.(im_old_markers) ⊆ d'.(im_old_markers) /\ d.(im_bad_markers) ⊆ d'.(im_bad_markers) /\
    d.(im_old_trades) ⊆ d'.(im_old_trades);
  pa_active : d'.(im_markers) ⊆ d.(im_markers) /\ d'.(im_trades) ⊆ d.(im_trades);
  (** a marker is still there, in quarantine, or that of a visible order *)
  pa_markers : forall stem f, d.(im_markers) !! stem = Some f ->
    d'.(im_markers) !! stem = Some f \/
    (exists dest, d'.(im_old_markers) !! dest = Some f \/ d'.(im_bad_markers) !! dest = Some f) \/
    (exists r, load_marker stem d = Ok (Some r) /\ visible d.(im_orders) r.(pi_order_id));
  (** a trade is still there, or in quarantine because a marker expired *)
  pa_trades : forall name f, d.(im_trades) !! name = Some f ->
    d'.(im_trades) !! name = Some f \/
    ((exists dest, d'.(im_old_trades) !! dest = Some f) /\
     exists stem r, trade_path r.(pi_order_id) = name /\ expired now cutoff d stem r)
}.

Lemma put_away_refl now cutoff d : put_away now cutoff d d.
Proof. constructor; [done|by exists []; rewrite app_nil_r|by split_and!|by split_and!|by left|by left]. Qed.

Lemma put_away_step now cutoff d e e' : put_away now cutoff d e -> clean_step now cutoff e e' -> put_away now cutoff d e'.
Proof.
  intros [Ho [l Ha] (Hq1 & Hq2 & Hq3) [Hm Ht] HM HT] Hs.
  destruct Hs as [l'|stem r Hl Hv|stem f dest Hf Hd|stem f dest Hf Hd|stem r f dest He Hf Hd].
  - constructor; try done. exists (l ++ l')%list. cbn. by rewrite Ha, app_assoc.
  - constructor; try done; cbn [im_markers im_trades set_markers].
    + by exists l.
    + split; [|done]. etrans; [apply delete_subseteq|done].
    + intros s f Hf. destruct (HM s f Hf) as [H|[H|H]]; [|by auto|by auto].
      destruct (decide (s = stem)) as [->|Hne]; [|left; by rewrite lookup_delete_ne].
      right; right. exists r. split; [by eapply load_marker_mono|by rewrite <- Ho].
  - constructor; try done; cbn [im_markers im_trades im_old_markers im_bad_markers set_markers set_old_markers].
    + by exists l.
    + split_and!; [|done|done]. etrans; [done|]. by apply insert_subseteq.
    + split; [|done]. etrans; [apply delete_subseteq|done].
    + intros s x Hx. destruct (HM s x Hx) as [H|[(k & [H|H])|H]]; [| | |by auto].
      * destruct (decide (s = stem)) as [->|Hne]; [|left; by rewrite lookup_delete_ne].
        right; left. exists dest. left. rewrite lookup_insert_eq. congruence.
      * right; left. exists k. left. by eapply lookup_weaken, insert_subseteq.
      * right; left. exists k. by right.
  - constructor; try done; cbn [im_markers im_trades im_old_markers im_bad_markers set_markers set_bad_markers].
    + by exists l.
    + split_and!; [done| |done]. etrans; [done|]. by apply insert_subseteq.
    + split; [|done]. etrans; [apply delete_subseteq|done].
    + intros s x Hx. destruct (HM s x Hx) as [H|[(k & [H|H])|H]]; [| | |by auto].
      * destruct (decide (s = stem)) as [->|Hne]; [|left; by rewrite lookup_delete_ne].
        right; left. exists dest. right. rewrite lookup_insert_eq. congruence.
      * right; left. exists k. by left.
      * right; left. exists k. right. by eapply lookup_weaken, insert_subseteq.
  - constructor; try done; cbn [im_markers im_trades im_old_trades set_trades set_old_trades].
    + by exists l.
    + split_and!; [done..|]. etrans; [done|]. by apply insert_subseteq.
    + split; [done|]. etrans; [apply delete_subseteq|done].
    + intros name x Hx. destruct (HT name x Hx) as [H|[(k & H) Hw]].
      * destruct (decide (name = trade_path r.(pi_order_id))) as [->|Hne]; [|left; by rewrite lookup_delete_ne].
        right. split; [exists dest; rewrite lookup_insert_eq; congruence|].
        exists stem, r. split; [done|]. by eapply expired_back.
      * right. split; [|done]. exists k. by eapply lookup_weaken, insert_subseteq.
Qed.

Lemma clean_steps_put_away now cutoff d d' : rtc (clean_step now cutoff) d d' -> put_away now cutoff d d'.
Proof.
  revert d'. apply (rtc_ind_r (put_away now cutoff d)); [apply put_away_refl|]. intros e f _ Hs IH.
  by eapply put_away_step.
Qed.

Lemma clean_step_traded now cutoff d d' : clean_step now cutoff d d' -> traded now d -> traded now d'.
Proof.
  intros Hs Ht. destruct Hs as [l|stem r Hl Hv|stem f dest Hf Hd|stem f dest Hf Hd|stem r f dest He Hf Hd]; try done.
  intros id Hid. cbn [im_orders im_trades set_old_trades set_trades] in *.
  rewrite (verify_trade_same _ _ d.(im_trades)); [by apply Ht|]. apply lookup_delete_ne. intros E.
  destruct (visible_hex _ _ Hid) as (t & -> & Hh).
  destruct (load_marker_named _ _ _ (ex_marker _ _ _ _ _ He)) as [v (_ & _ & _ & Hp & _)%import_from_dict_inv].
  pose proof (trade_path_inj _ _ Hp Hh E) as Er. destruct Hid as [e He']. rewrite <- Er in He'.
  by rewrite (ex_hidden _ _ _ _ _ He) in He'.
Qed.
End Reconciler.

(** ** Resuming *)

Section Resume.
Context `{Ed : Ed25519} `{D : IsoDates} `{U : UnicodeDigits} `{Rp : PyRepr} `{Ud : UnicodeDB}.

Lemma reimport_trade now now' fs id evs ts l :
  now <= now' -> Forall wf evs -> Trade.import_verified_events now fs id (PList evs) = Ok (ts, l) ->
  Trade.import_verified_events now' fs id (PList evs) = Ok (ts, l) /\
  Trade.import_verified_events now' ts id (PList evs) = Ok (ts, l).
Proof.
  intros Hn Hw H. unfold Trade.import_verified_events in *. apply res_bind_Ok in H as (c & Hc & H).
  apply Ok_inj in H. injection H as <- <-. pose proof (validate_import_inv _ _ _ _ _ Hc) as ([= ->] & Hne & Hv & _).
  pose proof (verify_events_later _ _ _ _ _ Hn Hv) as Hv'. split.
  - unfold Trade.validate_import in *. destruct c as [|x c]; [done|]. destruct (1000 <? _); [done|].
    destruct (_ && _); [done|]. destruct (negb (list_eqb _ _ _)); [done|].
    destruct (match Trade.get_events fs id with Some _ => _ | None => _ end); [done|]. by rewrite Hv'.
  - assert (Trade.validate_import now' (atomic_write_json fs (trade_path id) (trade_file id c)) id (PList c) = Ok c) as ->.
    { unfold Trade.validate_import in *. rewrite file_exists_written, get_events_written.
      destruct c as [|x c]; [done|]. destruct (1000 <? _); [done|]. cbn [andb]. rewrite take_ge by done.
      assert (list_eqb py_eqb (x :: c) (x :: c) = true) as ->.
      { apply verify_events_inv in Hv as (_ & Hs & _). apply check_size_encodable, encodable_jsonlike in Hs.
        cbn [jsonlike forallb snd] in Hs. rewrite !andb_true_r in Hs. change (forallb jsonlike (x :: c) = true) in Hs.
        apply forallb_Forall in Hs. apply list_eqb_Forall2. clear -Hs Hw.
        induction Hs as [|y k Hy _ IH]; [constructor|]. apply Forall_cons in Hw as [Hy' Hk].
        constructor; [by apply py_eqb_refl|by apply IH]. }
      cbn [negb]. rewrite Nat.ltb_irrefl. by rewrite Hv'. }
    cbn [res_bind]. unfold atomic_write_json. by rewrite insert_insert_eq.
Qed.

Lemma verified_jsonlike d w : verify_order (PList [PDict d]) = Ok (true, w) -> jsonlike (PDict d) = true.
Proof.
  unfold verify_order. intros H%run_body_true. check_as H Hkeys. apply res_bind_Ok in H as (u & Hu & _).
  unfold check_encoding in Hu. destruct (canonical_json (PDict d)) as [b|x] eqn:E; [|by destruct (is_TypeOrValueError x)].
  apply canonical_json_encodable in E as [E _]. by apply encodable_jsonlike.
Qed.

Lemma reimport_order orders e os e' :
  wf (PDict (Order.to_dict e)) -> Order.import_verified orders e = Ok (os, e') ->
  exists e'', Order.import_verified os e = Ok (os, e'').
Proof.
  intros Hw H. destruct (import_new _ _ _ _ H) as [->|(path & w & Hp & -> & Hv)]; [by exists e'|].
  unfold Order.import_verified in *. rewrite Hp. cbn [res_bind]. unfold Order.validate_import. rewrite Hp. cbn [res_bind].
  rewrite Hv. cbn [res_bind negb]. unfold order_file at 1.
  rewrite (get_events_read _ _ _ Hp), safe_load_written by done. cbn [res_bind].
  change (dict_get "events" _) with (Some (PList [PDict (Order.to_dict e)])). cbv iota. rewrite Hv. cbn [res_bind negb].
  assert (py_eqb (PList [PDict (Order.to_dict e)]) (PList [PDict (Order.to_dict e)]) = true) as ->.
  { apply py_eqb_refl; [|apply wf_PList; by constructor]. apply verified_jsonlike in Hv.
    change (jsonlike (PDict (Order.to_dict e)) && true = true). by rewrite Hv. }
  cbn [negb res_bind]. by eexists.
Qed.

(** A marker can be written where there is none, and is left where it is the
    same. *)
Definition ready (stem : string) (r : ProvisionalImport) (d : imports) : Prop :=
  (load_marker stem d = Ok None /\ file_exists d.(im_markers) stem = false) \/ load_marker stem d = Ok (Some r).

Definition marked (stem : string) (r : ProvisionalImport) (d : imports) : imports :=
  match load_marker stem d with
  | Ok (Some _) => d
  | _ => set_markers (atomic_write_json d.(im_markers) stem (PDict (import_to_dict r))) d
  end.

Lemma marked_ready stem r d : named r -> ready stem r d -> ready stem r (marked stem r d).
Proof.
  intros [v Hv] [[H _]|H]; right; unfold marked; rewrite H; [|done]. unfold load_marker. cbn [im_markers set_markers].
  rewrite safe_load_written by done. by rewrite (import_round_trip _ _ Hv).
Qed.

(** The disk of a completed import *)
Definition imported (stem : string) (ts os : files) (d : imports) : imports :=
  set_markers (delete stem d.(im_markers)) (set_orders os (set_trades ts d)).

Lemma write_marker_run stem r d n :
  ready stem r d ->
  write_marker stem r {| pr_writes := n; pr_disk := d |} =
  match load_marker stem d, n with
  | Ok (Some _), _ => ({| pr_writes := n; pr_disk := d |}, Some (Ok tt))
  | _, O => ({| pr_writes := 0; pr_disk := d |}, None)
  | _, S n => ({| pr_writes := n; pr_disk := marked stem r d |}, Some (Ok tt))
  end.
Proof.
  unfold write_marker, marked, bind, reads. cbn [pr_disk]. intros [[-> ->]| ->].
  - unfold update. cbn [pr_disk pr_writes]. by destruct n.
  - by rewrite decide_True.
Qed.

Context (now clock : Z) (order : OrderEvent) (events : list pyval) (mid src created : pyval).

(** All that [import_bundle] checks holds on the disk [d]. *)
Record importable (t : Z) (d : imports) (r : ProvisionalImport) (ts os : files) : Prop := {
  ia_ready : ready (storage_key r.(pi_order_id)) r d;
  ia_trade : exists l, Trade.import_verified_events t d.(im_trades) r.(pi_order_id) (PList events) = Ok (ts, l);
  ia_order : exists e, Order.import_verified d.(im_orders) order = Ok (os, e)
}.

Lemma marked_trades stem r d : (marked stem r d).(im_trades) = d.(im_trades).
Proof. unfold marked. by destruct (load_marker stem d) as [[]|]. Qed.

Lemma marked_orders stem r d : (marked stem r d).(im_orders) = d.(im_orders).
Proof. unfold marked. by destruct (load_marker stem d) as [[]|]. Qed.

Lemma imported_marked stem r ts os d : imported stem ts os (marked stem r d) = imported stem ts os d.
Proof.
  unfold marked. destruct (load_marker stem d) as [[]|]; [done|..]; destruct d; unfold imported, set_markers, set_orders, set_trades, atomic_write_json;
    cbn; by rewrite delete_insert_eq.
Qed.

Lemma import_Ok_wp d :
  wp (fun _ _ => True) (import_bundle now clock order (PList events) mid src created) (fun res d' => res = Ok tt ->
    exists r ts os, bundle_record clock order (PList events) mid src created = Ok r /\ importable now d r ts os /\
      d' = imported (storage_key r.(pi_order_id)) ts os d) d.
Proof.
  unfold import_bundle. wp_step. wp_step. destruct (bundle_record _ _ _ _ _ _) as [r|e] eqn:Er; [|done]. wp_step.
  apply (wp_mono _ (fun res d1 => res = Ok tt ->
    ready (storage_key r.(pi_order_id)) r d /\ d1 = marked (storage_key r.(pi_order_id)) r d)).
  2:{ unfold write_marker, marked, ready. wp_step. wp_step. destruct (load_marker _ d) as [x|e] eqn:El; [|done].
      wp_step. wp_step. destruct x as [s|]; [destruct (decide (s = r)) as [->|]; wp_step; by auto|].
      destruct (file_exists _ _) eqn:Ex; wp_step; [done|]. by auto. }
  intros [[]|e] d1 H1; [|done]. destruct (H1 eq_refl) as [Hr ->]. wp_step. wp_step. rewrite marked_trades.
  destruct (Trade.import_verified_events _ _ _ _) as [[ts l]|e] eqn:Et; [|done]. cbn [res_bind]. split; [done|].
  wp_step. wp_step. cbn [im_orders set_trades]. rewrite marked_orders.
  destruct (Order.import_verified _ _) as [[os o]|e] eqn:Eo; [|done]. cbn [res_bind]. split; [done|].
  wp_step. split; [done|]. intros _. exists r, ts, os. split; [done|]. split; [constructor; eauto|].
  rewrite <- (imported_marked _ r). by destruct (marked _ r d).
Qed.

Lemma importable_run n t c d r ts os :
  bundle_record c order (PList events) mid src created = Ok r -> importable t d r ts os ->
  exists m, import_bundle t c order (PList events) mid src created {| pr_writes := 4 + n; pr_disk := d |} =
            ({| pr_writes := m; pr_disk := imported (storage_key r.(pi_order_id)) ts os d |}, Some (Ok tt)).
Proof.
  intros Hb [Hr [l Ht] [e Ho]]. unfold import_bundle, bind at 1, reads. rewrite Hb. cbv beta iota zeta.
  unfold bind at 1. cbn [pr_disk]. rewrite write_marker_run by done. rewrite <- (imported_marked _ r).
  assert (forall k, exists m,
    (let! _ := update (fun d => let* (trades, _) := Trade.import_verified_events t d.(im_trades) r.(pi_order_id) (PList events) in
                                Ok (set_trades trades d)) in
     let! _ := update (fun d => let* (orders, _) := Order.import_verified d.(im_orders) order in Ok (set_orders orders d)) in
     update (fun d => Ok (set_markers (delete (storage_key r.(pi_order_id)) d.(im_markers)) d)))
    {| pr_writes := 3 + k; pr_disk := marked (storage_key r.(pi_order_id)) r d |} =
    ({| pr_writes := m; pr_disk := imported (storage_key r.(pi_order_id)) ts os (marked (storage_key r.(pi_order_id)) r d) |},
     Some (Ok tt))) as Hrest.
  { intros k. exists k. unfold bind, update. cbn [pr_disk pr_writes Nat.add]. rewrite marked_trades, Ht.
    cbn [res_bind pr_disk pr_writes im_orders set_trades]. rewrite marked_orders, Ho. cbn [res_bind pr_disk pr_writes].
    by destruct (marked _ r d). }
  destruct (load_marker _ d) as [[s|]|] eqn:El; [|exact (Hrest n)..].
  assert (marked (storage_key r.(pi_order_id)) r d = d) as E by (unfold marked; by rewrite El).
  destruct (Hrest (S n)) as [m H]. rewrite E in H. exists m. rewrite E. exact H.
Qed.

(** The disks an interrupted import can leave. *)
Definition stage (r : ProvisionalImport) (ts os : files) (d x : imports) : Prop :=
  let stem := storage_key r.(pi_order_id) in
  let d1 := marked stem r d in
  In x [d; d1; set_trades ts d1; set_orders os (set_trades ts d1); imported stem ts os d].

Lemma import_stages d r ts os n :
  bundle_record clock order (PList events) mid src created = Ok r -> importable now d r ts os ->
  stage r ts os d (import_bundle now clock order (PList events) mid src created {| pr_writes := n; pr_disk := d |}).1.(pr_disk).
Proof.
  intros Hb [Hr [l Ht] [e Ho]].
  assert (wp (fun _ b => stage r ts os d b) (import_bundle now clock order (PList events) mid src created) (fun _ _ => True) d)
    as H.
  { unfold import_bundle. wp_step. wp_step. rewrite Hb. wp_step.
    apply (wp_mono _ (fun res d1 => res = Ok tt -> d1 = marked (storage_key r.(pi_order_id)) r d)).
    2:{ unfold write_marker. wp_step. wp_step. unfold marked at 1.
        destruct Hr as [[Hl Hx]|Hl]; rewrite Hl; wp_step; wp_step.
        - rewrite Hx. wp_step. split; [|done]. right; left. unfold marked. by rewrite Hl.
        - rewrite decide_True by done. by wp_step. }
    intros [[]|x] d1 H1; [|done]. rewrite (H1 eq_refl). wp_step. wp_step. rewrite marked_trades, Ht. cbn [res_bind].
    split; [by right; right; left|]. wp_step. wp_step. cbn [im_orders set_trades]. rewrite marked_orders, Ho. cbn [res_bind].
    split; [by right; right; right; left|]. wp_step. split; [|done]. right; right; right; right; left.
    rewrite <- (imported_marked _ r). by destruct (marked _ r d). }
  destruct (H n) as [Hx _]. revert Hx. generalize (import_bundle now clock order (PList events) mid src created {| pr_writes := n; pr_disk := d |}).1.(pr_disk).
  intros x [<-|(y & _ & Hy)]%rtc_inv_r; [by left|exact Hy].
Qed.

Lemma imported_stage r ts os d x :
  stage r ts os d x -> imported (storage_key r.(pi_order_id)) ts os x = imported (storage_key r.(pi_order_id)) ts os d.
Proof.
  intros [<-|[<-|[<-|[<-|[<-|[]]]]]]; [done|apply imported_marked| | |].
  - rewrite <- (imported_marked _ r ts os d). by destruct (marked _ r d).
  - rewrite <- (imported_marked _ r ts os d). by destruct (marked _ r d).
  - destruct d. unfold imported, set_markers, set_orders, set_trades. cbn. by rewrite delete_delete_eq.
Qed.

Lemma ready_markers stem r d d' : d.(im_markers) = d'.(im_markers) -> ready stem r d -> ready stem r d'.
Proof. unfold ready, load_marker. by intros ->. Qed.

Lemma stage_importable now' d r ts os x :
  now <= now' -> Forall wf events -> wf (PDict (Order.to_dict order)) -> named r ->
  importable now d r ts os -> stage r ts os d x -> importable now' x r ts os.
Proof.
  intros Hn Hw Hwo Hr [Hm [l Ht] [e Ho]] Hx. destruct (reimport_trade _ _ _ _ _ _ _ Hn Hw Ht) as [Ht1 Ht2].
  destruct (reimport_order _ _ _ _ Hwo Ho) as [e2 Ho2]. pose proof (marked_ready _ _ _ Hr Hm) as Hm2.
  destruct Hx as [<-|[<-|[<-|[<-|[<-|[]]]]]].
  - constructor; eauto.
  - constructor; [done|rewrite marked_trades|rewrite marked_orders]; eauto.
  - constructor; [by eapply ready_markers; [|exact Hm2]|cbn [im_trades set_trades]|cbn [im_orders set_trades]; rewrite marked_orders]; eauto.
  - constructor; [by eapply ready_markers; [|exact Hm2]|cbn [im_trades set_trades set_orders]|cbn [im_orders set_orders]]; eauto.
  - constructor; cbn [im_trades im_orders imported set_markers set_trades set_orders]; eauto. left.
    unfold load_marker, safe_load_json, file_exists. cbn [im_markers imported set_markers]. by rewrite lookup_delete_eq.
Qed.
End Resume.

(** ** Settling what an interrupted import left *)

Section Settle.
Context `{Ed : Ed25519} `{D : IsoDates} `{U : UnicodeDigits} `{Rp : PyRepr} `{Ud : UnicodeDB}.

Lemma plain_text s : Forall plain (chars s) -> text_ok s = true.
Proof. intros H. apply text_ok_ascii. unfold bytes_of. by apply Forall_fmap. Qed.

Lemma prefixed_text p n s : Forall plain (chars p) -> prefixed_hex p n (PStr s) = Some s -> text_ok s = true.
Proof.
  intros Hp (_ & _ & t & -> & Ht)%prefixed_hex_inv. apply plain_text. rewrite chars_app. by apply Forall_app.
Qed.

(** The audit records any marker. *)
Lemma audit_run t r now_ms n d :
  text_ok t = true -> named r -> exists e,
  audit t r now_ms {| pr_writes := S n; pr_disk := d |} =
  ({| pr_writes := n; pr_disk := set_audit (d.(im_audit) ++ [e]) d |}, Some (Ok tt)).
Proof.
  intros Ht [v (_ & _ & _ & Ho & Hm & Hh & Hd & _)%import_from_dict_inv]. unfold audit, update, audit_entry, digest_of.
  cbn [pr_disk pr_writes]. rewrite canonical_json_total; [cbn [res_bind]; by eexists|].
  assert (Forall plain (chars ORDER_ID_PREFIX)) as P1 by (repeat constructor; vm_compute; intuition congruence).
  assert (Forall plain (chars "sha256:")) as P2 by (repeat constructor; vm_compute; intuition congruence).
  cbn -[text_ok]. rewrite Ht, (prefixed_text _ _ _ P1 Ho), (prefixed_text _ _ _ P2 Hm), (prefixed_text _ _ _ P2 Hh), (did_text_ok _ Hd).
  reflexivity.
Qed.

Lemma bind_Ok {A B} (m : io A) (f : A -> io B) p p' a : m p = (p', Some (Ok a)) -> bind m f p = f a p'.
Proof. intros H. unfold bind. by rewrite H. Qed.

Context (raw : string -> string) (now now_ms cutoff : Z) (stem : string) (r : ProvisionalImport).
Abbreviation settle := (reconcile_marker raw now now_ms cutoff stem).

Lemma settle_gone n d :
  d.(im_markers) !! stem = None ->
  settle {| pr_writes := n; pr_disk := d |} = ({| pr_writes := n; pr_disk := d |}, Some (Ok Gone)).
Proof.
  intros H. unfold reconcile_marker, bind, attempt, reads, load_marker, safe_load_json, file_exists. cbn [pr_disk].
  by rewrite H.
Qed.

Lemma settle_visible n d :
  load_marker stem d = Ok (Some r) -> visible d.(im_orders) r.(pi_order_id) -> exists e,
  settle {| pr_writes := 2 + n; pr_disk := d |} =
  ({| pr_writes := n; pr_disk := set_markers (delete stem d.(im_markers)) (set_audit (d.(im_audit) ++ [e]) d) |}, Some (Ok Completed)).
Proof.
  intros Hl [o Ho]. pose proof (load_marker_named _ _ _ Hl) as Hr.
  destruct (audit_run "commerce.provisional.completed" r now_ms (S n) d eq_refl Hr) as [e He]. exists e.
  unfold reconcile_marker, attempt, reads. erewrite !bind_Ok by reflexivity. cbn [pr_disk]. rewrite Hl.
  erewrite bind_Ok by (cbn [pr_disk]; by rewrite Ho). cbv iota. by rewrite (bind_Ok _ _ _ _ _ He).
Qed.

Lemma settle_hidden n d :
  load_marker stem d = Ok (Some r) -> get_order d.(im_orders) (PStr r.(pi_order_id)) = Ok None ->
  r.(pi_created_at_ms) <= cutoff -> d.(im_old_markers) !! storage_key r.(pi_order_id) = None ->
  events_or_nil d.(im_trades) r.(pi_order_id) = [] -> exists f e,
  settle {| pr_writes := 2 + n; pr_disk := d |} =
  ({| pr_writes := n; pr_disk := set_old_markers (<[storage_key r.(pi_order_id) := f]> d.(im_old_markers))
        (set_markers (delete stem d.(im_markers)) (set_audit (d.(im_audit) ++ [e]) d)) |}, Some (Ok Quarantined)).
Proof.
  intros Hl Ho Hc Hd He. pose proof (load_marker_named _ _ _ Hl) as Hr.
  destruct (audit_run "commerce.provisional.expired_empty" r now_ms (S n) d eq_refl Hr) as [e Ha].
  assert (exists f, d.(im_markers) !! stem = Some f) as [f Hf].
  { unfold load_marker, safe_load_json in Hl. destruct (d.(im_markers) !! stem) as [f|]; [by exists f|done]. }
  exists f, e. unfold reconcile_marker, attempt, reads. erewrite !bind_Ok by reflexivity. cbn [pr_disk]. rewrite Hl.
  erewrite bind_Ok by (cbn [pr_disk]; by rewrite Ho). cbv iota. rewrite (proj2 (Z.ltb_ge _ _) Hc).
  erewrite bind_Ok by (cbn [pr_disk]; reflexivity). rewrite He. rewrite (bind_Ok _ _ _ _ _ Ha).
  erewrite bind_Ok; [reflexivity|]. unfold quarantine_marker, update. cbn [pr_disk pr_writes im_old_markers set_audit im_markers].
  unfold file_exists. rewrite Hd. unfold move. by rewrite Hf.
Qed.

(** A marker that was put away once blocks the reconciler when the same order
    is put away again. *)
Lemma second_quarantine_raises n d f :
  load_marker stem d = Ok (Some r) -> get_order d.(im_orders) (PStr r.(pi_order_id)) = Ok None ->
  r.(pi_created_at_ms) <= cutoff -> events_or_nil d.(im_trades) r.(pi_order_id) = [] ->
  d.(im_old_markers) !! storage_key r.(pi_order_id) = Some f ->
  (settle {| pr_writes := 1 + n; pr_disk := d |}).2 = Some (Err ProvisionalImportRejected).
Proof.
  intros Hl Ho Hc He Hd. pose proof (load_marker_named _ _ _ Hl) as Hr.
  destruct (audit_run "commerce.provisional.expired_empty" r now_ms n d eq_refl Hr) as [e Ha].
  unfold reconcile_marker, attempt, reads. erewrite !bind_Ok by reflexivity. cbn [pr_disk]. rewrite Hl.
  erewrite bind_Ok by (cbn [pr_disk]; by rewrite Ho). cbv iota. rewrite (proj2 (Z.ltb_ge _ _) Hc).
  erewrite bind_Ok by (cbn [pr_disk]; reflexivity). rewrite He. rewrite (bind_Ok _ _ _ _ _ Ha).
  unfold bind, quarantine_marker, update. cbn [pr_disk pr_writes im_old_markers set_audit].
  unfold file_exists. by rewrite Hd.
Qed.

Lemma settle_orphan n d :
  expired now cutoff d stem r -> d.(im_old_markers) !! storage_key r.(pi_order_id) = None ->
  d.(im_old_trades) !! storage_key r.(pi_order_id) = None -> exists p,
  settle {| pr_writes := 4 + n; pr_disk := d |} = (p, Some (Ok Quarantined)) /\
  p.(pr_disk).(im_markers) = delete stem d.(im_markers) /\ p.(pr_disk).(im_orders) = d.(im_orders) /\
  p.(pr_disk).(im_trades) = delete (trade_path r.(pi_order_id)) d.(im_trades).
Proof.
  intros [Hl Ho Hc [ev He]] Hd Ht. pose proof (load_marker_named _ _ _ Hl) as Hr.
  destruct (audit_run "commerce.provisional.orphan_quarantine_requested" r now_ms (3 + n) d eq_refl Hr) as [e Ha].
  assert (exists f, d.(im_markers) !! stem = Some f) as [f Hf].
  { unfold load_marker, safe_load_json in Hl. destruct (d.(im_markers) !! stem) as [f|]; [by exists f|done]. }
  destruct (validate_orphan_file _ _ _ _ _ He) as [g Hg].
  assert (events_or_nil d.(im_trades) r.(pi_order_id) <> []) as Hne.
  { intros E. unfold Trade.validate_orphan in He. by rewrite E in He. }
  unfold reconcile_marker. unfold attempt at 1, reads at 1 2 3 4 5. erewrite !bind_Ok by reflexivity. cbn [pr_disk]. rewrite Hl.
  erewrite bind_Ok by (cbn [pr_disk]; by rewrite Ho). cbv iota. rewrite (proj2 (Z.ltb_ge _ _) Hc).
  erewrite bind_Ok by (cbn [pr_disk]; reflexivity). destruct (events_or_nil _ _) as [|ev1 evs]; [done|].
  erewrite bind_Ok by (cbn [pr_disk]; unfold attempt, reads; cbn [pr_disk]; by rewrite He). cbv iota.
  rewrite (bind_Ok _ _ _ _ _ Ha).
  set (d1 := set_audit _ d).
  assert (Trade.quarantine_orphan now d.(im_trades) d.(im_old_trades) r.(pi_order_id) r.(pi_chain_head) (storage_key r.(pi_order_id)) =
    Ok (delete (trade_path r.(pi_order_id)) d.(im_trades), <[storage_key r.(pi_order_id) := g]> d.(im_old_trades), true)) as Hq.
  { unfold Trade.quarantine_orphan. rewrite He. cbn [res_bind]. unfold file_exists. by rewrite Ht, Hg. }
  set (d2 := set_old_trades (<[storage_key r.(pi_order_id) := g]> d.(im_old_trades))
               (set_trades (delete (trade_path r.(pi_order_id)) d.(im_trades)) d1)).
  assert (quarantine_trade now r {| pr_writes := 3 + n; pr_disk := d1 |} =
          ({| pr_writes := 2 + n; pr_disk := d2 |}, Some (Ok true))) as Hqt.
  { unfold quarantine_trade, bind, reads. cbn [pr_disk d1 im_trades im_old_trades set_audit]. rewrite Hq. cbn [negb].
    unfold update. cbn [pr_disk pr_writes d1 im_trades im_old_trades set_audit Nat.add]. rewrite Hq. reflexivity. }
  erewrite bind_Ok by (unfold attempt; by rewrite Hqt).
  cbv iota.
  set (d3 := set_old_markers (<[storage_key r.(pi_order_id) := f]> d.(im_old_markers)) (set_markers (delete stem d.(im_markers)) d2)).
  erewrite bind_Ok.
  2:{ unfold quarantine_marker, update. cbn [pr_disk pr_writes d1 d2 im_old_markers im_markers set_audit set_trades set_old_trades].
      unfold file_exists. rewrite Hd. unfold move. rewrite Hf. cbn [res_bind]. fold d3. reflexivity. }
  destruct (audit_run "commerce.provisional.orphan_quarantined" r now_ms n d3 eq_refl Hr) as [e2 Ha2].
  erewrite bind_Ok by exact Ha2. by eexists.
Qed.
End Settle.

Section Outcome.
Context `{Ed : Ed25519} `{D : IsoDates} `{U : UnicodeDigits} `{Rp : PyRepr} `{Ud : UnicodeDB}.

Lemma bundle_head clock order events mid src created r :
  bundle_record clock order events mid src created = Ok r -> trade_chain_head events = Ok r.(pi_chain_head).
Proof.
  unfold bundle_record. intros (h & Hh & H)%res_bind_Ok. rewrite Hh.
  apply import_from_dict_inv in H as (d & [= <-] & [_ H] & _). cbn in H. by injection H as ->.
Qed.

Lemma import_makes_visible orders e os e' id :
  Order.import_verified orders e = Ok (os, e') -> e.(Order.order_id) = PStr id -> visible os id.
Proof.
  unfold Order.import_verified, visible. intros (path & Hp & (x & Hx & H)%res_bind_Ok)%res_bind_Ok Hid.
  unfold Order.validate_import in Hx. rewrite Hp in Hx. cbn [res_bind] in Hx. rewrite Hid in Hp, Hx.
  apply res_bind_Ok in Hx as ([ok w] & Hv & Hx). destruct ok; [|done]. cbn [negb] in Hx.
  apply res_bind_Ok in Hx as ([ev|] & Hg & Hx); unfold get_order.
  - apply res_bind_Ok in Hx as ([ok w'] & Hv' & Hx). destruct ok; [|done]. cbn [negb] in Hx.
    destruct (negb (py_eqb _ _)); [done|]. apply Ok_inj in Hx as <-. apply Ok_inj in H. injection H as <- _.
    rewrite Hg. cbn [res_bind].
    destruct (verify_order_inv _ _ Hv') as (d & ? & ? & ? & ? & ? & ? & ? & ? & ? & -> & _). cbn [truthy negb].
    rewrite Hv'. by eexists.
  - destruct (file_exists orders path); [done|]. apply Ok_inj in Hx as <-. apply Ok_inj in H. injection H as <- _.
    rewrite Hid, (get_events_stored _ _ _ _ Hp). cbn [res_bind truthy negb]. rewrite Hv. by eexists.
Qed.
End Outcome.

(** ** Properties *)

Section Properties.
Context `{Ed : Ed25519} `{D : IsoDates} `{U : UnicodeDigits} `{Rp : PyRepr} `{Ud : UnicodeDB}.

(** A disk after any number of imports and runs of the reconciler, each stopped
    after any number of writes. *)
Inductive history (t0 : Z) (d0 : imports) : Z -> imports -> Prop :=
| hist_start : history t0 d0 t0 d0
| hist_import now now' d writes clock order events mid src created :
    history t0 d0 now d -> now <= now' ->
    history t0 d0 now'
      (import_bundle now' clock order events mid src created {| pr_writes := writes; pr_disk := d |}).1.(pr_disk)
| hist_reconcile now now' d writes raw clock stems after limit override :
    history t0 d0 now d -> now <= now' ->
    history t0 d0 now'
      (reconcile raw now' clock stems after limit override {| pr_writes := writes; pr_disk := d |}).1.(pr_disk).

(** C15.  An order is never visible before its trade.  After any imports and any
    runs of the reconciler, each stopped before any of its writes, every order
    that can be read has a trade that verifies; in particular the reconciler
    never takes the trade of a visible order. *)
Theorem order_never_before_trade t0 d0 now d : traded t0 d0 -> history t0 d0 now d -> traded now d.
Proof.
  intros H0. induction 1 as [|now now' d w clock order events mid src created _ IH Hn
    |now now' d w raw clock stems after limit override _ IH Hn]; [done|apply (traded_later _ _ _ Hn) in IH..].
  - destruct (import_bundle_wp now' clock order events mid src created d w) as [H _].
    induction H as [|x y z Hxy _ IHs]; [done|]. apply IHs. by eapply import_step_traded.
  - destruct (reconcile_wp raw now' clock stems after limit override d w) as [H _].
    induction H as [|x y z Hxy _ IHs]; [done|]. apply IHs. by eapply clean_step_traded.
Qed.

(** C23.  The reconciler loses nothing.  Whatever is on the disk and wherever it
    stops, [reconcile] leaves the orders alone, only adds to the audit and to
    the quarantine, keeps every marker active or in quarantine unless its order
    is visible, and keeps every trade active or in quarantine; it puts a trade
    away only for a marker that has expired, names the verified head of that
    trade, and has no visible order. *)
Theorem reconcile_loses_nothing raw now clock stems after limit override writes d :
  put_away now (clock_ms clock override - after * 1000) d
    (reconcile raw now clock stems after limit override {| pr_writes := writes; pr_disk := d |}).1.(pr_disk).
Proof. apply clean_steps_put_away. by destruct (reconcile_wp raw now clock stems after limit override d writes). Qed.

(** A default time is the clock's. *)
Lemma default_record clock0 clock order events mid src :
  clock <> 0 ->
  bundle_record clock0 order events mid src (PInt clock) = bundle_record clock order events mid src (PInt 0).
Proof. intros H. unfold bundle_record. cbn [truthy]. by rewrite (proj2 (Z.eqb_neq _ _) H). Qed.

(** Without an explicit time the record of an import depends on the clock. *)
Lemma default_record_changes clock clock' order events mid src created r :
  bundle_record clock order events mid src created = Ok r -> truthy created = false -> clock' <> clock ->
  match bundle_record clock' order events mid src created with
  | Ok r' => r' <> r /\ r'.(pi_order_id) = r.(pi_order_id)
  | Err e => e = ProvisionalImportRejected
  end.
Proof.
  unfold bundle_record. intros H Hc Hne. rewrite Hc in *. destruct (trade_chain_head events) as [h|]; [|done].
  cbn [res_bind] in *. revert H. unfold import_from_dict.
  change (same_keys PROVISIONAL_FIELDS _) with true. change (py_eqb (get_or_none "kind" _) _) with true. cbn [negb].
  change (as_int (get_or_none "created_at_ms" _)) with (Some clock) at 1.
  change (as_int (get_or_none "created_at_ms" _)) with (Some clock').
  repeat change (get_or_none "order_id" _) with (Order.order_id order).
  repeat change (get_or_none "message_id" _) with mid. repeat change (get_or_none "chain_head" _) with (PStr h).
  repeat change (get_or_none "source_did" _) with src.
  destruct (prefixed_hex ORDER_ID_PREFIX 81 _); [|done]. destruct (prefixed_hex _ _ mid); [|done].
  destruct (prefixed_hex _ _ (PStr h)); [|done]. destruct src; try done.
  destruct (is_did_key _); [|done]. cbn [andb]. destruct (0 <? clock); [|done]. intros [= <-].
  destruct (0 <? clock'); [|done]. cbn [pi_order_id]. split; [by intros [= ?]|done].
Qed.

(** C24.  An interrupted import resumes.  If an import would complete, then
    however many of its writes were made before the process stopped, making the
    same import again, later, completes and leaves the very disk that the
    uninterrupted import leaves, provided both name the same time: an explicit
    [created_at_ms], or the default at the same clock reading. With the default
    and another clock reading, a repetition that finds the marker of the
    interrupted import is refused and leaves the disk alone. *)
Theorem interrupted_import_resumes now now' clock clock' order events mid src created k n d p' :
  Forall wf events -> wf (PDict (Order.to_dict order)) -> now <= now' ->
  import_bundle now clock order (PList events) mid src created {| pr_writes := n; pr_disk := d |} = (p', Some (Ok tt)) ->
  let stopped := (import_bundle now clock order (PList events) mid src created {| pr_writes := k; pr_disk := d |}).1 in
  let again := import_bundle now' clock' order (PList events) mid src created {| pr_writes := 4; pr_disk := stopped.(pr_disk) |} in
  (truthy created = true \/ clock' = clock -> exists m, again = ({| pr_writes := m; pr_disk := p'.(pr_disk) |}, Some (Ok tt))) /\
  (truthy created = false -> clock' <> clock -> forall r,
   bundle_record clock order (PList events) mid src created = Ok r ->
   load_marker (storage_key r.(pi_order_id)) stopped.(pr_disk) = Ok (Some r) ->
   again = ({| pr_writes := 4; pr_disk := stopped.(pr_disk) |}, Some (Err ProvisionalImportRejected))).
Proof.
  intros Hw Hwo Hn H stopped again. split.
  - intros Hc. destruct (import_Ok_wp now clock order events mid src created d n) as [_ Hq].
    rewrite H in Hq. destruct (Hq _ eq_refl eq_refl) as (r & ts & os & Hb & Hi & Hd). cbn [fst] in Hd. rewrite Hd.
    pose proof (import_stages _ _ _ _ _ _ _ _ _ _ _ k Hb Hi) as Hst. fold stopped in Hst.
    destruct (bundle_record_order _ _ _ _ _ _ _ Hb) as [Hr _].
    pose proof (stage_importable _ _ _ _ _ _ _ _ _ Hn Hw Hwo Hr Hi Hst) as Hi'.
    rewrite <- (imported_stage _ _ _ _ _ Hst). unfold again.
    apply (importable_run _ _ _ _ _ 0 now' clock'); [|exact Hi'].
    destruct Hc as [Hc| ->]; [|exact Hb]. revert Hb. unfold bundle_record. by rewrite Hc.
  - intros Hc Hne r Hb Hl. pose proof (default_record_changes _ clock' _ _ _ _ _ _ Hb Hc Hne) as Hr.
    unfold again, import_bundle at 1, bind at 1, reads at 1.
    destruct (bundle_record clock' _ _ _ _ _) as [r'|e]; [|by rewrite Hr]. destruct Hr as [Hr Hid].
    unfold bind at 1, write_marker, bind at 1, reads at 1. cbn [pr_disk]. rewrite Hid, Hl.
    unfold bind, reads, raise. cbn [pr_disk]. by rewrite decide_False by congruence.
Qed.

(** What settles an import: its marker is gone, and either the order is visible
    with its trade, or there is neither. *)
Definition settled (stem id : string) (now : Z) (d : imports) : Prop :=
  d.(im_markers) !! stem = None /\
  ((visible d.(im_orders) id /\ verify_trade now d.(im_trades) id = Ok (true, "")) \/
   (get_order d.(im_orders) (PStr id) = Ok None /\ events_or_nil d.(im_trades) id = [])).

Lemma orphan_imported now now' fs id h events ts l :
  now <= now' -> trade_chain_head (PList events) = Ok h ->
  Trade.import_verified_events now fs id (PList events) = Ok (ts, l) ->
  Trade.validate_orphan now' ts id h = Ok (Some events).
Proof.
  intros Hn Hh H. destruct (imported_verifies _ _ _ _ _ _ H) as [Hv _].
  apply (verify_events_later _ _ _ _ _ Hn) in Hv.
  unfold Trade.import_verified_events in H. apply res_bind_Ok in H as (c & Hc & H).
  apply Ok_inj in H. injection H as <- <-. apply validate_import_inv in Hc as ([= ->] & _).
  unfold Trade.validate_orphan, verify_trade in *. unfold events_or_nil in *. rewrite get_events_written in *.
  unfold trade_chain_head in Hh. destruct (last c) as [head|]; [|done]. destruct head as [| | | | | |dd|]; try done.
  rewrite Hv. cbn [res_bind negb]. rewrite Hh. cbn [res_bind]. by rewrite String.eqb_refl.
Qed.

Lemma stage_settles raw now now' now_ms cutoff clock order events mid src created d r ts os x n :
  now <= now' -> bundle_record clock order (PList events) mid src created = Ok r ->
  importable order events now d r ts os -> stage r ts os d x ->
  let id := r.(pi_order_id) in let stem := storage_key id in
  d.(im_markers) !! stem = None -> get_order d.(im_orders) (PStr id) = Ok None -> events_or_nil d.(im_trades) id = [] ->
  d.(im_old_markers) !! stem = None -> d.(im_old_trades) !! stem = None -> r.(pi_created_at_ms) <= cutoff ->
  exists p o, reconcile_marker raw now' now_ms cutoff stem {| pr_writes := 4 + n; pr_disk := x |} = (p, Some (Ok o)) /\
              settled stem id now' p.(pr_disk).
Proof.
  intros Hn Hb Hi Hst id stem Hm Ho Ht Hqm Hqt Hc. destruct (bundle_record_order _ _ _ _ _ _ _ Hb) as [Hr Hid].
  destruct Hi as [Hrd [l Hl] [e He]]. assert (load_marker stem d = Ok None) as Hl0.
  { unfold load_marker, safe_load_json. by rewrite Hm. }
  destruct (marked_ready _ _ _ Hr Hrd) as [[Hx _]|Hl1].
  { exfalso. revert Hx. unfold marked. fold id stem. rewrite Hl0. unfold load_marker. cbn [im_markers set_markers].
    rewrite safe_load_written by done. by destruct Hr as [v ->%import_round_trip]. }
  fold id stem in Hl1. set (d1 := marked stem r d) in *.
  assert (d1.(im_orders) = d.(im_orders)) as Eo by apply marked_orders.
  assert (d1.(im_trades) = d.(im_trades)) as Et by apply marked_trades.
  assert (d1.(im_old_markers) = d.(im_old_markers) /\ d1.(im_old_trades) = d.(im_old_trades)) as [Em Eq].
  { unfold d1, marked. by rewrite Hl0. }
  destruct (imported_verifies _ _ _ _ _ _ Hl) as [Hv _]. pose proof (verify_events_later _ _ _ _ _ Hn Hv) as Hv'.
  pose proof (import_makes_visible _ _ _ _ _ He Hid) as Hvis. fold id in Hvis, Hv, Hv', Hl.
  destruct Hst as [<-|[<-|[<-|[<-|[<-|[]]]]]]; fold id stem; fold d1.
  - rewrite settle_gone by done. eexists _, _. split; [reflexivity|]. split; [done|by right].
  - destruct (settle_hidden raw now' now_ms cutoff stem r (2 + n) d1 Hl1) as (f & a & Hrun);
      [by rewrite Eo|done|by rewrite Em|by rewrite Et|].
    eexists _, _. split; [exact Hrun|]. cbn [pr_disk]. split; [cbn; by rewrite lookup_delete_eq|].
    right. cbn. by rewrite Eo, Et.
  - destruct (settle_orphan raw now' now_ms cutoff stem r n (set_trades ts d1)) as (p & Hrun & E1 & E2 & E3);
      [constructor|cbn; by rewrite Em|cbn; by rewrite Eq|].
    + exact Hl1.
    + cbn. by rewrite Eo.
    + done.
    + exists events. by eapply orphan_imported; [|by eapply bundle_head|].
    + eexists _, _. split; [exact Hrun|]. split; [rewrite E1; cbn; by rewrite lookup_delete_eq|]. right.
      rewrite E2, E3. cbn. rewrite Eo. split; [done|]. unfold events_or_nil, Trade.get_events, safe_load_json.
      by rewrite lookup_delete_eq.
  - destruct (settle_visible raw now' now_ms cutoff stem r (2 + n) (set_orders os (set_trades ts d1)) Hl1 Hvis) as (a & Hrun).
    eexists _, _. split; [exact Hrun|]. split; [cbn; by rewrite lookup_delete_eq|]. by left.
  - rewrite settle_gone by (cbn; by rewrite lookup_delete_eq). eexists _, _. split; [reflexivity|].
    split; [cbn; by rewrite lookup_delete_eq|]. by left.
Qed.

(** C25.  An interrupted import is settled.  If an import of a new order would
    complete, and is stopped after any number of its writes, then a later run of
    the reconciler on its marker, once the marker is old enough, returns and
    leaves no marker, and either the order visible with its verified trade, or
    neither order nor trade. *)
Theorem interrupted_import_is_settled now now' clock clock' raw order events mid src created k n d p' r after limit override :
  now <= now' -> bundle_record clock order (PList events) mid src created = Ok r ->
  import_bundle now clock order (PList events) mid src created {| pr_writes := n; pr_disk := d |} = (p', Some (Ok tt)) ->
  let id := r.(pi_order_id) in let stem := storage_key id in
  d.(im_markers) !! stem = None -> get_order d.(im_orders) (PStr id) = Ok None -> events_or_nil d.(im_trades) id = [] ->
  d.(im_old_markers) !! stem = None -> d.(im_old_trades) !! stem = None ->
  86400 <= after -> 1 <= limit <= 1000 -> r.(pi_created_at_ms) <= clock_ms clock' override - after * 1000 ->
  let stopped := (import_bundle now clock order (PList events) mid src created {| pr_writes := k; pr_disk := d |}).1 in
  exists p c, reconcile raw now' clock' [stem] after limit override {| pr_writes := 4; pr_disk := stopped.(pr_disk) |} =
              (p, Some (Ok c)) /\ c.(ce_scanned) = 1 /\ settled stem id now' p.(pr_disk).
Proof.
  intros Hn Hb H id stem Hm Ho Ht Hqm Hqt Ha Hlim Hc stopped.
  destruct (import_Ok_wp now clock order events mid src created d n) as [_ Hq].
  rewrite H in Hq. destruct (Hq _ eq_refl eq_refl) as (r' & ts & os & Hb' & Hi & _).
  rewrite Hb in Hb'. injection Hb' as <-.
  pose proof (import_stages _ _ _ _ _ _ _ _ _ _ _ k Hb Hi) as Hst. fold stopped in Hst.
  destruct (stage_settles raw now now' (clock_ms clock' override) (clock_ms clock' override - after * 1000) clock order events
    mid src created d r ts os stopped.(pr_disk) 0 Hn Hb Hi Hst Hm Ho Ht Hqm Hqt Hc) as (p & o & Hrun & Hs).
  exists p, (add_outcome o no_census). split; [|by split]. unfold reconcile.
  rewrite (proj2 (Z.ltb_ge _ _) Ha), (proj2 (Z.leb_le _ _) (proj1 Hlim)), (proj2 (Z.leb_le _ _) (proj2 Hlim)). cbn [andb negb].
  assert (take (Z.to_nat limit) [stem] = [stem]) as -> by (apply take_ge; simpl; lia).
  cbn [reconcile_loop]. by rewrite (bind_Ok _ _ _ _ _ Hrun).
Qed.
End Properties.

(** ** Examples *)

#[local] Existing Instance toy_ed25519.
#[local] Existing Instance toy_laws.
#[local] Existing Instance iso_grammar.
#[local] Existing Instance no_wide_digits.
#[local] Existing Instance OrderTradeSpec.toy_repr.
#[local] Existing Instance OrderTradeSpec.toy_unicode.

Definition no_imports : imports :=
  {| im_markers := ∅; im_trades := ∅; im_orders := ∅; im_audit := []; im_old_markers := ∅; im_bad_markers := ∅; im_old_trades := ∅ |}.

Definition demo_message : pyval := PStr ("sha256:" ++ str_repeat "a"%char 64).
Definition demo_chain : list pyval := Eval vm_compute in events_or_nil opened_files demo_id.

Definition demo_record : ProvisionalImport := Eval vm_compute in
  match bundle_record 0 demo_order (PList demo_chain) demo_message (PStr (toy_did "b")) (PInt 50) with
  | Ok r => r
  | Err _ => {| pi_order_id := ""; pi_message_id := ""; pi_source_did := ""; pi_chain_head := ""; pi_created_at_ms := 0; pi_kind := "" |}
  end.

Lemma demo_recorded :
  bundle_record 0 demo_order (PList demo_chain) demo_message (PStr (toy_did "b")) (PInt 50) = Ok demo_record.
Proof. vm_compute. reflexivity. Qed.

Definition demo_trades : files := atomic_write_json ∅ (trade_path demo_record.(pi_order_id)) (trade_file demo_record.(pi_order_id) demo_chain).

Lemma demo_importable : importable demo_order demo_chain 100 no_imports demo_record demo_trades demo_orders.
Proof.
  constructor; cbn [im_markers im_trades im_orders no_imports].
  - left. by split.
  - exists demo_chain. unfold Trade.import_verified_events.
    assert (Trade.validate_import 100 ∅ demo_record.(pi_order_id) (PList demo_chain) = Ok demo_chain) as ->; [|done].
    vm_compute. reflexivity.
  - exists demo_order. unfold Order.import_verified, Order.validate_import.
    assert (order_path demo_order.(Order.order_id) = Ok (str_drop 17 demo_record.(pi_order_id) ++ ".json")) as Hp by (vm_compute; reflexivity).
    rewrite Hp. cbn [res_bind].
    match goal with |- context [verify_order ?v] => assert (verify_order v = Ok (true, "ok")) as -> by exact demo_order_verified end.
    cbn [res_bind negb]. rewrite (get_events_read _ _ _ Hp). unfold safe_load_json, file_exists. rewrite lookup_empty.
    cbn [res_bind]. vm_compute. reflexivity.
Qed.

(** The import of [demo_order] on an empty disk, stopped after [k] writes *)
Abbreviation demo_import k :=
  (import_bundle 100 0 demo_order (PList demo_chain) demo_message (PStr (toy_did "b")) (PInt 50)
     {| pr_writes := k; pr_disk := no_imports |}).

Definition demo_done : imports := imported (storage_key demo_record.(pi_order_id)) demo_trades demo_orders no_imports.

Lemma demo_import_done : exists m, demo_import 4 = ({| pr_writes := m; pr_disk := demo_done |}, Some (Ok tt)).
Proof. exact (importable_run _ _ _ _ _ 0 100 0 _ _ _ _ demo_recorded demo_importable). Qed.

Lemma no_imports_traded : traded 0 no_imports.
Proof.
  intros id [e H]. unfold get_order, Order.get_events in H. cbn [im_orders no_imports] in H.
  destruct (order_path (PStr id)) as [path|]; [|discriminate H]. discriminate H.
Qed.

Lemma order_never_before_trade_witness : verify_trade 100 demo_done.(im_trades) demo_record.(pi_order_id) = Ok (true, "").
Proof.
  destruct demo_import_done as [m Hm].
  assert (demo_done = (demo_import 4).1.(pr_disk)) as E by (rewrite Hm; reflexivity).
  apply (order_never_before_trade 0 no_imports 100 demo_done no_imports_traded).
  - rewrite E. apply (hist_import 0 no_imports 0 100); [constructor|discriminate].
  - destruct (ia_order _ _ _ _ _ _ _ demo_importable) as [e He].
    exact (import_makes_visible _ _ _ _ _ He eq_refl).
Defined.

(** The import with the default time at clock 50 is the one with time 50. *)
Lemma demo_default_recorded :
  bundle_record 50 demo_order (PList demo_chain) demo_message (PStr (toy_did "b")) (PInt 0) = Ok demo_record.
Proof. rewrite <- (default_record 0) by done. exact demo_recorded. Qed.

Lemma demo_default_import n :
  import_bundle 100 50 demo_order (PList demo_chain) demo_message (PStr (toy_did "b")) (PInt 0)
    {| pr_writes := n; pr_disk := no_imports |} = demo_import n.
Proof. unfold import_bundle. by rewrite (default_record 0 50). Qed.

Lemma demo_marker : load_marker (storage_key demo_record.(pi_order_id)) (demo_import 2).1.(pr_disk) = Ok (Some demo_record).
Proof. vm_compute. reflexivity. Qed.

Lemma interrupted_import_resumes_witness :
  (exists m, import_bundle 200 900 demo_order (PList demo_chain) demo_message (PStr (toy_did "b")) (PInt 50)
    {| pr_writes := 4; pr_disk := (demo_import 2).1.(pr_disk) |} = ({| pr_writes := m; pr_disk := demo_done |}, Some (Ok tt))) /\
  import_bundle 200 900 demo_order (PList demo_chain) demo_message (PStr (toy_did "b")) (PInt 0)
    {| pr_writes := 4; pr_disk := (demo_import 2).1.(pr_disk) |} =
    ({| pr_writes := 4; pr_disk := (demo_import 2).1.(pr_disk) |}, Some (Err ProvisionalImportRejected)).
Proof.
  destruct demo_import_done as [m Hm].
  assert (Forall wf demo_chain) as Hw.
  { eapply Forall_impl; [apply forallb_Forall; instantiate (1 := wfb); vm_compute; reflexivity|]. intros v. apply wfb_wf. }
  assert (wf (PDict (Order.to_dict demo_order))) as Hwo by (apply wfb_wf; vm_compute; reflexivity).
  assert (100 <= 200) as Hn by lia. split.
  - exact (proj1 (interrupted_import_resumes 100 200 0 900 demo_order demo_chain demo_message (PStr (toy_did "b")) (PInt 50)
      2 4 no_imports _ Hw Hwo Hn Hm) (or_introl eq_refl)).
  - pose proof (eq_trans (demo_default_import 4) Hm) as Hm0.
    refine (eq_ind _ (fun x => import_bundle 200 900 demo_order (PList demo_chain) demo_message (PStr (toy_did "b")) (PInt 0)
              {| pr_writes := 4; pr_disk := x.1.(pr_disk) |} =
              ({| pr_writes := 4; pr_disk := x.1.(pr_disk) |}, Some (Err ProvisionalImportRejected))) _ _ (demo_default_import 2)).
    refine (proj2 (interrupted_import_resumes 100 200 50 900 demo_order demo_chain demo_message (PStr (toy_did "b")) (PInt 0)
      2 4 no_imports _ Hw Hwo Hn Hm0) eq_refl _ demo_record demo_default_recorded _); [discriminate|].
    rewrite demo_default_import. exact demo_marker.
Defined.

Lemma interrupted_import_is_settled_witness :
  exists p c, reconcile (fun s => s) 200 700000000 [storage_key demo_record.(pi_order_id)] 604800 10 0
                {| pr_writes := 4; pr_disk := (demo_import 2).1.(pr_disk) |} = (p, Some (Ok c)) /\
    c.(ce_scanned) = 1 /\ settled (storage_key demo_record.(pi_order_id)) demo_record.(pi_order_id) 200 p.(pr_disk).
Proof.
  destruct demo_import_done as [m Hm].
  assert (get_order ∅ (PStr demo_record.(pi_order_id)) = Ok None) as Ho by (vm_compute; reflexivity).
  assert (events_or_nil ∅ demo_record.(pi_order_id) = []) as He by (vm_compute; reflexivity).
  assert (demo_record.(pi_created_at_ms) <= clock_ms 700000000 0 - 604800 * 1000) as Hc by (vm_compute; discriminate).
  assert (1 <= 10 <= 1000) as Hl by lia. assert (86400 <= 604800) as Ha by lia. assert (100 <= 200) as Hn by lia.
  exact (interrupted_import_is_settled 100 200 0 700000000 (fun s => s) demo_order demo_chain demo_message
    (PStr (toy_did "b")) (PInt 50) 2 4 no_imports _ demo_record 604800 10 0 Hn demo_recorded Hm
    (lookup_empty _) Ho He (lookup_empty _) (lookup_empty _) Ha Hl Hc).
Defined.
